(* ===== verification/_CoqProject ===== *)
-Q . S2P
Prelude.v
GoFloat.v
Json.v
JsonStream.v
Base64.v
State.v
Raft.v
RaftSpec.v
RaftProps.v
RaftConc.v
RaftFile.v
RaftLive.v
Scheduler.v
Leader.v
Controller.v
Runtime.v
NodeAgent.v
Mq.v
Metrics.v
Alerts.v
Autoscale.v
Dns.v
DnsServe.v
Identity.v
Api.v
Lb.v
LbServe.v
Object.v
Secret.v
Retry.v
Volume.v
Cni.v
Llm.v
Inference.v
Http.v
Sdk.v
Flag.v
Cloudctl.v
Platform.v
