(* ===== verification/Prelude.v ===== *)
(** * Mini Cloud Platform: a verification development

    The platform is a small container cloud in Go.  A replicated key-value store
    (internal/primitives/db) holds the desired state; packages above it elect a
    leader, schedule workloads onto nodes, reconcile them, run containers on
    every node, carry messages, record metrics, raise alerts, scale, resolve
    names, balance connections, keep objects, volumes and secrets, authenticate
    users and serve HTTP.  Between the key-value store and those packages stands
    internal/state, a typed store that the code imports but the repository does
    not contain: here it is a parameter, one type class per group of its
    operations, with the laws its clients rely on as a second class.

    ** Conventions

    A Go package is one file.  Its structs are records, its methods functions
    that take the receiver and return the new one.  A result with an error is
    [res]; what may panic is in [go]; an operation of a store that writes returns
    the new store and an optional error.  Clocks, random numbers, the order in
    which a map is iterated, cancellation and the outcome of system calls are
    arguments.  Integers are [Z] with the wrap-around of their width ([u64],
    [i64], [i32], ...) written where the code may overflow; floats are IEEE
    doubles (GoFloat.v).  Strings are byte strings.  Where the code shares memory
    (messages of the broker, backends of the balancer, channels of a watch) the
    model has the heap cells and the pointers.  Concurrency is modelled where a
    property depends on it, by splitting an operation at its critical sections
    and composing the parts in any order.

    ** Files

    - Prelude.v: results, panics, machine integers, time, the functions of
      package strings, sorting, encodings, tactics and hints.
    - GoFloat.v: float64 and the strict weak order sorting by a float needs.
    - Json.v, JsonStream.v, Base64.v: what the code uses of encoding/json
      (parsing, printing, decoding into structs and maps, streams of values) and
      of encoding/base64, as executable functions with their round trips.
    - State.v: the records and interfaces of internal/state; a concrete store to
      run examples on.
    - Raft.v, RaftSpec.v, RaftProps.v, RaftConc.v, RaftFile.v, RaftLive.v:
      internal/primitives/db/raft.go and kv.go.  Raft.v translates the store;
      RaftSpec.v defines the abstract machine it implements, a versioned map
      whose journal can refuse a write, the runs of a node (operations, loop
      iterations with their elections and snapshots, watches, failing files) and
      the simulation between the two; RaftProps.v has the recovery, replication,
      watch and membership theorems; RaftConc.v splits the writes, the elections
      and the snapshots at their critical sections and file operations and
      interleaves any number of clients with the loop; RaftFile.v has the bytes
      of the journal; RaftLive.v the refinement and the restart, down to those
      bytes.
    - Leader.v: internal/util/leader, against an interface of the key-value store
      that the model of Raft.v is shown to implement.
    - Scheduler.v, Controller.v: internal/scheduler, internal/controller.
    - Runtime.v, NodeAgent.v: internal/primitives/runtime with its fake, and
      internal/nodeagent, proved against the interface of a runtime.
    - Mq.v: internal/primitives/mq.
    - Metrics.v, Alerts.v: internal/primitives/obs.
    - Autoscale.v: internal/autoscale.
    - Dns.v, DnsServe.v: internal/dns, the queries and the running server.
    - Lb.v, LbServe.v: internal/lb, the list of backends and the connections.
    - Cni.v: internal/network/cni.
    - Identity.v, Api.v: internal/identity, internal/apis/v1.
    - Object.v, Volume.v: internal/storage.
    - Secret.v: internal/secret and internal/config.
    - Retry.v: internal/util/retry.
    - Llm.v, Inference.v: internal/primitives/llm, internal/inference.
    - Http.v, Sdk.v: the HTTP requests between client and server, and
      pkg/sdk/go.
    - Flag.v, Cloudctl.v: package flag, and the command-line client
      cmd/cloudctl.
    - Platform.v: the other programs under cmd/ and their multiplexers.

    ** What the theorems show

    - Storage: a single-node store refines a versioned map for every sequence of
      operations, loop iterations and file errors, and survives a restart as
      long as no snapshot was taken; with peers a write needs a majority;
      watchers get exactly the matching changes; listings are complete and
      sorted.  The journal's bytes decode to its records, and what each possible
      crash during an append leaves is known.  Objects, volume snapshots and
      environments are what was stored, in the documented precedence.
    - Concurrency: what holds of the store however its clients, its elections and
      its snapshots interleave, and that an operation that is not interrupted is
      the atomic one; connections of
      the balancer are counted right and forwarded byte for byte; every answer of
      the name server is computed from one refresh of its zone.
    - Control plane: plans are sound, complete or the nodes are full, and never
      exceed a node's free CPU or an anti-affinity; a leadership claim is
      exclusive; reconciliation reports a status true to the placements; a node
      agent converges to the store's placements; the autoscaler stays within its
      bounds.
    - Messaging: counters balance and nothing is dropped under any interleaving;
      a subscription drains its queue; a failing message becomes a dead letter
      after its retries.
    - Access: tokens are sound and expire, API keys live for their lifetime, only
      administrators change the store through the API.
    - Network: names round-trip on the wire and well-formed queries are answered;
      a registered name resolves after the next refresh; the balancer picks a
      healthy, least-loaded backend.
    - Observability and inference: histograms count, the log ring returns the
      newest records, alerts fire when held and expressions parse as written;
      the two completion interfaces agree and the front-end does not panic on
      engines that have a vocabulary.
    - End to end: which handler serves which path, the redirects of unclean paths
      included; from an empty platform through its bootstrap, on every outcome of
      it, a login and a project the client creates, with the client, the HTTP
      request, the server's decoder, the token and the store all in the model;
      on which arguments the commands of the command-line client would panic and
      what they would ask, although its [main] parses no flags and so reaches
      none of them.

    Next to these stand lemmas for the places where the code does not do what its
    comments say; the theorems' hypotheses are chosen so that they hold of the
    code as it is.

    ** Bounds and fuel

    Four loops of the code are not bounded by their data.  [Dns.readName] follows
    pointers without a limit: its model takes fuel, [None] is running out of it,
    and [readName_termination] shows that one move more than the packet has bytes
    is enough whenever the reader returns at all, and that it does not exactly
    when its moves come back to an offset they have been at (in DnsServe.v the
    fuel is the room on the goroutine's stack, and running out
    ends the process).  [Mq.deliver_loop] runs as long as its subscription: its
    fuel is the number of rounds, and [deliver_loop_drains] gives the number that
    empties the queue.  [Alerts.index_from] gets the length of its text, which is
    enough as every round advances.  The JSON parser gets twice the length of its
    text, which [Json.parse_fuel] shows to be no restriction, and the decoder of a
    stream the length of the stream ([JsonStream.decode_all_fuel]).  All other
    recursion is structural.  Servers run for ever: their executions are finite
    sequences of events of any length.

    ** What is not modelled

    Packets and system calls (what they return are arguments), the memory model
    (an access to shared memory is one step), the bytes of a snapshot and of a
    leader record, which hold times (interfaces with round-trip laws), hashes and
    bcrypt (an interface with laws), the effect of the ip commands, the letter
    case of text outside ASCII (a parameter, the class [UnicodeTables]), white
    space outside ASCII, percent escapes in the path of a request, the limit of the JSON decoder on nesting, the dashboard's
    files, the examples under examples/, generated code, and internal/state,
    which is not part of the repository. *)

From stdpp Require Export base gmap strings list sorting pretty.
From Stdlib Require Export Ascii ZArith Lia.

#[global] Arguments String.append !_ _ /.

(** ** Errors and results

    A Go function returning [(T, error)] is modelled by [res T]; the error is
    its message.  A function that may also panic returns [go T]. *)

Definition error := string.

Inductive res (A : Type) : Type :=
| Ok (a : A)
| Err (e : error).
Arguments Ok {A} a.
Arguments Err {A} e.

Inductive go (A : Type) : Type :=
| Ret (a : A)
| Panic.
Arguments Ret {A} a.
Arguments Panic {A}.

Definition go_bind {A B : Type} (m : go A) (f : A → go B) : go B :=
  match m with Ret a => f a | Panic => Panic end.

Definition res_bind {A B : Type} (m : res A) (f : A → res B) : res B :=
  match m with Ok a => f a | Err e => Err e end.

Declare Scope go_scope.
Delimit Scope go_scope with go.
Notation "'let!' x := m 'in' k" := (go_bind m (λ x, k))
  (at level 10, x pattern, k at level 200) : go_scope.
Notation "'let?' x := m 'in' k" := (res_bind m (λ x, k))
  (at level 10, x pattern, k at level 200) : go_scope.

Definition is_ok {A : Type} (r : res A) : bool :=
  match r with Ok _ => true | Err _ => false end.

(** ** Machine integers: the wrap-around of Go's fixed-width arithmetic *)

Definition u64 (z : Z) : Z := (z mod 2 ^ 64)%Z.
Definition i64 (z : Z) : Z := ((z + 2 ^ 63) mod 2 ^ 64 - 2 ^ 63)%Z.
Definition i32 (z : Z) : Z := ((z + 2 ^ 31) mod 2 ^ 32 - 2 ^ 31)%Z.
Definition u16 (z : Z) : Z := (z mod 2 ^ 16)%Z.
Definition u8 (z : Z) : Z := (z mod 2 ^ 8)%Z.

Definition in_i64 (z : Z) : Prop := (- 2 ^ 63 ≤ z < 2 ^ 63)%Z.
Definition in_u64 (z : Z) : Prop := (0 ≤ z < 2 ^ 64)%Z.
Definition in_i32 (z : Z) : Prop := (- 2 ^ 31 ≤ z < 2 ^ 31)%Z.

Lemma u64_id z : in_u64 z → u64 z = z.
Proof. unfold in_u64, u64. intros. apply Z.mod_small. lia. Qed.

Lemma i64_id z : in_i64 z → i64 z = z.
Proof. unfold in_i64, i64. intros. rewrite Z.mod_small; lia. Qed.

Lemma i32_id z : in_i32 z → i32 z = z.
Proof. unfold in_i32, i32. intros. rewrite Z.mod_small; lia. Qed.

Lemma u64_range z : in_u64 (u64 z).
Proof. unfold in_u64, u64. apply Z.mod_pos_bound. lia. Qed.

Lemma u64_add_l a b : u64 (u64 a + b) = u64 (a + b).
Proof. unfold u64. by rewrite Z.add_mod_idemp_l. Qed.

Lemma u64_add_r a b : u64 (a + u64 b) = u64 (a + b).
Proof. unfold u64. by rewrite Z.add_mod_idemp_r. Qed.

Lemma i64_range z : in_i64 (i64 z).
Proof.
  unfold in_i64, i64.
  pose proof (Z.mod_pos_bound (z + 2 ^ 63) (2 ^ 64)). lia.
Qed.

Create HintDb go_int.
#[export] Hint Resolve u64_range i64_range : go_int.

(** ** Time

    A [time.Time] is a number of nanoseconds counted from Go's zero time, so
    that [IsZero] is equality with 0; a [time.Duration] is an [int64] number of
    nanoseconds.  [time.Now] is always an argument of the operation that reads
    the clock. *)

Abbreviation Time := Z (only parsing).
Abbreviation Duration := Z (only parsing).
Definition IsZero (t : Time) : bool := (t =? 0)%Z.
(** [t.Sub(u)] saturates at the ends of [int64]. *)
Definition time_Sub (t u : Time) : Duration :=
  Z.max (- 2 ^ 63) (Z.min (2 ^ 63 - 1) (t - u)).
Definition time_Add (t : Time) (d : Duration) : Time := (t + d)%Z.
Definition After (t u : Time) : bool := (u <? t)%Z.
Definition millisecond : Duration := 1000000%Z.
Definition second : Duration := (1000 * millisecond)%Z.

(** ** Go strings: byte strings, with the functions of package strings *)

Definition HasPrefix (s p : string) : bool := String.prefix p s.

Fixpoint HasSuffix (s p : string) : bool :=
  bool_decide (s = p) ||
  match s with EmptyString => false | String _ s => HasSuffix s p end.

Fixpoint Contains (s sub : string) : bool :=
  String.prefix sub s ||
  match s with EmptyString => false | String _ s => Contains s sub end.

(** [strings.SplitN(s, c, 2)]: the text before the first [c], and the text
    after it when [c] occurs (one part otherwise). *)
Fixpoint SplitN2 (c : Ascii.ascii) (s : string) : string * option string :=
  match s with
  | EmptyString => (EmptyString, None)
  | String a s' =>
      if Ascii.eqb a c then (EmptyString, Some s')
      else let '(b, r) := SplitN2 c s' in (String a b, r)
  end.

(** [strings.Split(s, c)]. *)
Fixpoint Split (c : Ascii.ascii) (s : string) : list string :=
  match s with
  | EmptyString => [EmptyString]
  | String a s' =>
      if Ascii.eqb a c then EmptyString :: Split c s'
      else match Split c s' with
           | [] => [String a EmptyString]
           | w :: ws => String a w :: ws
           end
  end.

(** [strings.Join(l, sep)]. *)
Fixpoint Join (l : list string) (sep : string) : string :=
  match l with
  | [] => EmptyString
  | [w] => w
  | w :: ws => w +:+ sep +:+ Join ws sep
  end.

Fixpoint string_In (c : Ascii.ascii) (s : string) : bool :=
  match s with
  | EmptyString => false
  | String a s => Ascii.eqb a c || string_In c s
  end.

(** [s[n:]] for [n <= len s]. *)
Fixpoint string_drop (n : nat) (s : string) : string :=
  match n, s with
  | S n, String _ s => string_drop n s
  | _, _ => s
  end.
(** [s[:n]] for [n <= len s]. *)
Fixpoint string_take (n : nat) (s : string) : string :=
  match n, s with
  | S n, String a s => String a (string_take n s)
  | _, _ => EmptyString
  end.

(** [strings.TrimPrefix]. *)
Definition TrimPrefix (s p : string) : string :=
  if HasPrefix s p then string_drop (String.length p) s else s.

(** The cut set of [strings.TrimSpace] and [strings.Fields] within ASCII. *)
Definition is_space (a : Ascii.ascii) : bool :=
  let n := Ascii.nat_of_ascii a in
  ((9 <=? n) && (n <=? 13))%nat || (n =? 32)%nat.

Fixpoint trim_left (p : Ascii.ascii → bool) (s : string) : string :=
  match s with
  | EmptyString => EmptyString
  | String a s' => if p a then trim_left p s' else s
  end.
Fixpoint trim_right (p : Ascii.ascii → bool) (s : string) : string :=
  match s with
  | EmptyString => EmptyString
  | String a s' =>
      match trim_right p s' with
      | EmptyString => if p a then EmptyString else String a EmptyString
      | r => String a r
      end
  end.
Definition Trim (p : Ascii.ascii → bool) (s : string) : string :=
  trim_right p (trim_left p s).
Definition TrimSpace (s : string) : string := Trim is_space s.

(** [strings.Fields]: the maximal runs of non-space characters. *)
Fixpoint fields_acc (cur : string) (s : string) : list string :=
  match s with
  | EmptyString => match cur with EmptyString => [] | _ => [cur] end
  | String a s' =>
      if is_space a then
        match cur with
        | EmptyString => fields_acc EmptyString s'
        | _ => cur :: fields_acc EmptyString s'
        end
      else fields_acc (cur +:+ String a EmptyString) s'
  end.
Definition Fields (s : string) : list string := fields_acc EmptyString s.

(** [strings.ToLower]: text in ASCII letter by letter, other text through the
    Unicode tables, which are a parameter. *)
Definition lower_ascii (a : Ascii.ascii) : Ascii.ascii :=
  let n := Ascii.nat_of_ascii a in
  if ((65 <=? n) && (n <=? 90))%nat then Ascii.ascii_of_nat (n + 32) else a.
Class UnicodeTables := { lower_text : string → string }.
Fixpoint isASCII (s : string) : bool :=
  match s with
  | EmptyString => true
  | String a s => (Ascii.nat_of_ascii a <? 128)%nat && isASCII s
  end.
Fixpoint lower_string (s : string) : string :=
  match s with
  | EmptyString => EmptyString
  | String a s => String (lower_ascii a) (lower_string s)
  end.
Definition ToLower `{UnicodeTables} (s : string) : string :=
  if isASCII s then lower_string s else lower_text s.

(** ** String lemmas *)

Lemma string_app_nil_r (s : string) : s +:+ "" = s.
Proof. induction s as [|a s IH]; [done|]. simpl. by rewrite IH. Qed.

Lemma string_app_assoc (s t u : string) : s +:+ (t +:+ u) = (s +:+ t) +:+ u.
Proof. induction s as [|a s IH]; [done|]. simpl. by rewrite IH. Qed.

Lemma string_length_app (s t : string) :
  String.length (s +:+ t) = String.length s + String.length t.
Proof. induction s as [|a s IH]; [done|]. simpl. by rewrite IH. Qed.

Lemma HasPrefix_app (p s : string) : HasPrefix (p +:+ s) p = true.
Proof.
  unfold HasPrefix. induction p as [|a p IH]; [by destruct s|].
  cbn. destruct (Ascii.ascii_dec a a); [done|congruence].
Qed.

Lemma HasPrefix_spec (s p : string) :
  HasPrefix s p = true ↔ ∃ t, s = p +:+ t.
Proof.
  unfold HasPrefix. split.
  - revert s. induction p as [|a p IH]; intros s H; [by exists s|].
    destruct s as [|b s]; [done|]. cbn in H.
    destruct (Ascii.ascii_dec a b) as [->|]; [|done].
    destruct (IH _ H) as [t ->]. by exists t.
  - intros [t ->]. apply HasPrefix_app.
Qed.

Lemma HasPrefix_length (s p : string) :
  HasPrefix s p = true → String.length p ≤ String.length s.
Proof. rewrite HasPrefix_spec. intros [t ->]. rewrite string_length_app. lia. Qed.

Lemma string_drop_app (p s : string) : string_drop (String.length p) (p +:+ s) = s.
Proof. induction p as [|a p IH]; [by destruct s|]. apply IH. Qed.

Lemma string_take_drop (n : nat) (s : string) : string_take n s +:+ string_drop n s = s.
Proof.
  revert n. induction s as [|a s IH]; intros [|n]; try done.
  simpl. by rewrite IH.
Qed.

Lemma string_length_take (n : nat) (s : string) :
  n ≤ String.length s → String.length (string_take n s) = n.
Proof.
  revert n. induction s as [|a s IH]; intros [|n] H; cbn in *; try lia.
  rewrite IH; lia.
Qed.

Lemma string_take_app p s : string_take (String.length p) (p +:+ s) = p.
Proof. induction p as [|a p IH]; [by destruct s|]. cbn. by rewrite IH. Qed.

Lemma string_drop_app_add p n s : string_drop (String.length p + n) (p +:+ s) = string_drop n s.
Proof. induction p as [|a p IH]; [done|]. apply IH. Qed.

Lemma string_drop_drop (i j : nat) (s : string) : string_drop i (string_drop j s) = string_drop (j + i) s.
Proof.
  revert s. induction j as [|j IH]; intros s; [by destruct s|]. destruct s as [|a s]; cbn; [by destruct i|].
  apply IH.
Qed.

Lemma string_length_drop n s : String.length (string_drop n s) = String.length s - n.
Proof. revert n. induction s as [|a s IH]; intros [|n]; cbn; by rewrite ?IH. Qed.

Lemma string_drop_all n s : String.length s ≤ n → string_drop n s = "".
Proof.
  revert n. induction s as [|a s IH]; intros [|n] Hn; cbn in *; try done; [lia|]. apply IH. lia.
Qed.

Lemma string_take_length n s : String.length (string_take n s) = n `min` String.length s.
Proof. revert n. induction s as [|a s IH]; intros [|n]; cbn; by rewrite ?IH. Qed.

Lemma TrimPrefix_app (p s : string) : TrimPrefix (p +:+ s) p = s.
Proof. unfold TrimPrefix. by rewrite HasPrefix_app, string_drop_app. Qed.

Lemma string_In_app c s t : string_In c (s +:+ t) = string_In c s || string_In c t.
Proof. induction s as [|a s IH]; [done|]. cbn. by rewrite IH, orb_assoc. Qed.

Lemma SplitN2_some (c : Ascii.ascii) (s b r : string) :
  SplitN2 c s = (b, Some r) ↔ s = b +:+ String c r ∧ string_In c b = false.
Proof.
  revert b r. induction s as [|a s IH]; intros b r; cbn.
  { split; [done|]. intros [H _]. by destruct b. }
  destruct (Ascii.eqb_spec a c) as [->|Hne].
  { split; [by intros [= <- <-]|]. intros [H1 H2].
    destruct b as [|b0 b]; cbn in *; injection H1; intros; subst; [done|].
    by rewrite Ascii.eqb_refl in H2. }
  destruct (SplitN2 c s) as [b' r'] eqn:E. split.
  - intros [= <- ->]. destruct (proj1 (IH b' r) eq_refl) as [-> H]. cbn.
    destruct (Ascii.eqb_spec a c); [done|]. done.
  - intros [H1 H2]. destruct b as [|b0 b]; cbn in *; injection H1; intros; subst; [done|].
    apply orb_false_iff in H2 as [_ H2].
    assert ((b', r') = (b, Some r)) as [= -> ->] by by apply IH. done.
Qed.

Lemma SplitN2_none (c : Ascii.ascii) (s : string) :
  string_In c s = false → SplitN2 c s = (s, None).
Proof.
  induction s as [|a s IH]; [done|]. cbn.
  intros [H1 H2]%orb_false_iff. rewrite H1, IH; done.
Qed.

Lemma Split_ne (c : Ascii.ascii) (s : string) : Split c s ≠ [].
Proof.
  destruct s as [|a s]; [done|]. cbn.
  destruct (Ascii.eqb a c); [done|]. by destruct (Split c s).
Qed.

Lemma Split_no_sep (c : Ascii.ascii) (w : string) :
  string_In c w = false → Split c w = [w].
Proof.
  induction w as [|a w IH]; [done|]. cbn.
  intros [H1 H2]%orb_false_iff. by rewrite H1, IH.
Qed.

Lemma Split_app_sep (c : Ascii.ascii) (w s : string) :
  string_In c w = false → Split c (w +:+ String c s) = w :: Split c s.
Proof.
  induction w as [|a w IH]; cbn.
  { by rewrite Ascii.eqb_refl. }
  intros [H1 H2]%orb_false_iff. by rewrite H1, IH.
Qed.

Lemma Join_cons (w : string) (l : list string) (sep : string) :
  l ≠ [] → Join (w :: l) sep = w +:+ sep +:+ Join l sep.
Proof. by destruct l. Qed.

(** Splitting at the separator undoes joining with it. *)
Lemma Split_Join (c : Ascii.ascii) (l : list string) :
  l ≠ [] → Forall (λ w, string_In c w = false) l →
  Split c (Join l (String c "")) = l.
Proof.
  intros Hne Hl. induction Hl as [|w l Hw Hl IH]; [done|].
  destruct l as [|w' l]; [by apply Split_no_sep|].
  change (Join (w :: w' :: l) (String c "")) with
    (w +:+ String c "" +:+ Join (w' :: l) (String c "")).
  cbn [String.app]. rewrite <- IH at 2 by done. by rewrite <- Split_app_sep.
Qed.

(** ** Byte-wise string order (Go's [<] on strings) *)

Lemma ascii_compare_trans (a b c : Ascii.ascii) :
  Ascii.compare a b = Lt → Ascii.compare b c = Lt → Ascii.compare a c = Lt.
Proof. unfold Ascii.compare. rewrite !N.compare_lt_iff. lia. Qed.

Lemma ascii_compare_refl (a : Ascii.ascii) : Ascii.compare a a = Eq.
Proof. apply N.compare_refl. Qed.

Lemma ascii_compare_eq (a b : Ascii.ascii) : Ascii.compare a b = Eq → a = b.
Proof. apply Ascii.compare_eq_iff. Qed.

Definition string_lt (s t : string) : Prop := String.compare s t = Lt.
Definition string_ltb (s t : string) : bool := String.ltb s t.

Lemma string_compare_refl (s : string) : String.compare s s = Eq.
Proof. induction s as [|a s IH]; [done|]. cbn. by rewrite ascii_compare_refl. Qed.

Lemma string_ltb_lt s t : string_ltb s t = true ↔ string_lt s t.
Proof.
  unfold string_ltb, string_lt, String.ltb. by destruct (String.compare s t).
Qed.

#[export] Instance string_lt_trans : Transitive string_lt.
Proof.
  unfold string_lt. intros s. induction s as [|a s IH]; intros [|b t] [|c u]; try done.
  cbn. destruct (Ascii.compare a b) eqn:E1, (Ascii.compare b c) eqn:E2; try done.
  - apply ascii_compare_eq in E1 as ->, E2 as ->. rewrite ascii_compare_refl. apply IH.
  - apply ascii_compare_eq in E1 as ->. by rewrite E2.
  - apply ascii_compare_eq in E2 as ->. by rewrite E1.
  - by rewrite (ascii_compare_trans _ _ _ E1 E2).
Qed.

#[export] Instance string_lt_irrefl : Irreflexive string_lt.
Proof. intros s. unfold complement, string_lt. by rewrite string_compare_refl. Qed.

Lemma string_lt_total (s t : string) : string_lt s t ∨ s = t ∨ string_lt t s.
Proof.
  unfold string_lt. rewrite (String.compare_antisym t s).
  destruct (String.compare s t) eqn:E; cbn; auto.
  right; left. by apply String.compare_eq_iff.
Qed.

(** ** Sorting

    [sort.Slice] and [sort.SliceStable] with a [less] function.  Insertion of
    the elements from the right keeps equal elements in their order. *)

Section Sorting.
Context {A : Type} (less : A → A → bool).

Fixpoint sort_insert (x : A) (l : list A) : list A :=
    match l with
    | [] => [x]
    | y :: l' => if less y x then y :: sort_insert x l' else x :: l
    end.

Definition sort_slice (l : list A) : list A := foldr sort_insert [] l.

Lemma sort_insert_perm x l : sort_insert x l ≡ₚ x :: l.
Proof.
    induction l as [|y l IH]; cbn; [done|].
    destruct (less y x); [|done]. rewrite IH. apply Permutation_swap.
Qed.

Lemma sort_slice_perm l : sort_slice l ≡ₚ l.
Proof. induction l as [|x l IH]; cbn; [done|]. by rewrite sort_insert_perm, IH. Qed.

(** [less] is the strict part of a total preorder on the elements of [P]. *)
Class StrictWeak (P : A → Prop) : Prop := {
  sw_asym : ∀ x y, P x → P y → less x y = true → less y x = false;
  sw_trans : ∀ x y z, P x → P y → P z →
    less y x = false → less z y = false → less z x = false;
}.

Context (P : A → Prop) `{!StrictWeak P}.

Definition not_after (x y : A) : Prop := less y x = false.

Lemma sort_insert_sorted x l :
  P x → Forall P l →
  StronglySorted not_after l → StronglySorted not_after (sort_insert x l).
Proof using Type*.
  intros Hx HP. induction 1 as [|y l Hl IH Hy]; cbn; [repeat constructor|].
  inversion_clear HP as [|? ? HPy HPl].
  destruct (less y x) eqn:E.
  - constructor; [by apply IH|]. rewrite sort_insert_perm. constructor; [|done].
    by apply sw_asym.
  - repeat constructor; try done.
    rewrite Forall_forall in HPl, Hy |- *. unfold not_after in *.
    intros z Hz. eapply (sw_trans x y z); eauto.
Qed.

Lemma sort_slice_sorted l : Forall P l → StronglySorted not_after (sort_slice l).
Proof using Type*.
  induction 1; cbn; [constructor|]. apply sort_insert_sorted; [done| |done].
  fold (sort_slice l). by rewrite sort_slice_perm.
Qed.

End Sorting.

#[export] Instance string_key_sw {A : Type} (f : A → string) :
  StrictWeak (λ x y, string_ltb (f x) (f y)) (λ _, True).
Proof.
  assert (Hn : ∀ s t, string_ltb s t = false ↔ ¬ string_lt s t).
  { intros s t. rewrite <- string_ltb_lt. by destruct (string_ltb s t). }
  split.
  - intros x y _ _ Hxy%string_ltb_lt. apply Hn. intros Hyx.
    by apply (string_lt_irrefl (f x)), (string_lt_trans _ _ _ Hxy).
  - intros x y z _ _ _ Hyx%Hn Hzy%Hn. apply Hn. intros Hzx.
    destruct (string_lt_total (f x) (f y)) as [H|[H|H]].
    + by apply Hzy, (string_lt_trans _ _ _ Hzx).
    + apply Hzy. by rewrite <- H.
    + done.
Qed.

(** ** Lists *)

Lemma list_filter_app_one {A} (P : A → Prop) `{∀ x, Decision (P x)} (l : list A) x :
  filter P (l ++ [x]) = filter P l ++ (if decide (P x) then [x] else []).
Proof. rewrite filter_app, filter_cons, filter_nil. by case_decide. Qed.

Lemma filter_length_le {A} (P : A → Prop) `{∀ x, Decision (P x)} (l : list A) :
  length (filter P l) ≤ length l.
Proof. induction l as [|x l IH]; [done|]. rewrite filter_cons. case_decide; cbn; lia. Qed.

(** ** Words *)

Fixpoint no_space (s : string) : bool :=
  match s with EmptyString => true | String a s => negb (is_space a) && no_space s end.

Lemma trim_right_no_space s t : no_space s = true → trim_right is_space (s +:+ t) = s +:+ trim_right is_space t.
Proof.
  induction s as [|a s IH]; [done|]. cbn. intros [Ha Hs]%andb_true_iff. rewrite IH by done.
  apply negb_true_iff in Ha. rewrite Ha. by destruct (s +:+ trim_right is_space t).
Qed.

Lemma fields_acc_word cur w t :
  no_space w = true → fields_acc cur (w +:+ t) = fields_acc (cur +:+ w) t.
Proof.
  revert cur. induction w as [|a w IH]; intros cur; cbn; [by rewrite string_app_nil_r|].
  intros [Ha%negb_true_iff Hw]%andb_true_iff. rewrite Ha, IH by done.
  by rewrite <- string_app_assoc.
Qed.

Definition word (w : string) : Prop := w ≠ "" ∧ no_space w = true.

(** Joining words with spaces and taking the fields gives the words back. *)
Lemma Fields_Join ws : Forall word ws → Fields (Join ws " ") = ws.
Proof.
  unfold Fields. induction 1 as [|w ws [Hw Hs] Hws IH]; [done|].
  destruct ws as [|w' ws].
  - cbn [Join]. rewrite <- (string_app_nil_r w), fields_acc_word by done. cbn. rewrite string_app_nil_r.
    by destruct w.
  - change (Join (w :: w' :: ws) " ") with (w +:+ (" " +:+ Join (w' :: ws) " ")).
    rewrite fields_acc_word by done. cbn [String.append fields_acc is_space].
    change (is_space " ") with true. cbn iota. destruct w; [done|]. by f_equal.
Qed.

(** ** Encodings

    [json.Marshal] of a value of a fixed type, and [json.Unmarshal] into a zero
    variable of that type: what is left in the variable, and the error. *)

Class Codec (A : Type) := {
  marshal : A → string;
  unmarshal : string → A * option error;
}.
(** [encodes]: the values JSON carries without loss (text in UTF-8, times of four
    digit years). *)
Class CodecLaws (A : Type) `{Codec A} := {
  encodes : A → Prop;
  unmarshal_marshal : ∀ a, encodes a → unmarshal (marshal a) = (a, None);
}.

(** A codec for every countable type, to run the definitions on examples. *)
Fixpoint pos_to_string (p : positive) : string :=
  match p with
  | xH => EmptyString
  | xO p => String "0" (pos_to_string p)
  | xI p => String "1" (pos_to_string p)
  end.
Fixpoint string_to_pos (s : string) : positive :=
  match s with
  | EmptyString => xH
  | String a s => if Ascii.eqb a "1" then xI (string_to_pos s) else xO (string_to_pos s)
  end.
Lemma string_to_pos_to_string p : string_to_pos (pos_to_string p) = p.
Proof. induction p as [p IH|p IH|]; cbn; by rewrite ?IH. Qed.

Definition countable_codec {A} `{Countable A} (zero : A) : Codec A := {|
  marshal a := pos_to_string (encode a);
  unmarshal s := match decode (string_to_pos s) with
                 | Some a => (a, None) | None => (zero, Some "invalid") end;
|}.
Definition countable_codec_laws {A} `{Countable A} (zero : A) : @CodecLaws A (countable_codec zero).
Proof.
  refine {| encodes _ := True |}. intros a _. cbn. by rewrite string_to_pos_to_string, decode_encode.
Defined.

(** ** Tactics *)

Ltac dmatch :=
  match goal with
  | |- context [match ?x with _ => _ end] => destruct x eqn:?
  | H : context [match ?x with _ => _ end] |- _ => destruct x eqn:?
  end.

Ltac split_bools :=
  repeat match goal with
  | H : _ && _ = true |- _ => apply andb_true_iff in H as [? ?]
  | H : _ || _ = false |- _ => apply orb_false_iff in H as [? ?]
  | H : negb _ = true |- _ => apply negb_true_iff in H
  | H : negb _ = false |- _ => apply negb_false_iff in H
  | H : bool_decide _ = true |- _ => apply bool_decide_eq_true in H
  | H : bool_decide _ = false |- _ => apply bool_decide_eq_false in H
  | H : (_ <? _)%Z = true |- _ => apply Z.ltb_lt in H
  | H : (_ <? _)%Z = false |- _ => apply Z.ltb_ge in H
  | H : (_ <=? _)%Z = true |- _ => apply Z.leb_le in H
  | H : (_ <=? _)%Z = false |- _ => apply Z.leb_gt in H
  | H : (_ =? _)%Z = true |- _ => apply Z.eqb_eq in H
  | H : (_ =? _)%Z = false |- _ => apply Z.eqb_neq in H
  end.
