(* ===== verification/GoFloat.v ===== *)
(** * Go's float64

    IEEE 754 binary64 as the executable specification of the standard library
    (SpecFloat): conversion from integers, addition, division and comparison,
    all rounding to nearest even as the Go runtime does. *)

From S2P Require Import Prelude.
From Stdlib Require Export SpecFloat.

Abbreviation float64 := spec_float.

Definition f64_zero : float64 := S754_zero false.
Definition f64_of_Z (z : Z) : float64 := binary_normalize 53 1024 z 0 false.
Definition f64_add (x y : float64) : float64 := SFadd 53 1024 x y.
Definition f64_div (x y : float64) : float64 := SFdiv 53 1024 x y.
Definition f64_lt (x y : float64) : bool := SFltb x y.
Definition f64_le (x y : float64) : bool := SFleb x y.
Definition f64_eq (x y : float64) : bool := SFeqb x y.
Definition f64_gt (x y : float64) : bool := SFltb y x.
Definition is_nan (x : float64) : bool := match x with S754_nan => true | _ => false end.

(** The position of a number in the order of the floats, compared
    lexicographically. *)
Definition f64_rank (x : float64) : Z * Z * Z :=
  match x with
  | S754_zero _ => (0, 0, 0)
  | S754_infinity true => (-2, 0, 0)
  | S754_infinity false => (2, 0, 0)
  | S754_nan => (0, 0, 0)
  | S754_finite true m e => (-1, - e, - Z.pos m)
  | S754_finite false m e => (1, e, Z.pos m)
  end%Z.

Definition rank_lt (a b : Z * Z * Z) : Prop :=
  let '(a1, a2, a3) := a in let '(b1, b2, b3) := b in
  (a1 < b1 ∨ a1 = b1 ∧ (a2 < b2 ∨ a2 = b2 ∧ a3 < b3))%Z.

#[export] Instance rank_lt_dec a b : Decision (rank_lt a b).
Proof. destruct a as [[??]?], b as [[??]?]. unfold rank_lt. apply _. Defined.

Lemma f64_lt_rank x y :
  is_nan x = false → is_nan y = false →
  f64_lt x y = true ↔ rank_lt (f64_rank x) (f64_rank y).
Proof.
  intros Hx Hy. unfold f64_lt, SFltb, SFcompare, rank_lt.
  destruct x as [sx|[]| |[] mx ex], y as [sy|[]| |[] my ey]; try done; cbn; try (split; [done|lia]);
    try (split; [lia|done]).
  - destruct (Z.compare_spec ex ey) as [->|H|H]; cbn.
    + change (Pos.compare_cont Eq mx my) with (Pos.compare mx my).
      destruct (Pos.compare_spec mx my); cbn; split; intros; try done; lia.
    + split; [done|lia].
    + split; [lia|done].
  - destruct (Z.compare_spec ex ey) as [->|H|H]; cbn.
    + change (Pos.compare_cont Eq mx my) with (Pos.compare mx my).
      destruct (Pos.compare_spec mx my); cbn; split; intros; try done; lia.
    + split; [lia|done].
    + split; [done|lia].
Qed.

Lemma rank_lt_trans a b c : rank_lt a b → rank_lt b c → rank_lt a c.
Proof. destruct a as [[??]?], b as [[??]?], c as [[??]?]. cbn. lia. Qed.

Lemma rank_lt_total a b : ¬ rank_lt a b → ¬ rank_lt b a → a = b.
Proof.
  destruct a as [[a1 a2] a3], b as [[b1 b2] b3]. cbn. intros.
  assert (a1 = b1) as -> by lia. assert (a2 = b2) as -> by lia. by assert (a3 = b3) as -> by lia.
Qed.

(** Sorting by decreasing float key, NaN excluded. *)
Lemma f64_gt_sw {A : Type} (f : A → float64) :
  StrictWeak (λ x y, f64_gt (f x) (f y)) (λ x, is_nan (f x) = false).
Proof.
  assert (Hn : ∀ x y, is_nan x = false → is_nan y = false →
    f64_lt x y = false ↔ ¬ rank_lt (f64_rank x) (f64_rank y)).
  { intros x y Hx Hy. rewrite <- (f64_lt_rank x y) by done. by destruct (f64_lt x y). }
  unfold f64_gt. change SFltb with f64_lt. split.
  - intros x y Hx Hy Hxy. apply f64_lt_rank in Hxy; [|done..]. apply Hn; [done..|]. intros Hyx.
    pose proof (rank_lt_trans _ _ _ Hxy Hyx) as H.
    destruct (f64_rank (f y)) as [[??]?]. cbn in H. lia.
  - intros x y z Hx Hy Hz Hxy%Hn Hyz%Hn; [|done..]. apply Hn; [done..|]. intros Hxz.
    destruct (rank_lt_dec (f64_rank (f z)) (f64_rank (f y))) as [H|H].
    + by apply Hxy, (rank_lt_trans _ _ _ Hxz).
    + apply Hxy. by rewrite (rank_lt_total _ _ Hyz H).
Qed.
