(* ===== verification/Json.v ===== *)
(** * Package encoding/json, as far as the program uses it

    The encoder and the decoder of Go's standard library on byte strings: UTF-8,
    the quoting of strings (with the HTML escapes of [json.Marshal]), numbers by
    their literals, arrays and objects, compact and indented; and the decoding
    of a value into a [map[string]string], and into the fields of a struct by
    their json tags.  A [json] value is what a text denotes: an object keeps its
    members in their order, and repeated ones.  The decoder's limit of ten
    thousand nested values is not modelled.

    [print_parse] is the round trip, for the compact and the indented form;
    [parse_fuel] shows that the fuel of the parser is no restriction. *)

From S2P Require Import Prelude.

Inductive json : Type :=
| JNull
| JBool (b : bool)
| JNum (lit : string)
| JStr (s : string)
| JArr (l : list json)
| JObj (ms : list (string * json)).

(** Induction with the elements and the members. *)
Section Induction.
Context (P : json → Prop).
Context (Hnull : P JNull) (Hbool : ∀ b, P (JBool b)) (Hnum : ∀ lit, P (JNum lit)) (Hstr : ∀ s, P (JStr s)).
Context (Harr : ∀ l, Forall P l → P (JArr l)) (Hobj : ∀ ms, Forall (λ m, P m.2) ms → P (JObj ms)).

Fixpoint json_ind' (v : json) : P v :=
  match v with
  | JNull => Hnull
  | JBool b => Hbool b
  | JNum lit => Hnum lit
  | JStr s => Hstr s
  | JArr l => Harr l ((fix go l := match l return Forall P l with
                                  | [] => Forall_nil_2 _
                                  | x :: l => Forall_cons_2 _ _ _ (json_ind' x) (go l)
                                  end) l)
  | JObj ms => Hobj ms ((fix go ms := match ms return Forall (λ m, P m.2) ms with
                                     | [] => Forall_nil_2 _
                                     | m :: ms => Forall_cons_2 _ _ _ (json_ind' m.2) (go ms)
                                     end) ms)
  end.
End Induction.

(** ** Characters *)

Definition code (a : ascii) : N := N_of_ascii a.
Definition chr (n : N) : string := String (ascii_of_N n) "".
Definition dquote : ascii := "034".
Definition backslash : ascii := "092".
Definition between (lo hi : N) (a : ascii) : bool := (lo <=? code a)%N && (code a <=? hi)%N.

(** ** UTF-8 *)

Definition single (a : ascii) : bool := (code a <? 128)%N.
Definition cont (a : ascii) : bool := between 128 191 a.
Definition two (a b : ascii) : bool := between 194 223 a && cont b.
Definition three (a b c : ascii) : bool :=
  cont c &&
  (if (code a =? 224)%N then between 160 191 b
   else if (code a =? 237)%N then between 128 159 b
   else between 225 239 a && cont b).
Definition four (a b c d : ascii) : bool :=
  cont c && cont d &&
  (if (code a =? 240)%N then between 144 191 b
   else if (code a =? 244)%N then between 128 143 b
   else between 241 243 a && cont b).

(** The multi-byte character a string starts with, and the rest. *)
Definition utf8_head (s : string) : option (string * string) :=
  match s with
  | String a (String b s2) =>
      if two a b then Some (String a (String b ""), s2)
      else match s2 with
           | String c s3 =>
               if three a b c then Some (String a (String b (String c "")), s3)
               else match s3 with
                    | String d s4 =>
                        if four a b c d then Some (String a (String b (String c (String d ""))), s4) else None
                    | _ => None
                    end
           | _ => None
           end
  | _ => None
  end.

(** Valid UTF-8. *)
Inductive utf8 : string → Prop :=
| utf8_nil : utf8 ""
| utf8_single a s : single a = true → utf8 s → utf8 (String a s)
| utf8_multi s p r : utf8_head s = Some (p, r) → utf8 r → utf8 s.

Fixpoint all_single (s : string) : bool :=
  match s with "" => true | String a s => single a && all_single s end.

(** U+FFFD. *)
Definition replacement : string := chr 239 +:+ chr 191 +:+ chr 189.

(** [utf8.AppendRune]: a surrogate half becomes U+FFFD. *)
Definition encode_rune (r : N) : string :=
  (if r <? 128 then chr r
   else if r <? 2048 then chr (192 + r / 64) +:+ chr (128 + r mod 64)
   else if (55296 <=? r) && (r <=? 57343) then replacement
   else if r <? 65536 then chr (224 + r / 4096) +:+ chr (128 + r / 64 mod 64) +:+ chr (128 + r mod 64)
   else chr (240 + r / 262144) +:+ chr (128 + r / 4096 mod 64) +:+ chr (128 + r / 64 mod 64) +:+ chr (128 + r mod 64))%N.

(** ** Quoted strings *)

Definition hex_char (n : N) : ascii := ascii_of_N (if n <? 10 then 48 + n else 87 + n)%N.
Definition hex_val (a : ascii) : option N :=
  if between 48 57 a then Some (code a - 48)%N
  else if between 97 102 a then Some (code a - 87)%N
  else if between 65 70 a then Some (code a - 55)%N
  else None.

(** A backslash, and the character after it. *)
Definition esc (a : ascii) : string := String backslash (String a "").
Definition esc_u (a b c d : ascii) : string := esc "u" +:+ String a (String b (String c (String d ""))).

(** What the encoder writes for an ASCII character. *)
Definition escape (a : ascii) : string :=
  if Ascii.eqb a dquote || Ascii.eqb a backslash then esc a
  else if (code a =? 8)%N then esc "b"
  else if (code a =? 12)%N then esc "f"
  else if (code a =? 10)%N then esc "n"
  else if (code a =? 13)%N then esc "r"
  else if (code a =? 9)%N then esc "t"
  else if (code a <? 32)%N || Ascii.eqb a "<" || Ascii.eqb a ">" || Ascii.eqb a "&"
  then esc_u "0" "0" (hex_char (code a / 16)) (hex_char (code a mod 16))
  else String a "".

(** U+2028 and U+2029, the separators that JavaScript does not allow in a
    string. *)
Definition separator (p : string) : option ascii :=
  if bool_decide (p = chr 226 +:+ chr 128 +:+ chr 168) then Some "8"%char
  else if bool_decide (p = chr 226 +:+ chr 128 +:+ chr 169) then Some "9"%char
  else None.

Fixpoint quote_body (n : nat) (s : string) : string :=
  match n, s with
  | S n, String a s' =>
      if single a then escape a +:+ quote_body n s'
      else match utf8_head s with
           | None => esc_u "f" "f" "f" "d" +:+ quote_body n s'
           | Some (p, r) =>
               match separator p with Some d => esc_u "2" "0" "2" d | None => p end +:+ quote_body n r
           end
  | _, _ => ""
  end.

Definition quoted (s : string) : string := String dquote (quote_body (String.length s) s +:+ String dquote "").

Definition hex4 (s : string) : option (N * string) :=
  match s with
  | String a (String b (String c (String d s))) =>
      match hex_val a, hex_val b, hex_val c, hex_val d with
      | Some a, Some b, Some c, Some d => Some (((a * 16 + b) * 16 + c) * 16 + d, s)%N
      | _, _, _, _ => None
      end
  | _ => None
  end.

(** The escape after a backslash: what it stands for, and the rest.  A high
    surrogate pairs with an escaped low one that follows. *)
Definition unescape (s : string) : option (string * string) :=
  match s with
  | "" => None
  | String a s =>
      if Ascii.eqb a dquote || Ascii.eqb a backslash || Ascii.eqb a "/" then Some (String a "", s)
      else if Ascii.eqb a "b" then Some (chr 8, s)
      else if Ascii.eqb a "f" then Some (chr 12, s)
      else if Ascii.eqb a "n" then Some (chr 10, s)
      else if Ascii.eqb a "r" then Some (chr 13, s)
      else if Ascii.eqb a "t" then Some (chr 9, s)
      else if Ascii.eqb a "u" then
        match hex4 s with
        | None => None
        | Some (r, s) =>
            let alone := Some (encode_rune r, s) in
            if ((55296 <=? r) && (r <? 56320))%N then
              match s with
              | String a (String b s') =>
                  if Ascii.eqb a backslash && Ascii.eqb b "u" then
                    match hex4 s' with
                    | Some (r2, s'') =>
                        if ((56320 <=? r2) && (r2 <? 57344))%N
                        then Some (encode_rune (65536 + (r - 55296) * 1024 + (r2 - 56320)), s'')%N
                        else alone
                    | None => alone
                    end
                  else alone
              | _ => alone
              end
            else alone
        end
      else None
  end.

Definition prepend (p : string) (x : option (string * string)) : option (string * string) :=
  match x with Some (s, r) => Some (p +:+ s, r) | None => None end.

(** The string up to its closing quote, and the rest. *)
Fixpoint unquote (n : nat) (s : string) : option (string * string) :=
  match n, s with
  | S n, String a s' =>
      if Ascii.eqb a dquote then Some ("", s')
      else if Ascii.eqb a backslash then
        match unescape s' with Some (p, r) => prepend p (unquote n r) | None => None end
      else if (code a <? 32)%N then None
      else if single a then prepend (String a "") (unquote n s')
      else match utf8_head s with
           | Some (p, r) => prepend p (unquote n r)
           | None => prepend replacement (unquote n s')
           end
  | _, _ => None
  end.

(** ** Numbers *)

Definition is_digit (a : ascii) : bool := between 48 57 a.
Fixpoint span_digits (s : string) : string * string :=
  match s with
  | String a s' => if is_digit a then let '(d, r) := span_digits s' in (String a d, r) else ("", s)
  | "" => ("", "")
  end.

Definition int_part (s : string) : option (string * string) :=
  match s with
  | String a s' =>
      if Ascii.eqb a "0" then Some ("0", s')
      else if is_digit a then Some (span_digits s) else None
  | "" => None
  end.
(** A run of digits that must not be empty. *)
Definition digits1 (s : string) : option (string * string) :=
  let '(d, r) := span_digits s in if bool_decide (d = "") then None else Some (d, r).
Definition frac_part (s : string) : option (string * string) :=
  match s with
  | String a s' => if Ascii.eqb a "." then prepend "." (digits1 s') else Some ("", s)
  | "" => Some ("", "")
  end.
Definition exp_part (s : string) : option (string * string) :=
  match s with
  | String a s' =>
      if Ascii.eqb a "e" || Ascii.eqb a "E" then
        match s' with
        | String b s'' =>
            if Ascii.eqb b "+" || Ascii.eqb b "-" then prepend (String a (String b "")) (digits1 s'')
            else prepend (String a "") (digits1 s')
        | "" => None
        end
      else Some ("", s)
  | "" => Some ("", "")
  end.
Definition unsigned_number (s : string) : option (string * string) :=
  match int_part s with
  | None => None
  | Some (i, s) =>
      match frac_part s with
      | None => None
      | Some (f, s) => match exp_part s with Some (e, s) => Some (i +:+ f +:+ e, s) | None => None end
      end
  end.
(** The number literal a string starts with, and the rest. *)
Definition number (s : string) : option (string * string) :=
  match s with
  | String a s' => if Ascii.eqb a "-" then prepend "-" (unsigned_number s') else unsigned_number s
  | "" => None
  end.

(** ** Parsing *)

Definition white (a : ascii) : bool :=
  (code a =? 32)%N || (code a =? 9)%N || (code a =? 10)%N || (code a =? 13)%N.
Definition skip_white (s : string) : string := trim_left white s.

Definition literal (w : string) (v : json) (s : string) : option (json * string) :=
  if HasPrefix s w then Some (v, string_drop (String.length w) s) else None.

(** A value, the members of an object after its brace or a comma, the elements
    of an array. *)
Fixpoint parse_value (n : nat) (s : string) : option (json * string) :=
  match n with
  | O => None
  | S n =>
      let s := skip_white s in
      match s with
      | "" => None
      | String a s' =>
          if Ascii.eqb a "{" then
            match skip_white s' with
            | String b r =>
                if Ascii.eqb b "}" then Some (JObj [], r)
                else match parse_members n s' with Some (ms, r) => Some (JObj ms, r) | None => None end
            | "" => None
            end
          else if Ascii.eqb a "[" then
            match skip_white s' with
            | String b r =>
                if Ascii.eqb b "]" then Some (JArr [], r)
                else match parse_elements n s' with Some (l, r) => Some (JArr l, r) | None => None end
            | "" => None
            end
          else if Ascii.eqb a dquote then
            match unquote (String.length s') s' with Some (t, r) => Some (JStr t, r) | None => None end
          else if Ascii.eqb a "t" then literal "true" (JBool true) s
          else if Ascii.eqb a "f" then literal "false" (JBool false) s
          else if Ascii.eqb a "n" then literal "null" JNull s
          else match number s with Some (lit, r) => Some (JNum lit, r) | None => None end
      end
  end
with parse_members (n : nat) (s : string) : option (list (string * json) * string) :=
  match n with
  | O => None
  | S n =>
      match skip_white s with
      | String a s' =>
          if Ascii.eqb a dquote then
            match unquote (String.length s') s' with
            | None => None
            | Some (k, r) =>
                match skip_white r with
                | String b r =>
                    if Ascii.eqb b ":" then
                      match parse_value n r with
                      | None => None
                      | Some (v, r) =>
                          match skip_white r with
                          | String c r =>
                              if Ascii.eqb c "}" then Some ([(k, v)], r)
                              else if Ascii.eqb c "," then
                                match parse_members n r with Some (ms, r) => Some ((k, v) :: ms, r) | None => None end
                              else None
                          | "" => None
                          end
                      end
                    else None
                | "" => None
                end
            end
          else None
      | "" => None
      end
  end
with parse_elements (n : nat) (s : string) : option (list json * string) :=
  match n with
  | O => None
  | S n =>
      match parse_value n s with
      | None => None
      | Some (v, r) =>
          match skip_white r with
          | String c r =>
              if Ascii.eqb c "]" then Some ([v], r)
              else if Ascii.eqb c "," then
                match parse_elements n r with Some (l, r) => Some (v :: l, r) | None => None end
              else None
          | "" => None
          end
      end
  end.

(** Twice the length is fuel enough: see [parse_fuel]. *)
Definition parse (s : string) : option (json * string) := parse_value (2 * String.length s + 2) s.

(** [json.Unmarshal] checks that nothing but white space follows;
    [json.Decoder.Decode] reads one value of the stream. *)
Definition Unmarshal (s : string) : option json :=
  match parse s with Some (v, r) => if bool_decide (skip_white r = "") then Some v else None | None => None end.
Definition Decode (s : string) : option json := fst <$> parse s.

(** ** Printing *)

(** [ind] is the depth of the indentation, [None] for the compact form. *)
Fixpoint spaces (n : nat) : string := match n with O => "" | S n => "  " +:+ spaces n end.
Definition newline (ind : option nat) : string :=
  match ind with Some d => String "010" (spaces d) | None => "" end.
Definition colon (ind : option nat) : string := match ind with Some _ => ": " | None => ":" end.

Fixpoint print (ind : option nat) (v : json) : string :=
  match v with
  | JNull => "null"
  | JBool true => "true"
  | JBool false => "false"
  | JNum lit => lit
  | JStr s => quoted s
  | JArr [] => "[]"
  | JArr l =>
      "[" +:+ newline (S <$> ind) +:+
      Join ((print (S <$> ind)) <$> l) ("," +:+ newline (S <$> ind)) +:+ newline ind +:+ "]"
  | JObj [] => "{}"
  | JObj ms =>
      "{" +:+ newline (S <$> ind) +:+
      Join ((λ m, quoted m.1 +:+ colon ind +:+ print (S <$> ind) m.2) <$> ms) ("," +:+ newline (S <$> ind)) +:+
      newline ind +:+ "}"
  end.

Definition Marshal (v : json) : string := print None v.
(** [json.MarshalIndent(v, _, two spaces)] with an empty prefix. *)
Definition MarshalIndent (v : json) : string := print (Some 0) v.

(** ** Lemmas: strings *)

Ltac ranges := unfold cont, between, single in *;
  repeat match goal with
  | H : context [if ?b then _ else _] |- _ => destruct b eqn:?
  end; split_bools;
  repeat match goal with
  | H : (_ <=? _)%N = true |- _ => apply N.leb_le in H
  | H : (_ <? _)%N = true |- _ => apply N.ltb_lt in H
  | H : (_ <? _)%N = false |- _ => apply N.ltb_ge in H
  | H : (_ =? _)%N = true |- _ => apply N.eqb_eq in H
  end; try lia.

Lemma prepend_Some p x s r : prepend p x = Some (s, r) ↔ ∃ t, x = Some (t, r) ∧ s = p +:+ t.
Proof.
  destruct x as [[t u]|]; cbn; [|split; [done|by intros (? & ? & _)]].
  split; [intros [= <- <-]; eauto|]. by intros (? & [= -> ->] & ->).
Qed.

Lemma utf8_head_spec s p r :
  utf8_head s = Some (p, r) →
  s = p +:+ r ∧ (∀ x, utf8_head (p +:+ x) = Some (p, x)) ∧ ∃ a p', p = String a p' ∧ single a = false.
Proof.
  assert (Hs : ∀ a, (194 <= code a)%N → single a = false) by (intros a Ha; unfold single; apply N.ltb_ge; lia).
  unfold utf8_head. destruct s as [|a [|b s2]]; try done.
  destruct (two a b) eqn:E2.
  { intros [= <- <-]. split_and!; [done|intros x; cbn; by rewrite E2|]. do 2 eexists. split; [done|].
    apply Hs. unfold two in E2. ranges. }
  destruct s2 as [|c s3]; [done|]. destruct (three a b c) eqn:E3.
  { intros [= <- <-]. split_and!; [done|intros x; cbn; by rewrite E2, E3|]. do 2 eexists. split; [done|].
    apply Hs. unfold three in E3. ranges. }
  destruct s3 as [|d s4]; [done|]. destruct (four a b c d) eqn:E4; [|done].
  intros [= <- <-]. split_and!; [done|intros x; cbn; by rewrite E2, E3, E4|]. do 2 eexists. split; [done|].
  apply Hs. unfold four in E4. ranges.
Qed.

Lemma all_single_utf8 s : all_single s = true → utf8 s.
Proof. induction s as [|a s IH]; cbn; [constructor|]. intros [??]%andb_true_iff. by constructor; [|apply IH]. Qed.

Lemma utf8_app s t : utf8 s → utf8 t → utf8 (s +:+ t).
Proof.
  intros Hs Ht. induction Hs as [|a s Ha Hs IH|s p r Hh Hs IH]; [done|by constructor|].
  destruct (utf8_head_spec _ _ _ Hh) as (-> & Hx & _). rewrite <- string_app_assoc. by eapply utf8_multi.
Qed.

Lemma separator_spec p d : separator p = Some d →
  ∀ m r, unquote (S m) (esc_u "2" "0" "2" d +:+ r) = prepend p (unquote m r).
Proof. unfold separator. repeat case_bool_decide; intros [= <-] m r; by subst. Qed.

Lemma unquote_escape a m r : single a = true →
  unquote (S m) (escape a +:+ r) = prepend (String a "") (unquote m r).
Proof. destruct a as [[] [] [] [] [] [] [] []]; intros [=]; reflexivity. Qed.

Lemma unquote_multi s p r m : utf8_head s = Some (p, r) → unquote (S m) s = prepend p (unquote m r).
Proof.
  intros Hh. destruct (utf8_head_spec _ _ _ Hh) as (-> & Hx & a & p' & -> & Ha). cbn [String.append] in *.
  unfold single in Ha. apply N.ltb_ge in Ha. cbn -[utf8_head]. rewrite Hh.
  destruct (Ascii.eqb_spec a dquote) as [->|]; [done|]. destruct (Ascii.eqb_spec a backslash) as [->|]; [done|].
  destruct (N.ltb_spec (code a) 32); [lia|]. unfold single. destruct (N.ltb_spec (code a) 128); [lia|done].
Qed.

Lemma escape_nonempty a : 1 ≤ String.length (escape a).
Proof. unfold escape. repeat case_match; cbn; lia. Qed.

(** Quoting and unquoting, for valid UTF-8. *)
Lemma unquote_quote s n m rest :
  utf8 s → String.length s ≤ n → String.length (quote_body n s) < m →
  unquote m (quote_body n s +:+ String dquote rest) = Some (s, rest).
Proof.
  intros Hs. revert n m. induction Hs as [|a s Ha Hs IH|s p r Hh Hs IH]; intros n m Hn Hm.
  - destruct m as [|m]; [lia|]. by destruct n.
  - destruct n as [|n]; cbn in Hn; [lia|]. cbn in Hm |- *. rewrite Ha in Hm |- *.
    rewrite string_length_app in Hm. pose proof (escape_nonempty a). destruct m as [|m]; [lia|].
    rewrite <- string_app_assoc, unquote_escape, IH by (done || lia). done.
  - destruct (utf8_head_spec _ _ _ Hh) as (-> & Hx & a & p' & -> & Ha). cbn [String.append] in *.
    destruct n as [|n]; cbn in Hn; [lia|]. cbn -[utf8_head] in Hm |- *. rewrite Ha, Hh in Hm |- *.
    rewrite string_length_app in Hn, Hm. destruct m as [|m]; [lia|].
    rewrite <- string_app_assoc. destruct (separator (String a p')) as [d|] eqn:Hd.
    + cbn [String.length esc_u esc String.append] in Hm. rewrite (separator_spec _ _ Hd), IH by (done || lia). done.
    + cbn [String.length] in Hm. rewrite (unquote_multi _ (String a p') (quote_body n r +:+ String dquote rest)) by apply Hx.
      rewrite IH by (done || lia). done.
Qed.

Lemma unquote_quoted s m rest :
  utf8 s → String.length (quoted s) ≤ S m →
  unquote m (quote_body (String.length s) s +:+ String dquote rest) = Some (s, rest).
Proof. unfold quoted. cbn. rewrite string_length_app. cbn. intros Hs Hm. apply unquote_quote; [done|lia..]. Qed.

(** ** Lemmas: numbers *)

(** What may follow a number literal without continuing it. *)
Definition stops (s : string) : bool :=
  match s with
  | "" => true
  | String a _ => negb (is_digit a || Ascii.eqb a "." || Ascii.eqb a "e" || Ascii.eqb a "E")
  end.

Lemma stops_cons a s : stops (String a s) = true →
  is_digit a = false ∧ Ascii.eqb a "." = false ∧ Ascii.eqb a "e" = false ∧ Ascii.eqb a "E" = false.
Proof. cbn. intros. by split_bools. Qed.

(** A scanner that is not disturbed by what follows. *)
Definition local (f : string → option (string * string)) : Prop :=
  ∀ s x r rest, stops rest = true → f s = Some (x, r) → f (s +:+ rest) = Some (x, r +:+ rest).

Lemma span_digits_app s rest d r :
  stops rest = true → span_digits s = (d, r) → span_digits (s +:+ rest) = (d, r +:+ rest).
Proof.
  intros Hr. revert d r. induction s as [|a s IH]; intros d r; cbn.
  - intros [= <- <-]. destruct rest as [|b rest]; [done|]. apply stops_cons in Hr as (Hd & _). cbn. by rewrite Hd.
  - destruct (is_digit a); [|by intros [= <- <-]]. destruct (span_digits s) as [d' r'].
    intros [= <- <-]. by rewrite (IH d' r').
Qed.

Lemma digits1_local : local digits1.
Proof.
  intros s x r rest Hr. unfold digits1. destruct (span_digits s) as [d r'] eqn:Hd.
  rewrite (span_digits_app _ _ _ _ Hr Hd). case_bool_decide; [done|]. by intros [= -> ->].
Qed.

Lemma prepend_local f p s x r rest :
  local f → stops rest = true → prepend p (f s) = Some (x, r) → prepend p (f (s +:+ rest)) = Some (x, r +:+ rest).
Proof. intros Hf Hr (t & Ht & ->)%prepend_Some. by rewrite (Hf _ _ _ _ Hr Ht). Qed.

Lemma int_part_local : local int_part.
Proof.
  intros [|a s] x r rest Hr; cbn [int_part]; [done|]. cbn [String.append int_part].
  destruct (Ascii.eqb a "0"); [by intros [= <- <-]|]. destruct (is_digit a); [|done].
  intros [= Hs]. f_equal. exact (span_digits_app (String a s) rest _ _ Hr Hs).
Qed.

Lemma frac_part_local : local frac_part.
Proof.
  intros [|a s] x r rest Hr; cbn [frac_part].
  - intros [= <- <-]. destruct rest as [|b rest]; [done|]. apply stops_cons in Hr as (_ & Hd & _). cbn [frac_part String.append]. by rewrite Hd.
  - cbn [String.append frac_part]. destruct (Ascii.eqb a "."); [|by intros [= <- <-]].
    by apply prepend_local; [apply digits1_local|].
Qed.

Lemma exp_part_local : local exp_part.
Proof.
  intros [|a s] x r rest Hr; cbn [exp_part].
  - intros [= <- <-]. destruct rest as [|b rest]; [done|]. apply stops_cons in Hr as (_ & _ & H1 & H2). cbn [exp_part String.append]. by rewrite H1, H2.
  - cbn [String.append exp_part]. destruct (_ || _); [|by intros [= <- <-]].
    destruct s as [|b s]; [done|]. cbn [String.append].
    destruct (Ascii.eqb b "+" || Ascii.eqb b "-"); [by apply prepend_local; [apply digits1_local|]|].
    by apply (prepend_local digits1 _ (String b s)); [apply digits1_local|].
Qed.

Lemma unsigned_number_local : local unsigned_number.
Proof.
  intros s x r rest Hr. unfold unsigned_number.
  destruct (int_part s) as [[i s1]|] eqn:H1; [|done]. rewrite (int_part_local _ _ _ _ Hr H1).
  destruct (frac_part s1) as [[f s2]|] eqn:H2; [|done]. rewrite (frac_part_local _ _ _ _ Hr H2).
  destruct (exp_part s2) as [[e s3]|] eqn:H3; [|done]. rewrite (exp_part_local _ _ _ _ Hr H3).
  by intros [= -> ->].
Qed.

Lemma number_local : local number.
Proof.
  intros [|a s] x r rest Hr; cbn [number]; [done|]. cbn [String.append number].
  destruct (Ascii.eqb a "-"); [by apply prepend_local; [apply unsigned_number_local|]|].
  exact (unsigned_number_local (String a s) x r rest Hr).
Qed.

(** A literal, the whole of it. *)
Definition is_number (lit : string) : Prop := number lit = Some (lit, "").
#[export] Instance is_number_dec lit : Decision (is_number lit).
Proof. unfold is_number. apply _. Defined.

Lemma is_number_head lit : is_number lit → ∃ a s, lit = String a s ∧ (a = "-"%char ∨ is_digit a = true).
Proof.
  unfold is_number. destruct lit as [|a s]; [done|]. intros H. do 2 eexists. split; [done|].
  cbn [number] in H. destruct (Ascii.eqb_spec a "-") as [->|]; [by left|]. right.
  unfold unsigned_number in H. cbn [int_part] in H. destruct (Ascii.eqb_spec a "0") as [->|]; [done|].
  by destruct (is_digit a).
Qed.

(** ** Decimal integers *)

Fixpoint digits_value (s : string) (acc : Z) : option Z :=
  match s with
  | "" => Some acc
  | String a s => if is_digit a then digits_value s (10 * acc + (Z.of_N (code a) - 48))%Z else None
  end.

(** [strconv.ParseInt(s, 10, 64)], which the decoder calls on a literal. *)
Definition ParseInt10 (s : string) : option Z :=
  let value neg s :=
    if bool_decide (s = "") then None
    else match digits_value s 0 with
         | Some v => let v := if neg : bool then (- v)%Z else v in
                     if (- 2 ^ 63 <=? v)%Z && (v <? 2 ^ 63)%Z then Some v else None
         | None => None
         end in
  match s with
  | String a s' =>
      if Ascii.eqb a "-" then value true s' else if Ascii.eqb a "+" then value false s' else value false s
  | "" => None
  end.

Definition digit_char (x : N) : Prop := is_digit (pretty_N_char x) = true.
Lemma pretty_N_char_digit x : (x < 10)%N → digit_char x ∧ Z.of_N (code (pretty_N_char x)) = (48 + Z.of_N x)%Z.
Proof.
  intros Hx. assert (x = 0 ∨ x = 1 ∨ x = 2 ∨ x = 3 ∨ x = 4 ∨ x = 5 ∨ x = 6 ∨ x = 7 ∨ x = 8 ∨ x = 9)%N by lia.
  unfold digit_char. destruct_or!; by subst.
Qed.

Lemma pretty_step x s (P : string → Prop) :
  P s → (∀ x s, (x < 10)%N → P s → P (String (pretty_N_char x) s)) → P (pretty_N_go x s).
Proof.
  intros Hs Hc. revert s Hs. induction (N.lt_wf_0 x) as [x _ IH]; intros s Hs.
  assert (x = 0 ∨ 0 < x)%N as [->|Hx] by lia; [by rewrite pretty_N_go_0|].
  rewrite pretty_N_go_step by done. apply IH; [by apply N.div_lt|]. apply Hc; [by apply N.mod_lt|done].
Qed.

Lemma digits_value_pretty x s : digits_value (pretty_N_go x s) 0 = digits_value s (Z.of_N x).
Proof.
  revert s. induction (N.lt_wf_0 x) as [x _ IH]; intros s.
  assert (x = 0 ∨ 0 < x)%N as [->|Hx] by lia; [by rewrite pretty_N_go_0|].
  rewrite pretty_N_go_step by done. rewrite IH by by apply N.div_lt. cbn.
  destruct (pretty_N_char_digit (x `mod` 10)) as [Hd ->]; [by apply N.mod_lt|]. rewrite Hd. f_equal.
  pose proof (N.div_mod x 10). lia.
Qed.

Lemma span_digits_pretty x : span_digits (pretty_N_go x "") = (pretty_N_go x "", "").
Proof.
  apply (pretty_step x "" (λ t, span_digits t = (t, ""))); [done|]. intros y s Hy Hs. cbn.
  destruct (pretty_N_char_digit y Hy) as [Hd _]. by rewrite Hd, Hs.
Qed.

Lemma pretty_N_go_head x s : (0 < x)%N →
  ∃ a t, pretty_N_go x s = String a t ∧ is_digit a = true ∧ a ≠ "0"%char.
Proof.
  revert s. induction (N.lt_wf_0 x) as [x _ IH]; intros s Hx. rewrite pretty_N_go_step by done.
  destruct (decide (x < 10)%N) as [Hl|Hl].
  - rewrite N.div_small, N.mod_small, pretty_N_go_0 by done. do 2 eexists. split; [done|].
    split; [by apply pretty_N_char_digit|].
    assert (x = 1 ∨ x = 2 ∨ x = 3 ∨ x = 4 ∨ x = 5 ∨ x = 6 ∨ x = 7 ∨ x = 8 ∨ x = 9)%N by lia. destruct_or!; by subst.
  - apply IH; [by apply N.div_lt|]. apply N.div_str_pos. lia.
Qed.

Lemma unsigned_number_pretty (x : N) : unsigned_number (pretty x) = Some (pretty x, "").
Proof.
  unfold pretty, pretty_N. case_decide as Hx; [done|]. unfold unsigned_number.
  destruct (pretty_N_go_head x "") as (a & t & Ht & Hd & H0); [lia|].
  pose proof (span_digits_pretty x) as Hs. rewrite Ht in Hs |- *. cbn [int_part].
  destruct (Ascii.eqb_spec a "0"); [done|]. rewrite Hd, Hs. cbn [frac_part exp_part]. f_equal. f_equal.
  rewrite !string_app_nil_r. done.
Qed.

Lemma pretty_Z_number (z : Z) : is_number (pretty z).
Proof.
  unfold is_number. destruct z as [|p|p]; [done|..].
  - change (pretty (Z.pos p)) with (pretty (N.pos p)). pose proof (unsigned_number_pretty (N.pos p)) as Hn.
    destruct (pretty_N_go_head (N.pos p) "") as (a & t & Ht & Hd & _); [lia|].
    change (pretty (N.pos p)) with (pretty_N_go (N.pos p) "") in *. rewrite Ht in Hn |- *. cbn [number].
    destruct (Ascii.eqb_spec a "-") as [->|]; [done|exact Hn].
  - change (pretty (Z.neg p)) with ("-" +:+ pretty (N.pos p)). cbn [number String.append].
    change (Ascii.eqb "-" "-") with true. cbv iota. by rewrite unsigned_number_pretty.
Qed.

Lemma ParseInt10_pretty (z : Z) : in_i64 z → ParseInt10 (pretty z) = Some z.
Proof.
  assert (Hv : ∀ p, digits_value (pretty (N.pos p)) 0 = Some (Z.pos p)).
  { intros p. change (pretty (N.pos p)) with (pretty_N_go (N.pos p) ""). by rewrite digits_value_pretty. }
  assert (Hh : ∀ p, ∃ a t, pretty (N.pos p) = String a t ∧ is_digit a = true).
  { intros p. destruct (pretty_N_go_head (N.pos p) "") as (a & t & Ht & Hd & _); [lia|]. by exists a, t. }
  intros Hz. unfold in_i64 in Hz. destruct z as [|p|p]; [done|..].
  - change (pretty (Z.pos p)) with (pretty (N.pos p)). specialize (Hv p). destruct (Hh p) as (a & t & Ht & Hd).
    rewrite Ht in Hv |- *. unfold ParseInt10. destruct (Ascii.eqb_spec a "-") as [->|]; [done|].
    destruct (Ascii.eqb_spec a "+") as [->|]; [done|]. cbv zeta. rewrite Hv, bool_decide_false by done.
    rewrite (proj2 (Z.leb_le _ _)), (proj2 (Z.ltb_lt _ _)) by lia. done.
  - change (pretty (Z.neg p)) with (String "-" (pretty (N.pos p))). specialize (Hv p).
    destruct (Hh p) as (a & t & Ht & Hd). unfold ParseInt10. change (Ascii.eqb "-" "-") with true. cbv iota zeta.
    rewrite Hv, bool_decide_false by by rewrite Ht.
    rewrite (proj2 (Z.leb_le _ _)), (proj2 (Z.ltb_lt _ _)) by lia. done.
Qed.

(** ** The parser consumes its input, and its fuel is enough *)

Abbreviation slen := String.length.

Lemma skip_white_length s : slen (skip_white s) ≤ slen s.
Proof. unfold skip_white. induction s as [|a s IH]; cbn; [lia|]. destruct (white a); cbn; lia. Qed.

Lemma hex4_length s r t : hex4 s = Some (r, t) → slen t < slen s.
Proof.
  destruct s as [|a [|b [|c [|d s]]]]; try done. cbn.
  destruct (hex_val a), (hex_val b), (hex_val c), (hex_val d); try done. intros [= _ <-]. lia.
Qed.

Lemma unescape_length s p r : unescape s = Some (p, r) → slen r < slen s.
Proof.
  unfold unescape. destruct s as [|a s]; [done|]. cbn [String.length].
  repeat (destruct (Ascii.eqb _ _); cbn [orb]; [intros [= _ <-]; lia|]).
  destruct (Ascii.eqb a "u"); [|done]. destruct (hex4 s) as [[x t]|] eqn:Hx; [|done].
  apply hex4_length in Hx. cbv zeta. destruct (_ && _); [|intros [= _ <-]; lia].
  destruct t as [|b [|c t]]; [intros [= _ <-]; cbn in *; lia..|].
  destruct (_ && _); [|intros [= _ <-]; cbn in *; lia].
  destruct (hex4 t) as [[y u]|] eqn:Hy; [|intros [= _ <-]; cbn in *; lia].
  apply hex4_length in Hy. destruct (_ && _); intros [= _ <-]; cbn in *; lia.
Qed.

Lemma unquote_length n s p r : unquote n s = Some (p, r) → slen r < slen s.
Proof.
  revert s p r. induction n as [|n IH]; intros [|a s] p r; try done. cbn -[utf8_head].
  destruct (Ascii.eqb a dquote); [intros [= _ <-]; lia|].
  assert (Hp : ∀ q t, slen t ≤ slen s → prepend q (unquote n t) = Some (p, r) → slen r < S (slen s)).
  { intros q t Ht (u & Hu & _)%prepend_Some. apply IH in Hu. lia. }
  destruct (Ascii.eqb a backslash).
  { destruct (unescape s) as [[q t]|] eqn:Ht; [|done]. apply unescape_length in Ht. apply Hp. lia. }
  destruct (code a <? 32)%N; [done|]. destruct (single a); [by apply Hp|].
  destruct (utf8_head (String a s)) as [[q t]|] eqn:Ht; [|by apply Hp].
  destruct (utf8_head_spec _ _ _ Ht) as (Hs & _ & b & q' & -> & _). injection Hs as -> ->.
  apply Hp. rewrite string_length_app. lia.
Qed.

Lemma span_digits_spec s d r : span_digits s = (d, r) → s = d +:+ r.
Proof.
  revert d r. induction s as [|a s IH]; intros d r; cbn; [by intros [= <- <-]|].
  destruct (is_digit a); [|by intros [= <- <-]]. destruct (span_digits s) as [d' r'] eqn:E.
  intros [= <- <-]. cbn. by rewrite (IH d' r').
Qed.

Lemma digits1_length s d r : digits1 s = Some (d, r) → slen r < slen s.
Proof.
  unfold digits1. destruct (span_digits s) as [x t] eqn:E. apply span_digits_spec in E as ->.
  case_bool_decide; [done|]. intros [= <- <-]. rewrite string_length_app. destruct x; cbn; [done|lia].
Qed.

Lemma prepend_digits_length q s p r : prepend q (digits1 s) = Some (p, r) → slen r < slen s.
Proof. intros (t & Ht & _)%prepend_Some. by eapply digits1_length. Qed.

Lemma int_part_length s p r : int_part s = Some (p, r) → slen r < slen s.
Proof.
  unfold int_part. destruct s as [|a s]; [done|]. destruct (Ascii.eqb a "0"); [intros [= _ <-]; cbn; lia|].
  destruct (is_digit a) eqn:Ha; [|done]. intros [= Hs]. cbn in Hs. rewrite Ha in Hs.
  destruct (span_digits s) as [d t] eqn:E. injection Hs as _ <-. apply span_digits_spec in E as ->.
  cbn. rewrite string_length_app. lia.
Qed.

Lemma unsigned_number_length s p r : unsigned_number s = Some (p, r) → slen r < slen s.
Proof.
  unfold unsigned_number. destruct (int_part s) as [[i s1]|] eqn:H1; [|done]. apply int_part_length in H1.
  destruct (frac_part s1) as [[f s2]|] eqn:H2; [|done].
  destruct (exp_part s2) as [[e s3]|] eqn:H3; [|done]. intros [= _ <-].
  assert (slen s2 ≤ slen s1).
  { unfold frac_part in H2. destruct s1 as [|a s1]; [by injection H2 as _ <-|].
    destruct (Ascii.eqb a "."); [|by injection H2 as _ <-]. apply prepend_digits_length in H2. cbn. lia. }
  assert (slen s3 ≤ slen s2); [|lia].
  unfold exp_part in H3. destruct s2 as [|a s2]; [by injection H3 as _ <-|].
  destruct (_ || _); [|by injection H3 as _ <-]. destruct s2 as [|b s2]; [done|].
  destruct (_ || _); apply prepend_digits_length in H3; cbn in *; lia.
Qed.

Lemma number_length s p r : number s = Some (p, r) → slen r < slen s.
Proof.
  unfold number. destruct s as [|a s]; [done|]. destruct (Ascii.eqb a "-"); [|apply unsigned_number_length].
  intros (t & Ht & _)%prepend_Some. apply unsigned_number_length in Ht. cbn. lia.
Qed.

Lemma literal_length w v s x r : w ≠ "" → literal w v s = Some (x, r) → slen r < slen s.
Proof.
  intros Hw. unfold literal. destruct (HasPrefix s w) eqn:Hp; [|done]. intros [= _ <-].
  apply HasPrefix_spec in Hp as [t ->]. rewrite string_drop_app, string_length_app.
  destruct w; [done|cbn; lia].
Qed.

(** Case analysis on the matches of a parser, keeping what each step consumed. *)
Ltac parse_step :=
  match goal with
  | |- match skip_white ?s with _ => _ end = Some _ → _ =>
      let H := fresh in pose proof (skip_white_length s) as H; destruct (skip_white s) eqn:?; cbn [String.length] in H
  | |- (if ?b then _ else _) = Some _ → _ => destruct b
  | |- match unquote ?n ?s with _ => _ end = Some _ → _ =>
      destruct (unquote n s) as [[??]|] eqn:?;
      [match goal with H : unquote _ _ = Some _ |- _ => apply unquote_length in H end|]
  | |- match ?x with _ => _ end = Some _ → _ => destruct x as [[??]|] eqn:?
  | |- None = Some _ → _ => discriminate
  | |- Some _ = Some _ → _ => intros [=]; subst; cbn in *; lia
  end.

Lemma parse_length n :
  (∀ s v r, parse_value n s = Some (v, r) → slen r < slen s) ∧
  (∀ s v r, parse_members n s = Some (v, r) → slen r < slen s) ∧
  (∀ s v r, parse_elements n s = Some (v, r) → slen r < slen s).
Proof.
  induction n as [|n (IHv & IHm & IHe)]; [done|]. split_and!.
  - intros s v r. cbn [parse_value]. cbv zeta. pose proof (skip_white_length s) as Hs.
    destruct (skip_white s) as [|a s']; [done|].
    cbn [String.length] in Hs. repeat parse_step;
      repeat match goal with
      | H : parse_members n _ = Some _ |- _ => apply IHm in H
      | H : parse_elements n _ = Some _ |- _ => apply IHe in H
      | H : number _ = Some _ |- _ => apply number_length in H
      end; try (intros Hl; apply literal_length in Hl; [|done]; cbn in *; lia); try (intros [=]; subst; cbn in *; lia).
  - intros s v r. cbn [parse_members]. repeat parse_step;
      repeat match goal with
      | H : parse_members n _ = Some _ |- _ => apply IHm in H
      | H : parse_value n _ = Some _ |- _ => apply IHv in H
      end; try (intros [=]; subst; cbn in *; lia).
  - intros s v r. cbn [parse_elements]. repeat parse_step;
      repeat match goal with
      | H : parse_elements n _ = Some _ |- _ => apply IHe in H
      | H : parse_value n _ = Some _ |- _ => apply IHv in H
      end; try (intros [=]; subst; cbn in *; lia).
Qed.

Lemma parse_more_fuel n :
  (∀ m s, 2 * slen s + 1 ≤ n → n ≤ m → parse_value m s = parse_value n s) ∧
  (∀ m s, 2 * slen s + 2 ≤ n → n ≤ m → parse_members m s = parse_members n s) ∧
  (∀ m s, 2 * slen s + 2 ≤ n → n ≤ m → parse_elements m s = parse_elements n s).
Proof.
  induction n as [|n (IHv & IHm & IHe)]; [split_and!; intros; lia|].
  split_and!; intros [|m] s Hn Hm; try lia; cbn [parse_value parse_members parse_elements]; cbv zeta.
  - pose proof (skip_white_length s). destruct (skip_white s) as [|a s']; [done|]. cbn [String.length] in *.
    rewrite (IHm m s'), (IHe m s') by lia. done.
  - pose proof (skip_white_length s). destruct (skip_white s) as [|a s']; [done|]. cbn [String.length] in *.
    destruct (Ascii.eqb a dquote); [|done]. destruct (unquote _ s') as [[k r]|] eqn:Hk; [|done].
    apply unquote_length in Hk. pose proof (skip_white_length r). destruct (skip_white r) as [|b r1]; [done|].
    cbn [String.length] in *. destruct (Ascii.eqb b ":"); [|done]. rewrite (IHv m r1) by lia.
    destruct (parse_value n r1) as [[v r2]|] eqn:Hv; [|done]. apply (proj1 (parse_length n)) in Hv.
    pose proof (skip_white_length r2). destruct (skip_white r2) as [|c r3]; [done|]. cbn [String.length] in *.
    by rewrite (IHm m r3) by lia.
  - rewrite (IHv m s) by lia. destruct (parse_value n s) as [[v r]|] eqn:Hv; [|done].
    apply (proj1 (parse_length n)) in Hv. pose proof (skip_white_length r).
    destruct (skip_white r) as [|c r1]; [done|]. cbn [String.length] in *. by rewrite (IHe m r1) by lia.
Qed.

(** The fuel of [parse] is no restriction: more of it changes nothing. *)
Lemma parse_fuel m s : 2 * slen s + 2 ≤ m → parse_value m s = parse s.
Proof. intros Hm. unfold parse. apply parse_more_fuel; lia. Qed.

(** ** The round trip *)

Inductive wf : json → Prop :=
| wf_null : wf JNull
| wf_bool b : wf (JBool b)
| wf_num lit : is_number lit → wf (JNum lit)
| wf_str s : utf8 s → wf (JStr s)
| wf_arr l : Forall wf l → wf (JArr l)
| wf_obj ms : Forall (λ m, utf8 m.1 ∧ wf m.2) ms → wf (JObj ms).

Lemma skip_white_newline ind s : skip_white (newline ind +:+ s) = skip_white s.
Proof.
  destruct ind as [d|]; [|done]. cbn [newline String.append]. unfold skip_white. cbn [trim_left].
  change (white "010") with true. cbv iota. induction d as [|d IH]; [done|]. cbn [spaces String.append trim_left].
  change (white " ") with true. cbv iota. done.
Qed.

Lemma skip_white_head a s : white a = false → skip_white (String a s) = String a s.
Proof. intros Ha. unfold skip_white. cbn. by rewrite Ha. Qed.

Lemma stops_newline ind a s :
  stops (String a "") = true → stops (newline ind +:+ String a s) = true.
Proof. by destruct ind. Qed.

(** The first character of a printed value tells what it is. *)
Lemma number_head a : a = "-"%char ∨ is_digit a = true →
  white a = false ∧ Forall (λ b, Ascii.eqb a b = false) ["{"; "["; dquote; "t"; "f"; "n"; "]"]%char.
Proof.
  intros [->|Ha]; [by split; [|repeat constructor]|].
  destruct a as [[] [] [] [] [] [] [] []]; try discriminate; by split; [|repeat constructor].
Qed.

Lemma print_head ind v : wf v →
  ∃ a s, print ind v = String a s ∧ white a = false ∧ Ascii.eqb a "]" = false.
Proof.
  intros Hv. destruct Hv as [|[]|lit Hl|s Hs|[|x l] Hl|[|x l] Hl]; try (by do 2 eexists).
  destruct (is_number_head _ Hl) as (a & s & -> & Ha). destruct (number_head _ Ha) as [Hw Hf].
  exists a, s. split; [done|]. split; [done|]. by repeat apply Forall_cons in Hf as [? Hf].
Qed.

Lemma parse_value_newline n ind s : parse_value n (newline ind +:+ s) = parse_value n s.
Proof. destruct n as [|n]; [done|]. cbn [parse_value]. by rewrite skip_white_newline. Qed.

Lemma parse_members_newline n ind s : parse_members n (newline ind +:+ s) = parse_members n s.
Proof. destruct n as [|n]; [done|]. cbn [parse_members]. by rewrite skip_white_newline. Qed.

Lemma parse_elements_newline n ind s : parse_elements n (newline ind +:+ s) = parse_elements n s.
Proof. destruct n as [|n]; [done|]. cbn [parse_elements]. by rewrite parse_value_newline. Qed.

(** With enough fuel [f] parses [s]. *)
Definition eventually {A} (f : nat → option A) (x : A) : Prop := ∃ n0, ∀ n, n0 ≤ n → f n = Some x.

Section Lists.
Context (ind : option nat).
Definition reads (v : json) : Prop := ∀ rest, stops rest = true →
  eventually (λ n, parse_value n (print (S <$> ind) v +:+ rest)) (v, rest).

Lemma elements_read v l rest :
  Forall reads (v :: l) →
  eventually (λ n, parse_elements n
    (Join ((print (S <$> ind)) <$> v :: l) ("," +:+ newline (S <$> ind)) +:+ newline ind +:+ String "]" rest)) (v :: l, rest).
Proof.
  revert v. induction l as [|w l IH]; intros v Hl.
  - apply Forall_cons in Hl as [Hv _]. destruct (Hv (newline ind +:+ String "]" rest)) as [n0 Hn]; [by apply stops_newline|].
    exists (S n0). intros [|n] Hle; [lia|]. cbn [fmap list_fmap Join parse_elements]. rewrite Hn by lia.
    by rewrite skip_white_newline, skip_white_head.
  - apply Forall_cons in Hl as [Hv Hl]. destruct (IH w Hl) as [n1 Hn1].
    cbn [fmap list_fmap] in *. rewrite Join_cons by done. rewrite <- !string_app_assoc. cbn [String.append].
    destruct (Hv (String "," (newline (S <$> ind) +:+ Join (print (S <$> ind) w :: (print (S <$> ind) <$> l))
      (String "," (newline (S <$> ind))) +:+ newline ind +:+ String "]" rest))) as [n0 Hn]; [done|].
    exists (S (n0 `max` n1)). intros [|n] Hle; [lia|]. cbn [parse_elements]. rewrite Hn by lia.
    rewrite skip_white_head by done. change (Ascii.eqb "," "]") with false. change (Ascii.eqb "," ",") with true.
    cbv iota. rewrite parse_elements_newline, Hn1 by lia. done.
Qed.

Definition member (m : string * json) : string := quoted m.1 +:+ colon ind +:+ print (S <$> ind) m.2.

(** One member, up to what follows its value. *)
Lemma member_read n n0 k v rest :
  utf8 k → (∀ n, n0 ≤ n → parse_value n (print (S <$> ind) v +:+ rest) = Some (v, rest)) → n0 ≤ n → wf v →
  parse_members (S n) (member (k, v) +:+ rest) =
    match skip_white rest with
    | String c r =>
        if Ascii.eqb c "}" then Some ([(k, v)], r)
        else if Ascii.eqb c "," then
          match parse_members n r with Some (ms, r) => Some ((k, v) :: ms, r) | None => None end
        else None
    | "" => None
    end.
Proof.
  intros Hk Hv Hn Hw. unfold member, quoted. cbn [fst snd]. rewrite <- !string_app_assoc. cbn [String.append parse_members].
  rewrite skip_white_head by done. change (Ascii.eqb dquote dquote) with true. cbv iota.
  rewrite <- string_app_assoc. cbn [String.append]. rewrite unquote_quoted; [|done|].
  2:{ unfold quoted. cbn [String.length]. rewrite !string_length_app. cbn [String.length]. lia. }
  assert (Hc : parse_value n (match ind with Some _ => " " | None => "" end +:+ print (S <$> ind) v +:+ rest) = Some (v, rest)).
  { rewrite <- (Hv n Hn). destruct ind as [d|]; [|done]. destruct n as [|n]; [done|]. reflexivity. }
  destruct ind as [d|]; cbn [colon String.append] in *; rewrite skip_white_head by done;
    change (Ascii.eqb ":" ":") with true; cbv iota; by rewrite Hc.
Qed.

Lemma members_read m ms rest :
  Forall (λ m, utf8 m.1 ∧ wf m.2 ∧ reads m.2) (m :: ms) →
  eventually (λ n, parse_members n
    (Join (member <$> m :: ms) ("," +:+ newline (S <$> ind)) +:+ newline ind +:+ String "}" rest)) (m :: ms, rest).
Proof.
  revert m. induction ms as [|w ms IH]; intros [k v] Hl; apply Forall_cons in Hl as [(Hk & Hw & Hv) Hl]; cbn [fst snd] in *.
  - destruct (Hv (newline ind +:+ String "}" rest)) as [n0 Hn]; [by apply stops_newline|].
    exists (S n0). intros [|n] Hle; [lia|]. cbn [fmap list_fmap Join]. rewrite (member_read n n0) by (done || lia).
    by rewrite skip_white_newline, skip_white_head.
  - destruct (IH w Hl) as [n1 Hn1]. cbn [fmap list_fmap] in *. rewrite Join_cons by done. rewrite <- !string_app_assoc. cbn [String.append].
    destruct (Hv (String "," (newline (S <$> ind) +:+ Join (member w :: (member <$> ms))
      (String "," (newline (S <$> ind))) +:+ newline ind +:+ String "}" rest))) as [n0 Hn]; [done|].
    exists (S (n0 `max` n1)). intros [|n] Hle; [lia|]. rewrite (member_read n n0) by (done || lia).
    rewrite skip_white_head by done. change (Ascii.eqb "," "}") with false. change (Ascii.eqb "," ",") with true.
    cbv iota. rewrite parse_members_newline, Hn1 by lia. done.
Qed.
End Lists.

Lemma print_cons_arr ind x l : print ind (JArr (x :: l)) =
  String "[" (newline (S <$> ind) +:+ Join ((print (S <$> ind)) <$> x :: l) ("," +:+ newline (S <$> ind)) +:+ newline ind +:+ "]").
Proof. done. Qed.

Lemma print_cons_obj ind m ms : print ind (JObj (m :: ms)) =
  String "{" (newline (S <$> ind) +:+ Join (member ind <$> m :: ms) ("," +:+ newline (S <$> ind)) +:+ newline ind +:+ "}").
Proof. done. Qed.

Lemma Join_head x l sep a s : x = String a s → ∃ t, Join (x :: l) sep = String a t.
Proof. intros ->. destruct l; cbn; eauto. Qed.

(** After the opening bracket: the first character is not the closing one. *)
Lemma open_head ind x l sep rest a s :
  x = String a s → white a = false →
  ∃ t, skip_white (newline ind +:+ Join (x :: l) sep +:+ rest) = String a t.
Proof.
  intros Hx Ha. destruct (Join_head x l sep a s Hx) as [t ->].
  rewrite skip_white_newline. cbn [String.append]. rewrite skip_white_head by done. eauto.
Qed.

Lemma literal_app w v rest : literal w v (w +:+ rest) = Some (v, rest).
Proof. unfold literal. by rewrite HasPrefix_app, string_drop_app. Qed.

(** Every well-formed value is read back, whatever follows it. *)
Lemma print_reads v : wf v → ∀ ind rest, stops rest = true →
  eventually (λ n, parse_value n (print ind v +:+ rest)) (v, rest).
Proof.
  induction v as [|b|lit|s|l IH|ms IH] using json_ind'; intros Hwf ind rest Hr; inversion Hwf as [| |? Hl|? Hs|? Hl|? Hm]; subst.
  - exists 1. intros [|n] Hn; [lia|]. exact (literal_app "null" JNull rest).
  - exists 1. intros [|n] Hn; [lia|].
    destruct b; [exact (literal_app "true" _ rest)|exact (literal_app "false" _ rest)].
  - exists 1. intros [|n] Hn; [lia|]. cbn [print parse_value].
    destruct (is_number_head _ Hl) as (a & s & Heq & Ha). destruct (number_head _ Ha) as [Hw Hf].
    pose proof (number_local _ _ _ rest Hr Hl) as Hnum. rewrite Heq in Hnum |- *. cbn [String.append] in *.
    rewrite skip_white_head by done. cbv zeta.
    repeat match goal with H : Forall _ (_ :: _) |- _ => apply Forall_cons in H as [-> ?] end. by rewrite Hnum.
  - exists 1. intros [|n] Hn; [lia|]. cbn [print parse_value]. unfold quoted. cbn [String.append].
    rewrite skip_white_head by done. cbv zeta. rewrite <- string_app_assoc. cbn [String.append].
    change (Ascii.eqb dquote "{") with false. change (Ascii.eqb dquote "[") with false.
    change (Ascii.eqb dquote dquote) with true. cbv iota. rewrite unquote_quoted; [done|done|].
    unfold quoted. cbn [String.length]. rewrite !string_length_app. cbn [String.length]. lia.
  - destruct l as [|x l]; [exists 1; intros [|n] Hn; [lia|]; reflexivity|].
    assert (Hreads : Forall (reads ind) (x :: l)).
    { rewrite Forall_forall in IH, Hl |- *. intros y Hy rest' Hr'. by apply IH; [|apply Hl|]. }
    destruct (elements_read ind x l rest Hreads) as [n0 Hn]. exists (S n0). intros [|n] Hle; [lia|].
    rewrite print_cons_arr. cbn [String.append parse_value]. rewrite skip_white_head by done. cbv zeta.
    change (Ascii.eqb "[" "{") with false. change (Ascii.eqb "[" "[") with true. cbv iota.
    apply Forall_cons in Hl as [Hx _]. destruct (print_head (S <$> ind) x Hx) as (a & s & Hs & Hw & Ha).
    rewrite <- !string_app_assoc. cbn [String.append]. rewrite parse_elements_newline.
    cbn [fmap list_fmap String.append] in *.
    destruct (open_head (S <$> ind) (print (S <$> ind) x) (print (S <$> ind) <$> l) (String "," (newline (S <$> ind)))
      (newline ind +:+ String "]" rest) a s Hs Hw) as [t ->].
    rewrite Ha, Hn by lia. done.
  - destruct ms as [|[k x] ms]; [exists 1; intros [|n] Hn; [lia|]; reflexivity|].
    assert (Hreads : Forall (λ m, utf8 m.1 ∧ wf m.2 ∧ reads ind m.2) ((k, x) :: ms)).
    { rewrite Forall_forall in IH, Hm |- *. intros y Hy. destruct (Hm y Hy). split_and!; [done..|].
      intros rest' Hr'. by apply IH. }
    destruct (members_read ind (k, x) ms rest Hreads) as [n0 Hn]. exists (S n0). intros [|n] Hle; [lia|].
    rewrite print_cons_obj. cbn [String.append parse_value]. rewrite skip_white_head by done. cbv zeta.
    change (Ascii.eqb "{" "{") with true. cbv iota.
    rewrite <- !string_app_assoc. cbn [String.append]. rewrite parse_members_newline.
    cbn [fmap list_fmap String.append] in *.
    destruct (open_head (S <$> ind) (member ind (k, x)) (member ind <$> ms) (String "," (newline (S <$> ind)))
      (newline ind +:+ String "}" rest) dquote
      (quote_body (slen k) k +:+ String dquote "" +:+ colon ind +:+ print (S <$> ind) x)) as [t ->];
      [unfold member, quoted; cbn [fst snd String.append]; by rewrite <- string_app_assoc|done|].
    change (Ascii.eqb dquote "}") with false. cbv iota. by rewrite Hn by lia.
Qed.

Lemma print_parse ind v rest : wf v → stops rest = true → parse (print ind v +:+ rest) = Some (v, rest).
Proof.
  intros Hv Hr. destruct (print_reads v Hv ind rest Hr) as [n0 Hn].
  rewrite <- (parse_fuel (n0 `max` (2 * slen (print ind v +:+ rest) + 2))) by lia. apply Hn. lia.
Qed.

(** Decoding what was encoded, compact or indented. *)
Lemma Unmarshal_print ind v : wf v → Unmarshal (print ind v) = Some v.
Proof.
  intros Hv. unfold Unmarshal. rewrite <- (string_app_nil_r (print ind v)), print_parse by done.
  by rewrite bool_decide_true.
Qed.

Lemma Decode_Marshal v rest : wf v → stops rest = true → Decode (Marshal v +:+ rest) = Some v.
Proof. intros Hv Hr. unfold Decode, Marshal. by rewrite print_parse. Qed.

(** ** What is parsed is well-formed

    The decoder's strings are valid UTF-8 whatever the text was, and its numbers
    are literals: so every decoded value can be printed and read back. *)

Lemma code_chr n : (n < 256)%N → code (ascii_of_N n) = n.
Proof. intros Hn. unfold code. by apply N_ascii_embedding. Qed.

Lemma utf8_one p : utf8_head p = Some (p, "") → utf8 p.
Proof. intros Hp. eapply utf8_multi; [exact Hp|constructor]. Qed.

Lemma between_true lo hi a : (lo ≤ code a ≤ hi)%N → between lo hi a = true.
Proof. intros ?. unfold between. rewrite andb_true_iff, !N.leb_le. lia. Qed.
Lemma between_false lo hi a : (code a < lo ∨ hi < code a)%N → between lo hi a = false.
Proof. intros ?. unfold between. rewrite andb_false_iff, !N.leb_gt. lia. Qed.

Lemma replacement_utf8 : utf8 replacement.
Proof. by apply utf8_one. Qed.

Lemma two_bytes_utf8 r : (128 ≤ r < 2048)%N → utf8 (chr (192 + r / 64) +:+ chr (128 + r mod 64)).
Proof.
  intros Hr. set (a := (192 + r / 64)%N). set (b := (128 + r mod 64)%N).
  assert (Hx : (194 ≤ a ≤ 223 ∧ 128 ≤ b ≤ 191)%N) by (subst a b; zify; Z.to_euclidean_division_equations; lia).
  clearbody a b. apply utf8_one. cbn [chr String.append utf8_head]. unfold two, cont.
  rewrite !between_true by (rewrite code_chr; lia). done.
Qed.

Lemma three_bytes_utf8 r : (2048 ≤ r < 65536)%N → (r < 55296 ∨ 57343 < r)%N →
  utf8 (chr (224 + r / 4096) +:+ chr (128 + r / 64 mod 64) +:+ chr (128 + r mod 64)).
Proof.
  intros Hr Hs. set (a := (224 + r / 4096)%N). set (b := (128 + r / 64 mod 64)%N). set (c := (128 + r mod 64)%N).
  assert (Hx : (224 ≤ a ≤ 239 ∧ 128 ≤ b ≤ 191 ∧ 128 ≤ c ≤ 191 ∧ (a = 224 → 160 ≤ b) ∧ (a = 237 → b ≤ 159))%N).
  { subst a b c. zify; Z.to_euclidean_division_equations; lia. }
  clearbody a b c. apply utf8_one. cbn [chr String.append utf8_head]. unfold two.
  rewrite (between_false 194) by (rewrite code_chr; lia). cbn [andb]. unfold three, cont.
  rewrite (between_true 128 191 (ascii_of_N c)) by (rewrite code_chr; lia). rewrite !(code_chr a) by lia. cbn [andb].
  destruct (N.eqb_spec a 224); [by rewrite between_true by (rewrite code_chr; lia)|].
  destruct (N.eqb_spec a 237); [by rewrite between_true by (rewrite code_chr; lia)|].
  by rewrite !between_true by (rewrite code_chr; lia).
Qed.

Lemma four_bytes_utf8 r : (65536 ≤ r < 1114112)%N →
  utf8 (chr (240 + r / 262144) +:+ chr (128 + r / 4096 mod 64) +:+ chr (128 + r / 64 mod 64) +:+ chr (128 + r mod 64)).
Proof.
  intros Hr. set (a := (240 + r / 262144)%N). set (b := (128 + r / 4096 mod 64)%N).
  set (c := (128 + r / 64 mod 64)%N). set (d := (128 + r mod 64)%N).
  assert (Hx : (240 ≤ a ≤ 244 ∧ 128 ≤ b ≤ 191 ∧ 128 ≤ c ≤ 191 ∧ 128 ≤ d ≤ 191 ∧
    (a = 240 → 144 ≤ b) ∧ (a = 244 → b ≤ 143))%N).
  { subst a b c d. zify; Z.to_euclidean_division_equations; lia. }
  clearbody a b c d. apply utf8_one. cbn [chr String.append utf8_head]. unfold two.
  rewrite (between_false 194) by (rewrite code_chr; lia). cbn [andb]. unfold three, cont.
  rewrite !(code_chr a) by lia. destruct (N.eqb_spec a 224); [lia|]. destruct (N.eqb_spec a 237); [lia|].
  rewrite (between_false 225) by (rewrite code_chr; lia). cbn [andb]. rewrite andb_false_r.
  unfold four, cont. rewrite (between_true 128 191 (ascii_of_N c)), (between_true 128 191 (ascii_of_N d)) by (rewrite code_chr; lia).
  rewrite !(code_chr a) by lia. cbn [andb].
  destruct (N.eqb_spec a 240); [by rewrite between_true by (rewrite code_chr; lia)|].
  destruct (N.eqb_spec a 244); [by rewrite between_true by (rewrite code_chr; lia)|].
  by rewrite !between_true by (rewrite code_chr; lia).
Qed.

Lemma encode_rune_utf8 r : (r < 1114112)%N → utf8 (encode_rune r).
Proof.
  intros Hr. unfold encode_rune. destruct (N.ltb_spec r 128).
  { constructor; [|constructor]. unfold single. rewrite code_chr by lia. by apply N.ltb_lt. }
  destruct (N.ltb_spec r 2048); [by apply two_bytes_utf8|].
  destruct ((55296 <=? r)%N && (r <=? 57343)%N) eqn:Es; [apply replacement_utf8|].
  rewrite andb_false_iff, !N.leb_gt in Es.
  destruct (N.ltb_spec r 65536); [by apply three_bytes_utf8|by apply four_bytes_utf8].
Qed.

Lemma hex_val_bound a x : hex_val a = Some x → (x < 16)%N.
Proof.
  unfold hex_val. destruct (between 48 57 a) eqn:E1; [intros [= <-]; ranges|].
  destruct (between 97 102 a) eqn:E2; [intros [= <-]; clear E1; ranges|].
  destruct (between 65 70 a) eqn:E3; [intros [= <-]; clear E1 E2; ranges|done].
Qed.

Lemma hex4_bound s r t : hex4 s = Some (r, t) → (r < 65536)%N.
Proof.
  destruct s as [|a [|b [|c [|d s]]]]; try done. cbn.
  destruct (hex_val a) eqn:Ha, (hex_val b) eqn:Hb, (hex_val c) eqn:Hc, (hex_val d) eqn:Hd; try done.
  apply hex_val_bound in Ha, Hb, Hc, Hd. intros [= <- _]. lia.
Qed.

Lemma unescape_utf8 s p r : unescape s = Some (p, r) → utf8 p.
Proof.
  unfold unescape. destruct s as [|a s]; [done|].
  destruct (Ascii.eqb a dquote || Ascii.eqb a backslash || Ascii.eqb a "/") eqn:E.
  { intros [= <- _]. apply all_single_utf8. rewrite !orb_true_iff, !Ascii.eqb_eq in E. destruct E as [[->| ->]| ->]; done. }
  clear E. repeat (destruct (Ascii.eqb a _); [intros [= <- _]; by apply all_single_utf8|]).
  destruct (Ascii.eqb a "u"); [|done]. destruct (hex4 s) as [[x t]|] eqn:Hx; [|done]. apply hex4_bound in Hx.
  cbv zeta. assert (Halone : Some (encode_rune x, t) = Some (p, r) → utf8 p).
  { intros [= <- _]. apply encode_rune_utf8. lia. }
  destruct ((55296 <=? x)%N && (x <? 56320)%N) eqn:Es; [|done]. apply andb_true_iff in Es as [_ Es%N.ltb_lt].
  destruct t as [|b [|c t]]; [done..|]. destruct (_ && _); [|done].
  destruct (hex4 t) as [[y u]|] eqn:Hy; [|done]. apply hex4_bound in Hy.
  destruct ((56320 <=? y)%N && (y <? 57344)%N) eqn:Es2; [|done]. apply andb_true_iff in Es2 as [_ Es2%N.ltb_lt].
  intros [= <- _]. apply encode_rune_utf8. lia.
Qed.

Lemma unquote_utf8 n s p r : unquote n s = Some (p, r) → utf8 p.
Proof.
  revert s p r. induction n as [|n IH]; intros [|a s] p r; try done. cbn -[utf8_head].
  destruct (Ascii.eqb a dquote); [intros [= <- _]; constructor|].
  assert (Hp : ∀ q t, utf8 q → prepend q (unquote n t) = Some (p, r) → utf8 p).
  { intros q t Hq (u & Hu & ->)%prepend_Some. apply IH in Hu. by apply utf8_app. }
  destruct (Ascii.eqb a backslash).
  { destruct (unescape s) as [[q t]|] eqn:Ht; [|done]. apply unescape_utf8 in Ht. by apply Hp. }
  destruct (code a <? 32)%N; [done|]. destruct (single a) eqn:Ha; [apply Hp; by repeat constructor|].
  destruct (utf8_head (String a s)) as [[q t]|] eqn:Ht; [|apply Hp, replacement_utf8].
  apply Hp. destruct (utf8_head_spec _ _ _ Ht) as (_ & Hx & _). apply utf8_one.
  rewrite <- (string_app_nil_r q) at 1. apply Hx.
Qed.

(** A scanner reads the literal it found again, before anything that stops it. *)
Lemma span_digits_again s d r x :
  span_digits s = (d, r) → (∀ a y, x = String a y → is_digit a = false) → span_digits (d +:+ x) = (d, x).
Proof.
  intros Hs Hx. revert d r Hs. induction s as [|a s IH]; intros d r; cbn.
  - intros [= <- <-]. destruct x as [|b x]; [done|]. cbn. by rewrite (Hx b x).
  - destruct (is_digit a) eqn:Ha.
    + destruct (span_digits s) as [d' r'] eqn:E. intros [= <- <-]. cbn. by rewrite Ha, (IH d' r').
    + intros [= <- <-]. destruct x as [|b x]; [done|]. cbn. by rewrite (Hx b x).
Qed.

Lemma digits1_again s d r : digits1 s = Some (d, r) → digits1 d = Some (d, "").
Proof.
  unfold digits1. destruct (span_digits s) as [d' r'] eqn:E. case_bool_decide as Hd; [done|]. intros [= <- <-].
  pose proof (span_digits_again _ _ _ "" E) as Ha. rewrite string_app_nil_r in Ha. rewrite Ha by done.
  by rewrite bool_decide_false.
Qed.

Lemma exp_part_again s e r : exp_part s = Some (e, r) →
  exp_part e = Some (e, "") ∧ ∀ a y, e = String a y → is_digit a = false ∧ Ascii.eqb a "." = false.
Proof.
  unfold exp_part. destruct s as [|a s]; [by intros [= <- <-]|].
  destruct (Ascii.eqb a "e" || Ascii.eqb a "E") eqn:Ea; [|by intros [= <- <-]].
  assert (Hh : is_digit a = false ∧ Ascii.eqb a "." = false).
  { apply orb_true_iff in Ea as [Ea|Ea]; apply Ascii.eqb_eq in Ea as ->; done. }
  destruct s as [|b s]; [done|]. destruct (Ascii.eqb b "+" || Ascii.eqb b "-") eqn:Eb.
  - intros (t & Ht & ->)%prepend_Some. apply digits1_again in Ht. cbn [String.append].
    split; [|by intros ? ? [= <- _]]. by rewrite Ea, Eb, Ht.
  - intros (t & Ht & ->)%prepend_Some. pose proof (digits1_again _ _ _ Ht) as Ht'. cbn [String.append].
    split; [|by intros ? ? [= <- _]]. rewrite Ea. destruct t as [|c t]; [done|].
    assert (c = b) as ->.
    { unfold digits1 in Ht. cbn in Ht. destruct (is_digit b); [|done]. destruct (span_digits s). by injection Ht. }
    by rewrite Eb, Ht'.
Qed.

Lemma frac_part_again s f r x : frac_part s = Some (f, r) →
  (∀ a y, x = String a y → is_digit a = false ∧ Ascii.eqb a "." = false) →
  frac_part (f +:+ x) = Some (f, x) ∧ (∀ a y, f +:+ x = String a y → is_digit a = false).
Proof.
  intros Hf Hx. assert (Hempty : frac_part x = Some ("", x) ∧ (∀ a y, x = String a y → is_digit a = false)).
  { destruct x as [|a x]; [done|]. destruct (Hx a x eq_refl) as [Hd Hp]. split; [cbn; by rewrite Hp|]. by intros ? ? [= <- <-]. }
  unfold frac_part in Hf. destruct s as [|a s]; [by injection Hf as <- <-|].
  destruct (Ascii.eqb_spec a ".") as [->|]; [|by injection Hf as <- <-].
  apply prepend_Some in Hf as (t & Ht & ->). cbn [String.append frac_part]. split; [|by intros ? ? [= <- _]].
  change (Ascii.eqb "." ".") with true. cbv iota. unfold digits1 in Ht |- *.
  destruct (span_digits s) as [d r'] eqn:E. case_bool_decide as Hd; [done|]. injection Ht as <- <-.
  rewrite (span_digits_again _ _ _ x E) by (intros b y Hb; by apply Hx in Hb as [? _]).
  by rewrite bool_decide_false.
Qed.

Lemma int_part_again s i r x : int_part s = Some (i, r) → (∀ a y, x = String a y → is_digit a = false) →
  int_part (i +:+ x) = Some (i, x).
Proof.
  unfold int_part. destruct s as [|a s]; [done|]. intros Hi Hx.
  destruct (Ascii.eqb_spec a "0") as [->|Hne]; [by injection Hi as <- <-|].
  destruct (is_digit a) eqn:Ha; [|done]. injection Hi as Hi. pose proof (span_digits_again (String a s) _ _ x Hi Hx) as Hs.
  cbn in Hi. rewrite Ha in Hi. destruct (span_digits s) as [d r']. injection Hi as <- <-.
  cbn [String.append] in *. destruct (Ascii.eqb_spec a "0"); [done|]. by rewrite Ha, Hs.
Qed.

Lemma unsigned_number_again s lit r : unsigned_number s = Some (lit, r) → unsigned_number lit = Some (lit, "").
Proof.
  unfold unsigned_number. destruct (int_part s) as [[i s1]|] eqn:H1; [|done].
  destruct (frac_part s1) as [[f s2]|] eqn:H2; [|done].
  destruct (exp_part s2) as [[e s3]|] eqn:H3; [|done]. intros [= <- _].
  destruct (exp_part_again _ _ _ H3) as [He Hh]. destruct (frac_part_again _ _ _ e H2 Hh) as [Hf Hh'].
  rewrite (int_part_again _ _ _ (f +:+ e) H1 Hh'). by rewrite Hf, He.
Qed.

Lemma number_again s lit r : number s = Some (lit, r) → is_number lit.
Proof.
  unfold is_number, number. destruct s as [|a s]; [done|]. destruct (Ascii.eqb_spec a "-") as [->|Ha].
  - intros (t & Ht & ->)%prepend_Some. cbn [String.append]. change (Ascii.eqb "-" "-") with true. cbv iota.
    by rewrite (unsigned_number_again _ _ _ Ht).
  - intros Hn. apply unsigned_number_again in Hn as Hl. destruct lit as [|b lit]; [done|].
    destruct (Ascii.eqb_spec b "-") as [->|]; [done|exact Hl].
Qed.

Lemma literal_value w v s x r : literal w v s = Some (x, r) → x = v.
Proof. unfold literal. destruct (HasPrefix s w); [by intros [= <- _]|done]. Qed.

Lemma parsed_wf n :
  (∀ s v r, parse_value n s = Some (v, r) → wf v) ∧
  (∀ s ms r, parse_members n s = Some (ms, r) → Forall (λ m, utf8 m.1 ∧ wf m.2) ms) ∧
  (∀ s l r, parse_elements n s = Some (l, r) → Forall wf l).
Proof.
  induction n as [|n (IHv & IHm & IHe)]; [done|]. split_and!.
  - intros s v r. cbn [parse_value]. cbv zeta. destruct (skip_white s) as [|a s']; [done|].
    destruct (Ascii.eqb a "{").
    { destruct (skip_white s') as [|b r']; [done|]. destruct (Ascii.eqb b "}"); [intros [= <- _]; by repeat constructor|].
      destruct (parse_members n s') as [[ms r'']|] eqn:E; [|done]. intros [= <- _]. constructor. by eapply IHm. }
    destruct (Ascii.eqb a "[").
    { destruct (skip_white s') as [|b r']; [done|]. destruct (Ascii.eqb b "]"); [intros [= <- _]; by repeat constructor|].
      destruct (parse_elements n s') as [[l r'']|] eqn:E; [|done]. intros [= <- _]. constructor. by eapply IHe. }
    destruct (Ascii.eqb a dquote).
    { destruct (unquote _ s') as [[t r']|] eqn:E; [|done]. intros [= <- _]. constructor. by eapply unquote_utf8. }
    repeat (destruct (Ascii.eqb a _); [intros ->%literal_value; constructor|]).
    destruct (number _) as [[lit r']|] eqn:E; [|done]. intros [= <- _]. constructor. by eapply number_again.
  - intros s ms r. cbn [parse_members]. destruct (skip_white s) as [|a s']; [done|].
    destruct (Ascii.eqb a dquote); [|done]. destruct (unquote _ s') as [[k r1]|] eqn:Hk; [|done]. apply unquote_utf8 in Hk.
    destruct (skip_white r1) as [|b r2]; [done|]. destruct (Ascii.eqb b ":"); [|done].
    destruct (parse_value n r2) as [[v r3]|] eqn:Hv; [|done]. apply IHv in Hv.
    destruct (skip_white r3) as [|c r4]; [done|]. destruct (Ascii.eqb c "}"); [intros [= <- _]; by repeat constructor|].
    destruct (Ascii.eqb c ","); [|done]. destruct (parse_members n r4) as [[ms' r5]|] eqn:Hm; [|done].
    intros [= <- _]. constructor; [done|]. by eapply IHm.
  - intros s l r. cbn [parse_elements]. destruct (parse_value n s) as [[v r1]|] eqn:Hv; [|done]. apply IHv in Hv.
    destruct (skip_white r1) as [|c r2]; [done|]. destruct (Ascii.eqb c "]"); [intros [= <- _]; by repeat constructor|].
    destruct (Ascii.eqb c ","); [|done]. destruct (parse_elements n r2) as [[l' r3]|] eqn:Hl; [|done].
    intros [= <- _]. constructor; [done|]. by eapply IHe.
Qed.

Lemma Unmarshal_wf s v : Unmarshal s = Some v → wf v.
Proof.
  unfold Unmarshal, parse. destruct (parse_value _ s) as [[w r]|] eqn:E; [|done].
  case_bool_decide; [|done]. intros [= <-]. by eapply parsed_wf.
Qed.

(** ** Go values *)

(** A map is encoded with its keys in order. *)
Definition JMap (kvs : list (string * json)) : json := JObj (sort_slice (λ a b, string_ltb a.1 b.1) kvs).
Definition JInt (z : Z) : json := JNum (pretty z).
Definition string_map_json (kvs : list (string * string)) : json := JMap ((λ kv, (kv.1, JStr kv.2)) <$> kvs).

Lemma wf_JMap kvs : Forall (λ m, utf8 m.1 ∧ wf m.2) kvs → wf (JMap kvs).
Proof. intros Hw. constructor. by rewrite sort_slice_perm. Qed.

Lemma wf_JInt z : wf (JInt z).
Proof. constructor. apply pretty_Z_number. Qed.

(** Decoding into a [map[string]string]: the map, and whether every value was a
    string or null.  The decoder goes on after a value of another type, and
    reports it at the end. *)
Definition decode_string_map (v : json) : gmap string string * bool :=
  match v with
  | JObj ms =>
      foldl (λ '(m, ok) kv,
        match kv.2 with
        | JStr s => (<[kv.1 := s]> m, ok)
        | JNull => (<[kv.1 := ""]> m, ok)
        | _ => (<[kv.1 := ""]> m, false)
        end) (∅, true) ms
  | JNull => (∅, true)
  | _ => (∅, false)
  end.

(** Decoding into a struct.  A member goes to the field of its name, or else to
    one that differs in case only; an unknown one is an error if [strict]. *)
Fixpoint fold_name (s : string) : string :=
  match s with
  | String a (String b s2 as s1) =>
      if (code a =? 197)%N && (code b =? 191)%N then String "s" (fold_name s2)
      else match s2 with
           | String c s3 =>
               if (code a =? 226)%N && (code b =? 132)%N && (code c =? 170)%N then String "k" (fold_name s3)
               else String (lower_ascii a) (fold_name s1)
           | "" => String (lower_ascii a) (fold_name s1)
           end
  | String a "" => String (lower_ascii a) ""
  | "" => ""
  end.

Definition find_field (fields : list string) (k : string) : option string :=
  match List.find (λ f, bool_decide (f = k)) fields with
  | Some f => Some f
  | None => List.find (λ f, bool_decide (fold_name f = fold_name k)) fields
  end.

(** The setters of the field types: null leaves a field alone. *)
Definition set_string {A} (f : string → A → A) (v : json) (x : A) : A * bool :=
  match v with JStr s => (f s x, true) | JNull => (x, true) | _ => (x, false) end.
Definition set_bool {A} (f : bool → A → A) (v : json) (x : A) : A * bool :=
  match v with JBool b => (f b x, true) | JNull => (x, true) | _ => (x, false) end.
Definition set_int {A} (f : Z → A → A) (v : json) (x : A) : A * bool :=
  match v with
  | JNum lit => match ParseInt10 lit with Some z => (f z x, true) | None => (x, false) end
  | JNull => (x, true)
  | _ => (x, false)
  end.

Section Struct.
Context {A : Type} (strict : bool) (fields : list (string * (json → A → A * bool))).

Definition set_member (acc : A * bool) (m : string * json) : A * bool :=
  match find_field fields.*1 m.1 with
  | Some f =>
      match list_find (λ x, x.1 = f) fields with
      | Some (_, (_, set)) => let '(x, ok) := set m.2 acc.1 in (x, acc.2 && ok)
      | None => acc
      end
  | None => (acc.1, acc.2 && negb strict)
  end.

Definition decode_struct (zero : A) (v : json) : A * bool :=
  match v with
  | JObj ms => foldl set_member (zero, true) ms
  | JNull => (zero, true)
  | _ => (zero, false)
  end.

(** [msg] gives the text of the decoder's error. *)
Definition decode_into (msg : string → error) (zero : A) (body : string) : res A :=
  match Decode body with
  | None => Err (msg body)
  | Some v => let '(x, ok) := decode_struct zero v in if ok then Ok x else Err (msg body)
  end.
End Struct.

(** A slice: every element is decoded, whatever the others are. *)
Definition set_list {A B} (f : list B → A → A) (elem : json → B * bool) (v : json) (x : A) : A * bool :=
  match v with
  | JArr l => (f (fst <$> (elem <$> l)) x, forallb snd (elem <$> l))
  | JNull => (f [] x, true)
  | _ => (x, false)
  end.

(** Decoding into an [any], in the form it is encoded again: a map has no
    repeated keys, and a number is a float64, which [renum] prints.  A number out
    of range becomes nil, and the decoder reports it. *)
Section Any.
Context (renum : string → option string).

(** The last of the members with the same name counts. *)
Definition as_map (ms : list (string * json)) : gmap string json := list_to_map (reverse ms).

Fixpoint any_value (v : json) : json :=
  match v with
  | JNum lit => match renum lit with Some l => JNum l | None => JNull end
  | JArr l => JArr (any_value <$> l)
  | JObj ms => JMap (map_to_list (as_map ((λ m, (m.1, any_value m.2)) <$> ms)))
  | v => v
  end.

Fixpoint any_ok (v : json) : bool :=
  match v with
  | JNum lit => match renum lit with Some _ => true | None => false end
  | JArr l => forallb any_ok l
  | JObj ms => forallb (λ m, any_ok m.2) ms
  | _ => true
  end.

(** [fmt.Sprint] of it; [float] prints a float64. *)
Fixpoint Sprint (float : string → string) (v : json) : string :=
  match v with
  | JNull => "<nil>"
  | JBool b => if b then "true" else "false"
  | JNum lit => float lit
  | JStr s => s
  | JArr l => "[" +:+ Join (Sprint float <$> l) " " +:+ "]"
  | JObj ms => "map[" +:+ Join ((λ m, m.1 +:+ ":" +:+ Sprint float m.2) <$> ms) " " +:+ "]"
  end.

(** What [any_value] makes can be printed and read back. *)
Lemma any_value_wf v : (∀ lit l, renum lit = Some l → is_number l) → wf v → wf (any_value v).
Proof.
  intros Hr. induction v as [|b|lit|s|l IH|ms IH] using json_ind'; intros Hv; inversion Hv as [| | | |? Hl|? Hm]; subst; cbn; try done.
  - destruct (renum lit) as [l|] eqn:E; [|constructor]. constructor. by eapply Hr.
  - constructor. apply Forall_fmap. rewrite Forall_forall in *. intros x Hx. cbn. by apply IH, Hl.
  - apply wf_JMap, Forall_forall. intros [k x] Hx%elem_of_map_to_list. cbn.
    apply elem_of_list_to_map_2 in Hx. rewrite elem_of_reverse, list_elem_of_fmap in Hx.
    destruct Hx as ([k' x'] & [= -> ->] & Hx). rewrite Forall_forall in *. destruct (Hm _ Hx). split; [done|]. by apply (IH _ Hx).
Qed.
End Any.
