(* ===== verification/JsonStream.v ===== *)
(** * encoding/json: a stream of values, and a truncated one

    [json.Decoder] reads value after value, the way the journal of the store is
    read.  Here: the loop, and what is needed to reason about a stream that ends
    in the middle of a value.  The central lemma is [parse_extend]: what has been
    parsed stays parsed when more text follows. *)

From S2P Require Import Prelude Json.

(** ** The loop of Decode *)

(** One call of [Decode] on what is left of a stream: the end of the stream (only
    white space is left), an error, or a value and the rest. *)
Inductive decoded := DEnd | DError | DValue (v : json) (rest : string).
Definition decode_next (s : string) : decoded :=
  if bool_decide (skip_white s = "") then DEnd
  else match parse s with Some (v, r) => DValue v r | None => DError end.

(** All values up to the end or the first error, and whether there was one.  A
    value takes at least one byte, so the length of the stream is fuel enough:
    see [decode_all_fuel]. *)
Fixpoint decode_all (n : nat) (s : string) : list json * bool :=
  match n with
  | O => ([], true)
  | S n =>
      match decode_next s with
      | DEnd => ([], false)
      | DError => ([], true)
      | DValue v r => let '(vs, bad) := decode_all n r in (v :: vs, bad)
      end
  end.
Definition decode_stream (s : string) : list json * bool := decode_all (S (String.length s)) s.

Lemma parse_consumes s v r : parse s = Some (v, r) → String.length r < String.length s.
Proof. unfold parse. apply parse_length. Qed.

Lemma decode_all_fuel n m s : String.length s < n → n ≤ m → decode_all m s = decode_all n s.
Proof.
  revert m s. induction n as [|n IH]; intros [|m] s Hn Hm; try lia. cbn [decode_all]. unfold decode_next.
  case_bool_decide; [done|]. destruct (parse s) as [[v r]|] eqn:Hp; [|done].
  apply parse_consumes in Hp. by rewrite (IH m r) by lia.
Qed.

Lemma decode_stream_cons s v r :
  decode_next s = DValue v r → decode_stream s = let '(vs, bad) := decode_stream r in (v :: vs, bad).
Proof.
  intros Hn. unfold decode_stream. cbn [decode_all]. rewrite Hn.
  unfold decode_next in Hn. case_bool_decide; [done|]. destruct (parse s) as [[v' r']|] eqn:Hp; [|done].
  injection Hn as -> ->. apply parse_consumes in Hp.
  by rewrite (decode_all_fuel (S (String.length r)) (String.length s) r) by lia.
Qed.

Lemma decode_stream_end s : decode_next s = DEnd → decode_stream s = ([], false).
Proof. intros Hn. unfold decode_stream. cbn [decode_all]. by rewrite Hn. Qed.

Lemma decode_stream_error s : decode_next s = DError → decode_stream s = ([], true).
Proof. intros Hn. unfold decode_stream. cbn [decode_all]. by rewrite Hn. Qed.

(** ** More text does not change what was parsed *)

Lemma skip_white_extend s a t x : skip_white s = String a t → skip_white (s +:+ x) = String a (t +:+ x).
Proof.
  unfold skip_white. induction s as [|b s IH]; [done|]. cbn. destruct (white b); [apply IH|]. by intros [= -> ->].
Qed.

Lemma span_digits_extend s d a r x :
  span_digits s = (d, String a r) → span_digits (s +:+ x) = (d, String a (r +:+ x)).
Proof.
  revert d. induction s as [|b s IH]; intros d; [done|]. cbn. destruct (is_digit b).
  - destruct (span_digits s) as [d' r'] eqn:Hs. intros [= <- ->]. by rewrite (IH d' eq_refl).
  - by intros [= <- -> ->].
Qed.

Lemma digits1_extend s d a r x :
  digits1 s = Some (d, String a r) → digits1 (s +:+ x) = Some (d, String a (r +:+ x)).
Proof.
  unfold digits1. destruct (span_digits s) as [d' r'] eqn:Hs. case_bool_decide as Hd; [done|]. intros [= -> ->].
  rewrite (span_digits_extend _ _ _ _ x Hs). by rewrite bool_decide_false.
Qed.

Lemma prepend_digits_extend p s d a r x :
  prepend p (digits1 s) = Some (d, String a r) → prepend p (digits1 (s +:+ x)) = Some (d, String a (r +:+ x)).
Proof. intros (t & Ht & ->)%prepend_Some. by rewrite (digits1_extend _ _ _ _ x Ht). Qed.

Lemma exp_part_extend s d a r x :
  exp_part s = Some (d, String a r) → exp_part (s +:+ x) = Some (d, String a (r +:+ x)).
Proof.
  destruct s as [|b s]; [done|]. cbn [exp_part String.append].
  destruct (Ascii.eqb b "e" || Ascii.eqb b "E"); [|by intros [= <- -> ->]].
  destruct s as [|c s]; [done|]. cbn [String.append].
  destruct (Ascii.eqb c "+" || Ascii.eqb c "-"); [apply prepend_digits_extend|].
  apply (prepend_digits_extend _ (String c s)).
Qed.

(** When the exponent leaves something, so did the fraction before it. *)
Lemma exp_part_nonempty s d a r : exp_part s = Some (d, String a r) → ∃ b t, s = String b t.
Proof. destruct s; [done|eauto]. Qed.

Lemma frac_part_extend s d a r x :
  frac_part s = Some (d, String a r) → frac_part (s +:+ x) = Some (d, String a (r +:+ x)).
Proof.
  destruct s as [|b s]; [done|]. cbn [frac_part String.append].
  destruct (Ascii.eqb b "."); [apply prepend_digits_extend|by intros [= <- -> ->]].
Qed.

Lemma frac_part_nonempty s d a r : frac_part s = Some (d, String a r) → ∃ b t, s = String b t.
Proof. destruct s; [done|eauto]. Qed.

Lemma int_part_extend s d a r x :
  int_part s = Some (d, String a r) → int_part (s +:+ x) = Some (d, String a (r +:+ x)).
Proof.
  destruct s as [|b s]; [done|]. cbn [int_part String.append]. destruct (Ascii.eqb b "0"); [by intros [= <- ->]|].
  destruct (is_digit b); [|done]. intros [= Hs]. f_equal. by apply (span_digits_extend (String b s)).
Qed.

Lemma unsigned_number_extend s lit a r x :
  unsigned_number s = Some (lit, String a r) → unsigned_number (s +:+ x) = Some (lit, String a (r +:+ x)).
Proof.
  unfold unsigned_number. destruct (int_part s) as [[i s1]|] eqn:E1; [|done].
  destruct (frac_part s1) as [[f s2]|] eqn:E2; [|done]. destruct (exp_part s2) as [[e s3]|] eqn:E3; [|done].
  intros [= <- ->]. destruct (exp_part_nonempty _ _ _ _ E3) as (b & t & ->).
  destruct (frac_part_nonempty _ _ _ _ E2) as (c & u & ->).
  rewrite (int_part_extend _ _ _ _ x E1), (frac_part_extend _ _ _ _ x E2 : frac_part (String c (u +:+ x)) = _).
  by rewrite (exp_part_extend _ _ _ _ x E3 : exp_part (String b (t +:+ x)) = _).
Qed.

Lemma number_extend s lit a r x :
  number s = Some (lit, String a r) → number (s +:+ x) = Some (lit, String a (r +:+ x)).
Proof.
  destruct s as [|b s]; [done|]. cbn [number String.append]. destruct (Ascii.eqb b "-").
  - intros (t & Ht & ->)%prepend_Some. by rewrite (unsigned_number_extend _ _ _ _ x Ht).
  - apply (unsigned_number_extend (String b s)).
Qed.

(** ** Quoted strings

    The scanner looks ahead, for the other bytes of a character or for a second
    surrogate, but never past a closing quote. *)

Lemma hex4_quote s x : string_In dquote s = true → hex4 s = None → hex4 (s +:+ x) = None.
Proof.
  destruct s as [|a [|b [|c [|d s]]]]; cbn [string_In hex4 String.append]; try done.
  4: { intros _. repeat case_match; done. }
  all: rewrite ?orb_false_r; intros Hq _; repeat (apply orb_true_iff in Hq as [Hq|Hq]);
    apply Ascii.eqb_eq in Hq; subst.
  all: destruct x as [|? [|? [|? x]]]; cbn [hex4 String.append]; change (hex_val dquote) with (@None N);
    repeat case_match; done.
Qed.

Lemma hex4_extend s r t x : hex4 s = Some (r, t) → hex4 (s +:+ x) = Some (r, t +:+ x).
Proof.
  destruct s as [|a [|b [|c [|d s]]]]; cbn [hex4 String.append]; try done.
  repeat case_match; try done. by intros [= <- <-].
Qed.

Lemma unescape_extend s p r x :
  unescape s = Some (p, r) → string_In dquote r = true → unescape (s +:+ x) = Some (p, r +:+ x).
Proof.
  destruct s as [|a s]; [done|]. cbn [unescape String.append].
  repeat (case_match; [by intros [= <- <-]|]). case_match; [|done].
  destruct (hex4 s) as [[n t]|] eqn:Eh; [|done]. rewrite (hex4_extend _ _ _ x Eh). cbv zeta.
  destruct ((55296 <=? n)%N && (n <? 56320)%N); [|by intros [= <- <-]].
  destruct t as [|b [|c t]]; cbn [String.append].
  - by intros [= <- <-].
  - intros [= <- <-] Hq. cbn in Hq. rewrite orb_false_r in Hq. apply Ascii.eqb_eq in Hq as ->. by destruct x.
  - destruct (Ascii.eqb b backslash && Ascii.eqb c "u") eqn:Eb; [|by intros [= <- <-]].
    destruct (hex4 t) as [[n2 t2]|] eqn:E2.
    + rewrite (hex4_extend _ _ _ x E2). case_match; by intros [= <- <-].
    + intros [= <- <-] Hq. rewrite hex4_quote; [done| |done].
      apply andb_true_iff in Eb as [Eb%Ascii.eqb_eq Ec%Ascii.eqb_eq]. subst. exact Hq.
Qed.

Lemma utf8_head_extend s p r x : utf8_head s = Some (p, r) → utf8_head (s +:+ x) = Some (p, r +:+ x).
Proof.
  destruct s as [|a [|b s]]; cbn [utf8_head String.append]; try done. case_match; [by intros [= <- <-]|].
  destruct s as [|c s]; cbn [String.append]; [done|]. case_match; [by intros [= <- <-]|].
  destruct s as [|d s]; cbn [String.append]; [done|]. case_match; [by intros [= <- <-]|done].
Qed.

Lemma cont_quote : cont dquote = false. Proof. done. Qed.

Lemma utf8_head_quote a s x :
  Ascii.eqb a dquote = false → string_In dquote s = true → utf8_head (String a s) = None →
  utf8_head (String a s +:+ x) = None.
Proof.
  intros Ha Hq Hn. cbn [String.append]. unfold utf8_head in Hn |- *.
  assert (∀ b, two b dquote = false) as H2 by (intros b; unfold two; by rewrite cont_quote, andb_false_r).
  assert (∀ b c, three b c dquote = false) as H3 by (intros b c; unfold three; by rewrite cont_quote).
  assert (∀ b c d, four b c d dquote = false) as H4
    by (intros b c d; unfold four; by rewrite cont_quote, andb_false_r).
  assert (∀ b c, three b dquote c = false) as H3'.
  { intros b c. unfold three, between. rewrite cont_quote, !andb_false_r. change (code dquote) with 34%N.
    by destruct (code b =? 224)%N, (code b =? 237)%N, (cont c). }
  assert (∀ b c d, four b dquote c d = false) as H4'.
  { intros b c d. unfold four, between. rewrite cont_quote, !andb_false_r. change (code dquote) with 34%N.
    by destruct (code b =? 240)%N, (code b =? 244)%N, (cont c && cont d). }
  assert (∀ b c d, four b c dquote d = false) as H4''
    by (intros b c d; unfold four; by rewrite cont_quote).
  destruct s as [|b [|c [|d s]]]; cbn [string_In String.append] in *; rewrite ?orb_false_r in Hq; try done.
  - apply Ascii.eqb_eq in Hq as ->. rewrite H2. destruct x as [|c [|d x]]; [done|by rewrite H3'|by rewrite H3', H4'].
  - destruct (two a b); [done|]. destruct (three a b c) eqn:E3; [done|].
    destruct x as [|d x]; [done|]. apply orb_true_iff in Hq as [Hq|Hq]; apply Ascii.eqb_eq in Hq as ->;
      by rewrite ?H4', ?H4''.
  - repeat case_match; done.
Qed.

(** What is left is the end of what there was. *)
Definition suffix (t s : string) : Prop := ∃ pre, s = pre +:+ t.

Lemma suffix_refl s : suffix s s.
Proof. by exists "". Qed.
Lemma suffix_cons a t s : suffix t s → suffix t (String a s).
Proof. intros [pre ->]. by exists (String a pre). Qed.
Lemma suffix_In c t s : suffix t s → string_In c t = true → string_In c s = true.
Proof. intros [pre ->] Ht. rewrite string_In_app, Ht. apply orb_true_r. Qed.
#[local] Hint Resolve suffix_refl suffix_cons : core.

Lemma hex4_suffix s r t : hex4 s = Some (r, t) → suffix t s.
Proof. destruct s as [|a [|b [|c [|d s]]]]; cbn [hex4]; try done. repeat case_match; try done. intros [= _ <-]. auto 6. Qed.

Lemma suffix_trans t s u : suffix t s → suffix s u → suffix t u.
Proof. intros [p ->] [q ->]. exists (q +:+ p). by rewrite string_app_assoc. Qed.

Lemma unescape_suffix s p t : unescape s = Some (p, t) → suffix t s.
Proof.
  destruct s as [|a s]; [done|]. cbn [unescape]. intros Hu. apply suffix_cons.
  repeat (case_match; [injection Hu as _ <-; auto|]). case_match; [|done].
  destruct (hex4 s) as [[n u]|] eqn:Eh; [|done]. apply hex4_suffix in Eh. eapply suffix_trans; [|exact Eh].
  cbv zeta in Hu. case_match; [|by injection Hu as _ <-].
  destruct u as [|b [|c u]]; [by injection Hu as _ <-..|].
  case_match; [|by injection Hu as _ <-].
  destruct (hex4 u) as [[n2 u2]|] eqn:E2; [|by injection Hu as _ <-].
  case_match; injection Hu as _ <-; [|done]. apply hex4_suffix in E2. auto.
Qed.

Lemma utf8_head_suffix s p t : utf8_head s = Some (p, t) → suffix t s.
Proof. intros (-> & _)%utf8_head_spec. by exists p. Qed.

Lemma unquote_has_quote n s p r : unquote n s = Some (p, r) → string_In dquote s = true.
Proof.
  revert s p r. induction n as [|n IH]; intros [|a s] p r; cbn [unquote]; try done.
  cbn [string_In]. destruct (Ascii.eqb a dquote) eqn:Ea; [done|]. cbn [orb].
  destruct (Ascii.eqb a backslash).
  - destruct (unescape s) as [[q t]|] eqn:Eu; [|done]. intros (u & Hu & _)%prepend_Some.
    apply unescape_suffix in Eu. eapply suffix_In; [done|]. by eapply IH.
  - destruct (code a <? 32)%N; [done|].
    destruct (single a); [intros (u & Hu & _)%prepend_Some; by eapply IH|].
    destruct (utf8_head (String a s)) as [[q t]|] eqn:Eu.
    + intros (u & Hu & _)%prepend_Some. apply utf8_head_suffix in Eu.
      assert (string_In dquote (String a s) = true) as Hq by (eapply suffix_In; [done|]; by eapply IH).
      cbn in Hq. by rewrite Ea in Hq.
    + intros (u & Hu & _)%prepend_Some. by eapply IH.
Qed.

Lemma unquote_extend n m s p r x :
  unquote n s = Some (p, r) → n ≤ m → unquote m (s +:+ x) = Some (p, r +:+ x).
Proof.
  revert m s p r. induction n as [|n IH]; intros m [|a s] p r; try done.
  destruct m as [|m]; [lia|]. intros Hu Hm. cbn [unquote String.append] in *.
  destruct (Ascii.eqb a dquote) eqn:Ea; [by injection Hu as <- <-|].
  destruct (Ascii.eqb a backslash).
  - destruct (unescape s) as [[q t]|] eqn:Eu; [|done]. apply prepend_Some in Hu as (u & Hu & ->).
    rewrite (unescape_extend _ _ _ x Eu) by by eapply unquote_has_quote. by rewrite (IH m t u r) by (done || lia).
  - destruct (code a <? 32)%N; [done|].
    destruct (single a); [apply prepend_Some in Hu as (u & Hu & ->); by rewrite (IH m s u r) by (done || lia)|].
    change (String a (s +:+ x)) with (String a s +:+ x).
    destruct (utf8_head (String a s)) as [[q t]|] eqn:Eu; apply prepend_Some in Hu as (u & Hu & ->).
    + rewrite (utf8_head_extend _ _ _ x Eu). by rewrite (IH m t u r) by (done || lia).
    + rewrite utf8_head_quote; [|done|by eapply unquote_has_quote|done]. by rewrite (IH m s u r) by (done || lia).
Qed.

(** ** Values *)

Lemma literal_extend w v s y r x : literal w v s = Some (y, r) → literal w v (s +:+ x) = Some (y, r +:+ x).
Proof.
  unfold literal. destruct (HasPrefix s w) eqn:Hp; [|done]. apply HasPrefix_spec in Hp as [t ->].
  rewrite string_drop_app. intros [= <- <-]. rewrite <- string_app_assoc, HasPrefix_app. by rewrite string_drop_app.
Qed.

(** A number at the very end of the text may go on. *)
Definition closed (v : json) (r : string) : Prop := r = "" → ∀ lit, v ≠ JNum lit.

Lemma parse_extend n x :
  (∀ m s v r, n ≤ m → parse_value n s = Some (v, r) → closed v r → parse_value m (s +:+ x) = Some (v, r +:+ x)) ∧
  (∀ m s v r, n ≤ m → parse_members n s = Some (v, r) → parse_members m (s +:+ x) = Some (v, r +:+ x)) ∧
  (∀ m s v r, n ≤ m → parse_elements n s = Some (v, r) → parse_elements m (s +:+ x) = Some (v, r +:+ x)).
Proof.
  induction n as [|n (IHv & IHm & IHe)]; [done|].
  split_and!; intros [|m] s v r Hle; try lia; apply le_S_n in Hle.
  - cbn [parse_value]. cbv zeta. destruct (skip_white s) as [|a s'] eqn:Es; [done|].
    rewrite (skip_white_extend _ _ _ x Es). intros Hp Hc.
    destruct (Ascii.eqb a "{").
    { destruct (skip_white s') as [|b t] eqn:Et; [done|]. rewrite (skip_white_extend _ _ _ x Et).
      destruct (Ascii.eqb b "}"); [by injection Hp as <- <-|].
      destruct (parse_members n s') as [[ms t']|] eqn:Em; [|done]. injection Hp as <- <-. by rewrite (IHm m _ _ _ Hle Em). }
    destruct (Ascii.eqb a "[").
    { destruct (skip_white s') as [|b t] eqn:Et; [done|]. rewrite (skip_white_extend _ _ _ x Et).
      destruct (Ascii.eqb b "]"); [by injection Hp as <- <-|].
      destruct (parse_elements n s') as [[ms t']|] eqn:Em; [|done]. injection Hp as <- <-. by rewrite (IHe m _ _ _ Hle Em). }
    destruct (Ascii.eqb a dquote).
    { destruct (unquote (String.length s') s') as [[t t']|] eqn:Eu; [|done]. injection Hp as <- <-.
      by rewrite (unquote_extend _ _ _ _ _ x Eu) by (rewrite string_length_app; lia). }
    change (String a (s' +:+ x)) with (String a s' +:+ x).
    destruct (Ascii.eqb a "t"); [by apply literal_extend|]. destruct (Ascii.eqb a "f"); [by apply literal_extend|].
    destruct (Ascii.eqb a "n"); [by apply literal_extend|].
    destruct (number (String a s')) as [[lit t]|] eqn:En; [|done]. injection Hp as <- <-.
    destruct t as [|b t]; [by destruct (Hc eq_refl lit)|]. by rewrite (number_extend _ _ _ _ x En).
  - cbn [parse_members]. destruct (skip_white s) as [|a s'] eqn:Es; [done|]. rewrite (skip_white_extend _ _ _ x Es).
    destruct (Ascii.eqb a dquote); [|done]. destruct (unquote (String.length s') s') as [[k t]|] eqn:Eu; [|done].
    rewrite (unquote_extend _ _ _ _ _ x Eu) by (rewrite string_length_app; lia).
    destruct (skip_white t) as [|b t1] eqn:Et; [done|]. rewrite (skip_white_extend _ _ _ x Et).
    destruct (Ascii.eqb b ":"); [|done]. destruct (parse_value n t1) as [[w t2]|] eqn:Ev; [|done].
    destruct (skip_white t2) as [|c t3] eqn:Et2; [done|].
    rewrite (IHv m _ _ _ Hle Ev), (skip_white_extend _ _ _ x Et2) by (intros ->; done).
    destruct (Ascii.eqb c "}"); [by intros [= <- <-]|]. destruct (Ascii.eqb c ","); [|done].
    destruct (parse_members n t3) as [[ms t4]|] eqn:Em; [|done]. intros [= <- <-]. by rewrite (IHm m _ _ _ Hle Em).
  - cbn [parse_elements]. destruct (parse_value n s) as [[w t2]|] eqn:Ev; [|done].
    destruct (skip_white t2) as [|c t3] eqn:Et2; [done|].
    rewrite (IHv m _ _ _ Hle Ev), (skip_white_extend _ _ _ x Et2) by (intros ->; done).
    destruct (Ascii.eqb c "]"); [by intros [= <- <-]|]. destruct (Ascii.eqb c ","); [|done].
    destruct (parse_elements n t3) as [[ms t4]|] eqn:Em; [|done]. intros [= <- <-]. by rewrite (IHe m _ _ _ Hle Em).
Qed.

Lemma parse_brace s v r : parse (String "{" s) = Some (v, r) → ∃ ms, v = JObj ms.
Proof.
  unfold parse. destruct (2 * _ + 2) as [|n]; [done|]. cbn [parse_value]. rewrite skip_white_head by done. cbv zeta.
  change (Ascii.eqb "{" "{") with true. cbv iota. destruct (skip_white s); [done|].
  case_match; [by intros [= <- _]; eauto|]. destruct (parse_members n s) as [[ms t]|]; [|done]. intros [= <- _]. eauto.
Qed.

Lemma Marshal_brace ms : ∃ t, Marshal (JObj ms) = String "{" t.
Proof. destruct ms; unfold Marshal; [by eexists|]. rewrite print_cons_obj. by eexists. Qed.

(** A proper prefix of a printed object is not a value, nor the end of the
    stream: the decoder reports an error. *)
Lemma truncated_object ms p x :
  wf (JObj ms) → Marshal (JObj ms) = p +:+ x → p ≠ "" → x ≠ "" → decode_next p = DError.
Proof.
  intros Hwf Hm Hp Hx. destruct (Marshal_brace ms) as [t Ht].
  destruct p as [|a p]; [done|]. rewrite Ht in Hm. cbn [String.append] in Hm. injection Hm as <- Hm.
  unfold decode_next. rewrite skip_white_head by done. rewrite bool_decide_false by done.
  destruct (parse (String "{" p)) as [[v r]|] eqn:Ev; [exfalso|done].
  destruct (parse_brace _ _ _ Ev) as [ms' ->].
  assert (parse (Marshal (JObj ms) +:+ "") = Some (JObj ms, "")) as Hfull by by apply print_parse.
  rewrite string_app_nil_r, Ht, Hm in Hfull. unfold parse in Ev, Hfull.
  apply (proj1 (parse_extend _ x) (2 * String.length (String "{" (p +:+ x)) + 2)) in Ev; [| |done].
  - change (String "{" p +:+ x) with (String "{" (p +:+ x)) in Ev. rewrite Ev in Hfull. injection Hfull as _ Hr.
    destruct r; [by destruct x|done].
  - cbn. rewrite string_length_app. lia.
Qed.
