(* ===== verification/Base64.v ===== *)
(** * Package encoding/base64

    The two encodings the platform uses: [StdEncoding], padded, for byte slices
    in JSON, and [RawURLEncoding], without padding, for tokens.  The decoder
    skips line breaks and, as Go's default mode does, ignores the unused bits of
    the last character. *)

From S2P Require Import Prelude Json.

(** ** Six bits and a character *)

Definition enc6 (url : bool) (n : N) : ascii :=
  ascii_of_N (if n <? 26 then 65 + n else if n <? 52 then 71 + n else if n <? 62 then n - 4
              else if n =? 62 then (if url then 45 else 43) else (if url then 95 else 47))%N.
Definition dec6 (url : bool) (a : ascii) : option N :=
  let c := N_of_ascii a in
  if (65 <=? c)%N && (c <=? 90)%N then Some (c - 65)%N
  else if (97 <=? c)%N && (c <=? 122)%N then Some (c - 71)%N
  else if (48 <=? c)%N && (c <=? 57)%N then Some (c + 4)%N
  else if (c =? (if url then 45 else 43))%N then Some 62%N
  else if (c =? (if url then 95 else 47))%N then Some 63%N
  else None.

(** ** Groups of three bytes and four characters *)

Definition sextets (x y z : N) : N * N * N * N :=
  (x / 4, (x mod 4) * 16 + y / 16, (y mod 16) * 4 + z / 64, z mod 64)%N.
Definition octet1 (p q : N) : N := (p * 4 + q / 16)%N.
Definition octet2 (q r : N) : N := ((q mod 16) * 16 + r / 4)%N.
Definition octet3 (r s : N) : N := ((r mod 4) * 64 + s)%N.

Definition pad (url : bool) (s : string) : string := if url then "" else s.

Fixpoint EncodeToString (url : bool) (s : string) : string :=
  match s with
  | "" => ""
  | String a "" =>
      let '(p, q, _, _) := sextets (N_of_ascii a) 0 0 in
      String (enc6 url p) (String (enc6 url q) (pad url "=="))
  | String a (String b "") =>
      let '(p, q, r, _) := sextets (N_of_ascii a) (N_of_ascii b) 0 in
      String (enc6 url p) (String (enc6 url q) (String (enc6 url r) (pad url "=")))
  | String a (String b (String c s)) =>
      let '(p, q, r, t) := sextets (N_of_ascii a) (N_of_ascii b) (N_of_ascii c) in
      String (enc6 url p) (String (enc6 url q) (String (enc6 url r) (String (enc6 url t) (EncodeToString url s))))
  end.

Definition is_pad (url : bool) (a : ascii) : bool := negb url && Ascii.eqb a "=".

(** The last group: one byte of two characters, two bytes of three. *)
Definition last1 (url : bool) (a b : ascii) : option string :=
  match dec6 url a, dec6 url b with
  | Some p, Some q => Some (String (ascii_of_N (octet1 p q)) "")
  | _, _ => None
  end.
Definition last2 (url : bool) (a b c : ascii) : option string :=
  match dec6 url a, dec6 url b, dec6 url c with
  | Some p, Some q, Some r => Some (String (ascii_of_N (octet1 p q)) (String (ascii_of_N (octet2 q r)) ""))
  | _, _, _ => None
  end.

Fixpoint decode_groups (url : bool) (s : string) : option string :=
  match s with
  | "" => Some ""
  | String a (String b (String c (String d s))) =>
      if is_pad url d then
        if bool_decide (s = "") then if is_pad url c then last1 url a b else last2 url a b c else None
      else
        match dec6 url a, dec6 url b, dec6 url c, dec6 url d with
        | Some p, Some q, Some r, Some t =>
            (λ out, String (ascii_of_N (octet1 p q)) (String (ascii_of_N (octet2 q r))
                      (String (ascii_of_N (octet3 r t)) out))) <$> decode_groups url s
        | _, _, _, _ => None
        end
  | String a (String b "") => if url then last1 url a b else None
  | String a (String b (String c "")) => if url then last2 url a b c else None
  | String _ "" => None
  end.

Definition is_break (a : ascii) : bool := Ascii.eqb a "010" || Ascii.eqb a "013".
Fixpoint drop_breaks (s : string) : string :=
  match s with "" => "" | String a s => if is_break a then drop_breaks s else String a (drop_breaks s) end.

Definition DecodeString (url : bool) (s : string) : option string := decode_groups url (drop_breaks s).

(** ** Lemmas *)

(** Characters of the alphabet. *)
Definition sym (url : bool) (a : ascii) : Prop := ∃ n, (n < 64)%N ∧ a = enc6 url n.

Lemma below64 (P : N → Prop) : (∀ k, k < 64 → P (N.of_nat k)) → ∀ n, (n < 64)%N → P n.
Proof. intros H n Hn. rewrite <- (N2Nat.id n). apply H. lia. Qed.

Lemma enc6_facts url n : (n < 64)%N →
  dec6 url (enc6 url n) = Some n ∧ is_break (enc6 url n) = false ∧ Ascii.eqb (enc6 url n) "=" = false ∧
  Ascii.eqb (enc6 url n) "." = false.
Proof.
  revert n. apply below64. intros k Hk. destruct url; do 64 (destruct k as [|k]; [by vm_compute|]); lia.
Qed.

Lemma N_of_ascii_bound a : (N_of_ascii a < 256)%N.
Proof. apply N_ascii_bounded. Qed.

Lemma octets_sextets x y z : (x < 256)%N → (y < 256)%N → (z < 256)%N →
  let '(p, q, r, t) := sextets x y z in
  (p < 64)%N ∧ (q < 64)%N ∧ (r < 64)%N ∧ (t < 64)%N ∧ octet1 p q = x ∧ octet2 q r = y ∧ octet3 r t = z.
Proof.
  intros Hx Hy Hz. unfold sextets, octet1, octet2, octet3.
  pose proof (N.div_mod x 4 ltac:(lia)). pose proof (N.mod_lt x 4 ltac:(lia)).
  pose proof (N.div_mod y 16 ltac:(lia)). pose proof (N.mod_lt y 16 ltac:(lia)).
  pose proof (N.div_mod z 64 ltac:(lia)). pose proof (N.mod_lt z 64 ltac:(lia)).
  set (x1 := (x / 4)%N) in *. set (x0 := (x mod 4)%N) in *.
  set (y1 := (y / 16)%N) in *. set (y0 := (y mod 16)%N) in *.
  set (z1 := (z / 64)%N) in *. set (z0 := (z mod 64)%N) in *. clearbody x1 x0 y1 y0 z1 z0.
  assert (y1 < 16)%N by lia. assert (z1 < 4)%N by lia.
  assert ((x0 * 16 + y1) / 16 = x0)%N as -> by (rewrite N.div_add_l, N.div_small by lia; lia).
  assert ((x0 * 16 + y1) mod 16 = y1)%N as ->
    by (rewrite N.add_comm, N.Div0.mod_add, N.mod_small by lia; lia).
  assert ((y0 * 4 + z1) / 4 = y0)%N as -> by (rewrite N.div_add_l, N.div_small by lia; lia).
  assert ((y0 * 4 + z1) mod 4 = z1)%N as ->
    by (rewrite N.add_comm, N.Div0.mod_add, N.mod_small by lia; lia).
  split_and!; lia.
Qed.

(** Induction by groups of three bytes. *)
Lemma string_ind3 (P : string → Prop) :
  P "" → (∀ a, P (String a "")) → (∀ a b, P (String a (String b ""))) →
  (∀ a b c s, P s → P (String a (String b (String c s)))) → ∀ s, P s.
Proof.
  intros H0 H1 H2 H3. assert (∀ n s, String.length s ≤ n → P s) as H; [|intros s; by eapply H].
  induction n as [|n IH]; intros [|a [|b [|c s]]] Hs; cbn in Hs; try done; [lia|].
  apply H3, IH. lia.
Qed.

Ltac group a b c :=
  pose proof (octets_sextets a b c ltac:(first [lia|apply N_of_ascii_bound]) ltac:(first [lia|apply N_of_ascii_bound])
    ltac:(first [lia|apply N_of_ascii_bound])) as Hg;
  destruct (sextets a b c) as [[[p q] r] t]; destruct Hg as (Hp & Hq & Hr & Ht & Hg1 & Hg2 & Hg3).

Lemma decode_groups_encode url s : decode_groups url (EncodeToString url s) = Some s.
Proof.
  induction s as [|a|a b|a b c s IH] using string_ind3; cbn [EncodeToString].
  - done.
  - group (N_of_ascii a) 0%N 0%N.
    destruct (enc6_facts url p Hp) as (Dp & _), (enc6_facts url q Hq) as (Dq & _).
    destruct url; cbn; unfold last1; rewrite Dp, Dq, Hg1, ascii_N_embedding; done.
  - group (N_of_ascii a) (N_of_ascii b) 0%N.
    destruct (enc6_facts url p Hp) as (Dp & _), (enc6_facts url q Hq) as (Dq & _),
      (enc6_facts url r Hr) as (Dr & _ & Er & _).
    destruct url; cbn; unfold last2, is_pad; cbn; rewrite ?Er, Dp, Dq, Dr, Hg1, Hg2, !ascii_N_embedding; done.
  - group (N_of_ascii a) (N_of_ascii b) (N_of_ascii c).
    destruct (enc6_facts url p Hp) as (Dp & _), (enc6_facts url q Hq) as (Dq & _),
      (enc6_facts url r Hr) as (Dr & _), (enc6_facts url t Ht) as (Dt & _ & Et & _).
    cbn [decode_groups]. unfold is_pad. rewrite Et, andb_false_r, Dp, Dq, Dr, Dt, IH, Hg1, Hg2, Hg3.
    cbn [fmap option_fmap option_map]. by rewrite !ascii_N_embedding.
Qed.

Lemma encode_plain url s :
  drop_breaks (EncodeToString url s) = EncodeToString url s ∧ string_In "." (EncodeToString url s) = false.
Proof.
  assert (∀ n rest, (n < 64)%N → drop_breaks rest = rest ∧ string_In "." rest = false →
    drop_breaks (String (enc6 url n) rest) = String (enc6 url n) rest ∧
    string_In "." (String (enc6 url n) rest) = false) as Hc.
  { intros n rest Hn [H1 H2]. destruct (enc6_facts url n Hn) as (_ & E1 & _ & E2).
    cbn [drop_breaks string_In]. by rewrite E1, H1, E2, H2. }
  induction s as [|a|a b|a b c s IH] using string_ind3; cbn [EncodeToString]; [done|..].
  - group (N_of_ascii a) 0%N 0%N. repeat (apply Hc; [done|]). by destruct url.
  - group (N_of_ascii a) (N_of_ascii b) 0%N. repeat (apply Hc; [done|]). by destruct url.
  - group (N_of_ascii a) (N_of_ascii b) (N_of_ascii c). by repeat (apply Hc; [done|]).
Qed.

(** Encoding and decoding, in both alphabets. *)
Lemma DecodeString_EncodeToString url s : DecodeString url (EncodeToString url s) = Some s.
Proof. unfold DecodeString. rewrite (proj1 (encode_plain url s)). apply decode_groups_encode. Qed.

Lemma EncodeToString_no_dot url s : string_In "." (EncodeToString url s) = false.
Proof. apply encode_plain. Qed.

Lemma EncodeToString_empty url s : EncodeToString url s = "" → s = "".
Proof. by destruct s as [|a [|b [|c s]]]. Qed.

(** The characters of an encoding are ASCII. *)
Lemma encode_single url s : all_single (EncodeToString url s) = true.
Proof.
  assert (∀ n rest, (n < 64)%N → all_single rest = true → all_single (String (enc6 url n) rest) = true) as Hc.
  { intros n rest Hn Hr. cbn [all_single]. rewrite Hr, andb_true_r.
    revert n Hn. apply below64. intros k Hk. destruct url; do 64 (destruct k as [|k]; [by vm_compute|]); lia. }
  induction s as [|a|a b|a b c s IH] using string_ind3; cbn [EncodeToString]; [done|..].
  - group (N_of_ascii a) 0%N 0%N. repeat (apply Hc; [done|]). by destruct url.
  - group (N_of_ascii a) (N_of_ascii b) 0%N. repeat (apply Hc; [done|]). by destruct url.
  - group (N_of_ascii a) (N_of_ascii b) (N_of_ascii c). by repeat (apply Hc; [done|]).
Qed.
