(* ===== verification/State.v ===== *)
(** * Package state: the typed store the control plane works against

    internal/state is not part of the repository, so nothing of it is defined
    here: the store is a parameter.  Each [Class] below lists operations of
    [state.Store] with the types their call sites give them; the records hold
    the fields of the state package's types that the code under internal/
    reads or writes.  A reading operation is a function of the store's state; a
    writing one returns the new state, and its error if any. *)

From S2P Require Import Prelude.

(** ** Records *)

Record Base := mk_Base { bID : string; bProjectID : string; bName : string }.

Record Taint := mk_Taint { tKey : string; tValue : string; tEffect : string }.

Record Node := mk_Node {
  nBase : Base; nAddress : string; nStatus : string;
  nCPUAllocatable : Z; nCPUAllocated : Z; nMemAllocatable : Z; nMemAllocated : Z;
  nGPUs : Z; nLabels : gmap string string; nTaints : list Taint;
  nUnschedulable : bool; nDrain : bool; nCordoned : bool; nLastHeartbeat : Time;
}.

Record WorkloadStatus := mk_WorkloadStatus {
  wsAvailable : bool; wsMessage : string; wsReadyReplicas : Z; wsDesiredReplicas : Z;
}.

Record Workload := mk_Workload {
  wlBase : Base; wlReplicas : Z; wlCPUMillicores : Z; wlMemoryBytes : Z; wlGPUs : Z;
  wlNodeSelector : gmap string string; wlTolerations : list string; wlAntiAffinity : list string;
  wlEnv : gmap string string; wlConfigMapRefs : list string; wlSecretRefs : list string;
  wlStatus : WorkloadStatus;
}.

Record Placement := mk_Placement {
  plBase : Base; plWorkloadID : string; plNodeID : string; plReplicaIdx : Z; plStatus : string;
}.

Record Project := mk_Project {
  pjBase : Base; pjDescription : string; pjQuotaCPU : Z; pjQuotaMem : Z; pjQuotaObj : Z;
}.

Record Service := mk_Service { svBase : Base; svWorkloadID : string; svPort : Z }.

Record User := mk_User {
  usBase : Base; usEmail : string; usDisplayName : string; usAdmin : bool; usPasswordBcrypt : string;
}.

Record APIKey := mk_APIKey {
  akBase : Base; akHash : string; akPrefix : string; akExpiresAt : Time;
}.

Definition usID (u : User) : string := bID (usBase u).
Definition akID (k : APIKey) : string := bID (akBase k).
Definition nID (n : Node) : string := bID (nBase n).
Definition wlID (w : Workload) : string := bID (wlBase w).
Definition wlName (w : Workload) : string := bName (wlBase w).
Definition wlProjectID (w : Workload) : string := bProjectID (wlBase w).
Definition plID (p : Placement) : string := bID (plBase p).
Definition pjID (p : Project) : string := bID (pjBase p).

Definition set_wlStatus (s : WorkloadStatus) (w : Workload) : Workload :=
  mk_Workload (wlBase w) (wlReplicas w) (wlCPUMillicores w) (wlMemoryBytes w) (wlGPUs w)
    (wlNodeSelector w) (wlTolerations w) (wlAntiAffinity w) (wlEnv w) (wlConfigMapRefs w)
    (wlSecretRefs w) s.
Definition set_wlReplicas (n : Z) (w : Workload) : Workload :=
  mk_Workload (wlBase w) n (wlCPUMillicores w) (wlMemoryBytes w) (wlGPUs w)
    (wlNodeSelector w) (wlTolerations w) (wlAntiAffinity w) (wlEnv w) (wlConfigMapRefs w)
    (wlSecretRefs w) (wlStatus w).

(** ** Operations *)

Class NodeStore (S : Type) := {
  ListNodes : S → res (list Node);
  GetNode : S → string → res Node;
  UpsertNode : S → Node → S * option error;
}.

Class WorkloadStore (S : Type) := {
  ListWorkloads : S → string → res (list Workload);
  GetWorkload : S → string → string → res Workload;
  UpdateWorkload : S → Workload → S * option error;
}.

Class PlacementStore (S : Type) := {
  GetPlacements : S → string → res (list Placement);
  SetPlacements : S → string → list Placement → S * option error;
}.

Class ProjectStore (S : Type) := {
  ListProjects : S → res (list Project);
}.

Class ServiceStore (S : Type) := {
  ListServices : S → string → res (list Service);
}.

Class UserStore (S : Type) := {
  FindUserByEmail : S → string → res User;
  GetUser : S → string → res User;
  ListUsers : S → res (list User);
  CreateUser_ : S → User → S * option error;
}.

Class APIKeyStore (S : Type) := {
  ListAPIKeys : S → res (list APIKey);
  CreateAPIKey : S → APIKey → S * option error;
}.

(** What a client relies on: a successful write is what the next read of the
    same resource returns, and leaves the other resources alone. *)
Class PlacementLaws (S : Type) `{PlacementStore S} : Prop := {
  set_get_placements : ∀ s s' w ps,
    SetPlacements s w ps = (s', None) → GetPlacements s' w = Ok ps;
  set_get_placements_ne : ∀ s s' w w' ps e,
    SetPlacements s w ps = (s', e) → w ≠ w' → GetPlacements s' w' = GetPlacements s w';
}.

Class WorkloadLaws (S : Type) `{WorkloadStore S} : Prop := {
  update_get_workload : ∀ s s' w,
    UpdateWorkload s w = (s', None) → GetWorkload s' (wlProjectID w) (wlID w) = Ok w;
}.

Class NodeLaws (S : Type) `{NodeStore S} : Prop := {
  upsert_get_node : ∀ s s' n, UpsertNode s n = (s', None) → GetNode s' (nID n) = Ok n;
}.

(** A created key is listed, and creating it adds no other. *)
Class APIKeyLaws (S : Type) `{APIKeyStore S} : Prop := {
  create_list_apikeys : ∀ s s' k, CreateAPIKey s k = (s', None) →
    ∃ ks, ListAPIKeys s' = Ok ks ∧ k ∈ ks ∧
      ∀ k', k' ∈ ks → k' = k ∨ ∃ old, ListAPIKeys s = Ok old ∧ k' ∈ old;
}.

(** A user created under a new email is found by it and by ID. *)
Class UserLaws (S : Type) `{UserStore S} : Prop := {
  create_find_user : ∀ s s' u e, FindUserByEmail s (usEmail u) = Err e → CreateUser_ s u = (s', None) →
    FindUserByEmail s' (usEmail u) = Ok u ∧ GetUser s' (usID u) = Ok u;
}.

(** Updating a workload leaves the placements alone. *)
Class FrameLaws (S : Type) `{WorkloadStore S, PlacementStore S} : Prop := {
  update_workload_frame : ∀ s s' w w' e,
    UpdateWorkload s w = (s', e) → GetPlacements s' w' = GetPlacements s w';
}.

(** ** A concrete store: plain maps, used to run the definitions on examples *)

Record mem := mk_mem {
  m_nodes : gmap string Node;
  m_workloads : gmap (string * string) Workload;
  m_placements : gmap string (list Placement);
  m_projects : list Project;
  m_services : gmap string (list Service);
}.

Definition empty_mem : mem := mk_mem ∅ ∅ ∅ [] ∅.
Definition not_found : error := "not found".

#[export] Instance mem_nodes : NodeStore mem := {|
  ListNodes s := Ok (snd <$> map_to_list (m_nodes s));
  GetNode s id := match m_nodes s !! id with Some n => Ok n | None => Err not_found end;
  UpsertNode s n := (mk_mem (<[nID n := n]> (m_nodes s)) (m_workloads s) (m_placements s)
                            (m_projects s) (m_services s), None);
|}.

#[export] Instance mem_workloads : WorkloadStore mem := {|
  ListWorkloads s p :=
    Ok (snd <$> filter (λ kw, kw.1.1 = p) (map_to_list (m_workloads s)));
  GetWorkload s p id := match m_workloads s !! (p, id) with Some w => Ok w | None => Err not_found end;
  UpdateWorkload s w := (mk_mem (m_nodes s) (<[(wlProjectID w, wlID w) := w]> (m_workloads s))
                                (m_placements s) (m_projects s) (m_services s), None);
|}.

#[export] Instance mem_placements : PlacementStore mem := {|
  GetPlacements s w := match m_placements s !! w with Some ps => Ok ps | None => Err not_found end;
  SetPlacements s w ps := (mk_mem (m_nodes s) (m_workloads s) (<[w := ps]> (m_placements s))
                                  (m_projects s) (m_services s), None);
|}.

#[export] Instance mem_projects : ProjectStore mem := {| ListProjects s := Ok (m_projects s) |}.

#[export] Instance mem_services : ServiceStore mem := {|
  ListServices s p := Ok (default [] (m_services s !! p));
|}.

#[export] Instance mem_placement_laws : PlacementLaws mem.
Proof.
  split.
  - intros s s' w ps [= <-]. cbn. by rewrite lookup_insert_eq.
  - intros s s' w w' ps e [= <- <-] Hne. cbn. by rewrite lookup_insert_ne.
Qed.

#[export] Instance mem_workload_laws : WorkloadLaws mem.
Proof. split. intros s s' w [= <-]. cbn. by rewrite lookup_insert_eq. Qed.

#[export] Instance mem_node_laws : NodeLaws mem.
Proof. split. intros s s' n [= <-]. cbn. by rewrite lookup_insert_eq. Qed.

#[export] Instance mem_frame_laws : FrameLaws mem.
Proof. split. by intros s s' w w' e [= <- _]. Qed.
