(* ===== verification/Raft.v ===== *)
(** * Package db: the Raft-logged key-value store

    Models internal/primitives/db/kv.go and internal/primitives/db/raft.go: the
    in-memory [store], the journaled [raft] node over it (open, recovery,
    snapshots, the state machine, the KV operations, watches, membership,
    replication and the timer loop).

    What the environment decides is an argument: the clock ([now]), the result
    of a journal or snapshot file operation ([journal_io], [snap_io]) and the
    set of peers whose acknowledgement arrives before the replication timer
    ([acks]).  The files are modelled at the granularity of JSON records. *)

From S2P Require Import Prelude.

(** ** Data (kv.go) *)

Record Entry := mk_Entry {
  eKey : string; eValue : string; eVersion : Z; eDeleted : bool; eCreatedAt : Time;
}.

Record WatchOptions := { wPrefix : string; wSince : Z; wTimeout : Duration }.

Record Snapshot := { sRevision : Z; sEntries : list Entry }.

Record Peer := { pID : string; pAddress : string }.

Record Config := {
  cNodeID : string; cDataDir : string; cListen : string;
  cBootstrap : bool; cPeers : list Peer;
}.

Definition ErrNotFound : error := "kv: key not found".
Definition ErrCASMismatch : error := "kv: cas version mismatch".
Definition ErrReplTimeout : error := "db: replication timeout".

(** ** Data (raft.go) *)

Inductive role := roleFollower | roleCandidate | roleLeader.

(** The [Op] field of a log entry holds "put" or "del". *)
Inductive op := op_put | op_del.

Record logEntry := mk_logEntry {
  lIndex : Z; lTerm : Z; lOp : op; lKey : string; lValue : string; lVersion : Z;
}.

Record raftSnapshot := { snTerm : Z; snIndex : Z; snState : gmap string Entry }.

Record store := mk_store { entries : gmap string Entry; version : Z }.

Definition empty_store : store := mk_store ∅ 0.

(** A watcher's buffered channel (capacity 256), with the snapshot entries its
    replay goroutine has still to send. *)
Record watcher := mk_watcher {
  w_prefix : string; w_buf : list Entry; w_closed : bool; w_replay : list Entry;
}.
Definition watch_cap : nat := 256.

(** The two files under DataDir: journal.jsonl, a sequence of records possibly
    followed by bytes that do not decode, and snap.json. *)
Inductive snap_file := SnapAbsent | SnapUndecodable | SnapGood (s : raftSnapshot).
Record disk := mk_disk {
  f_journal : list logEntry; f_garbage : bool; f_snap : snap_file;
}.

Record raft := mk_raft {
  cfg : Config;
  role_ : role;
  currentTerm : Z;
  votedFor : string;
  log : list logEntry;
  commitIndex : Z;
  lastApplied : Z;
  peers : list Peer;
  nextIndex : gmap string Z;
  matchIndex : gmap string Z;
  st : store;
  journal_open : bool;
  applyCh : bool;
  stopped : bool;
  applyQueue : list Entry;
  watchers : gmap string (list watcher);
  puts : Z;
  dels : Z;
  applied : Z;
  files : disk;
}.

Definition set_cfg (v : Config) (r : raft) : raft :=
  mk_raft v (role_ r) (currentTerm r) (votedFor r) (log r) (commitIndex r) (lastApplied r) (peers r) (nextIndex r) (matchIndex r) (st r) (journal_open r) (applyCh r) (stopped r) (applyQueue r) (watchers r) (puts r) (dels r) (applied r) (files r).
Definition set_role (v : role) (r : raft) : raft :=
  mk_raft (cfg r) v (currentTerm r) (votedFor r) (log r) (commitIndex r) (lastApplied r) (peers r) (nextIndex r) (matchIndex r) (st r) (journal_open r) (applyCh r) (stopped r) (applyQueue r) (watchers r) (puts r) (dels r) (applied r) (files r).
Definition set_currentTerm (v : Z) (r : raft) : raft :=
  mk_raft (cfg r) (role_ r) v (votedFor r) (log r) (commitIndex r) (lastApplied r) (peers r) (nextIndex r) (matchIndex r) (st r) (journal_open r) (applyCh r) (stopped r) (applyQueue r) (watchers r) (puts r) (dels r) (applied r) (files r).
Definition set_votedFor (v : string) (r : raft) : raft :=
  mk_raft (cfg r) (role_ r) (currentTerm r) v (log r) (commitIndex r) (lastApplied r) (peers r) (nextIndex r) (matchIndex r) (st r) (journal_open r) (applyCh r) (stopped r) (applyQueue r) (watchers r) (puts r) (dels r) (applied r) (files r).
Definition set_log (v : list logEntry) (r : raft) : raft :=
  mk_raft (cfg r) (role_ r) (currentTerm r) (votedFor r) v (commitIndex r) (lastApplied r) (peers r) (nextIndex r) (matchIndex r) (st r) (journal_open r) (applyCh r) (stopped r) (applyQueue r) (watchers r) (puts r) (dels r) (applied r) (files r).
Definition set_commitIndex (v : Z) (r : raft) : raft :=
  mk_raft (cfg r) (role_ r) (currentTerm r) (votedFor r) (log r) v (lastApplied r) (peers r) (nextIndex r) (matchIndex r) (st r) (journal_open r) (applyCh r) (stopped r) (applyQueue r) (watchers r) (puts r) (dels r) (applied r) (files r).
Definition set_lastApplied (v : Z) (r : raft) : raft :=
  mk_raft (cfg r) (role_ r) (currentTerm r) (votedFor r) (log r) (commitIndex r) v (peers r) (nextIndex r) (matchIndex r) (st r) (journal_open r) (applyCh r) (stopped r) (applyQueue r) (watchers r) (puts r) (dels r) (applied r) (files r).
Definition set_peers (v : list Peer) (r : raft) : raft :=
  mk_raft (cfg r) (role_ r) (currentTerm r) (votedFor r) (log r) (commitIndex r) (lastApplied r) v (nextIndex r) (matchIndex r) (st r) (journal_open r) (applyCh r) (stopped r) (applyQueue r) (watchers r) (puts r) (dels r) (applied r) (files r).
Definition set_nextIndex (v : gmap string Z) (r : raft) : raft :=
  mk_raft (cfg r) (role_ r) (currentTerm r) (votedFor r) (log r) (commitIndex r) (lastApplied r) (peers r) v (matchIndex r) (st r) (journal_open r) (applyCh r) (stopped r) (applyQueue r) (watchers r) (puts r) (dels r) (applied r) (files r).
Definition set_matchIndex (v : gmap string Z) (r : raft) : raft :=
  mk_raft (cfg r) (role_ r) (currentTerm r) (votedFor r) (log r) (commitIndex r) (lastApplied r) (peers r) (nextIndex r) v (st r) (journal_open r) (applyCh r) (stopped r) (applyQueue r) (watchers r) (puts r) (dels r) (applied r) (files r).
Definition set_st (v : store) (r : raft) : raft :=
  mk_raft (cfg r) (role_ r) (currentTerm r) (votedFor r) (log r) (commitIndex r) (lastApplied r) (peers r) (nextIndex r) (matchIndex r) v (journal_open r) (applyCh r) (stopped r) (applyQueue r) (watchers r) (puts r) (dels r) (applied r) (files r).
Definition set_journal_open (v : bool) (r : raft) : raft :=
  mk_raft (cfg r) (role_ r) (currentTerm r) (votedFor r) (log r) (commitIndex r) (lastApplied r) (peers r) (nextIndex r) (matchIndex r) (st r) v (applyCh r) (stopped r) (applyQueue r) (watchers r) (puts r) (dels r) (applied r) (files r).
Definition set_applyCh (v : bool) (r : raft) : raft :=
  mk_raft (cfg r) (role_ r) (currentTerm r) (votedFor r) (log r) (commitIndex r) (lastApplied r) (peers r) (nextIndex r) (matchIndex r) (st r) (journal_open r) v (stopped r) (applyQueue r) (watchers r) (puts r) (dels r) (applied r) (files r).
Definition set_stopped (v : bool) (r : raft) : raft :=
  mk_raft (cfg r) (role_ r) (currentTerm r) (votedFor r) (log r) (commitIndex r) (lastApplied r) (peers r) (nextIndex r) (matchIndex r) (st r) (journal_open r) (applyCh r) v (applyQueue r) (watchers r) (puts r) (dels r) (applied r) (files r).
Definition set_applyQueue (v : list Entry) (r : raft) : raft :=
  mk_raft (cfg r) (role_ r) (currentTerm r) (votedFor r) (log r) (commitIndex r) (lastApplied r) (peers r) (nextIndex r) (matchIndex r) (st r) (journal_open r) (applyCh r) (stopped r) v (watchers r) (puts r) (dels r) (applied r) (files r).
Definition set_watchers (v : gmap string (list watcher)) (r : raft) : raft :=
  mk_raft (cfg r) (role_ r) (currentTerm r) (votedFor r) (log r) (commitIndex r) (lastApplied r) (peers r) (nextIndex r) (matchIndex r) (st r) (journal_open r) (applyCh r) (stopped r) (applyQueue r) v (puts r) (dels r) (applied r) (files r).
Definition set_puts (v : Z) (r : raft) : raft :=
  mk_raft (cfg r) (role_ r) (currentTerm r) (votedFor r) (log r) (commitIndex r) (lastApplied r) (peers r) (nextIndex r) (matchIndex r) (st r) (journal_open r) (applyCh r) (stopped r) (applyQueue r) (watchers r) v (dels r) (applied r) (files r).
Definition set_dels (v : Z) (r : raft) : raft :=
  mk_raft (cfg r) (role_ r) (currentTerm r) (votedFor r) (log r) (commitIndex r) (lastApplied r) (peers r) (nextIndex r) (matchIndex r) (st r) (journal_open r) (applyCh r) (stopped r) (applyQueue r) (watchers r) (puts r) v (applied r) (files r).
Definition set_applied (v : Z) (r : raft) : raft :=
  mk_raft (cfg r) (role_ r) (currentTerm r) (votedFor r) (log r) (commitIndex r) (lastApplied r) (peers r) (nextIndex r) (matchIndex r) (st r) (journal_open r) (applyCh r) (stopped r) (applyQueue r) (watchers r) (puts r) (dels r) v (files r).
Definition set_files (v : disk) (r : raft) : raft :=
  mk_raft (cfg r) (role_ r) (currentTerm r) (votedFor r) (log r) (commitIndex r) (lastApplied r) (peers r) (nextIndex r) (matchIndex r) (st r) (journal_open r) (applyCh r) (stopped r) (applyQueue r) (watchers r) (puts r) (dels r) (applied r) v.

Definition set_entries (m : gmap string Entry) (r : raft) : raft :=
  set_st (mk_store m (version (st r))) r.
Definition set_journal (l : list logEntry) (r : raft) : raft :=
  set_files (mk_disk l (f_garbage (files r)) (f_snap (files r))) r.

(** ** The in-memory store *)

Definition get (s : store) (key : string) : option Entry := entries s !! key.

Definition put (s : store) (key : string) (e : Entry) : store * Z :=
  let v := match entries s !! key with
           | Some cur => u64 (eVersion cur + 1)
           | None => 1%Z
           end in
  (mk_store (<[key := mk_Entry (eKey e) (eValue e) v (eDeleted e) (eCreatedAt e)]> (entries s))
            (u64 (version s + 1)), v).

Definition del (s : store) (key : string) : store * Z :=
  let v := match entries s !! key with
           | Some cur => u64 (eVersion cur + 1)
           | None => 0%Z
           end in
  (mk_store (delete key (entries s)) (u64 (version s + 1)), v).

(** ** The state machine *)

Definition hasPrefix (s p : string) : bool :=
  if bool_decide (p = "") then true
  else bool_decide (String.length p ≤ String.length s) &&
       bool_decide (string_take (String.length p) s = p).

(** [applyLocked]: an entry at or below [lastApplied] is ignored. *)
Definition apply_store (now : Time) (s : store) (e : logEntry) : store :=
  match lOp e with
  | op_put => mk_store (<[lKey e := mk_Entry (lKey e) (lValue e) (lVersion e) false now]> (entries s))
                       (u64 (version s + 1))
  | op_del => mk_store (delete (lKey e) (entries s)) (u64 (version s + 1))
  end.

Definition apply_event (now : Time) (s : store) (e : logEntry) : list Entry :=
  match lOp e with
  | op_put => option_list (get s (lKey e))
  | op_del => [mk_Entry (lKey e) "" (lVersion e) true now]
  end.

Definition applyLocked (now : Time) (r : raft) (e : logEntry) : raft :=
  if (lIndex e <=? lastApplied r)%Z then r
  else
    let r := set_lastApplied (lIndex e) r in
    let r := set_st (apply_store now (st r) e) r in
    let r := set_applyQueue (applyQueue r ++ apply_event now (st r) e) r in
    let r := set_applied (u64 (applied r + 1)) r in
    set_applyCh true r.

(** One non-blocking send to one watcher. *)
Definition deliver (ev : Entry) (w : watcher) : go watcher :=
  if negb (hasPrefix (eKey ev) (w_prefix w)) then Ret w
  else if w_closed w then Panic
  else if bool_decide (length (w_buf w) < watch_cap)
       then Ret (mk_watcher (w_prefix w) (w_buf w ++ [ev]) (w_closed w) (w_replay w))
       else Ret w.

Fixpoint deliver_all (ev : Entry) (ws : list watcher) : go (list watcher) :=
  match ws with
  | [] => Ret []
  | w :: ws =>
      go_bind (deliver ev w) (λ w', go_bind (deliver_all ev ws) (λ ws', Ret (w' :: ws')))
  end.

(** [fanout] visits every group of watchers; a send to a closed channel in any
    of them panics. *)
Fixpoint fanout_groups (ev : Entry) (gs : list (string * list watcher))
    (acc : gmap string (list watcher)) : go (gmap string (list watcher)) :=
  match gs with
  | [] => Ret acc
  | (p, ws) :: gs =>
      go_bind (deliver_all ev ws) (λ ws', fanout_groups ev gs (<[p := ws']> acc))
  end.

Definition fanout (r : raft) (ev : Entry) : go raft :=
  go_bind (fanout_groups ev (map_to_list (watchers r)) (watchers r))
          (λ m, Ret (set_watchers m r)).

Fixpoint fanout_list (r : raft) (evs : list Entry) : go raft :=
  match evs with
  | [] => Ret r
  | ev :: evs => go_bind (fanout r ev) (λ r, fanout_list r evs)
  end.

Definition applyFromQueue (r : raft) : go raft :=
  fanout_list (set_applyQueue [] r) (applyQueue r).

(** ** Persistence *)

Inductive journal_io := IoOk | WriteFails (e : error) | SyncFails (e : error).
Definition ErrClosed : error := "file already closed".

(** The journal as the list of records; [RaftFile] has the bytes [json.Marshal]
    and the decoder make of it, which for keys that are not UTF-8 are others. *)
Definition append (io : journal_io) (r : raft) (e : logEntry) : raft * logEntry * option error :=
  let term := if (currentTerm r =? 0)%Z then 1%Z else currentTerm r in
  let e := mk_logEntry (u64 (u64 (Z.of_nat (length (log r))) + 1)) term
                       (lOp e) (lKey e) (lValue e) (lVersion e) in
  let r := set_currentTerm term r in
  let r := set_log (log r ++ [e]) r in
  if negb (journal_open r) then (r, e, Some ErrClosed)
  else match io with
       | WriteFails err => (r, e, Some err)
       | SyncFails err => (set_journal (f_journal (files r) ++ [e]) r, e, Some err)
       | IoOk => (set_journal (f_journal (files r) ++ [e]) r, e, None)
       end.

Inductive snap_io := SnapIoOk | SnapTmpFails | SnapCloseFails | SnapRenameFails | SnapReopenFails.

(** [snapshot]: write the state to a temporary file, close the journal, rename,
    and reopen the journal truncated.  A failure from the close on leaves the
    journal closed: [os.File.Close] gives the file up even when it reports an
    error.  The steps of [RaftConc] separate these actions. *)
Definition snapshot (io : snap_io) (r : raft) : raft * bool :=
  let snap := {| snTerm := currentTerm r; snIndex := version (st r); snState := entries (st r) |} in
  if negb (journal_open r) then (r, false)
  else match io with
  | SnapTmpFails => (r, false)
  | SnapCloseFails => (set_journal_open false r, false)
  | SnapRenameFails => (set_journal_open false r, false)
  | SnapReopenFails =>
      (set_journal_open false
         (set_files (mk_disk (f_journal (files r)) (f_garbage (files r)) (SnapGood snap)) r), false)
  | SnapIoOk => (set_files (mk_disk [] false (SnapGood snap)) r, true)
  end.

(** One record of the journal replay of [recover]. *)
Definition recover_record (now : Time) (r : raft) (e : logEntry) : raft :=
  let r := set_log (log r ++ [e]) r in
  let r := if (currentTerm r <? lTerm e)%Z then set_currentTerm (lTerm e) r else r in
  let r := if (commitIndex r <? lIndex e)%Z && bool_decide (length (peers r) = 1)
           then set_commitIndex (lIndex e) r else r in
  applyLocked now r e.

Definition recover_snap (r : raft) : raft :=
  match f_snap (files r) with
  | SnapGood s =>
      let r := set_st (mk_store (snState s) (snIndex s)) r in
      let r := set_commitIndex (snIndex s) r in
      set_lastApplied (snIndex s) r
  | SnapAbsent | SnapUndecodable => r
  end.

Definition ErrDecode : error := "journal does not decode".

Definition recover (now : Time) (r : raft) : res raft :=
  let r := set_journal_open true r in
  let r := foldl (recover_record now) r (f_journal (files r)) in
  if f_garbage (files r) then Err ErrDecode
  else Ok (recover_snap r).

(** ** Opening *)

Definition containsPeer (r : raft) (p : Peer) : bool :=
  existsb (λ x, bool_decide (pID x = pID p)) (peers r).

Definition new_raft (c : Config) (d : disk) : raft :=
  mk_raft c roleFollower 0 "" [] 0 0 (cPeers c) ∅ ∅ empty_store false false false [] ∅ 0 0 0 d.

Definition init_indexes (r : raft) : raft :=
  foldl (λ r p, set_matchIndex (<[pID p := 0%Z]> (matchIndex r))
                  (set_nextIndex (<[pID p := 1%Z]> (nextIndex r)) r)) r (peers r).

(** [openRaft] on a data directory that can be created and opened, with the
    files [d] in it.  The goroutine it starts runs beside the callers: its rounds
    are [run_step] below, which [RaftSpec.run_node] takes in any order with the
    operations, and [RaftConc] has it as a thread of its own. *)
Definition openRaft (now : Time) (c : Config) (d : disk) : res raft :=
  if bool_decide (cNodeID c = "") then Err "db: NodeID required"
  else if bool_decide (cDataDir c = "") then Err "db: DataDir required"
  else
    let r := new_raft c d in
    let self := {| pID := cNodeID c; pAddress := cListen c |} in
    let r := if containsPeer r self then r else set_peers (peers r ++ [self]) r in
    let r := init_indexes r in
    match recover now r with
    | Err e => Err ("recover: " +:+ e)
    | Ok r =>
        if cBootstrap c && (currentTerm r =? 0)%Z
        then Ok (set_votedFor (cNodeID c) (set_currentTerm 1 r))
        else Ok r
    end.

(** ** Replication *)

(** Acknowledgements received before the timer: this node's own, plus those of
    the peers named in [acks], each at most once. *)
Definition ack_count (r : raft) (acks : list string) : nat :=
  length (filter (λ p, pID p = cNodeID (cfg r) ∨ pID p ∈ acks) (peers r)).

Definition quorum (r : raft) : nat := length (peers r) / 2 + 1.

Definition replicate (now : Time) (acks : list string) (r : raft) (e : logEntry) :
    go (raft * option error) :=
  if bool_decide (length (peers r) = 1) then
    let r := set_commitIndex (lIndex e) r in
    go_bind (applyFromQueue (applyLocked now r e)) (λ r, Ret (r, None))
  else if bool_decide (quorum r ≤ ack_count r acks) then
    let r := if (commitIndex r <? lIndex e)%Z then set_commitIndex (lIndex e) r else r in
    go_bind (applyFromQueue (applyLocked now r e)) (λ r, Ret (r, None))
  else Ret (r, Some ErrReplTimeout).

(** ** KV operations

    Each mutating operation reads the store, then appends, then replicates;
    the locks are released between these parts, so each part is a definition of
    its own and the operation is their composition. *)

Record env := { e_now : Time; e_io : journal_io; e_acks : list string }.

Definition put_entry (r : raft) (key value : string) : logEntry :=
  let v := match entries (st r) !! key with
           | Some cur => u64 (eVersion cur + 1)
           | None => 1%Z
           end in
  mk_logEntry 0 0 op_put key value v.

(** The common tail of the three mutations: append, then replicate. *)
Definition commit_entry (x : env) (r : raft) (e : logEntry) : go (raft * option error) :=
  match append (e_io x) r e with
  | (r, _, Some err) => Ret (r, Some err)
  | (r, e, None) => replicate (e_now x) (e_acks x) r e
  end.

Definition Get (r : raft) (key : string) : res Entry :=
  match get (st r) key with
  | None => Err ErrNotFound
  | Some e => Ok e
  end.

(** [Put] returns the entry now stored, which may be none. *)
Definition Put (x : env) (r : raft) (key value : string) : go (raft * res (option Entry)) :=
  go_bind (commit_entry x r (put_entry r key value)) (λ '(r, err),
    match err with
    | Some e => Ret (r, Err e)
    | None => Ret (set_puts (u64 (puts r + 1)) r, Ok (get (st r) key))
    end).

Definition Delete (x : env) (r : raft) (key : string) : go (raft * res unit) :=
  go_bind (commit_entry x r (mk_logEntry 0 0 op_del key "" 0)) (λ '(r, err),
    match err with
    | Some e => Ret (r, Err e)
    | None => Ret (set_dels (u64 (dels r + 1)) r, Ok ())
    end).

(** The check of [CompareAndSwap]: the entry to append, or the mismatch. *)
Definition cas_check (r : raft) (key value : string) (expect : Z) : res logEntry :=
  match entries (st r) !! key with
  | Some cur =>
      if (eVersion cur =? expect)%Z
      then Ok (mk_logEntry 0 0 op_put key value (u64 (expect + 1)))
      else Err ErrCASMismatch
  | None =>
      if (expect =? 0)%Z then Ok (mk_logEntry 0 0 op_put key value 1)
      else Err ErrCASMismatch
  end.

(** The rest of [CompareAndSwap] once the check has passed. *)
Definition cas_finish (x : env) (r : raft) (key : string) (e : logEntry) :
    go (raft * res (option Entry)) :=
  go_bind (commit_entry x r e) (λ '(r, err),
    match err with
    | Some e => Ret (r, Err e)
    | None => Ret (r, Ok (get (st r) key))
    end).

Definition CompareAndSwap (x : env) (r : raft) (key value : string) (expect : Z) :
    go (raft * res (option Entry)) :=
  match cas_check r key value expect with
  | Err e => Ret (r, Err e)
  | Ok e => cas_finish x r key e
  end.

Definition entry_less (a b : Entry) : bool := string_ltb (eKey a) (eKey b).

Definition List (r : raft) (prefix : string) : list Entry :=
  sort_slice entry_less
    (snd <$> filter (λ kv, hasPrefix kv.1 prefix = true) (map_to_list (entries (st r)))).

Definition Snapshot_ (r : raft) (prefix : string) : Snapshot :=
  {| sRevision := version (st r); sEntries := List r prefix |}.

(** [Watch] registers the channel, then starts the replay of the current
    entries. *)
Definition Watch (r : raft) (opts : WatchOptions) : raft :=
  let p := wPrefix opts in
  let w := mk_watcher p [] false (List r p) in
  set_watchers (<[p := default [] (watchers r !! p) ++ [w]]> (watchers r)) r.

(** One send of the replay goroutine: it blocks while the buffer is full. *)
Definition replay_step (w : watcher) : option (go watcher) :=
  match w_replay w with
  | [] => None
  | e :: rest =>
      if w_closed w then Some Panic
      else if bool_decide (length (w_buf w) < watch_cap)
           then Some (Ret (mk_watcher (w_prefix w) (w_buf w ++ [e]) false rest))
           else None
  end.

(** The timeout goroutine of a watch closes the channel. *)
Definition watch_timeout (w : watcher) : watcher :=
  mk_watcher (w_prefix w) (w_buf w) true (w_replay w).

(** The timer of the [i]-th watcher registered under [p] fires. *)
Definition expire (r : raft) (p : string) (i : nat) : raft :=
  set_watchers (alter (alter watch_timeout i) p (watchers r)) r.

Definition Close (r : raft) : go raft :=
  if stopped r then Panic
  else Ret (set_journal_open false (set_stopped true r)).

(** ** Membership *)

Definition AddPeer (r : raft) (p : Peer) : raft :=
  if containsPeer r p then r
  else
    let r := set_peers (peers r ++ [p]) r in
    let r := set_nextIndex (<[pID p := u64 (Z.of_nat (length (log r)) + 1)]> (nextIndex r)) r in
    set_matchIndex (<[pID p := 0%Z]> (matchIndex r)) r.

Definition RemovePeer (r : raft) (id : string) : raft :=
  let r := set_peers (filter (λ p, pID p ≠ id) (peers r)) r in
  set_matchIndex (delete id (matchIndex r)) (set_nextIndex (delete id (nextIndex r)) r).

Definition Peers (r : raft) : list Peer := peers r.

(** ** The timer loop *)

Inductive run_event := EvElection | EvApply.

Definition run_snapshot (io : snap_io) (r : raft) : raft :=
  if (applied r mod 256 =? 0)%Z && (0 <? applied r)%Z then fst (snapshot io r) else r.

(** One iteration of [run] on a timer or apply event. *)
Definition run_step (io : snap_io) (ev : run_event) (r : raft) : go raft :=
  match ev with
  | EvElection =>
      let r := set_role roleCandidate r in
      let r := set_currentTerm (u64 (currentTerm r + 1)) r in
      let r := set_votedFor (cNodeID (cfg r)) r in
      let r := if bool_decide (length (peers r) = 1) then set_role roleLeader r else r in
      Ret (run_snapshot io r)
  | EvApply =>
      go_bind (applyFromQueue (set_applyCh false r)) (λ r, Ret (run_snapshot io r))
  end.

Definition electionTimeout : Duration := (1500 * millisecond)%Z.
