(* ===== verification/RaftSpec.v ===== *)
(** * Package db: abstract specification and correctness of the store

    The abstract store is a map from keys to a value and a version.  A
    single-node [raft] whose applied index has caught up with its log
    ([ready]) refines it; as long as no snapshot is taken the journal restores
    it on restart ([durable]).  The remaining theorems say what happens outside
    these conditions: after a restart from a snapshot, when the parts of two
    operations interleave, and after a watch has timed out. *)

From S2P Require Import Prelude Raft.

(** ** The abstract store *)

Abbreviation spec := (gmap string (string * Z)).

Definition spec_version (m : spec) (k : string) : Z :=
  match m !! k with Some (_, v) => v | None => 0%Z end.

Definition spec_put (m : spec) (k v : string) : spec :=
  <[k := (v, (spec_version m k + 1)%Z)]> m.

Definition abs_entry (e : Entry) : string * Z := (eValue e, eVersion e).
Definition abs (r : raft) : spec := abs_entry <$> entries (st r).

Inductive kv_op :=
| OpGet (k : string)
| OpPut (k v : string)
| OpDel (k : string)
| OpCas (k v : string) (expect : Z)
| OpList (p : string).

Inductive kv_ret :=
| RGet (r : res (string * Z))
| RWrite (r : res (option (string * Z)))
| RDel (r : res unit)
| RList (l : list (string * (string * Z))).

Definition spec_list (m : spec) (p : string) : list (string * (string * Z)) :=
  sort_slice (λ a b, string_ltb a.1 b.1)
    (filter (λ kv, hasPrefix kv.1 p = true) (map_to_list m)).

Definition spec_op (m : spec) (o : kv_op) : spec * kv_ret :=
  match o with
  | OpGet k => (m, RGet (match m !! k with Some x => Ok x | None => Err ErrNotFound end))
  | OpPut k v => let m' := spec_put m k v in (m', RWrite (Ok (m' !! k)))
  | OpDel k => (delete k m, RDel (Ok ()))
  | OpCas k v x =>
      if (spec_version m k =? x)%Z && bool_decide (m !! k = None → x = 0%Z)
      then let m' := spec_put m k v in (m', RWrite (Ok (m' !! k)))
      else (m, RWrite (Err ErrCASMismatch))
  | OpList p => (m, RList (spec_list m p))
  end.

Fixpoint run_spec (m : spec) (ops : list kv_op) : spec * list kv_ret :=
  match ops with
  | [] => (m, [])
  | o :: ops =>
      let '(m, x) := spec_op m o in
      let '(m, xs) := run_spec m ops in (m, x :: xs)
  end.

(** ** The implementation under the same interface *)

Definition good_env (now : Time) : env := {| e_now := now; e_io := IoOk; e_acks := [] |}.

Definition view_write (x : res (option Entry)) : kv_ret :=
  RWrite (match x with Ok e => Ok (abs_entry <$> e) | Err e => Err e end).

Definition impl_op (x : env) (r : raft) (o : kv_op) : go (raft * kv_ret) :=
  match o with
  | OpGet k =>
      Ret (r, RGet (match Get r k with Ok e => Ok (abs_entry e) | Err e => Err e end))
  | OpPut k v => go_bind (Put x r k v) (λ '(r, y), Ret (r, view_write y))
  | OpDel k => go_bind (Delete x r k) (λ '(r, y), Ret (r, RDel y))
  | OpCas k v n => go_bind (CompareAndSwap x r k v n) (λ '(r, y), Ret (r, view_write y))
  | OpList p => Ret (r, RList ((λ e, (eKey e, abs_entry e)) <$> List r p))
  end.

(** What happens at a single node: an operation of a client, at a time and with
    an outcome of its journal write; an iteration of the background loop that
    [openRaft] starts, with an outcome of the snapshot it may take; a watch. *)
Inductive node_event :=
| NOp (now : Time) (io : journal_io) (o : kv_op)
| NLoop (io : snap_io) (ev : run_event)
| NWatch (opts : WatchOptions).

(** One event, and the answer of an operation. *)
Definition node_step (r : raft) (ev : node_event) : go (raft * list kv_ret) :=
  match ev with
  | NOp now io o =>
      go_bind (impl_op {| e_now := now; e_io := io; e_acks := [] |} r o) (λ '(r, x), Ret (r, [x]))
  | NLoop io ev => go_bind (run_step io ev r) (λ r, Ret (r, []))
  | NWatch opts => Ret (Watch r opts, [])
  end.

Fixpoint run_node (r : raft) (evs : list node_event) : go (raft * list kv_ret) :=
  match evs with
  | [] => Ret (r, [])
  | ev :: evs =>
      go_bind (node_step r ev) (λ '(r, x),
        go_bind (run_node r evs) (λ '(r, xs), Ret (r, x ++ xs)))
  end.

(** ** Invariants *)

Definition open_watchers (m : gmap string (list watcher)) : Prop :=
  map_Forall (λ _ ws, Forall (λ w, w_closed w = false) ws) m.

Definition entries_wf (n : nat) (m : gmap string Entry) : Prop :=
  map_Forall (λ k e, eKey e = k ∧ (1 ≤ eVersion e ≤ Z.of_nat n)%Z) m.

(** A single node, open for writing, whose applied index is the log's end. *)
Record ready (r : raft) : Prop := {
  rdy_peers : length (peers r) = 1;
  rdy_applied : lastApplied r = Z.of_nat (length (log r));
  rdy_journal : journal_open r = true;
  rdy_watchers : open_watchers (watchers r);
  rdy_entries : entries_wf (length (log r)) (entries (st r));
}.

(** A single node at any time: failed writes have left entries in the log that
    were never applied, and the journal may be closed. *)
Record running (r : raft) : Prop := {
  run_peers : length (peers r) = 1;
  run_applied : (lastApplied r ≤ Z.of_nat (length (log r)))%Z;
  run_watchers : open_watchers (watchers r);
  run_entries : entries_wf (length (log r)) (entries (st r));
}.

Lemma ready_running r : ready r → running r.
Proof. intros [Hp Ha _ Hw He]. split; try done. by rewrite Ha. Qed.

(** The journal file holds the log, and the store is the replay of the log. *)
Definition spec_apply (m : spec) (e : logEntry) : spec :=
  match lOp e with
  | op_put => <[lKey e := (lValue e, lVersion e)]> m
  | op_del => delete (lKey e) m
  end.
Definition spec_replay (l : list logEntry) : spec := foldl spec_apply ∅ l.

Definition indexed (l : list logEntry) : Prop :=
  ∀ i e, l !! i = Some e → lIndex e = (Z.of_nat i + 1)%Z.

Record durable (r : raft) : Prop := {
  dur_journal : f_journal (files r) = log r;
  dur_garbage : f_garbage (files r) = false;
  dur_snap : f_snap (files r) = SnapAbsent;
  dur_index : indexed (log r);
  dur_store : abs r = spec_replay (log r);
  dur_versions : Forall (λ e, lOp e = op_put → 1 ≤ lVersion e ≤ Z.of_nat (length (log r)))%Z (log r);
}.

(** ** Watch delivery *)

Lemma deliver_open ev w :
  w_closed w = false → ∃ w', deliver ev w = Ret w' ∧ w_closed w' = false.
Proof.
  unfold deliver. intros H. rewrite H.
  destruct (negb _); [eauto|]. case_bool_decide; eauto.
Qed.

Lemma deliver_all_open ev ws :
  Forall (λ w, w_closed w = false) ws →
  ∃ ws', deliver_all ev ws = Ret ws' ∧ Forall (λ w, w_closed w = false) ws'.
Proof.
  induction 1 as [|w ws Hw _ (ws' & IH & IHf)]; cbn; [eauto|].
  destruct (deliver_open ev w Hw) as (w' & -> & ?). cbn. rewrite IH. cbn. eauto.
Qed.

Lemma fanout_groups_open ev gs acc :
  Forall (λ g, Forall (λ w, w_closed w = false) g.2) gs →
  open_watchers acc →
  ∃ m, fanout_groups ev gs acc = Ret m ∧ open_watchers m.
Proof.
  intros Hgs. revert acc. induction Hgs as [|[p ws] gs Hws _ IH]; intros acc Hacc; cbn; [eauto|].
  destruct (deliver_all_open ev ws Hws) as (ws' & -> & ?). cbn.
  apply IH. by apply map_Forall_insert_2.
Qed.

Lemma set_watchers_set m m' r : set_watchers m (set_watchers m' r) = set_watchers m r.
Proof. done. Qed.

Lemma fanout_open ev r :
  open_watchers (watchers r) →
  ∃ m, fanout r ev = Ret (set_watchers m r) ∧ open_watchers m.
Proof.
  intros H. unfold fanout.
  destruct (fanout_groups_open ev (map_to_list (watchers r)) (watchers r)) as (m & -> & ?);
    [|done|eauto].
  apply Forall_forall. intros [p ws] Hin%elem_of_map_to_list. by apply (H p).
Qed.

Lemma fanout_list_open evs r :
  open_watchers (watchers r) →
  ∃ m, fanout_list r evs = Ret (set_watchers m r) ∧ open_watchers m.
Proof.
  revert r. induction evs as [|ev evs IH]; intros r H; cbn.
  { exists (watchers r). by destruct r. }
  destruct (fanout_open ev r H) as (m & -> & Hm). cbn.
  destruct (IH (set_watchers m r) Hm) as (m' & -> & ?). eauto.
Qed.

(** ** One committed entry *)

(** The log entry as [append] writes it. *)
Definition stamped (r : raft) (e : logEntry) : logEntry :=
  mk_logEntry (Z.of_nat (length (log r)) + 1)
    (if (currentTerm r =? 0)%Z then 1%Z else currentTerm r)
    (lOp e) (lKey e) (lValue e) (lVersion e).

Definition small (r : raft) : Prop := (Z.of_nat (length (log r)) + 1 < 2 ^ 64)%Z.

(** What a successful append and replication change. *)
Record committed (now : Time) (r : raft) (e : logEntry) (r' : raft) : Prop := {
  cm_log : log r' = log r ++ [stamped r e];
  cm_st : st r' = apply_store now (st r) e;
  cm_peers : peers r' = peers r;
  cm_applied : lastApplied r' = (Z.of_nat (length (log r)) + 1)%Z;
  cm_commit : commitIndex r' = (Z.of_nat (length (log r)) + 1)%Z;
  cm_open : journal_open r' = true;
  cm_files : files r' = mk_disk (f_journal (files r) ++ [stamped r e])
                                (f_garbage (files r)) (f_snap (files r));
  cm_cfg : cfg r' = cfg r;
  cm_watchers : open_watchers (watchers r');
  cm_count : applied r' = u64 (applied r + 1);
  cm_queue : applyQueue r' = [];
  cm_term : currentTerm r' = if (currentTerm r =? 0)%Z then 1%Z else currentTerm r;
}.

Lemma append_index r :
  small r → u64 (u64 (Z.of_nat (length (log r))) + 1) = (Z.of_nat (length (log r)) + 1)%Z.
Proof.
  unfold small. intros H. rewrite (u64_id (Z.of_nat _)) by (unfold in_u64; lia).
  apply u64_id. unfold in_u64. lia.
Qed.

Lemma commit_running now r e :
  running r → journal_open r = true → small r →
  ∃ r', commit_entry (good_env now) r e = Ret (r', None) ∧ committed now r e r'.
Proof.
  intros [Hp Ha Hw He] Hj Hs. unfold commit_entry, append. cbn -[u64].
  rewrite Hj. cbn -[u64]. rewrite (append_index _ Hs).
  unfold replicate. cbn -[u64 applyLocked applyFromQueue].
  rewrite bool_decide_true by done.
  unfold applyLocked. cbn -[u64 applyFromQueue].
  destruct (Z.leb_spec (Z.of_nat (length (log r)) + 1) (lastApplied r)); [lia|].
  unfold applyFromQueue. cbn -[u64 fanout_list].
  match goal with |- context [fanout_list ?r0 ?evs] =>
    destruct (fanout_list_open evs r0) as (m & -> & Hm); [done|] end.
  cbn -[u64]. eexists; split; [done|]. by split.
Qed.

Lemma commit_ready now r e :
  ready r → small r →
  ∃ r', commit_entry (good_env now) r e = Ret (r', None) ∧ committed now r e r'.
Proof. intros Hr. apply commit_running; [by apply ready_running|apply Hr]. Qed.

Lemma abs_lookup r k : abs r !! k = abs_entry <$> entries (st r) !! k.
Proof. unfold abs. by rewrite lookup_fmap. Qed.

Lemma abs_version r k :
  spec_version (abs r) k = match entries (st r) !! k with Some e => eVersion e | None => 0%Z end.
Proof. unfold spec_version. rewrite abs_lookup. by destruct (entries (st r) !! k). Qed.

Lemma committed_abs now r e r' :
  committed now r e r' → abs r' = spec_apply (abs r) e.
Proof.
  intros Hc. unfold abs. rewrite (cm_st _ _ _ _ Hc). unfold apply_store, spec_apply.
  destruct (lOp e); cbn; [by rewrite fmap_insert|by rewrite fmap_delete].
Qed.

Lemma entries_wf_mono n n' m : n ≤ n' → entries_wf n m → entries_wf n' m.
Proof. intros Hn He. eapply map_Forall_impl; [exact He|]. intros ??[? ?]. split; [done|lia]. Qed.

Lemma committed_entries now r e r' :
  entries_wf (length (log r)) (entries (st r)) → committed now r e r' →
  (lOp e = op_put → 1 ≤ lVersion e ≤ Z.of_nat (length (log r)) + 1)%Z →
  entries_wf (length (log r')) (entries (st r')).
Proof.
  intros He Hc Hv. rewrite (cm_log _ _ _ _ Hc), (cm_st _ _ _ _ Hc), length_app. cbn [length].
  eapply (entries_wf_mono _ (length (log r) + 1)) in He; [|lia].
  unfold apply_store. destruct (lOp e); cbn -[u64].
  - apply map_Forall_insert_2; [|done]. cbn. split; [done|]. specialize (Hv eq_refl). lia.
  - by apply map_Forall_delete.
Qed.

Lemma committed_ready now r e r' :
  ready r → committed now r e r' →
  (lOp e = op_put → 1 ≤ lVersion e ≤ Z.of_nat (length (log r)) + 1)%Z →
  ready r'.
Proof.
  intros [Hp Ha Hj Hw He] Hc Hv.
  split; try apply Hc.
  - by rewrite (cm_peers _ _ _ _ Hc).
  - rewrite (cm_applied _ _ _ _ Hc), (cm_log _ _ _ _ Hc), length_app. cbn. lia.
  - by eapply committed_entries.
Qed.

(** The version a write gives is one above the current one. *)
Lemma put_entry_version r k v :
  running r → small r →
  put_entry r k v = mk_logEntry 0 0 op_put k v (spec_version (abs r) k + 1) ∧
  (1 ≤ spec_version (abs r) k + 1 ≤ Z.of_nat (length (log r)) + 1)%Z.
Proof.
  intros Hr Hs. unfold put_entry. rewrite abs_version.
  destruct (entries (st r) !! k) as [e|] eqn:E.
  - destruct (run_entries _ Hr _ _ E) as [_ ?]. unfold small in Hs.
    rewrite u64_id by (unfold in_u64; lia). split; [done|lia].
  - split; [done|lia].
Qed.

(** [cas_check] accepts exactly what the specification accepts, and then
    appends the entry a [Put] would. *)
Lemma cas_check_spec r k v x :
  running r → small r →
  cas_check r k v x =
    if (spec_version (abs r) k =? x)%Z && bool_decide (abs r !! k = None → x = 0%Z)
    then Ok (mk_logEntry 0 0 op_put k v (spec_version (abs r) k + 1))
    else Err ErrCASMismatch.
Proof.
  intros Hr Hs. unfold cas_check. rewrite abs_version, abs_lookup.
  destruct (entries (st r) !! k) as [e|] eqn:E; cbn -[u64 bool_decide].
  - destruct (run_entries _ Hr _ _ E) as [_ ?]. unfold small in Hs.
    case_bool_decide as Hd; [|by destruct Hd]. rewrite andb_true_r.
    destruct (Z.eqb_spec (eVersion e) x) as [<-|]; [|done].
    by rewrite u64_id by (unfold in_u64; lia).
  - destruct (Z.eqb_spec x 0) as [->|Hx]; case_bool_decide as Hd;
      rewrite ?andb_false_r; try done; exfalso; auto.
Qed.

Create HintDb raft.
#[export] Hint Resolve committed_ready : raft.

(** ** The mutations, on a ready node *)

Lemma spec_put_apply (m : spec) k v :
  spec_apply m (mk_logEntry 0 0 op_put k v (spec_version m k + 1)) = spec_put m k v.
Proof. done. Qed.

Lemma set_counter_ready r r' :
  ready r → peers r' = peers r → lastApplied r' = lastApplied r → log r' = log r →
  journal_open r' = journal_open r → watchers r' = watchers r → st r' = st r →
  ready r'.
Proof.
  intros [Hp Ha Hj Hw He] E1 E2 E3 E4 E5 E6.
  by split; rewrite ?E1, ?E2, ?E3, ?E4, ?E5, ?E6.
Qed.

Lemma Put_ready now r k v :
  ready r → small r →
  ∃ r' e, Put (good_env now) r k v = Ret (r', Ok (Some e)) ∧
    ready r' ∧ abs r' = spec_put (abs r) k v ∧ log r' = log r ++ [stamped r (put_entry r k v)] ∧
    get (st r') k = Some e ∧ eValue e = v ∧ eVersion e = (spec_version (abs r) k + 1)%Z.
Proof.
  intros Hr Hs. destruct (put_entry_version r k v (ready_running _ Hr) Hs) as [Hpe Hv].
  destruct (commit_ready now r (put_entry r k v) Hr Hs) as (r' & Hc & Hcm).
  unfold Put. rewrite Hc. cbn -[u64].
  assert (abs r' = spec_put (abs r) k v) as Habs
    by by rewrite (committed_abs _ _ _ _ Hcm), Hpe, spec_put_apply.
  pose proof (abs_lookup r' k) as Hl. rewrite Habs in Hl. unfold spec_put in Hl.
  rewrite lookup_insert_eq in Hl. unfold get.
  destruct (entries (st r') !! k) as [e|] eqn:E; [|done]. injection Hl as Hval Hver.
  eexists _, e. split; [done|]. split; [|split; [done|split; [apply Hcm|done]]].
  eapply (set_counter_ready r'); [|done..].
  eapply committed_ready; [done..|]. rewrite Hpe. cbn. lia.
Qed.

Lemma Delete_ready now r k :
  ready r → small r →
  ∃ r', Delete (good_env now) r k = Ret (r', Ok ()) ∧
    ready r' ∧ abs r' = delete k (abs r) ∧
    log r' = log r ++ [stamped r (mk_logEntry 0 0 op_del k "" 0)].
Proof.
  intros Hr Hs.
  destruct (commit_ready now r (mk_logEntry 0 0 op_del k "" 0) Hr Hs) as (r' & Hc & Hcm).
  unfold Delete. rewrite Hc. cbn -[u64]. eexists. split; [done|]. split; [|split].
  - eapply (set_counter_ready r'); [|done..]. eapply committed_ready; eauto. done.
  - apply (committed_abs _ _ _ _ Hcm).
  - apply Hcm.
Qed.

Lemma cas_finish_ready now r k e :
  ready r → small r → lOp e = op_put → lKey e = k →
  (1 ≤ lVersion e ≤ Z.of_nat (length (log r)) + 1)%Z →
  ∃ r' x, cas_finish (good_env now) r k e = Ret (r', Ok (Some x)) ∧
    ready r' ∧ abs r' = spec_apply (abs r) e ∧ log r' = log r ++ [stamped r e] ∧
    abs_entry x = (lValue e, lVersion e).
Proof.
  intros Hr Hs Hop Hk Hv.
  destruct (commit_ready now r e Hr Hs) as (r' & Hc & Hcm).
  unfold cas_finish. rewrite Hc. cbn -[u64].
  pose proof (abs_lookup r' k) as Hl. pose proof (committed_abs _ _ _ _ Hcm) as Habs.
  rewrite Habs in Hl. unfold spec_apply in Hl. rewrite Hop, Hk, lookup_insert_eq in Hl.
  unfold get. destruct (entries (st r') !! k) as [x|] eqn:E; [|done]. injection Hl as Hval Hver.
  eexists _, x. split; [done|]. split; [|split; [done|split; [apply Hcm|]]].
  - eapply committed_ready; eauto.
  - unfold abs_entry. congruence.
Qed.

(** ** List *)

Lemma sort_insert_fmap {A B} (f : A → B) lessA lessB x (l : list A) :
  (∀ a b, lessB (f a) (f b) = lessA a b) →
  sort_insert lessB (f x) (f <$> l) = f <$> sort_insert lessA x l.
Proof.
  intros H. induction l as [|y l IH]; cbn; [done|]. rewrite H.
  destruct (lessA y x); cbn; [|done]. by rewrite IH.
Qed.

Lemma sort_slice_fmap {A B} (f : A → B) lessA lessB (l : list A) :
  (∀ a b, lessB (f a) (f b) = lessA a b) →
  sort_slice lessB (f <$> l) = f <$> sort_slice lessA l.
Proof.
  intros H. induction l as [|x l IH]; cbn; [done|].
  unfold sort_slice in IH. rewrite IH. by apply sort_insert_fmap.
Qed.

Lemma List_elem r p e :
  e ∈ List r p ↔ ∃ k, entries (st r) !! k = Some e ∧ hasPrefix k p = true.
Proof.
  unfold List. rewrite sort_slice_perm, list_elem_of_fmap. split.
  - intros ([k e'] & -> & Hin). apply list_elem_of_filter in Hin as [Hp Hin].
    apply elem_of_map_to_list in Hin. eauto.
  - intros (k & Hk & Hp). exists (k, e). split; [done|].
    apply list_elem_of_filter. split; [done|]. by apply elem_of_map_to_list.
Qed.

Lemma List_abs r p :
  map_Forall (λ k e, eKey e = k) (entries (st r)) →
  (λ e, (eKey e, abs_entry e)) <$> List r p = spec_list (abs r) p.
Proof.
  intros Hk. unfold List, spec_list, abs. rewrite map_to_list_fmap.
  rewrite <- (sort_slice_fmap _ _ (λ a b, string_ltb a.1 b.1)) by done.
  f_equal. rewrite <- list_fmap_compose.
  assert (Forall (λ kv, eKey kv.2 = kv.1) (map_to_list (entries (st r)))) as Hall.
  { apply Forall_forall. intros [k e] Hin%elem_of_map_to_list. by apply (Hk k). }
  induction Hall as [|[k e] l He _ IH]; [done|]. cbn in He.
  rewrite fmap_cons, !filter_cons. cbn [fst prod_map].
  destruct (decide _); rewrite ?fmap_cons, IH; [|done].
  f_equal. cbn. by rewrite He.
Qed.

(** ** Refinement *)

(** The abstract machine of a single node: the map, the number of writes applied
    (the loop takes a snapshot at every 256th) and whether the journal is open.
    A write that the journal refuses is answered with the journal's error and
    leaves the map as it was. *)
Record astate := mk_astate { a_map : spec; a_applied : Z; a_open : bool }.

Definition journal_err (is_open : bool) (io : journal_io) : option error :=
  if is_open then match io with IoOk => None | WriteFails e | SyncFails e => Some e end
  else Some ErrClosed.

(** The operations that reach the journal. *)
Definition writes (m : spec) (o : kv_op) : bool :=
  match o with
  | OpPut _ _ | OpDel _ => true
  | OpCas k _ x => (spec_version m k =? x)%Z && bool_decide (m !! k = None → x = 0%Z)
  | OpGet _ | OpList _ => false
  end.

Definition refusal (o : kv_op) (e : error) : kv_ret :=
  match o with OpDel _ => RDel (Err e) | _ => RWrite (Err e) end.

Definition machine_op (io : journal_io) (a : astate) (o : kv_op) : astate * kv_ret :=
  if writes (a_map a) o then
    match journal_err (a_open a) io with
    | Some e => (a, refusal o e)
    | None =>
        let '(m, x) := spec_op (a_map a) o in
        (mk_astate m (u64 (a_applied a + 1)) (a_open a), x)
    end
  else (a, snd (spec_op (a_map a) o)).

(** An iteration of the loop: a snapshot that fails after it has closed the
    journal leaves it closed. *)
Definition machine_loop (io : snap_io) (a : astate) : astate :=
  if (a_applied a mod 256 =? 0)%Z && (0 <? a_applied a)%Z
  then mk_astate (a_map a) (a_applied a)
         (a_open a && match io with SnapIoOk | SnapTmpFails => true | _ => false end)
  else a.

Definition machine_step (a : astate) (ev : node_event) : astate * list kv_ret :=
  match ev with
  | NOp _ io o => let '(a, x) := machine_op io a o in (a, [x])
  | NLoop io _ => (machine_loop io a, [])
  | NWatch _ => (a, [])
  end.

Fixpoint run_machine (a : astate) (evs : list node_event) : astate * list kv_ret :=
  match evs with
  | [] => (a, [])
  | ev :: evs =>
      let '(a, x) := machine_step a ev in
      let '(a, xs) := run_machine a evs in (a, x ++ xs)
  end.

(** The simulation relation. *)
Record sim (r : raft) (a : astate) : Prop := {
  sim_running : running r;
  sim_map : abs r = a_map a;
  sim_count : applied r = a_applied a;
  sim_open : journal_open r = a_open a;
}.

Lemma sim_same r r' a :
  sim r a → peers r' = peers r → lastApplied r' = lastApplied r → log r' = log r →
  journal_open r' = journal_open r → open_watchers (watchers r') → st r' = st r →
  applied r' = applied r → sim r' a.
Proof.
  intros [[Hp Ha Hw He] Hm Hn Ho] E1 E2 E3 E4 E5 E6 E7.
  split; [split| | |]; unfold abs in *; rewrite ?E1, ?E2, ?E3, ?E4, ?E6, ?E7; done.
Qed.

(** An append that fails leaves the entry in the log, and nothing else. *)
Lemma commit_refused now io r e err :
  journal_err (journal_open r) io = Some err →
  ∃ r', commit_entry {| e_now := now; e_io := io; e_acks := [] |} r e = Ret (r', Some err) ∧
    peers r' = peers r ∧ lastApplied r' = lastApplied r ∧ length (log r') = length (log r) + 1 ∧
    journal_open r' = journal_open r ∧ watchers r' = watchers r ∧ st r' = st r ∧ applied r' = applied r.
Proof.
  unfold journal_err, commit_entry, append. cbn -[u64].
  destruct (journal_open r) eqn:Hj; cbn -[u64];
    [destruct io; intros [= <-]|intros [= <-]]; (eexists; split; [reflexivity|]);
    cbn -[u64]; rewrite ?length_app, ?Hj; done.
Qed.

Lemma committed_running now r e r' :
  running r → committed now r e r' →
  (lOp e = op_put → 1 ≤ lVersion e ≤ Z.of_nat (length (log r)) + 1)%Z → running r'.
Proof.
  intros [Hp Ha Hw He] Hc Hv. split; try apply Hc.
  - by rewrite (cm_peers _ _ _ _ Hc).
  - rewrite (cm_applied _ _ _ _ Hc), (cm_log _ _ _ _ Hc), length_app. cbn. lia.
  - by eapply committed_entries.
Qed.

(** The tail of every write, whatever the journal does. *)
Lemma commit_sim now io r a e :
  sim r a → small r →
  (lOp e = op_put → 1 ≤ lVersion e ≤ Z.of_nat (length (log r)) + 1)%Z →
  ∃ r', commit_entry {| e_now := now; e_io := io; e_acks := [] |} r e = Ret (r', journal_err (a_open a) io) ∧
    length (log r') = length (log r) + 1 ∧
    sim r' (match journal_err (a_open a) io with
            | Some _ => a
            | None => mk_astate (spec_apply (a_map a) e) (u64 (a_applied a + 1)) (a_open a)
            end).
Proof.
  intros [Hr Hm Hn Ho] Hs Hv. rewrite <- Ho. destruct (journal_err (journal_open r) io) as [err|] eqn:Hio.
  - destruct (commit_refused now io r e err Hio) as (r' & E & E1 & E2 & E3 & E4 & E5 & E6 & E7).
    exists r'. split_and!; [done|done|]. destruct Hr as [Hp Ha Hw He].
    split; [split| | |]; unfold abs in *; rewrite ?E1, ?E2, ?E3, ?E4, ?E5, ?E6, ?E7; try done; [lia|].
    eapply entries_wf_mono; [|exact He]. lia.
  - unfold journal_err in Hio. destruct (journal_open r) eqn:Hj; [|done]. destruct io; [|done..].
    destruct (commit_running now r e Hr Hj Hs) as (r' & E & Hc). exists r'. split_and!.
    + exact E.
    + rewrite (cm_log _ _ _ _ Hc), length_app. done.
    + split; cbn.
      * by eapply committed_running.
      * by rewrite <- Hm, <- (committed_abs _ _ _ _ Hc).
      * by rewrite <- Hn, (cm_count _ _ _ _ Hc).
      * apply Hc.
Qed.

Lemma sim_get r a k : sim r a → abs_entry <$> get (st r) k = a_map a !! k.
Proof. intros Hs. by rewrite <- (sim_map _ _ Hs), abs_lookup. Qed.

Lemma sim_op now io r a o :
  sim r a → small r →
  ∃ r', impl_op {| e_now := now; e_io := io; e_acks := [] |} r o = Ret (r', snd (machine_op io a o)) ∧
        sim r' (fst (machine_op io a o)) ∧ length (log r') ≤ length (log r) + 1.
Proof.
  intros Hsim Hs. pose proof (sim_running _ _ Hsim) as Hr. pose proof (sim_map _ _ Hsim) as Hm.
  unfold machine_op. destruct o as [k|k v|k|k v x|p]; cbn [writes impl_op].
  - exists r. split_and!; [|done|lia]. unfold Get. pose proof (sim_get r a k Hsim) as Hg. cbn.
    rewrite <- Hg. by destruct (get (st r) k).
  - destruct (put_entry_version r k v Hr Hs) as [Hpe Hv].
    destruct (commit_sim now io r a (put_entry r k v) Hsim Hs) as (r' & Hc & Hl & Hs'); [rewrite Hpe; cbn; lia|].
    unfold Put. rewrite Hc. destruct (journal_err (a_open a) io) as [err|]; cbn [go_bind].
    { exists r'. split_and!; [done|done|lia]. }
    exists (set_puts (u64 (puts r' + 1)) r'). cbn [fst snd spec_op]. rewrite Hpe, Hm, spec_put_apply in Hs'.
    split_and!; [|eapply sim_same; [exact Hs'|try done..]; apply Hs'|cbn; lia].
    unfold view_write. by rewrite (sim_get _ _ k Hs').
  - destruct (commit_sim now io r a (mk_logEntry 0 0 op_del k "" 0) Hsim Hs) as (r' & Hc & Hl & Hs'); [done|].
    unfold Delete. rewrite Hc. destruct (journal_err (a_open a) io) as [err|]; cbn [go_bind].
    { exists r'. split_and!; [done|done|lia]. }
    exists (set_dels (u64 (dels r' + 1)) r'). split_and!; [done|eapply sim_same; [exact Hs'|try done..]; apply Hs'|cbn; lia].
  - unfold CompareAndSwap. rewrite cas_check_spec by done. rewrite Hm. cbn [spec_op].
    destruct (_ && _) eqn:E; cbn [snd fst]; [|exists r; split_and!; [done|done|lia]].
    destruct (put_entry_version r k v Hr Hs) as [_ Hv]. rewrite Hm in Hv.
    destruct (commit_sim now io r a (mk_logEntry 0 0 op_put k v (spec_version (a_map a) k + 1)) Hsim Hs)
      as (r' & Hc & Hl & Hs'); [by cbn|].
    unfold cas_finish. rewrite Hc. destruct (journal_err (a_open a) io) as [err|]; cbn [go_bind].
    { exists r'. split_and!; [done|done|lia]. }
    rewrite spec_put_apply in Hs'. exists r'. split_and!; [|done|lia].
    unfold view_write. by rewrite (sim_get _ _ k Hs').
  - exists r. split_and!; [|done|lia]. cbn. rewrite List_abs, Hm; [done|].
    eapply map_Forall_impl; [apply Hr|]. by intros ?? [? _].
Qed.

Lemma snapshot_sim io r a : sim r a → sim (run_snapshot io r) (machine_loop io a).
Proof.
  intros [[Hp Ha Hw He] Hm Hn Ho]. unfold run_snapshot, machine_loop. rewrite Hn.
  destruct (_ && _); [|by split; [split|..]].
  unfold snapshot. rewrite Ho. destruct (a_open a); [|by split; [split|..]].
  destruct io; cbn; by split; [split|..].
Qed.

Lemma run_snapshot_log io r : log (run_snapshot io r) = log r.
Proof. unfold run_snapshot, snapshot. destruct (_ && _); [|done]. destruct (negb _); [done|]. by destruct io. Qed.

Lemma sim_loop io ev r a :
  sim r a → ∃ r', run_step io ev r = Ret r' ∧ sim r' (machine_loop io a) ∧ log r' = log r.
Proof.
  intros Hsim. destruct ev; cbn [run_step].
  - eexists. split; [reflexivity|]. rewrite run_snapshot_log.
    split; [apply snapshot_sim|]; cbn -[u64]; case_bool_decide; try done;
      (eapply sim_same; [exact Hsim|try done..]; apply Hsim).
  - unfold applyFromQueue. cbn -[fanout_list].
    match goal with |- context [fanout_list ?r0 ?evs] =>
      destruct (fanout_list_open evs r0) as (m & -> & Hw); [apply Hsim|] end.
    cbn [go_bind]. eexists. split; [reflexivity|]. rewrite run_snapshot_log. split; [|done].
    apply snapshot_sim. by eapply sim_same.
Qed.

Lemma Watch_open r opts : open_watchers (watchers r) → open_watchers (watchers (Watch r opts)).
Proof.
  intros Hw. unfold Watch. cbn [watchers set_watchers]. apply map_Forall_insert_2; [|done].
  apply Forall_app. split; [|by repeat constructor].
  destruct (watchers r !! wPrefix opts) as [ws|] eqn:E; cbn; [by apply (Hw _ _ E)|constructor].
Qed.

Lemma sim_step r a ev :
  sim r a → small r →
  ∃ r', node_step r ev = Ret (r', snd (machine_step a ev)) ∧
        sim r' (fst (machine_step a ev)) ∧ length (log r') ≤ length (log r) + 1.
Proof.
  intros Hsim Hs. destruct ev as [now io o|io ev|opts]; cbn [node_step machine_step].
  - destruct (sim_op now io r a o Hsim Hs) as (r' & -> & Hs' & Hl). destruct (machine_op io a o). by exists r'.
  - destruct (sim_loop io ev r a Hsim) as (r' & -> & Hs' & Hl). exists r'. rewrite Hl. cbn. split_and!; [done|done|lia].
  - exists (Watch r opts). split_and!; [done| |cbn; lia].
    eapply sim_same; [exact Hsim|try done..]. apply Watch_open, Hsim.
Qed.

Lemma run_node_sim r a evs :
  sim r a → (Z.of_nat (length (log r) + length evs) + 1 < 2 ^ 64)%Z →
  ∃ r', run_node r evs = Ret (r', snd (run_machine a evs)) ∧ sim r' (fst (run_machine a evs)).
Proof.
  revert r a. induction evs as [|ev evs IH]; intros r a Hsim Hlen; cbn; [eauto|]. cbn in Hlen.
  destruct (sim_step r a ev Hsim) as (r1 & -> & Hs1 & Hl1); [unfold small; lia|].
  destruct (machine_step a ev) as [a1 x1]. cbn in *.
  destruct (IH r1 a1 Hs1) as (r2 & -> & Hs2); [lia|]. cbn.
  destruct (run_machine a1 evs) as [a2 xs]. cbn in *. eauto.
Qed.

(** ** Opening *)

Definition single_cfg (c : Config) : Prop :=
  cNodeID c ≠ "" ∧ cDataDir c ≠ "" ∧ cPeers c = [].

Definition empty_disk : disk := mk_disk [] false SnapAbsent.

(** The node just before the journal replay. *)
Definition opening (c : Config) (d : disk) : raft :=
  set_journal_open true
    (init_indexes (set_peers [{| pID := cNodeID c; pAddress := cListen c |}] (new_raft c d))).

Definition bootstrap (c : Config) (r : raft) : raft :=
  if cBootstrap c && (currentTerm r =? 0)%Z
  then set_votedFor (cNodeID c) (set_currentTerm 1 r) else r.

Lemma openRaft_single now c d :
  single_cfg c →
  openRaft now c d =
    let r := foldl (recover_record now) (opening c d) (f_journal d) in
    if f_garbage (files r) then Err ("recover: " +:+ ErrDecode)
    else Ok (bootstrap c (recover_snap r)).
Proof.
  intros (H1 & H2 & H3). unfold openRaft.
  rewrite bool_decide_false, bool_decide_false by done.
  unfold containsPeer. cbn -[foldl recover_record recover_snap]. rewrite H3. cbn -[foldl recover_record recover_snap].
  unfold recover, opening. cbn -[recover_record recover_snap].
  destruct (f_garbage _); [done|]. unfold bootstrap. by destruct (_ && _).
Qed.

(** The replay invariant: state after the first [i] records. *)
Record replayed (c : Config) (d : disk) (l : list logEntry) (r : raft) : Prop := {
  rp_log : log r = l;
  rp_abs : abs r = spec_replay l;
  rp_applied : lastApplied r = Z.of_nat (length l);
  rp_peers : length (peers r) = 1;
  rp_open : journal_open r = true;
  rp_files : files r = d;
  rp_watch : watchers r = ∅;
  rp_entries : ∀ n, Forall (λ e, lOp e = op_put → 1 ≤ lVersion e ≤ Z.of_nat n)%Z l →
               entries_wf n (entries (st r));
}.

Lemma replayed_opening c d : replayed c d [] (opening c d).
Proof. by split. Qed.

Lemma recover_record_fields now r e :
  (lastApplied r < lIndex e)%Z →
  log (recover_record now r e) = log r ++ [e] ∧
  st (recover_record now r e) = apply_store now (st r) e ∧
  lastApplied (recover_record now r e) = lIndex e ∧
  peers (recover_record now r e) = peers r ∧
  journal_open (recover_record now r e) = journal_open r ∧
  files (recover_record now r e) = files r ∧
  watchers (recover_record now r e) = watchers r.
Proof.
  intros H. unfold recover_record.
  destruct (_ <? lTerm e)%Z, (_ && _); unfold applyLocked; cbn -[u64];
    (destruct (Z.leb_spec (lIndex e) (lastApplied r)); [lia|done]).
Qed.

Lemma replayed_step now c d l r e :
  replayed c d l r → lIndex e = (Z.of_nat (length l) + 1)%Z →
  replayed c d (l ++ [e]) (recover_record now r e).
Proof.
  intros [H1 H2 H3 H4 H5 H6 H7 H8] Hi.
  destruct (recover_record_fields now r e) as (F1 & F2 & F3 & F4 & F5 & F6 & F7); [lia|].
  split.
  - by rewrite F1, H1.
  - unfold abs, spec_replay in *. rewrite F2, foldl_app. cbn. rewrite <- H2.
    unfold apply_store, spec_apply. destruct (lOp e); cbn -[u64];
      [by rewrite fmap_insert|by rewrite fmap_delete].
  - rewrite F3, length_app. cbn. lia.
  - by rewrite F4.
  - by rewrite F5.
  - by rewrite F6.
  - by rewrite F7.
  - intros n [Hl He]%Forall_app. rewrite F2. unfold apply_store.
    inversion_clear He as [|? ? He' _]. destruct (lOp e); cbn -[u64].
    + apply map_Forall_insert_2; [by split; [|apply He']|by apply H8].
    + by apply map_Forall_delete, H8.
Qed.

Lemma replayed_all now c d l r l' :
  replayed c d l r → indexed (l ++ l') →
  replayed c d (l ++ l') (foldl (recover_record now) r l').
Proof.
  revert l r. induction l' as [|e l' IH]; intros l r Hr Hi; cbn.
  { by rewrite app_nil_r. }
  change (e :: l') with ([e] ++ l') in *. rewrite app_assoc in *. apply IH; [|done].
  apply replayed_step; [done|]. apply Hi. rewrite lookup_app_l by (rewrite length_app; cbn; lia).
  by rewrite lookup_app_r, Nat.sub_diag.
Qed.

Lemma bootstrap_fields c r :
  st (bootstrap c r) = st r ∧ log (bootstrap c r) = log r ∧ files (bootstrap c r) = files r ∧
  peers (bootstrap c r) = peers r ∧ lastApplied (bootstrap c r) = lastApplied r ∧
  journal_open (bootstrap c r) = journal_open r ∧ watchers (bootstrap c r) = watchers r.
Proof. unfold bootstrap. by destruct (_ && _). Qed.

(** Opening the files of a durable node gives a ready, durable node with the
    same abstract contents. *)
Lemma reopen now c r :
  single_cfg c → durable r →
  ∃ r', openRaft now c (files r) = Ok r' ∧ ready r' ∧ durable r' ∧
        abs r' = abs r ∧ log r' = log r.
Proof.
  intros Hc [D1 D2 D3 D4 D5 D6]. rewrite openRaft_single by done. rewrite D1.
  pose proof (replayed_all now c (files r) [] (opening c (files r)) (log r)
    (replayed_opening _ _) D4) as HR. cbn [app] in HR.
  set (r1 := foldl _ _ _) in *. destruct HR as [R1 R2 R3 R4 R5 R6 R7 R8].
  cbn. rewrite R6, D2. eexists. split; [done|].
  unfold recover_snap. rewrite R6, D3.
  destruct (bootstrap_fields c r1) as (B1 & B2 & B3 & B4 & B5 & B6 & B7).
  split_and!.
  - split; rewrite ?B1, ?B2, ?B4, ?B5, ?B6, ?B7, ?R1; try done.
    + rewrite R7. apply map_Forall_empty.
    + by apply R8.
  - split; rewrite ?B2, ?B3, ?R1, ?R6; try done.
    unfold abs. rewrite B1. apply R2.
  - unfold abs at 1. rewrite B1. by rewrite D5.
  - by rewrite B2.
Qed.

Lemma open_empty now c :
  single_cfg c →
  ∃ r, openRaft now c empty_disk = Ok r ∧ ready r ∧ durable r ∧ abs r = ∅ ∧ log r = [].
Proof.
  intros Hc. destruct (reopen now c (opening c empty_disk) Hc) as (r & H1 & H2 & H3 & H4 & H5).
  - by split.
  - exists r. by split_and!.
Qed.

(** ** Durability of the operations *)

Lemma committed_durable now r e r' :
  durable r → committed now r e r' →
  (lOp e = op_put → 1 ≤ lVersion e ≤ Z.of_nat (length (log r)) + 1)%Z →
  durable r'.
Proof.
  intros [D1 D2 D3 D4 D5 D6] Hc Hv. pose proof Hc as Hc'. destruct Hc' as [C1 C2 C3 C4 C5 C6 C7 C8 C9].
  split; rewrite ?C7, ?C1; cbn; try done.
  - by rewrite D1.
  - intros i x [Hx|[Hge Hx]]%lookup_app_Some; [by apply D4|].
    apply list_lookup_singleton_Some in Hx as [Hi <-]. cbn. lia.
  - rewrite (committed_abs now r e r') by done. unfold spec_replay. rewrite foldl_app. cbn.
    by rewrite D5.
  - rewrite length_app. apply Forall_app. split.
    + eapply Forall_impl; [exact D6|]. intros x Hx Hop. specialize (Hx Hop). cbn. lia.
    + constructor; [|done]. intros Hop. specialize (Hv Hop). cbn. lia.
Qed.

Lemma durable_same r r' :
  durable r → files r' = files r → log r' = log r → st r' = st r → durable r'.
Proof.
  intros [D1 D2 D3 D4 D5 D6] E1 E2 E3. split; unfold abs in *; rewrite ?E1, ?E2, ?E3; done.
Qed.

