(* ===== verification/RaftProps.v ===== *)
(** * Package db: the properties of the key-value store

    Snapshots and what a restart makes of them, interleaved operations,
    timed-out watches, listing, quorums, membership and versions.  The
    refinement of the abstract store and its durability are in [RaftLive]. *)

From S2P Require Import Prelude Raft RaftSpec.

(** ** An example node *)

Definition demo_cfg : Config :=
  {| cNodeID := "n1"; cDataDir := "/d"; cListen := ""; cBootstrap := true; cPeers := [] |}.

Lemma demo_cfg_single : single_cfg demo_cfg.
Proof. by split_and!. Qed.

Definition demo_open : raft :=
  match openRaft 0 demo_cfg empty_disk with Ok r => r | Err _ => new_raft demo_cfg empty_disk end.
(** ** Snapshots *)

Lemma replay_files now l r : files (foldl (recover_record now) r l) = files r.
Proof.
  revert r. induction l as [|e l IH]; intros r; cbn; [done|]. rewrite IH.
  unfold recover_record. destruct (_ <? lTerm e)%Z, (_ && _); unfold applyLocked; cbn -[u64];
    by destruct (_ <=? _)%Z.
Qed.

(** when snap.json is present, recovery discards the effect of every
    journal record: the store is exactly the snapshot's, whatever was written
    and acknowledged after it. *)
Theorem recovery_ignores_journal_after_snapshot (c : Config) (now : Time) (d : disk)
    (s : raftSnapshot) (r : raft) (Hc : single_cfg c) (Hs : f_snap d = SnapGood s)
    (Ho : openRaft now c d = Ok r) :
  entries (st r) = snState s ∧ lastApplied r = snIndex s ∧
  ∀ k, Get r k = match snState s !! k with Some e => Ok e | None => Err ErrNotFound end.
Proof.
  rewrite openRaft_single in Ho by done. cbn in Ho.
  rewrite replay_files in Ho. cbn in Ho. destruct (f_garbage d); [done|].
  injection Ho as <-.
  destruct (bootstrap_fields c
    (recover_snap (foldl (recover_record now) (opening c d) (f_journal d))))
    as (B1 & _ & _ & _ & B5 & _). rewrite B5.
  unfold Get, get. rewrite !B1. unfold recover_snap. rewrite replay_files. cbn. rewrite Hs. cbn.
  by split_and!.
Qed.

(** Put a, snapshot, put b, stop. *)
Definition snap_demo_disk : disk :=
  match run_node demo_open [NOp 1 IoOk (OpPut "a" "1")] with
  | Ret (r1, _) =>
      match run_node (fst (snapshot SnapIoOk r1)) [NOp 2 IoOk (OpPut "b" "2")] with
      | Ret (r2, _) => files r2
      | Panic => empty_disk
      end
  | Panic => empty_disk
  end.
Definition snap_demo : raftSnapshot :=
  {| snTerm := 1; snIndex := 1; snState := {["a" := mk_Entry "a" "1" 1 false 1]} |}.
Definition snap_demo_node : raft :=
  match openRaft 5 demo_cfg snap_demo_disk with Ok r => r | Err _ => demo_open end.

Lemma recovery_ignores_journal_after_snapshot_witness :
  (lKey <$> f_journal snap_demo_disk) = ["b"] ∧ entries (st snap_demo_node) = snState snap_demo ∧
  Get snap_demo_node "b" = Err ErrNotFound.
Proof.
  destruct (recovery_ignores_journal_after_snapshot demo_cfg 5 snap_demo_disk snap_demo snap_demo_node)
    as (H & _ & _); [by split_and!|by vm_compute|by vm_compute|].
  split_and!; [by vm_compute|exact H|by vm_compute].
Defined.

Lemma append_ok r e :
  journal_open r = true → small r →
  append IoOk r e =
    (set_journal (f_journal (files r) ++ [stamped r e])
       (set_log (log r ++ [stamped r e])
          (set_currentTerm (if (currentTerm r =? 0)%Z then 1%Z else currentTerm r) r)),
     stamped r e, None).
Proof.
  intros Hj Hs. unfold append. cbn -[u64]. rewrite Hj. cbn -[u64].
  by rewrite (append_index _ Hs).
Qed.

(** Applying an entry and fanning the queue out: an entry at or below
    [lastApplied] keeps the store, a newer one is applied. *)
Lemma apply_and_fanout now r e :
  open_watchers (watchers r) →
  ∃ r', applyFromQueue (applyLocked now r e) = Ret r' ∧ open_watchers (watchers r') ∧
        peers r' = peers r ∧ log r' = log r ∧ files r' = files r ∧
        (if (lIndex e <=? lastApplied r)%Z
         then st r' = st r ∧ lastApplied r' = lastApplied r
         else st r' = apply_store now (st r) e ∧ lastApplied r' = lIndex e).
Proof.
  intros Hw. unfold applyLocked. cbn -[u64 applyFromQueue].
  destruct (lIndex e <=? lastApplied r)%Z; unfold applyFromQueue; cbn -[u64 fanout_list];
  match goal with |- context [fanout_list ?r0 ?evs] =>
    destruct (fanout_list_open evs r0) as (m & -> & Hm); [done|] end;
  cbn -[u64]; by eexists.
Qed.

Lemma replicate_single now r e :
  length (peers r) = 1 → open_watchers (watchers r) →
  ∃ r', replicate now [] r e = Ret (r', None) ∧ open_watchers (watchers r') ∧
        peers r' = peers r ∧ log r' = log r ∧ files r' = files r ∧
        (if (lIndex e <=? lastApplied r)%Z
         then st r' = st r ∧ lastApplied r' = lastApplied r
         else st r' = apply_store now (st r) e ∧ lastApplied r' = lIndex e).
Proof.
  intros Hp Hw. unfold replicate. rewrite bool_decide_true by done.
  destruct (apply_and_fanout now (set_commitIndex (lIndex e) r) e Hw) as (r' & -> & H).
  by exists r'.
Qed.

(** A write whose index is not above [lastApplied] changes nothing but the log
    and the journal, and reports success with the old entry. *)
Lemma Put_stale now r k v :
  length (peers r) = 1 → journal_open r = true → open_watchers (watchers r) → small r →
  (Z.of_nat (length (log r)) + 1 ≤ lastApplied r)%Z →
  ∃ r', Put (good_env now) r k v = Ret (r', Ok (get (st r) k)) ∧ st r' = st r.
Proof.
  intros Hp Hj Hw Hs Hl. unfold Put, commit_entry. cbn [e_io good_env].
  rewrite append_ok by done. cbn [e_now e_acks good_env].
  match goal with |- context [replicate now [] ?x ?e] =>
    destruct (replicate_single now x e) as (r' & -> & _ & _ & _ & _ & H); [done|done|] end.
  change (lastApplied (set_journal _ _)) with (lastApplied r) in H.
  destruct (Z.leb_spec (lIndex (stamped r (put_entry r k v))) (lastApplied r)) as [_|Hgt];
    [|cbn in Hgt; lia].
  destruct H as [Hst _]. cbn [go_bind]. rewrite Hst. by eexists.
Qed.

(** restarting from a snapshot restores the contents but leaves the node
    with an empty log below its applied index: a Put then reports success and
    stores nothing. *)
Theorem write_after_snapshot_restart_is_dropped (c : Config) (now now' : Time) (r r1 : raft)
    (k v : string) (Hc : single_cfg c) (Hr : ready r) (Hg : f_garbage (files r) = false)
    (Hv : (1 ≤ version (st r))%Z) (Hs : snapshot SnapIoOk r = (r1, true)) :
  ∃ r2 r3, openRaft now c (files r1) = Ok r2 ∧ abs r2 = abs r ∧
    Put (good_env now') r2 k v = Ret (r3, Ok (get (st r2) k)) ∧ st r3 = st r2.
Proof.
  unfold snapshot in Hs. rewrite (rdy_journal _ Hr) in Hs. cbn in Hs. injection Hs as <-.
  cbn. rewrite openRaft_single by done. cbn -[recover_snap bootstrap].
  set (r2 := bootstrap c _). exists r2.
  destruct (bootstrap_fields c (recover_snap (opening c (mk_disk [] false
    (SnapGood {| snTerm := currentTerm r; snIndex := version (st r); snState := entries (st r) |})))))
    as (B1 & B2 & B3 & B4 & B5 & B6 & B7). fold r2 in B1, B2, B3, B4, B5, B6, B7.
  assert (st r2 = st r) as Hst by (rewrite B1; cbn; by destruct (st r)).
  destruct (Put_stale now' r2 k v) as (r3 & HP & Hst3).
  - by rewrite B4.
  - by rewrite B6.
  - rewrite B7. apply map_Forall_empty.
  - unfold small. by rewrite B2.
  - rewrite B2, B5. cbn. lia.
  - exists r3. split_and!; [done| |done|done]. unfold abs. by rewrite Hst.
Qed.

Definition one_put : raft :=
  match run_node demo_open [NOp 1 IoOk (OpPut "a" "1")] with Ret (r, _) => r | Panic => demo_open end.

Lemma demo_open_ready : ready demo_open.
Proof.
  destruct (open_empty 0 demo_cfg demo_cfg_single) as (r & Ho & Hr & _).
  unfold demo_open. by rewrite Ho.
Qed.

Lemma one_put_ready : ready one_put.
Proof.
  destruct (Put_ready 1 demo_open "a" "1" demo_open_ready) as (r' & e & Hput & Hr & _); [by vm_compute|].
  unfold one_put. cbn [run_node node_step impl_op]. change (Build_env 1 IoOk []) with (good_env 1).
  by rewrite Hput.
Qed.

Lemma write_after_snapshot_restart_is_dropped_witness :
  ∃ r2 r3, openRaft 2 demo_cfg (files (fst (snapshot SnapIoOk one_put))) = Ok r2 ∧
    abs r2 = abs one_put ∧
    Put (good_env 3) r2 "b" "2" = Ret (r3, Ok (get (st r2) "b")) ∧ st r3 = st r2.
Proof.
  apply (write_after_snapshot_restart_is_dropped demo_cfg 2 3 one_put
           (fst (snapshot SnapIoOk one_put)) "b" "2").
  - by split_and!.
  - exact one_put_ready.
  - by vm_compute.
  - by vm_compute.
  - by vm_compute.
Defined.

(** ** Interleavings *)

(** CompareAndSwap is not atomic: two callers whose version checks run
    before either write both succeed with the same new version, and the first
    caller's value is overwritten. *)
Theorem cas_two_winners (now1 now2 : Time) (r : raft) (k v1 v2 : string) (x : Z)
    (e1 e2 : logEntry) (Hr : ready r) (Hs : (Z.of_nat (length (log r)) + 2 < 2 ^ 64)%Z)
    (H1 : cas_check r k v1 x = Ok e1) (H2 : cas_check r k v2 x = Ok e2) :
  ∃ r1 w1 r2 w2,
    cas_finish (good_env now1) r k e1 = Ret (r1, Ok (Some w1)) ∧
    cas_finish (good_env now2) r1 k e2 = Ret (r2, Ok (Some w2)) ∧
    abs_entry w1 = (v1, x + 1)%Z ∧ abs_entry w2 = (v2, x + 1)%Z ∧
    abs r2 !! k = Some (v2, x + 1)%Z.
Proof.
  assert (small r) as Hsm by (unfold small; lia).
  rewrite cas_check_spec in H1, H2 by (done || by apply ready_running).
  destruct (Z.eqb_spec (spec_version (abs r) k) x) as [Hx|]; [|done].
  destruct (bool_decide _); [|done]. cbn in H1, H2. injection H1 as <-. injection H2 as <-.
  destruct (put_entry_version r k v1 (ready_running _ Hr) Hsm) as [_ Hver].
  match goal with |- context [cas_finish _ r k ?e] =>
    destruct (cas_finish_ready now1 r k e) as (r1 & w1 & -> & Hr1 & Ha1 & Hl1 & Hw1); [done..|] end.
  assert (length (log r1) = length (log r) + 1) as Hlen by (rewrite Hl1, length_app; done).
  match goal with |- context [mk_logEntry 0 0 op_put k v2 ?n] =>
    destruct (cas_finish_ready now2 r1 k (mk_logEntry 0 0 op_put k v2 n))
      as (r2 & w2 & E2 & Hr2 & Ha2 & Hl2 & Hw2); [done|unfold small; lia|done|done|cbn; lia|] end.
  exists r1, w1, r2, w2. rewrite Hx in *. split_and!; try done.
  rewrite Ha2. unfold spec_apply. cbn. by rewrite lookup_insert_eq.
Qed.

Lemma cas_two_winners_witness :
  ∃ r1 w1 r2 w2,
    cas_finish (good_env 2) one_put "a" (mk_logEntry 0 0 op_put "a" "x" 2) = Ret (r1, Ok (Some w1)) ∧
    cas_finish (good_env 3) r1 "a" (mk_logEntry 0 0 op_put "a" "y" 2) = Ret (r2, Ok (Some w2)) ∧
    abs_entry w1 = ("x", 2%Z) ∧ abs_entry w2 = ("y", 2%Z) ∧ abs r2 !! "a" = Some ("y", 2%Z).
Proof.
  apply (cas_two_winners 2 3 one_put "a" "x" "y" 1).
  - exact one_put_ready.
  - by vm_compute.
  - by vm_compute.
  - by vm_compute.
Defined.

(** writes that are replicated out of log order are lost: when a second
    Put overtakes the first between their appends and their replications, the
    first Put still reports no error but its key is never stored. *)
Theorem overtaken_put_is_lost (now : Time) (r r1 r2 : raft) (e1 e2 f1 f2 : logEntry)
    (Hr : ready r) (Hs : (Z.of_nat (length (log r)) + 2 < 2 ^ 64)%Z) (Hk : lKey e1 ≠ lKey e2)
    (Ha1 : append IoOk r e1 = (r1, f1, None)) (Ha2 : append IoOk r1 e2 = (r2, f2, None)) :
  ∃ r3 r4, replicate now [] r2 f2 = Ret (r3, None) ∧ replicate now [] r3 f1 = Ret (r4, None) ∧
    entries (st r4) !! lKey e1 = entries (st r) !! lKey e1.
Proof.
  rewrite append_ok in Ha1 by (apply Hr || (unfold small; lia)). injection Ha1 as <- <-.
  rewrite append_ok in Ha2;
    [|apply Hr|unfold small; cbn; rewrite length_app; cbn; lia].
  injection Ha2 as <- <-. cbn [log set_log set_journal set_currentTerm].
  match goal with |- context [replicate now [] ?x (stamped ?y e2)] => set (r2 := x); set (f2 := stamped y e2) end.
  assert (lIndex f2 = Z.of_nat (length (log r)) + 2)%Z as Hf2
    by (subst f2; cbn; rewrite length_app; cbn; lia).
  assert (lastApplied r2 = Z.of_nat (length (log r))) as Hl2 by apply Hr.
  destruct (replicate_single now r2 f2) as (r3 & -> & Hw3 & Hp3 & _ & _ & H3); [apply Hr|apply Hr|].
  destruct (Z.leb_spec (lIndex f2) (lastApplied r2)); [lia|]. destruct H3 as [Hst3 Hl3].
  destruct (replicate_single now r3 (stamped r e1)) as (r4 & H4 & _ & _ & _ & _ & Hst4);
    [rewrite Hp3; apply Hr|done|].
  destruct (Z.leb_spec (lIndex (stamped r e1)) (lastApplied r3)) as [|Hgt];
    [|rewrite Hl3, Hf2 in Hgt; cbn in Hgt; lia].
  exists r3, r4. split_and!; [done|done|]. destruct Hst4 as [-> _]. rewrite Hst3.
  unfold apply_store. subst f2. cbn.
  destruct (lOp e2); cbn; [by rewrite lookup_insert_ne|by rewrite lookup_delete_ne].
Qed.

Lemma overtaken_put_is_lost_witness :
  ∃ r1 r2 f1 f2 r3 r4,
    append IoOk one_put (put_entry one_put "p" "1") = (r1, f1, None) ∧
    append IoOk r1 (put_entry r1 "q" "2") = (r2, f2, None) ∧
    replicate 9 [] r2 f2 = Ret (r3, None) ∧ replicate 9 [] r3 f1 = Ret (r4, None) ∧
    entries (st r4) !! "p" = None.
Proof.
  pose (a1 := append IoOk one_put (put_entry one_put "p" "1")).
  pose (a2 := append IoOk a1.1.1 (put_entry a1.1.1 "q" "2")).
  destruct (overtaken_put_is_lost 9 one_put a1.1.1 a2.1.1 (put_entry one_put "p" "1")
    (put_entry a1.1.1 "q" "2") a1.1.2 a2.1.2)
    as (r3 & r4 & ? & ? & ?); [exact one_put_ready|by vm_compute..|].
  exists a1.1.1, a2.1.1, a1.1.2, a2.1.2, r3, r4. split_and!; [by vm_compute..|done|done|done].
Defined.

(** ** Listing *)

Lemma hasPrefix_HasPrefix s p : hasPrefix s p = HasPrefix s p.
Proof.
  unfold hasPrefix. case_bool_decide as Hp; [subst; by destruct s|].
  destruct (HasPrefix s p) eqn:E.
  - pose proof (HasPrefix_length _ _ E). apply HasPrefix_spec in E as [t ->].
    rewrite bool_decide_true by done. cbn. apply bool_decide_eq_true.
    clear. induction p as [|a p IH]; [by destruct t|]. cbn. by rewrite IH.
  - apply andb_false_iff. destruct (decide (String.length p ≤ String.length s)) as [Hle|];
      [right|left; by apply bool_decide_eq_false].
    apply bool_decide_eq_false. intros Ht.
    assert (HasPrefix s p = true) as ?; [|congruence].
    apply HasPrefix_spec. exists (string_drop (String.length p) s).
    by rewrite <- Ht at 1; rewrite string_take_drop.
Qed.

Lemma sorted_strict (l : list Entry) :
  StronglySorted (not_after entry_less) l → NoDup (eKey <$> l) →
  StronglySorted (λ a b, string_lt (eKey a) (eKey b)) l.
Proof.
  induction 1 as [|x l _ IH Hx]; intros Hn; [constructor|].
  apply NoDup_cons in Hn as [Hni Hn]. constructor; [by apply IH|].
  apply Forall_forall. intros y Hy. rewrite Forall_forall in Hx. specialize (Hx y Hy).
  destruct (string_lt_total (eKey x) (eKey y)) as [|[E|E]]; [done| |].
  - destruct Hni. rewrite E. by apply list_elem_of_fmap_2.
  - apply string_ltb_lt in E. unfold not_after, entry_less in Hx. congruence.
Qed.

Lemma NoDup_List_keys r p :
  map_Forall (λ k e, eKey e = k) (entries (st r)) → NoDup (eKey <$> List r p).
Proof.
  intros Hk. unfold List. rewrite sort_slice_perm, <- list_fmap_compose.
  assert (∀ l, (∀ kv, kv ∈ l → eKey kv.2 = kv.1) → (eKey ∘ snd) <$> l = l.*1) as Hext.
  { intros l. induction l as [|kv l IH]; intros Hl; cbn; [done|].
    rewrite IH by set_solver. f_equal. apply Hl. set_solver. }
  rewrite Hext.
  - eapply sublist_NoDup; [apply (NoDup_fst_map_to_list (entries (st r)))|].
    apply fmap_sublist, sublist_filter.
  - intros [k e] [_ Hin]%list_elem_of_filter. apply elem_of_map_to_list in Hin. by apply (Hk k).
Qed.

(** List returns exactly the stored entries whose key starts with the
    prefix, once each, in strictly increasing byte order of their keys. *)
Theorem List_sorted_complete (r : raft) (p : string)
    (Hwf : map_Forall (λ k e, eKey e = k) (entries (st r))) :
  StronglySorted (λ a b, string_lt (eKey a) (eKey b)) (List r p) ∧
  ∀ e, e ∈ List r p ↔ entries (st r) !! eKey e = Some e ∧ ∃ t, eKey e = p +:+ t.
Proof.
  split.
  - apply sorted_strict; [|by apply NoDup_List_keys]. apply (sort_slice_sorted _ (λ _, True)). by apply Forall_true.
  - intros e. rewrite List_elem. setoid_rewrite hasPrefix_HasPrefix. split.
    + intros (k & Hk & Hp). rewrite (Hwf k e Hk). apply HasPrefix_spec in Hp. eauto.
    + intros (Hk & Hp). apply HasPrefix_spec in Hp. eauto.
Qed.

Definition list_demo : raft :=
  match run_node demo_open [NOp 1 IoOk (OpPut "a/2" "x"); NOp 2 IoOk (OpPut "b/1" "y"); NOp 3 IoOk (OpPut "a/1" "z")] with
  | Ret (r, _) => r | Panic => demo_open end.

Lemma list_demo_keys : map_Forall (λ k e, eKey e = k) (entries (st list_demo)).
Proof. apply map_Forall_to_list. vm_compute. repeat constructor. Qed.

Lemma List_sorted_complete_witness :
  (eKey <$> List list_demo "a/") = ["a/1"; "a/2"] ∧
  StronglySorted (λ a b, string_lt (eKey a) (eKey b)) (List list_demo "a/").
Proof.
  split; [by vm_compute|]. apply (List_sorted_complete list_demo "a/"). exact list_demo_keys.
Defined.

(** ** Watches *)

(** What a non-blocking send does to an open watcher. *)
Definition delivered (ev : Entry) (w : watcher) : watcher :=
  if hasPrefix (eKey ev) (w_prefix w) && bool_decide (length (w_buf w) < watch_cap)
  then mk_watcher (w_prefix w) (w_buf w ++ [ev]) (w_closed w) (w_replay w) else w.

Lemma deliver_all_delivered ev ws :
  Forall (λ w, w_closed w = false) ws → deliver_all ev ws = Ret (delivered ev <$> ws).
Proof.
  induction 1 as [|w ws Hw _ IH]; cbn; [done|]. rewrite IH. unfold deliver, delivered. rewrite Hw.
  destruct (hasPrefix _ _); cbn; [|done]. by case_bool_decide.
Qed.

Lemma fanout_groups_delivered ev gs acc :
  Forall (λ g, Forall (λ w, w_closed w = false) g.2) gs →
  fanout_groups ev gs acc =
    Ret (foldl (λ acc g, <[g.1 := delivered ev <$> g.2]> acc) acc gs).
Proof.
  intros H. revert acc. induction H as [|[p ws] gs Hws _ IH]; intros acc; cbn; [done|].
  rewrite deliver_all_delivered by done. cbn. apply IH.
Qed.

Lemma foldl_insert_lookup {A} (f : A → A) (gs : list (string * A)) (acc : gmap string A) p :
  NoDup gs.*1 →
  foldl (λ acc g, <[g.1 := f g.2]> acc) acc gs !! p =
    match list_to_map (M := gmap string A) gs !! p with Some a => Some (f a) | None => acc !! p end.
Proof.
  revert acc. induction gs as [|[q a] gs IH]; intros acc Hn; cbn in *; [by rewrite lookup_empty|].
  apply NoDup_cons in Hn as [Hq Hn]. rewrite IH by done.
  destruct (decide (q = p)) as [->|Hne].
  - rewrite lookup_insert_eq. rewrite not_elem_of_list_to_map_1 by done. by rewrite lookup_insert_eq.
  - rewrite lookup_insert_ne by done. by rewrite lookup_insert_ne.
Qed.

(** when no watch has been closed, a change is sent to every watcher whose
    prefix matches its key and whose 256-slot buffer has room, appended after
    what the buffer holds, and to no other watcher. *)
Theorem fanout_delivers (r : raft) (ev : Entry) (H : open_watchers (watchers r)) :
  ∃ r', fanout r ev = Ret r' ∧ st r' = st r ∧ log r' = log r ∧
    ∀ p, watchers r' !! p = map (delivered ev) <$> watchers r !! p.
Proof.
  unfold fanout. rewrite fanout_groups_delivered.
  2:{ apply Forall_forall. intros [p ws] Hin%elem_of_map_to_list. by apply (H p). }
  eexists. split; [done|]. split; [done|]. split; [done|]. intros p. cbn.
  rewrite (foldl_insert_lookup (fmap (delivered ev))) by apply NoDup_fst_map_to_list.
  rewrite list_to_map_to_list. by destruct (watchers r !! p).
Qed.

Definition watch_demo : raft :=
  Watch (Watch demo_open {| wPrefix := "a"; wSince := 0; wTimeout := 5 |})
        {| wPrefix := "b"; wSince := 0; wTimeout := 0 |}.

Lemma watch_demo_open : open_watchers (watchers watch_demo).
Proof. apply map_Forall_to_list. vm_compute. repeat constructor. Qed.

Lemma fanout_delivers_witness :
  ∃ r', fanout watch_demo (mk_Entry "ab" "v" 1 false 0) = Ret r' ∧
    (map w_buf <$> watchers r' !! "a") = Some [[mk_Entry "ab" "v" 1 false 0]] ∧
    (map w_buf <$> watchers r' !! "b") = Some [[]].
Proof.
  destruct (fanout_delivers watch_demo (mk_Entry "ab" "v" 1 false 0) watch_demo_open)
    as (r' & H & _ & _ & Hw).
  exists r'. rewrite !Hw. split_and!; [done|by vm_compute|by vm_compute].
Defined.

Lemma deliver_all_panic ev ws :
  Exists (λ w, w_closed w = true ∧ hasPrefix (eKey ev) (w_prefix w) = true) ws →
  deliver_all ev ws = Panic.
Proof.
  induction 1 as [w ws [Hc Hp]|w ws _ IH]; cbn.
  - unfold deliver. by rewrite Hp, Hc.
  - rewrite IH. by destruct (deliver ev w).
Qed.

Lemma fanout_groups_panic ev gs acc :
  Exists (λ g, Exists (λ w, w_closed w = true ∧ hasPrefix (eKey ev) (w_prefix w) = true) g.2) gs →
  fanout_groups ev gs acc = Panic.
Proof.
  intros H. revert acc. induction H as [[p ws] gs Hw|[p ws] gs _ IH]; intros acc; cbn.
  - by rewrite deliver_all_panic.
  - destruct (deliver_all ev ws); cbn; [apply IH|done].
Qed.

Lemma fanout_panics r ev p ws w :
  watchers r !! p = Some ws → w ∈ ws → w_closed w = true →
  hasPrefix (eKey ev) (w_prefix w) = true → fanout r ev = Panic.
Proof.
  intros Hws Hin Hc Hp. unfold fanout. rewrite fanout_groups_panic; [done|].
  apply Exists_exists. exists (p, ws). split; [by apply elem_of_map_to_list|].
  apply Exists_exists. eauto.
Qed.

Lemma applyFromQueue_panics r ev p ws w :
  applyQueue r = [ev] → watchers r !! p = Some ws → w ∈ ws → w_closed w = true →
  hasPrefix (eKey ev) (w_prefix w) = true → applyFromQueue r = Panic.
Proof.
  intros Hq Hws Hin Hc Hp. unfold applyFromQueue. rewrite Hq. cbn [fanout_list].
  by erewrite (fanout_panics (set_applyQueue [] r)).
Qed.

Lemma applyLocked_new now r e :
  (lastApplied r < lIndex e)%Z →
  applyQueue (applyLocked now r e) = applyQueue r ++ apply_event now (apply_store now (st r) e) e ∧
  watchers (applyLocked now r e) = watchers r.
Proof.
  intros H. unfold applyLocked. rewrite (proj2 (Z.leb_gt _ _) H). done.
Qed.

(** after the timeout of a watch has closed its channel the watch stays
    registered, and the next Put of a key with its prefix panics (a send on a
    closed channel). *)
Theorem put_after_watch_timeout_panics (now : Time) (r : raft) (opts : WatchOptions)
    (k v : string) (Hr : ready r) (Hs : small r) (Hq : applyQueue r = [])
    (Hk : HasPrefix k (wPrefix opts) = true) :
  Put (good_env now)
      (expire (Watch r opts) (wPrefix opts) (length (default [] (watchers r !! wPrefix opts))))
      k v = Panic.
Proof.
  set (p := wPrefix opts) in *. set (n := length _). set (r1 := expire _ _ _).
  assert (journal_open r1 = true) as Hj by apply Hr.
  unfold Put, commit_entry. cbn [e_io good_env]. rewrite append_ok by done.
  cbn [e_now e_acks good_env]. unfold replicate. rewrite bool_decide_true by apply Hr.
  match goal with |- context [applyLocked now ?x ?e] =>
    destruct (applyLocked_new now x e) as [Hq' Hw'] end.
  { cbn. rewrite (rdy_applied _ Hr). lia. }
  unfold apply_event, apply_store, get in Hq'. cbn [lOp lKey stamped put_entry] in Hq'.
  cbn [entries] in Hq'. rewrite lookup_insert_eq in Hq'.
  change (applyQueue (set_commitIndex _ _)) with (applyQueue r) in Hq'. rewrite Hq in Hq'.
  erewrite (applyFromQueue_panics _ _ p); [done|exact Hq'| | | |].
  - rewrite Hw'. cbn. rewrite lookup_alter, decide_True by done. rewrite lookup_insert_eq. cbn. done.
  - eapply (list_elem_of_lookup_2 _ n). rewrite list_lookup_alter_eq.
    by rewrite (list_lookup_middle _ [] _ n).
  - done.
  - cbn. by rewrite hasPrefix_HasPrefix.
Qed.

Lemma put_after_watch_timeout_panics_witness :
  Put (good_env 2)
      (expire (Watch one_put {| wPrefix := "a"; wSince := 0; wTimeout := 1 |}) "a" 0) "ab" "v" = Panic.
Proof.
  apply (put_after_watch_timeout_panics 2 one_put {| wPrefix := "a"; wSince := 0; wTimeout := 1 |}).
  - exact one_put_ready.
  - by vm_compute.
  - by vm_compute.
  - by vm_compute.
Defined.

(** ** Quorums *)

(** C17: with several peers, when its journal write succeeds, a Put takes effect
    exactly when a strict majority, this node included, acknowledges before the
    timer: the new value is stored and returned.  Without a majority the caller
    gets the timeout error and the store is unchanged.  In both cases the entry
    is appended to the log and to the journal and stays there.  The node's
    journal is open, none of its watches has been closed, its log is within 64
    bits and its applied index is not beyond its log. *)
Theorem put_needs_majority (x : env) (r : raft) (k v : string)
    (Hn : length (peers r) ≠ 1) (Hj : journal_open r = true) (Hw : open_watchers (watchers r))
    (Hio : e_io x = IoOk) (Hs : small r)
    (Hl : (lastApplied r ≤ Z.of_nat (length (log r)))%Z) :
  if decide (length (peers r) < 2 * ack_count r (e_acks x))
  then ∃ r' e, Put x r k v = Ret (r', Ok (Some e)) ∧ eValue e = v ∧
         st r' = apply_store (e_now x) (st r) (put_entry r k v) ∧
         log r' = log r ++ [stamped r (put_entry r k v)] ∧
         f_journal (files r') = f_journal (files r) ++ [stamped r (put_entry r k v)]
  else ∃ r', Put x r k v = Ret (r', Err ErrReplTimeout) ∧ st r' = st r ∧
         log r' = log r ++ [stamped r (put_entry r k v)] ∧
         f_journal (files r') = f_journal (files r) ++ [stamped r (put_entry r k v)].
Proof.
  unfold Put, commit_entry. rewrite Hio, append_ok by done. unfold replicate.
  rewrite bool_decide_false by done.
  unfold quorum, ack_count. cbn [peers cfg set_journal set_log set_currentTerm set_files].
  set (a := length (filter _ (peers r))). set (n := length (peers r)).
  pose proof (Nat.div_mod_eq n 2) as Hdm. pose proof (Nat.mod_upper_bound n 2) as Hmod.
  case_decide as Hd.
  - rewrite bool_decide_true by lia.
    match goal with |- context [applyLocked _ ?y ?e] =>
      assert (lastApplied y = lastApplied r ∧ watchers y = watchers r ∧ st y = st r ∧
              log y = log r ++ [e] ∧ f_journal (files y) = f_journal (files r) ++ [e])
        as (Hly & Hwy & Hsty & Hlog & Hfile) by (by destruct (_ <? _)%Z);
      destruct (apply_and_fanout (e_now x) y e) as (r' & -> & _ & _ & Hlog' & Hfile' & H); [by rewrite Hwy|] end.
    rewrite Hly, Hsty, (proj2 (Z.leb_gt _ _)) in H by (cbn; lia). destruct H as [Hst _].
    cbn [go_bind]. unfold get. rewrite Hst. unfold apply_store at 1.
    cbn [lOp lKey put_entry stamped entries]. rewrite lookup_insert_eq.
    eexists _, _. split; [reflexivity|]. split_and!; [reflexivity|exact Hst| |].
    + cbn [log set_puts]. by rewrite Hlog', Hlog.
    + cbn [files set_puts]. by rewrite Hfile', Hfile.
  - rewrite bool_decide_false by lia. by eexists.
Qed.

Definition three_cfg : Config :=
  {| cNodeID := "n1"; cDataDir := "/d"; cListen := ""; cBootstrap := true;
     cPeers := [{| pID := "n2"; pAddress := "h2" |}; {| pID := "n3"; pAddress := "h3" |}] |}.
Definition three_node : raft :=
  match openRaft 0 three_cfg empty_disk with Ok r => r | Err _ => demo_open end.

Lemma put_needs_majority_witness :
  ∃ r' r'', Put {| e_now := 1; e_io := IoOk; e_acks := ["n3"] |} three_node "k" "v" =
              Ret (r', Ok (Some (mk_Entry "k" "v" 1 false 1))) ∧
    Put {| e_now := 1; e_io := IoOk; e_acks := [] |} three_node "k" "v" = Ret (r'', Err ErrReplTimeout).
Proof.
  set (x := {| e_now := 1; e_io := IoOk; e_acks := [] |}).
  assert (Hw : open_watchers (watchers three_node)) by apply map_Forall_empty.
  assert (H : if decide (length (peers three_node) < 2 * ack_count three_node (e_acks x)) then _ else _)
    by (apply (put_needs_majority x three_node "k" "v");
        [by vm_compute|by vm_compute|exact Hw|reflexivity|by vm_compute|by vm_compute]).
  rewrite decide_False in H by (vm_compute; lia). destruct H as (r'' & H & _).
  eexists _, r''. split; [by vm_compute|exact H].
Defined.

(** ** Membership *)

(** Peer identifiers are distinct and the replication indexes cover exactly
    them. *)
Definition members_wf (r : raft) : Prop :=
  NoDup (pID <$> peers r) ∧
  dom (nextIndex r) = list_to_set (C := gset string) (pID <$> peers r) ∧
  dom (matchIndex r) = list_to_set (C := gset string) (pID <$> peers r).

Lemma containsPeer_spec r p : containsPeer r p = true ↔ pID p ∈ pID <$> peers r.
Proof.
  unfold containsPeer. rewrite existsb_exists, list_elem_of_fmap. split.
  - intros (x & Hin & Hx). apply bool_decide_eq_true in Hx. exists x.
    rewrite list_elem_of_In. auto.
  - intros (x & Hx & Hin). exists x. rewrite <- list_elem_of_In, bool_decide_eq_true. auto.
Qed.

Lemma filter_peers_ids (id : string) (ps : list Peer) :
  list_to_set (C := gset string) (pID <$> filter (λ p, pID p ≠ id) ps) =
  list_to_set (pID <$> ps) ∖ {[id]}.
Proof.
  induction ps as [|p ps IH]; [set_solver|]. rewrite filter_cons.
  case_decide; cbn; set_solver.
Qed.

(** C40: AddPeer and RemovePeer keep peer identifiers distinct and the
    replication indexes in step with them; adding puts the identifier in and a
    second add changes nothing, removing takes it out. *)
Theorem membership_preserved (r : raft) (p : Peer) (id : string) (H : members_wf r) :
  members_wf (AddPeer r p) ∧ members_wf (RemovePeer r id) ∧
  pID p ∈ pID <$> Peers (AddPeer r p) ∧ AddPeer (AddPeer r p) p = AddPeer r p ∧
  id ∉ pID <$> Peers (RemovePeer r id).
Proof.
  destruct H as (Hn & Hd1 & Hd2).
  assert (members_wf (AddPeer r p) ∧ pID p ∈ pID <$> peers (AddPeer r p)) as [Ha Hin].
  { unfold AddPeer. destruct (containsPeer r p) eqn:E.
    - apply containsPeer_spec in E. done.
    - assert (pID p ∉ pID <$> peers r) as Hni by (rewrite <- containsPeer_spec; congruence).
      unfold members_wf. cbn -[u64]. rewrite fmap_app. split; [split_and!|set_solver].
      + apply NoDup_app. split_and!; [done|set_solver|apply NoDup_singleton].
      + rewrite dom_insert_L, list_to_set_app_L, Hd1. set_solver.
      + rewrite dom_insert_L, list_to_set_app_L, Hd2. set_solver. }
  split_and!; [done| |done| |].
  - unfold members_wf, RemovePeer. cbn. rewrite filter_peers_ids. split_and!.
    + eapply sublist_NoDup; [exact Hn|]. apply fmap_sublist, sublist_filter.
    + by rewrite dom_delete_L, Hd1.
    + by rewrite dom_delete_L, Hd2.
  - unfold AddPeer at 1. by rewrite (proj2 (containsPeer_spec _ _) Hin).
  - unfold Peers, RemovePeer. cbn. intros (q & -> & Hq)%list_elem_of_fmap.
    by apply list_elem_of_filter in Hq as [? _].
Qed.

Lemma membership_preserved_witness :
  members_wf three_node ∧
  members_wf (AddPeer three_node {| pID := "n4"; pAddress := "" |}) ∧
  members_wf (RemovePeer three_node "n2").
Proof.
  assert (members_wf three_node) as H.
  { unfold members_wf. split_and!; [|apply leibniz_equiv; by vm_compute..].
    change (NoDup ["n2"; "n3"; "n1"]). repeat constructor; set_solver. }
  destruct (membership_preserved three_node {| pID := "n4"; pAddress := "" |} "n2" H)
    as (? & ? & _). by split_and!.
Defined.

(** ** Versions and deletion *)

(** Delete forgets the version of a key: the next Put starts again at 1,
    so a CompareAndSwap holding the version of the deleted entry succeeds on
    the new one. *)
Theorem version_restarts_after_delete (now : Time) (r : raft) (k v1 v2 : string)
    (Hr : ready r) (Hs : (Z.of_nat (length (log r)) + 4 < 2 ^ 64)%Z) :
  ∃ r1 r2 e2 r3 e3,
    Delete (good_env now) r k = Ret (r1, Ok ()) ∧
    Put (good_env now) r1 k v1 = Ret (r2, Ok (Some e2)) ∧ eVersion e2 = 1%Z ∧
    CompareAndSwap (good_env now) r2 k v2 1 = Ret (r3, Ok (Some e3)) ∧ eVersion e3 = 2%Z.
Proof.
  destruct (Delete_ready now r k Hr) as (r1 & E1 & Hr1 & Ha1 & Hl1); [unfold small; lia|].
  assert (length (log r1) = length (log r) + 1) as Hn1 by (rewrite Hl1, length_app; done).
  destruct (Put_ready now r1 k v1 Hr1) as (r2 & e2 & E2 & Hr2 & Ha2 & Hl2 & _ & _ & Hv2);
    [unfold small; lia|].
  assert (length (log r2) = length (log r) + 2) as Hn2 by (rewrite Hl2, length_app; cbn; lia).
  assert (spec_version (abs r1) k = 0%Z) as H0
    by (rewrite Ha1; unfold spec_version; by rewrite lookup_delete_eq).
  assert (abs r2 !! k = Some (v1, 1%Z)) as Hk
    by (rewrite Ha2; unfold spec_put; by rewrite lookup_insert_eq, H0).
  destruct (cas_finish_ready now r2 k (mk_logEntry 0 0 op_put k v2 2)) as (r3 & e3 & E3 & _ & _ & _ & He);
    [done|unfold small; lia|done|done|cbn; lia|].
  exists r1, r2, e2, r3, e3. split_and!; try done; [lia| |by injection He].
  unfold CompareAndSwap. rewrite cas_check_spec by ((by apply ready_running) || (unfold small; lia)).
  unfold spec_version. by rewrite Hk.
Qed.

Lemma version_restarts_after_delete_witness :
  ∃ r1 r2 e2 r3 e3,
    Delete (good_env 5) one_put "a" = Ret (r1, Ok ()) ∧
    Put (good_env 5) r1 "a" "new" = Ret (r2, Ok (Some e2)) ∧ eVersion e2 = 1%Z ∧
    CompareAndSwap (good_env 5) r2 "a" "late" 1 = Ret (r3, Ok (Some e3)) ∧ eVersion e3 = 2%Z.
Proof.
  apply (version_restarts_after_delete 5 one_put "a" "new" "late");
    [exact one_put_ready|by vm_compute].
Defined.
