(* ===== verification/RaftConc.v ===== *)
(** * Package db: several clients at once

    The operations of internal/primitives/db/raft.go take their locks one after
    the other, and the journal is written under none of them.  Here every
    operation is a thread that runs one critical section (or one unprotected
    access) per step, and the steps of any number of threads interleave freely.
    [Raft] has the same operations run to completion; [alone_is_atomic] shows that a
    thread that is not interrupted does what they do.  The loop that [openRaft]
    starts is one more thread: it drains the queue, holds its elections, and
    takes its snapshots, which write the state, close the journal, rename,
    truncate and reopen it one after the other and under no lock.

    A queued event is a pointer and may be nil, which [Raft] has no need to
    represent, so the queue of events is kept beside the record. *)

From S2P Require Import Prelude Raft.

(** ** Threads *)

Inductive op := CPut (k v : string) | CDel (k : string) | CCas (k v : string) (x : Z).
Definition op_key (o : op) : string := match o with CPut k _ | CDel k | CCas k _ _ => k end.

(** Where a thread is.  The loop of the store drains the queue too: its rounds
    have no operation to return to. *)
Inductive pc :=
| PStart (o : op)
| PAppend (o : op) (e : logEntry)
| PJournal (o : op) (e : logEntry)
| PCommit (o : op) (e : logEntry)
| PCheck (o : op) (e : logEntry)
| PStore (o : op) (e : logEntry)
| PEvent (o : op) (e : logEntry)
| PQueue (o : op) (e : logEntry) (ev : option Entry)
| PDrain (k : option (op * logEntry))
| PFanout (k : option (op * logEntry)) (evs : list (option Entry))
| PReturn (o : op) (e : logEntry)
| PEnded (o : op) (e : option logEntry) (x : res (option Entry))
| PGone
| PElect
| PLead
| PTally
| PSnapCopy
| PSnapTerm (m : gmap string Entry) (rev : Z)
| PSnapWrite (s : raftSnapshot)
| PSnapClose (s : raftSnapshot)
| PSnapRename (s : raftSnapshot)
| PSnapOpen
| PSnapAssign.

(** [append] up to the release of its lock, and the write to the journal. *)
Definition log_append (r : raft) (e : logEntry) : raft * logEntry :=
  let term := if (currentTerm r =? 0)%Z then 1%Z else currentTerm r in
  let e := mk_logEntry (u64 (u64 (Z.of_nat (length (log r))) + 1)) term
                       (lOp e) (lKey e) (lValue e) (lVersion e) in
  let r := set_currentTerm term r in
  (set_log (log r ++ [e]) r, e).
Definition journal_write (io : journal_io) (r : raft) (e : logEntry) : raft * option error :=
  if negb (journal_open r) then (r, Some ErrClosed)
  else match io with
       | WriteFails err => (r, Some err)
       | SyncFails err => (set_journal (f_journal (files r) ++ [e]) r, Some err)
       | IoOk => (set_journal (f_journal (files r) ++ [e]) r, None)
       end.

(** The event of an application: what the store holds for the key by then, which
    may be nothing. *)
Definition event_of (now : Time) (r : raft) (e : logEntry) : option Entry :=
  match lOp e with
  | op_put => get (st r) (lKey e)
  | op_del => Some (mk_Entry (lKey e) "" (lVersion e) true now)
  end.

(** Fanning out nil dereferences it for the first watcher there is. *)
Definition fanout_ptr (r : raft) (ev : option Entry) : go raft :=
  match ev with
  | Some ev => fanout r ev
  | None => if bool_decide (concat (map_to_list (watchers r)).*2 = []) then Ret r else Panic
  end.

Definition returned (r : raft) (o : op) : raft * res (option Entry) :=
  match o with
  | CPut k _ => (set_puts (u64 (puts r + 1)) r, Ok (get (st r) k))
  | CDel _ => (set_dels (u64 (dels r + 1)) r, Ok None)
  | CCas k _ _ => (r, Ok (get (st r) k))
  end.

(** One step.  [acked]: with several peers, a majority acknowledged in time;
    [sio]: which action of a snapshot fails. *)
Definition step_thread (now : Time) (io : journal_io) (sio : snap_io) (acked : bool) (r : raft) (q : list (option Entry)) (p : pc) :
    option (go (raft * list (option Entry) * pc)) :=
  match p with
  | PStart o =>
      Some (Ret (r, q,
        match o with
        | CPut k v => PAppend o (put_entry r k v)
        | CDel k => PAppend o (mk_logEntry 0 0 op_del k "" 0)
        | CCas k v x => match cas_check r k v x with Ok e => PAppend o e | Err e => PEnded o None (Err e) end
        end))
  | PAppend o e => let '(r, e) := log_append r e in Some (Ret (r, q, PJournal o e))
  | PJournal o e =>
      match journal_write io r e with
      | (r, Some err) => Some (Ret (r, q, PEnded o (Some e) (Err err)))
      | (r, None) => Some (Ret (r, q, PCommit o e))
      end
  | PCommit o e =>
      if bool_decide (length (peers r) = 1) then Some (Ret (set_commitIndex (lIndex e) r, q, PCheck o e))
      else if acked then
        Some (Ret (if (commitIndex r <? lIndex e)%Z then set_commitIndex (lIndex e) r else r, q, PCheck o e))
      else Some (Ret (r, q, PEnded o (Some e) (Err ErrReplTimeout)))
  | PCheck o e =>
      if (lIndex e <=? lastApplied r)%Z then Some (Ret (r, q, PDrain (Some (o, e))))
      else Some (Ret (set_lastApplied (lIndex e) r, q, PStore o e))
  | PStore o e => Some (Ret (set_st (apply_store now (st r) e) r, q, PEvent o e))
  | PEvent o e => Some (Ret (r, q, PQueue o e (event_of now r e)))
  | PQueue o e ev =>
      Some (Ret (set_applyCh true (set_applied (u64 (applied r + 1)) r), q ++ [ev], PDrain (Some (o, e))))
  | PDrain k => Some (Ret (r, [], PFanout k q))
  | PFanout k (ev :: evs) => Some (go_bind (fanout_ptr r ev) (λ r, Ret (r, q, PFanout k evs)))
  | PFanout (Some (o, e)) [] => Some (Ret (r, q, PReturn o e))
  | PFanout None [] => Some (Ret (r, q, PTally))
  | PReturn o e => let '(r, x) := returned r o in Some (Ret (r, q, PEnded o (Some e) x))
  | PEnded _ _ _ | PGone => None
  | PElect =>
      let r := set_role roleCandidate r in
      let r := set_currentTerm (u64 (currentTerm r + 1)) r in
      Some (Ret (set_votedFor (cNodeID (cfg r)) r, q, PLead))
  | PLead => Some (Ret (if bool_decide (length (peers r) = 1) then set_role roleLeader r else r, q, PTally))
  | PTally =>
      Some (Ret (r, q, if (applied r mod 256 =? 0)%Z && (0 <? applied r)%Z then PSnapCopy else PGone))
  | PSnapCopy => Some (Ret (r, q, PSnapTerm (entries (st r)) (version (st r))))
  | PSnapTerm m rev => Some (Ret (r, q, PSnapWrite {| snTerm := currentTerm r; snIndex := rev; snState := m |}))
  | PSnapWrite s => Some (Ret (r, q, match sio with SnapTmpFails => PGone | _ => PSnapClose s end))
  | PSnapClose s =>
      if negb (journal_open r) then Some (Ret (r, q, PGone))
      else Some (Ret (set_journal_open false r, q, match sio with SnapCloseFails => PGone | _ => PSnapRename s end))
  | PSnapRename s =>
      match sio with
      | SnapRenameFails => Some (Ret (r, q, PGone))
      | _ => Some (Ret (set_files (mk_disk (f_journal (files r)) (f_garbage (files r)) (SnapGood s)) r, q, PSnapOpen))
      end
  | PSnapOpen =>
      match sio with
      | SnapReopenFails => Some (Ret (r, q, PGone))
      | _ => Some (Ret (set_files (mk_disk [] false (f_snap (files r))) r, q, PSnapAssign))
      end
  | PSnapAssign => Some (Ret (set_journal_open true r, q, PGone))
  end.

(** ** Interleavings *)

(** [c_dropped] remembers the records that snapshots have truncated away; no step
    looks at it. *)
Record conf := mk_conf {
  c_raft : raft; c_queue : list (option Entry); c_threads : list pc; c_dropped : list logEntry;
}.

(** What a step of the thread at [p] to [p'] removes from the journal. *)
Definition truncates (p p' : pc) (r : raft) : list logEntry :=
  match p, p' with PSnapOpen, PSnapAssign => f_journal (files r) | _, _ => [] end.

(** The loop is one goroutine: it starts an iteration when the last is over. *)
Definition in_loop (p : pc) : bool :=
  match p with
  | PDrain None | PFanout None _ | PElect | PLead | PTally | PSnapCopy | PSnapTerm _ _ | PSnapWrite _
  | PSnapClose _ | PSnapRename _ | PSnapOpen | PSnapAssign => true
  | _ => false
  end.
Definition loop_idle (c : conf) : Prop := existsb in_loop (c_threads c) = false.

Definition spawn (c : conf) (r : raft) (p : pc) : conf :=
  mk_conf r (c_queue c) (c_threads c ++ [p]) (c_dropped c).

Inductive cstep : conf → conf → Prop :=
| cs_call c o : cstep c (spawn c (c_raft c) (PStart o))
| cs_loop c :
    loop_idle c → applyCh (c_raft c) = true →
    cstep c (spawn c (set_applyCh false (c_raft c)) (PDrain None))
| cs_election c : loop_idle c → cstep c (spawn c (c_raft c) PElect)
| cs_thread c i p now io sio acked r q p' :
    c_threads c !! i = Some p →
    step_thread now io sio acked (c_raft c) (c_queue c) p = Some (Ret (r, q, p')) →
    cstep c (mk_conf r q (<[i := p']> (c_threads c)) (c_dropped c ++ truncates p p' (c_raft c))).

(** A store nobody has written to. *)
Definition fresh (r : raft) : Prop :=
  log r = [] ∧ lastApplied r = 0%Z ∧ entries (st r) = ∅ ∧ f_journal (files r) = [] ∧ applyQueue r = [] ∧
  f_snap (files r) = SnapAbsent.

Definition reachable (c : conf) : Prop := ∃ r, fresh r ∧ rtc cstep (mk_conf r [] [] []) c.

(** A thread about to panic, which ends the process. *)
Definition panics (c : conf) : Prop := ∃ i p now io sio acked,
  c_threads c !! i = Some p ∧ step_thread now io sio acked (c_raft c) (c_queue c) p = Some Panic.

(** ** A thread that is not interrupted *)

Section Alone.
Context (x : env).

(** Up to [n] steps of one thread, with nobody else running. *)
Fixpoint alone (n : nat) (r : raft) (q : list (option Entry)) (p : pc) : go (raft * list (option Entry) * pc) :=
  match n with
  | O => Ret (r, q, p)
  | S n =>
      match step_thread (e_now x) (e_io x) SnapIoOk (bool_decide (quorum r ≤ ack_count r (e_acks x))) r q p with
      | None => Ret (r, q, p)
      | Some s => go_bind s (λ '(r, q, p), alone n r q p)
      end
  end.

Lemma append_split io r e :
  append io r e = let '(r, e) := log_append r e in let '(r, err) := journal_write io r e in (r, e, err).
Proof. unfold append, log_append, journal_write. cbn. destruct (negb _); [done|]. by destruct io. Qed.

(** What the thread has when it is done. *)
Definition ended (o : op) (e : logEntry) (r : raft) (err : option error) : go (raft * list (option Entry) * pc) :=
  match err with
  | Some er => Ret (r, [], PEnded o (Some e) (Err er))
  | None => let '(r, y) := returned r o in Ret (r, [], PEnded o (Some e) y)
  end.

Lemma alone_ended n r q o e y : alone n r q (PEnded o e y) = Ret (r, q, PEnded o e y).
Proof. by destruct n. Qed.

Lemma alone_step n r q p r' q' p' :
  step_thread (e_now x) (e_io x) SnapIoOk (bool_decide (quorum r ≤ ack_count r (e_acks x))) r q p = Some (Ret (r', q', p')) →
  alone (S n) r q p = alone n r' q' p'.
Proof. intros Hs. cbn [alone]. by rewrite Hs. Qed.

Ltac one := erewrite alone_step by reflexivity.

Lemma alone_return n r o e : alone (2 + n) r [] (PFanout (Some (o, e)) []) = ended o e r None.
Proof.
  cbn [Nat.add]. one. unfold ended. destruct (returned r o) as [r' y] eqn:Hr.
  erewrite alone_step by (cbn [step_thread]; rewrite Hr; reflexivity). apply alone_ended.
Qed.

(** From the check of [applyLocked] to the end. *)
Lemma alone_apply n r o e :
  applyQueue r = [] →
  alone (8 + n) r [] (PCheck o e) =
    go_bind (applyFromQueue (applyLocked (e_now x) r e)) (λ r, ended o e r None).
Proof.
  intros Hq. unfold applyLocked, applyFromQueue. cbn [Nat.add].
  destruct (Z.leb_spec (lIndex e) (lastApplied r)) as [Hle|Hgt].
  - erewrite alone_step by (cbn [step_thread]; rewrite (proj2 (Z.leb_le _ _) Hle); reflexivity).
    one. rewrite Hq. cbn [fanout_list go_bind]. replace (set_applyQueue [] r) with r by (destruct r; cbn in Hq; by subst).
    apply (alone_return (4 + n)).
  - erewrite alone_step by (cbn [step_thread]; rewrite (proj2 (Z.leb_gt _ _) Hgt); reflexivity).
    one. one. one. one. cbn [app]. set (r1 := set_st _ _).
    set (r2 := set_applyCh true (set_applied (u64 (applied r1 + 1)) r1)).
    assert (Hone : ∃ ev, event_of (e_now x) r1 e = Some ev ∧ apply_event (e_now x) (st r1) e = [ev]).
    { subst r1. unfold event_of, apply_event, apply_store, get. cbn. destruct (lOp e); cbn.
      - rewrite lookup_insert_eq. by eexists.
      - by eexists. }
    destruct Hone as (ev & Hev & Hap). rewrite Hev.
    assert (Hrec : set_applyQueue [] (set_applyCh true (set_applied (u64 (applied (set_applyQueue (applyQueue r1 ++ [ev]) r1) + 1))
      (set_applyQueue (applyQueue r1 ++ [ev]) r1))) = r2) by (subst r2 r1; destruct r; cbn in Hq; by subst).
    assert (Hqq : applyQueue r1 = []) by exact Hq.
    cbv zeta. fold r1. rewrite Hap. rewrite Hrec.
    change (applyQueue (set_applyCh true _)) with (applyQueue r1 ++ [ev]). rewrite Hqq. cbn [app fanout_list].
    change (alone (S (S (S n))) r2 [] ?p) with (alone (S (2 + n)) r2 [] p).
    cbn [alone step_thread fanout_ptr]. destruct (fanout r2 ev) as [r3|]; [|done]. cbn [go_bind]. apply alone_return.
Qed.

Lemma alone_tail n r o e :
  applyQueue r = [] →
  alone (9 + n) r [] (PCommit o e) =
    go_bind (replicate (e_now x) (e_acks x) r e) (λ '(r, err), ended o e r err).
Proof.
  intros Hq. change (9 + n) with (S (8 + n)). unfold replicate.
  destruct (bool_decide (length (peers r) = 1)) eqn:Hp.
  - erewrite alone_step by (cbn [step_thread]; rewrite Hp; reflexivity).
    rewrite alone_apply by done. by destruct (applyFromQueue _).
  - destruct (bool_decide (quorum r ≤ ack_count r (e_acks x))) eqn:Ha;
      erewrite alone_step by (cbn [step_thread]; rewrite Hp, Ha; reflexivity); [|apply alone_ended].
    rewrite alone_apply by (by destruct (_ <? _)%Z). by destruct (applyFromQueue _).
Qed.

Lemma alone_commit n r o e :
  applyQueue r = [] →
  alone (11 + n) r [] (PAppend o e) =
    go_bind (commit_entry x r e) (λ '(r', err), ended o (log_append r e).2 r' err).
Proof.
  intros Hq. unfold commit_entry. rewrite append_split. change (11 + n) with (S (S (9 + n))).
  destruct (log_append r e) as [r1 e1] eqn:Hl.
  erewrite alone_step by (cbn [step_thread]; rewrite Hl; reflexivity).
  assert (Hq1 : applyQueue r1 = []) by (unfold log_append in Hl; injection Hl as <- _; exact Hq).
  destruct (journal_write (e_io x) r1 e1) as [r2 [er|]] eqn:Hj;
    erewrite alone_step by (cbn [step_thread]; rewrite Hj; reflexivity); [apply alone_ended|].
  apply alone_tail. unfold journal_write in Hj. destruct (negb _); [done|]. destruct (e_io x); try done. by injection Hj as <-.
Qed.
End Alone.

(** The fine-grained operations are those of the store when nobody
    interferes: a thread that runs alone, from any state with an empty queue and
    in any environment (a failing journal, missing acknowledgements), ends in
    the state and with the result of [Put], [Delete] and [CompareAndSwap], and
    panics when they do. *)
Theorem alone_is_atomic (x : env) (r : raft) (k v : string) (expect : Z) :
  applyQueue r = [] →
  (∃ e, alone x 12 r [] (PStart (CPut k v)) =
     go_bind (Put x r k v) (λ '(r, y), Ret (r, [], PEnded (CPut k v) (Some e) y))) ∧
  (∃ e, alone x 12 r [] (PStart (CDel k)) =
     go_bind (Delete x r k) (λ '(r, y), Ret (r, [], PEnded (CDel k) (Some e)
       (match y with Ok _ => Ok None | Err er => Err er end)))) ∧
  (∃ e, alone x 12 r [] (PStart (CCas k v expect)) =
     go_bind (CompareAndSwap x r k v expect) (λ '(r, y), Ret (r, [], PEnded (CCas k v expect) e y))).
Proof.
  intros Hq. split_and!.
  - eexists. change 12 with (S (11 + 0)). erewrite alone_step by reflexivity. rewrite alone_commit by done.
    unfold Put. destruct (commit_entry x r (put_entry r k v)) as [[r' [er|]]|]; done.
  - eexists. change 12 with (S (11 + 0)). erewrite alone_step by reflexivity. rewrite alone_commit by done.
    unfold Delete. destruct (commit_entry x r _) as [[r' [er|]]|]; done.
  - unfold CompareAndSwap. destruct (cas_check r k v expect) as [e|er] eqn:Hc.
    + exists (Some (log_append r e).2). change 12 with (S (11 + 0)).
      erewrite alone_step by (cbn [step_thread]; rewrite Hc; reflexivity). rewrite alone_commit by done. unfold cas_finish. destruct (commit_entry x r e) as [[r' [er|]]|]; done.
    + exists None. change 12 with (S (11 + 0)).
      erewrite alone_step by (cbn [step_thread]; rewrite Hc; reflexivity). apply alone_ended.
Qed.

(** ** Invariants of every interleaving *)

(** The logged entry a thread carries, once it has one; and the entry a thread
    has seen written to the journal without an error. *)
Definition holds (p : pc) : option (op * logEntry) :=
  match p with
  | PJournal o e | PCommit o e | PCheck o e | PStore o e | PEvent o e | PQueue o e _ | PReturn o e => Some (o, e)
  | PDrain k | PFanout k _ => k
  | PEnded o (Some e) _ => Some (o, e)
  | _ => None
  end.
Definition journaled (p : pc) : option (op * logEntry) :=
  match p with
  | PJournal _ _ | PEnded _ _ (Err _) => None
  | p => holds p
  end.

(** An entry carries the key of its operation, and the value of a write. *)
Definition entry_for (o : op) (e : logEntry) : Prop :=
  lKey e = op_key o ∧
  match o with
  | CPut _ v | CCas _ v _ => lOp e = op_put ∧ lValue e = v
  | CDel _ => lOp e = op_del
  end.

(** What a stored entry comes from. *)
Definition logged (l : list logEntry) (k : string) (x : Entry) : Prop :=
  eKey x = k ∧ ∃ e, e ∈ l ∧ lOp e = op_put ∧ lKey e = k ∧ lValue e = eValue x ∧ lVersion e = eVersion x.

(** The invariant, of the log, the last applied index, the stored entries, the
    journal and the threads. *)
Record inv (l : list logEntry) (la : Z) (m : gmap string Entry) (j : list logEntry) (ts : list pc) : Prop := {
  inv_index : ∀ n e, l !! n = Some e → lIndex e = (Z.of_nat n + 1)%Z;
  inv_applied : (0 ≤ la ≤ Z.of_nat (length l))%Z;
  inv_store : map_Forall (logged l) m;
  inv_journal : ∀ e, e ∈ j → e ∈ l;
  inv_once : NoDup j;
  inv_draft : ∀ i o e, ts !! i = Some (PAppend o e) → entry_for o e;
  inv_holds : ∀ i p o e, ts !! i = Some p → holds p = Some (o, e) → e ∈ l ∧ entry_for o e;
  inv_distinct : ∀ i i' p p' o o' e, ts !! i = Some p → ts !! i' = Some p' →
    holds p = Some (o, e) → holds p' = Some (o', e) → i = i';
  inv_pending : ∀ i o e, ts !! i = Some (PJournal o e) → e ∉ j;
  inv_durable : ∀ i p o e, ts !! i = Some p → journaled p = Some (o, e) → e ∈ j;
}.

Definition cinv (c : conf) : Prop :=
  inv (log (c_raft c)) (lastApplied (c_raft c)) (entries (st (c_raft c))) (c_dropped c ++ f_journal (files (c_raft c))) (c_threads c).

Lemma logged_mono l l' k x : (∀ e, e ∈ l → e ∈ l') → logged l k x → logged l' k x.
Proof. intros Hl (Hk & e & He & H). split; [done|]. exists e. split; [by apply Hl|done]. Qed.

Lemma inv_init r : fresh r → cinv (mk_conf r [] [] []).
Proof.
  intros (Hl & Ha & He & Hj & _). unfold cinv. cbn. rewrite Hl, Ha, He, Hj.
  split; try done; try (intros; set_solver). constructor.
Qed.

(** A thread that has nothing yet comes in. *)
Lemma inv_spawn l la m j ts p :
  inv l la m j ts → holds p = None → (∀ o e, p ≠ PAppend o e) → inv l la m j (ts ++ [p]).
Proof.
  intros [] Hp Hd.
  assert (Hold : ∀ i p', (ts ++ [p]) !! i = Some p' → ts !! i = Some p' ∨ p' = p).
  { intros i p' Hi. apply lookup_app_Some in Hi as [|[? Hi]]; [by left|].
    right. by apply list_lookup_singleton_Some in Hi as [_ <-]. }
  assert (Hj : journaled p = None) by (destruct p as [| | | | | | | | | | |? ? []| | | | | | | | | | |]; cbn in *; done).
  split; try done.
  - intros i o e [Hi| <-]%Hold; [eauto|]. by destruct (Hd o e).
  - intros i p' o e [Hi| ->]%Hold Hh; [eauto|congruence].
  - intros i i' p1 p2 o o' e [Hi| ->]%Hold [Hi'| ->]%Hold H1 H2; [eauto|congruence..].
  - intros i o e [Hi| <-]%Hold; [eauto|done].
  - intros i p' o e [Hi| ->]%Hold Hh; [eauto|congruence].
Qed.

(** A thread moves without touching what the invariant is about; it may drop or
    keep what it carries. *)
Lemma inv_move l la m j ts i p p' :
  inv l la m j ts → ts !! i = Some p →
  (holds p' = None ∨ holds p' = holds p) → (journaled p' = None ∨ journaled p' = journaled p) →
  (∀ o e, p' = PAppend o e → entry_for o e) → (∀ o e, p' ≠ PJournal o e) →
  inv l la m j (<[i := p']> ts).
Proof.
  intros [] Hi Hh Hj Hd Hn. pose proof (lookup_lt_Some _ _ _ Hi) as Hlt.
  assert (Hold : ∀ i' q, <[i := p']> ts !! i' = Some q → i' ≠ i ∧ ts !! i' = Some q ∨ i' = i ∧ q = p').
  { intros i' q [(-> & <- & _)|(? & ?)]%list_lookup_insert_Some; auto. }
  assert (Hh' : ∀ o e, holds p' = Some (o, e) → holds p = Some (o, e)) by (intros o e; destruct Hh as [->| ->]; done).
  assert (Hj' : ∀ o e, journaled p' = Some (o, e) → journaled p = Some (o, e)) by (intros o e; destruct Hj as [->| ->]; done).
  split; try done.
  - intros i' o e [[_ Ht]|[_ <-]]%Hold; eauto.
  - intros i' q o e [[_ Ht]|[_ ->]]%Hold Hq; eauto.
  - intros i1 i2 p1 p2 o o' e [[_ H1]|[-> ->]]%Hold [[_ H2]|[-> ->]]%Hold Ha Hb; eauto.
  - intros i' o e [[_ Ht]|[_ <-]]%Hold; [eauto|by destruct (Hn o e)].
  - intros i' q o e [[_ Ht]|[_ ->]]%Hold Hq; eauto.
Qed.

(** The log grows by the thread's entry. *)
Lemma inv_append l la m j ts i o e e' :
  inv l la m j ts → ts !! i = Some (PAppend o e) →
  lIndex e' = (Z.of_nat (length l) + 1)%Z → entry_for o e' →
  inv (l ++ [e']) la m j (<[i := PJournal o e']> ts).
Proof.
  intros [] Hi Hx Hfor. assert (Hnew : e' ∉ l).
  { intros [n Hn]%list_elem_of_lookup. pose proof (lookup_lt_Some _ _ _ Hn). apply inv_index0 in Hn. lia. }
  assert (Hold : ∀ i' q, <[i := PJournal o e']> ts !! i' = Some q →
    i' ≠ i ∧ ts !! i' = Some q ∨ i' = i ∧ q = PJournal o e').
  { intros i' q [(-> & <- & _)|(? & ?)]%list_lookup_insert_Some; auto. }
  assert (Hmore : ∀ x, x ∈ l → x ∈ l ++ [e']) by (intros; set_solver).
  split.
  - intros n x [Hn|[Hle Hn]]%lookup_app_Some; [eauto|]. apply list_lookup_singleton_Some in Hn as [Hz <-]. lia.
  - rewrite length_app. cbn. lia.
  - eapply map_Forall_impl; [done|]. intros k x. by apply logged_mono.
  - eauto.
  - done.
  - intros i' o' x [[_ Ht]|[_ [=]]]%Hold; eauto.
  - intros i' q o' x [[_ Ht]|[_ ->]]%Hold Hq; [destruct (inv_holds0 _ _ _ _ Ht Hq); auto|].
    injection Hq as <- <-. split; [set_solver|done].
  - intros i1 i2 p1 p2 o1 o2 x [[_ H1]|[-> ->]]%Hold [[_ H2]|[-> ->]]%Hold Ha Hb; [eauto| | |done].
    + injection Hb as _ <-. by destruct (inv_holds0 _ _ _ _ H1 Ha).
    + injection Ha as _ <-. by destruct (inv_holds0 _ _ _ _ H2 Hb).
  - intros i' o' x [[_ Ht]|[_ [= <- <-]]]%Hold; eauto.
  - intros i' q o' x [[_ Ht]|[_ ->]]%Hold Hq; [eauto|done].
Qed.

(** The entry reaches the journal. *)
Lemma inv_write l la m j ts i o e p' :
  inv l la m j ts → ts !! i = Some (PJournal o e) →
  holds p' = Some (o, e) → (journaled p' = None ∨ journaled p' = Some (o, e)) →
  (∀ o e, p' ≠ PAppend o e) → (∀ o e, p' ≠ PJournal o e) →
  inv l la m (j ++ [e]) (<[i := p']> ts).
Proof.
  intros [] Hi Hh Hj Hd Hn. assert (Hhold : holds (PJournal o e) = Some (o, e)) by done.
  assert (Hold : ∀ i' q, <[i := p']> ts !! i' = Some q → i' ≠ i ∧ ts !! i' = Some q ∨ i' = i ∧ q = p').
  { intros i' q [(-> & <- & _)|(? & ?)]%list_lookup_insert_Some; auto. }
  split; try done.
  - intros x [Hx|Hx%list_elem_of_singleton]%elem_of_app; [eauto|]. subst x. by destruct (inv_holds0 _ _ _ _ Hi Hhold).
  - apply NoDup_app. split; [done|]. split; [|apply NoDup_singleton].
    intros x Hx Hx'%list_elem_of_singleton. subst x. by apply (inv_pending0 _ _ _ Hi).
  - intros i' o' x [[_ Ht]|[_ Ht]]%Hold; [eauto|]. by destruct (Hd o' x).
  - intros i' q o' x [[_ Ht]|[_ ->]]%Hold Hq; [eauto|]. rewrite Hh in Hq. injection Hq as <- <-. eauto.
  - intros i1 i2 p1 p2 o1 o2 x [[_ H1]|[-> ->]]%Hold [[_ H2]|[-> ->]]%Hold Ha Hb; [eauto| | |done].
    + rewrite Hh in Hb. injection Hb as _ <-. eauto.
    + rewrite Hh in Ha. injection Ha as _ <-. eauto.
  - intros i' o' x [[Hne Ht]|[_ Ht]]%Hold; [|by destruct (Hn o' x)].
    intros [Hx|Hx%list_elem_of_singleton]%elem_of_app; [by apply (inv_pending0 _ _ _ Ht)|]. subst x. eauto.
  - intros i' q o' x [[_ Ht]|[_ ->]]%Hold Hq; [apply elem_of_app; eauto|].
    destruct Hj as [Hj|Hj]; rewrite Hj in Hq; [done|]. injection Hq as _ <-. set_solver.
Qed.

(** The applied index and the store move. *)
Lemma inv_advance l la m j ts i p o e :
  inv l la m j ts → ts !! i = Some p → holds p = Some (o, e) → inv l (lIndex e) m j ts.
Proof.
  intros [] Hi Hh. destruct (inv_holds0 _ _ _ _ Hi Hh) as [[n Hn]%list_elem_of_lookup _].
  pose proof (lookup_lt_Some _ _ _ Hn). apply inv_index0 in Hn as Hx. split; try done. lia.
Qed.

Lemma inv_apply l la s j ts i p o e now :
  inv l la (entries s) j ts → ts !! i = Some p → holds p = Some (o, e) →
  inv l la (entries (apply_store now s e)) j ts.
Proof.
  intros [] Hi Hh. destruct (inv_holds0 _ _ _ _ Hi Hh) as [He _]. split; try done.
  unfold apply_store. destruct (lOp e) eqn:Ho; cbn.
  - apply map_Forall_insert_2; [|done]. split; [done|]. by exists e.
  - by apply map_Forall_delete.
Qed.

Lemma fanout_frame r ev r' : fanout_ptr r ev = Ret r' → ∃ w, r' = set_watchers w r ∨ r' = r.
Proof.
  unfold fanout_ptr. destruct ev as [ev|]; [|case_bool_decide; [|done]; intros [= <-]; exists ∅; by right].
  unfold fanout. destruct (fanout_groups _ _ _) as [w|]; [|done]. intros [= <-]. exists w. by left.
Qed.

Lemma log_append_index r e r' e' :
  log_append r e = (r', e') → (Z.of_nat (length (log r')) < 2 ^ 64)%Z →
  log r' = log r ++ [e'] ∧ lIndex e' = (Z.of_nat (length (log r)) + 1)%Z ∧
  lOp e' = lOp e ∧ lKey e' = lKey e ∧ lValue e' = lValue e ∧
  lastApplied r' = lastApplied r ∧ st r' = st r ∧ files r' = files r.
Proof.
  unfold log_append. intros [= <- <-]. cbn [log set_log set_currentTerm]. rewrite length_app. cbn [length]. intros Hs.
  split_and!; try done. cbn [lIndex].
  assert (in_u64 (Z.of_nat (length (log r)))) by (unfold in_u64; lia). rewrite (u64_id (Z.of_nat _)) by done.
  apply u64_id. unfold in_u64. lia.
Qed.

Lemma cas_check_entry r k v x e : cas_check r k v x = Ok e → entry_for (CCas k v x) e.
Proof.
  unfold cas_check. destruct (entries (st r) !! k) as [cur|]; [destruct (_ =? _)%Z|destruct (_ =? _)%Z]; try done;
    by intros [= <-].
Qed.

(** The log only grows. *)
Lemma step_log_grows now io sio acked r q p r' q' p' :
  step_thread now io sio acked r q p = Some (Ret (r', q', p')) → length (log r) ≤ length (log r').
Proof.
  destruct p as [o|o e|o e|o e|o e|o e|o e|o e ev|k|k [|ev evs]|o e|o e x| | | | | |m rev|s|s|s| |]; cbn [step_thread].
  - by intros [= <- _ _].
  - intros [= <- _ _]. cbn. rewrite length_app. lia.
  - unfold journal_write. destruct (negb _); [by intros [= <- _ _]|]. destruct io; by intros [= <- _ _].
  - case_bool_decide; [by intros [= <- _ _]|]. destruct acked; [|by intros [= <- _ _]].
    destruct (_ <? _)%Z; by intros [= <- _ _].
  - destruct (_ <=? _)%Z; by intros [= <- _ _].
  - by intros [= <- _ _].
  - by intros [= <- _ _].
  - by intros [= <- _ _].
  - by intros [= <- _ _].
  - destruct k as [[o e]|]; by intros [= <- _ _].
  - destruct (fanout_ptr r ev) as [r1|] eqn:Hf; [|by destruct k as [[]|]].
    assert (length (log r) = length (log r1)) as -> by by destruct (fanout_frame _ _ _ Hf) as [w [->| ->]].
    destruct k as [[]|]; by intros [= <- _ _].
  - destruct o; cbn; by intros [= <- _ _].
  - done.
  - done.
  - by intros [= <- _ _].
  - case_bool_decide; by intros [= <- _ _].
  - by intros [= <- _ _].
  - by intros [= <- _ _].
  - by intros [= <- _ _].
  - by intros [= <- _ _].
  - destruct (negb _); by intros [= <- _ _].
  - destruct sio; by intros [= <- _ _].
  - destruct sio; by intros [= <- _ _].
  - by intros [= <- _ _].
Qed.

Lemma cstep_log_grows c c' : cstep c c' → length (log (c_raft c)) ≤ length (log (c_raft c')).
Proof. intros []; cbn; [done|done|done|]. by eapply step_log_grows. Qed.

(** Every step keeps the invariant, while indices fit in 64 bits. *)
Lemma inv_step now io sio acked r q d ts i p r' q' p' :
  inv (log r) (lastApplied r) (entries (st r)) (d ++ f_journal (files r)) ts → ts !! i = Some p →
  step_thread now io sio acked r q p = Some (Ret (r', q', p')) → (Z.of_nat (length (log r')) < 2 ^ 64)%Z →
  inv (log r') (lastApplied r') (entries (st r')) ((d ++ truncates p p' r) ++ f_journal (files r')) (<[i := p']> ts).
Proof.
  intros Hinv Hi. assert (p = PSnapOpen ∨ p ≠ PSnapOpen ∧ truncates p p' r = []) as [->|[Hne Htr]] by (destruct p; auto).
  { cbn [step_thread]. destruct sio; intros [= <- <- <-] _; cbn [truncates set_files files f_journal];
      rewrite ?app_nil_r; (eapply inv_move; [done|done|by left|by left|done|done]). }
  rewrite Htr, app_nil_r. clear Htr.
  destruct p as [o|o e|o e|o e|o e|o e|o e|o e ev|k|k evs|o e|o e x| | | | | |m rev|s|s|s| |]; cbn [step_thread].
  - intros [= <- <- <-] _. eapply inv_move; [done|done|..].
    + left. destruct o; try done. by destruct (cas_check _ _ _ _).
    + left. destruct o; try done. by destruct (cas_check _ _ _ _).
    + intros o' e. destruct o as [k v|k|k v x]; [by intros [= <- <-]|by intros [= <- <-]|].
      destruct (cas_check r k v x) eqn:Hc; [|done]. intros [= <- <-]. by eapply cas_check_entry.
    + destruct o; try done. by destruct (cas_check _ _ _ _).
  - destruct (log_append r e) as [r1 e1] eqn:Hl. intros [= <- <- <-] Hs.
    destruct (log_append_index _ _ _ _ Hl Hs) as (Hlog & Hx & Ho & Hk & Hv & -> & -> & ->). rewrite Hlog.
    eapply inv_append; [done|done|done|]. pose proof (inv_draft _ _ _ _ _ Hinv _ _ _ Hi) as Hfor.
    unfold entry_for in *. by rewrite Ho, Hk, Hv.
  - unfold journal_write. destruct (negb _).
    { intros [= <- <- <-] _. eapply inv_move; [done|done|by right|by left|done|done]. }
    destruct io; intros [= <- <- <-] _; cbn [set_journal set_files files f_journal]; rewrite ?app_assoc.
    + eapply inv_write; [done|done|done|by right|done|done].
    + eapply inv_move; [done|done|by right|by left|done|done].
    + eapply inv_write; [done|done|done|by left|done|done].
  - case_bool_decide; [intros [= <- <- <-] _; eapply inv_move; [done|done|by right|by right|done|done]|].
    destruct acked; [|intros [= <- <- <-] _; eapply inv_move; [done|done|by right|by left|done|done]].
    destruct (_ <? _)%Z; intros [= <- <- <-] _; (eapply inv_move; [done|done|by right|by right|done|done]).
  - destruct (_ <=? _)%Z; intros [= <- <- <-] _; (eapply inv_move; [|done|by right|by right|done|done]); [done|].
    by eapply inv_advance.
  - intros [= <- <- <-] _. eapply inv_move; [|done|by right|by right|done|done]. by eapply inv_apply.
  - intros [= <- <- <-] _. eapply inv_move; [done|done|by right|by right|done|done].
  - intros [= <- <- <-] _. eapply inv_move; [done|done|by right|by right|done|done].
  - intros [= <- <- <-] _. eapply inv_move; [done|done|by right|by right|done|done].
  - destruct evs as [|ev evs].
    { destruct k as [[o e]|]; intros [= <- <- <-] _; (eapply inv_move; [done|done|by right|by right|done|done]). }
    destruct (fanout_ptr r ev) as [r1|] eqn:Hf; [|by destruct k as [[]|]].
    assert (Hr1 : log r1 = log r ∧ lastApplied r1 = lastApplied r ∧ st r1 = st r ∧ files r1 = files r)
      by by destruct (fanout_frame _ _ _ Hf) as [w [->| ->]].
    destruct Hr1 as (Hl & Ha & Hs & Hj).
    destruct k as [[]|]; intros [= <- <- <-] _; rewrite Hl, Ha, Hs, Hj; (eapply inv_move; [done|done|by right|by right|done|done]).
  - destruct o; intros [= <- <- <-] _; (eapply inv_move; [done|done|by right|by right|done|done]).
  - done.
  - done.
  - intros [= <- <- <-] _. eapply inv_move; [done|done|by left|by left|done|done].
  - case_bool_decide; intros [= <- <- <-] _; (eapply inv_move; [done|done|by left|by left|done|done]).
  - intros [= <- <- <-] _. destruct (_ && _); (eapply inv_move; [done|done|by left|by left|done|done]).
  - intros [= <- <- <-] _. eapply inv_move; [done|done|by left|by left|done|done].
  - intros [= <- <- <-] _. eapply inv_move; [done|done|by left|by left|done|done].
  - destruct sio; intros [= <- <- <-] _; (eapply inv_move; [done|done|by left|by left|done|done]).
  - destruct (negb _), sio; intros [= <- <- <-] _; (eapply inv_move; [done|done|by left|by left|done|done]).
  - destruct sio; intros [= <- <- <-] _; (eapply inv_move; [done|done|by left|by left|done|done]).
  - done.
  - intros [= <- <- <-] _. eapply inv_move; [done|done|by left|by left|done|done].
Qed.

Lemma cstep_inv c c' : cstep c c' → cinv c → (Z.of_nat (length (log (c_raft c'))) < 2 ^ 64)%Z → cinv c'.
Proof.
  intros Hs Hc Hlen. destruct Hs as [c o|c _ Ha|c _|c i p now io sio acked r q p' Hi Hp].
  - by apply inv_spawn.
  - by apply inv_spawn.
  - by apply inv_spawn.
  - by eapply inv_step.
Qed.

Lemma reachable_inv c : reachable c → (Z.of_nat (length (log (c_raft c))) < 2 ^ 64)%Z → cinv c.
Proof.
  intros (r & Hr & Hc). revert c Hc. apply (rtc_ind_r (λ c, (Z.of_nat (length (log (c_raft c))) < 2 ^ 64)%Z → cinv c)).
  - intros _. by apply inv_init.
  - intros c c' _ Hs IH Hlen. eapply cstep_inv; [done| |done]. apply IH. apply cstep_log_grows in Hs. lia.
Qed.

(** *** Snapshots *)

(** The state a snapshot in progress carries. *)
Definition carries (p : pc) : option (gmap string Entry) :=
  match p with
  | PSnapTerm m _ => Some m
  | PSnapWrite s | PSnapClose s | PSnapRename s => Some (snState s)
  | _ => None
  end.

(** Snapshots, in progress and in the file, hold logged values; records are
    dropped only when there is a snapshot file. *)
Record sinv (l : list logEntry) (sn : snap_file) (d : list logEntry) (ts : list pc) : Prop := {
  sv_thread : ∀ i p m, ts !! i = Some p → carries p = Some m → map_Forall (logged l) m;
  sv_file : ∀ s, sn = SnapGood s → map_Forall (logged l) (snState s);
  sv_drop : d = [] ∨ ∃ s, sn = SnapGood s;
  sv_open : ∀ i, ts !! i = Some PSnapOpen → ∃ s, sn = SnapGood s;
}.
Definition csinv (c : conf) : Prop :=
  sinv (log (c_raft c)) (f_snap (files (c_raft c))) (c_dropped c) (c_threads c).

(** What a step does to all this. *)
Ltac snap_case :=
  intros [= <- _ <-]; split_and!;
  [cbn [log set_log set_currentTerm set_st set_files set_journal_open]; set_solver
  |let m := fresh in let Hm := fresh in intros m Hm; first [done|by left; injection Hm|by right]
  |first [by left|right; by eexists]
  |first [by left|by right]].

Lemma step_snap now io sio acked r q p r' q' p' :
  step_thread now io sio acked r q p = Some (Ret (r', q', p')) →
  (∀ e, e ∈ log r → e ∈ log r') ∧
  (∀ m, carries p' = Some m → m = entries (st r) ∨ carries p = Some m) ∧
  (f_snap (files r') = f_snap (files r) ∧ p' ≠ PSnapOpen ∨
   ∃ s, p = PSnapRename s ∧ f_snap (files r') = SnapGood s) ∧
  (truncates p p' r = [] ∨ p = PSnapOpen).
Proof.
  destruct p as [o|o e|o e|o e|o e|o e|o e|o e ev|k|k [|ev evs]|o e|o e x| | | | | |m rev|s|s|s| |]; cbn [step_thread].
  all: try done.
  - destruct o; try (destruct (cas_check _ _ _ _)); snap_case.
  - snap_case.
  - unfold journal_write. destruct (negb _); [|destruct io]; snap_case.
  - case_bool_decide; [|destruct acked; [destruct (_ <? _)%Z|]]; snap_case.
  - destruct (_ <=? _)%Z; snap_case.
  - snap_case.
  - snap_case.
  - snap_case.
  - snap_case.
  - destruct k as [[]|]; snap_case.
  - destruct (fanout_ptr r ev) as [r1|] eqn:Hf; [|by destruct k as [[]|]].
    assert (log r1 = log r ∧ files r1 = files r) as [Hl Hj] by by destruct (fanout_frame _ _ _ Hf) as [w [->| ->]].
    destruct k as [[]|]; (intros [= <- _ <-]; rewrite Hl, Hj; split_and!; [done|done|by left|by left]).
  - destruct o; snap_case.
  - snap_case.
  - case_bool_decide; snap_case.
  - destruct (_ && _); snap_case.
  - snap_case.
  - snap_case.
  - destruct sio; snap_case.
  - destruct (negb _), sio; snap_case.
  - destruct sio; snap_case.
  - destruct sio; snap_case.
  - snap_case.
Qed.

Lemma sinv_step now io sio acked r q d ts i p r' q' p' :
  sinv (log r) (f_snap (files r)) d ts → map_Forall (logged (log r)) (entries (st r)) → ts !! i = Some p →
  step_thread now io sio acked r q p = Some (Ret (r', q', p')) →
  sinv (log r') (f_snap (files r')) (d ++ truncates p p' r) (<[i := p']> ts).
Proof.
  intros [Ht Hf Hd Ho] Hst Hi Hs. destruct (step_snap _ _ _ _ _ _ _ _ _ _ Hs) as (Hl & Hc & Hsn & Htr).
  assert (Hmono : ∀ m, map_Forall (logged (log r)) m → map_Forall (logged (log r')) m)
    by (intros m Hm; eapply map_Forall_impl; [exact Hm|]; intros k x; by apply logged_mono).
  assert (Hgood : (∃ s, f_snap (files r) = SnapGood s) → ∃ s, f_snap (files r') = SnapGood s).
  { intros [s Hs']. destruct Hsn as [[-> _]|(s' & _ & ->)]; eauto. }
  split.
  - intros i' q1 m [(-> & <- & _)|(_ & Hi')]%list_lookup_insert_Some Hm; apply Hmono; [|eauto].
    destruct (Hc m Hm) as [->|Hm']; eauto.
  - intros s Hs'. apply Hmono. destruct Hsn as [[Heq _]|(s' & -> & Heq)]; rewrite Heq in Hs'; [eauto|].
    injection Hs' as <-. eapply Ht; [exact Hi|done].
  - destruct Htr as [->| ->]; [rewrite app_nil_r; destruct Hd; auto|]. right. eauto.
  - intros i' [(-> & -> & _)|(_ & Hi')]%list_lookup_insert_Some; [|eauto].
    destruct Hsn as [[_ Hn]|(s' & _ & ->)]; [done|eauto].
Qed.

Lemma sinv_spawn l sn d ts p : sinv l sn d ts → carries p = None → p ≠ PSnapOpen → sinv l sn d (ts ++ [p]).
Proof.
  intros [Ht Hf Hd Ho] Hc Hp. split; try done.
  - intros i q m [Hi|[_ Hi]]%lookup_app_Some Hm; [eauto|]. apply list_lookup_singleton_Some in Hi as [_ <-]. congruence.
  - intros i [Hi|[_ Hi]]%lookup_app_Some; [eauto|]. by apply list_lookup_singleton_Some in Hi as [_ ->].
Qed.

Lemma reachable_sinv c : reachable c → (Z.of_nat (length (log (c_raft c))) < 2 ^ 64)%Z → csinv c.
Proof.
  intros (r & Hr & Hc). revert c Hc.
  apply (rtc_ind_r (λ c, (Z.of_nat (length (log (c_raft c))) < 2 ^ 64)%Z → csinv c)).
  - intros _. destruct Hr as (_ & _ & _ & _ & _ & Hsn). unfold csinv. cbn. rewrite Hsn. split; try done. by left.
  - intros c c' Hc Hs IH Hlen. pose proof (cstep_log_grows _ _ Hs) as Hg.
    assert (cinv c) as Hinv by (apply reachable_inv; [by exists r|lia]). specialize (IH ltac:(lia)).
    destruct Hs as [c o|c _ Ha|c _|c i p now io sio acked r' q p' Hi Hp]; [by apply sinv_spawn..|].
    eapply sinv_step; [exact IH|apply Hinv|done|done].
Qed.

(** C33: What holds however writers (Put, Delete, CompareAndSwap) interleave with
    each other and with the store's loop, its elections and its snapshots, on a
    store that starts empty and whose indices stay within 64 bits, whatever the
    errors of the files and the acknowledgements of the peers: the log numbers
    its entries from 1 without gaps and nothing beyond it is marked applied;
    every stored value is one that a client wrote to that key, with the version
    it was logged under, and so is every value in the snapshot file; every
    record that is in the journal, or was until a snapshot truncated it, is a
    log entry, written once, and records are truncated away only if there is a
    snapshot file; and a write whose caller was told of no error is in the log,
    with the caller's key and value, and has been written to the journal, where
    it still is unless a snapshot has truncated it since; no two such writes
    have the same index.  (That the snapshot contains the write is not
    among these: see [snapshot_loses_write].) *)
Theorem interleaving_invariant (c : conf) :
  reachable c → (Z.of_nat (length (log (c_raft c))) < 2 ^ 64)%Z →
  (∀ n e, log (c_raft c) !! n = Some e → lIndex e = (Z.of_nat n + 1)%Z) ∧
  (lastApplied (c_raft c) ≤ Z.of_nat (length (log (c_raft c))))%Z ∧
  map_Forall (logged (log (c_raft c))) (entries (st (c_raft c))) ∧
  (∀ s, f_snap (files (c_raft c)) = SnapGood s → map_Forall (logged (log (c_raft c))) (snState s)) ∧
  NoDup (c_dropped c ++ f_journal (files (c_raft c))) ∧
  (∀ e, e ∈ c_dropped c ++ f_journal (files (c_raft c)) → e ∈ log (c_raft c)) ∧
  (c_dropped c = [] ∨ ∃ s, f_snap (files (c_raft c)) = SnapGood s) ∧
  (∀ i o e y, c_threads c !! i = Some (PEnded o (Some e) (Ok y)) →
     e ∈ log (c_raft c) ∧ entry_for o e ∧ (e ∈ f_journal (files (c_raft c)) ∨ e ∈ c_dropped c)) ∧
  (∀ i i' o o' e e' y y', c_threads c !! i = Some (PEnded o (Some e) (Ok y)) →
     c_threads c !! i' = Some (PEnded o' (Some e') (Ok y')) → i ≠ i' → lIndex e ≠ lIndex e').
Proof.
  intros Hr Hlen. destruct (reachable_inv c Hr Hlen) as [Hix Hap Hst Hj Hnd _ Hh Hdist _ Hdur].
  destruct (reachable_sinv c Hr Hlen) as [_ Hsf Hsd _].
  split_and!; try done; [lia|..].
  - intros i o e y Hi. destruct (Hh i _ o e Hi eq_refl) as [He Hfor]. split_and!; [done|done|].
    assert (e ∈ c_dropped c ++ f_journal (files (c_raft c))) as [|]%elem_of_app by by eapply Hdur.
    + by right.
    + by left.
  - intros i i' o o' e e' y y' Hi Hi' Hne Heq. apply Hne.
    destruct (Hh i _ o e Hi eq_refl) as [[n Hn]%list_elem_of_lookup _].
    destruct (Hh i' _ o' e' Hi' eq_refl) as [[n' Hn']%list_elem_of_lookup _].
    pose proof (Hix _ _ Hn). pose proof (Hix _ _ Hn'). assert (n = n') as <- by lia.
    rewrite Hn in Hn'. injection Hn' as <-. by eapply Hdist.
Qed.

(** ** Schedules, and what goes wrong in some *)

(** A schedule: which thread steps, or the loop starts on a signal. *)
Inductive act := T (i : nat) | L.

Definition act_step (a : act) (c : conf) : option conf :=
  match a with
  | T i =>
      match c_threads c !! i with
      | None => None
      | Some p =>
          match step_thread 0 IoOk SnapIoOk true (c_raft c) (c_queue c) p with
          | Some (Ret (r, q, p')) =>
              Some (mk_conf r q (<[i := p']> (c_threads c)) (c_dropped c ++ truncates p p' (c_raft c)))
          | _ => None
          end
      end
  | L => if negb (existsb in_loop (c_threads c)) && applyCh (c_raft c)
         then Some (spawn c (set_applyCh false (c_raft c)) (PDrain None)) else None
  end.

Fixpoint run_sched (sched : list act) (c : conf) : option conf :=
  match sched with
  | [] => Some c
  | a :: sched => match act_step a c with Some c => run_sched sched c | None => None end
  end.

Fixpoint call_all (os : list op) (c : conf) : conf :=
  match os with
  | [] => c
  | o :: os => call_all os (spawn c (c_raft c) (PStart o))
  end.

Lemma call_all_steps os c : rtc cstep c (call_all os c).
Proof. revert c. induction os as [|o os IH]; intros c; [done|]. cbn. eapply rtc_l; [apply cs_call|]. apply IH. Qed.

Lemma act_step_cstep a c c' : act_step a c = Some c' → cstep c c'.
Proof.
  destruct a as [i|]; cbn.
  - destruct (c_threads c !! i) as [p|] eqn:Hi; [|done].
    destruct (step_thread 0 IoOk SnapIoOk true (c_raft c) (c_queue c) p) as [[[[r q] p']|]|] eqn:Hs; [|done..].
    intros [= <-]. by eapply cs_thread.
  - destruct (existsb in_loop (c_threads c)) eqn:Hl; [done|]. destruct (applyCh (c_raft c)) eqn:Ha; [|done].
    intros [= <-]. by apply cs_loop.
Qed.

Lemma run_sched_steps sched c c' : run_sched sched c = Some c' → rtc cstep c c'.
Proof.
  revert c. induction sched as [|a sched IH]; intros c; cbn; [by intros [= ->]|].
  destruct (act_step a c) as [c1|] eqn:Ha; [|done].
  intros Hr. eapply rtc_l; [by apply (act_step_cstep a)|]. by apply IH.
Qed.

Lemma sched_reachable r os sched c :
  fresh r → run_sched sched (call_all os (mk_conf r [] [] [])) = Some c → reachable c.
Proof. intros Hf Hs. exists r. split; [done|]. etrans; [apply call_all_steps|by eapply run_sched_steps]. Qed.

Definition ex_cfg : Config :=
  {| cNodeID := "n1"; cDataDir := "d"; cListen := ":0"; cBootstrap := true; cPeers := [] |}.
Definition ex_disk : disk := mk_disk [] false SnapAbsent.
(** The store of an empty directory, and the same with a watch on everything. *)
Definition ex_raft : raft :=
  match openRaft 0 ex_cfg ex_disk with Ok r => r | Err _ => new_raft ex_cfg ex_disk end.
Definition ex_watched : raft := Watch ex_raft {| wPrefix := ""; wSince := 0; wTimeout := 0 |}.
Definition ex_conf (r : raft) (os : list op) : conf := call_all os (mk_conf r [] [] []).
Definition result (sched : list act) (c : conf) : conf := default c (run_sched sched c).

Definition values (c : conf) : list (string * string) :=
  (λ kv, (kv.1, eValue kv.2)) <$> map_to_list (entries (st (c_raft c))).

(** What a restart from the files of a configuration finds. *)
Definition restarted (c : conf) : list (string * string) :=
  match openRaft 0 ex_cfg (files (c_raft c)) with
  | Ok r => (λ kv, (kv.1, eValue kv.2)) <$> map_to_list (entries (st r))
  | Err _ => []
  end.
Definition all_ok (c : conf) : bool :=
  forallb (λ p, match p with PEnded _ _ (Ok _) => true | _ => false end) (c_threads c).

Lemma ex_raft_fresh : fresh ex_raft.
Proof. vm_compute. by split_and!. Qed.
Lemma ex_watched_fresh : fresh ex_watched.
Proof. vm_compute. by split_and!. Qed.

Lemma sched_result r os sched :
  fresh r → is_Some (run_sched sched (ex_conf r os)) → reachable (result sched (ex_conf r os)).
Proof. intros Hf [c Hc]. unfold result. rewrite Hc. by eapply sched_reachable. Qed.

(** A delete between the application of a put and the reading of its event
    leaves nil in the queue, and with a watcher the process panics. *)
Definition nil_sched : list act := T <$> [0;0;0;0;0;0; 1;1;1;1;1;1; 0;0;0].
Lemma nil_event_panics : ∃ c, reachable c ∧ panics c.
Proof.
  exists (result nil_sched (ex_conf ex_watched [CPut "a" "1"; CDel "a"])). split.
  - apply sched_result; [exact ex_watched_fresh|]. vm_compute. by eexists.
  - exists 0, (PFanout (Some (CPut "a" "1", mk_logEntry 1 1 op_put "a" "1" 1)) [None]), 0%Z, IoOk, SnapIoOk, true.
    split; vm_compute; reflexivity.
Qed.

(** The journal is written outside the lock, so its order may differ from the
    log's; a restart skips the record that comes too late, and with it a write
    that was applied and acknowledged. *)
Definition journal_sched : list act := T <$> [0;0; 1;1;1; 0; 0;0;0;0;0;0;0;0;0; 1;1;1;1;1;1;1;1;1].
Lemma misordered_journal_loses_write : ∃ c,
  reachable c ∧ all_ok c = true ∧ ("a", "1") ∈ values c ∧ restarted c = [("b", "2")].
Proof.
  exists (result journal_sched (ex_conf ex_raft [CPut "a" "1"; CPut "b" "2"])). split_and!.
  - apply sched_result; [exact ex_raft_fresh|]. vm_compute. by eexists.
  - vm_compute. reflexivity.
  - apply (bool_decide_unpack _). vm_compute. exact I.
  - vm_compute. reflexivity.
Qed.

(** Two writes of a key whose applications pass the check in log order and then
    reach the store in the other order: the store keeps the older one. *)
Definition stale_sched : list act := T <$> [0;0;0;0;0; 1;1;1;1;1; 1; 0; 0;0;0;0;0;0; 1;1;1;1;1;1].
Lemma older_write_wins : ∃ c,
  reachable c ∧ all_ok c = true ∧ values c = [("a", "old")] ∧ lValue <$> last (log (c_raft c)) = Some "new".
Proof.
  exists (result stale_sched (ex_conf ex_raft [CPut "a" "old"; CPut "a" "new"])). split_and!.
  - apply sched_result; [exact ex_raft_fresh|]. vm_compute. by eexists.
  - vm_compute. reflexivity.
  - vm_compute. reflexivity.
  - vm_compute. reflexivity.
Qed.

(** A write that comes between the copying of the state and the truncation of the
    journal is acknowledged and applied, and then in neither file: a restart does
    not find it. *)
Definition many : list op := (λ i, CPut (pretty i) "x") <$> seq 0 256.
Definition snap_sched : list act :=
  concat ((λ i, repeat (T i) 12) <$> seq 0 256) ++ [L] ++ repeat (T 257) 4 ++
  repeat (T 256) 12 ++ repeat (T 257) 6.
Definition snap_end : conf := result snap_sched (ex_conf ex_raft (many ++ [CPut "late" "y"])).
Lemma snapshot_loses_write :
  reachable snap_end ∧ nth_error (c_threads snap_end) 256 =
    Some (PEnded (CPut "late" "y") (Some (mk_logEntry 257 1 op_put "late" "y" 1))
            (Ok (Some (mk_Entry "late" "y" 1 false 0)))) ∧
  eValue <$> entries (st (c_raft snap_end)) !! "late" = Some "y" ∧
  f_journal (files (c_raft snap_end)) = [] ∧
  match f_snap (files (c_raft snap_end)) with SnapGood s => snState s !! "late" = None | _ => False end.
Proof.
  split; [|by vm_compute]. apply sched_result; [exact ex_raft_fresh|]. vm_compute. by eexists.
Qed.

Lemma alone_is_atomic_witness :
  ∃ e, alone (Build_env 5 IoOk []) 12 ex_raft [] (PStart (CPut "a" "1")) =
    go_bind (Put (Build_env 5 IoOk []) ex_raft "a" "1") (λ '(r, y), Ret (r, [], PEnded (CPut "a" "1") (Some e) y)).
Proof.
  destruct (alone_is_atomic (Build_env 5 IoOk []) ex_raft "a" "1" 0) as [Hput _]; [vm_compute; reflexivity|exact Hput].
Defined.

(** The two writers of the misordered journal: both are in it. *)
Lemma interleaving_invariant_witness :
  (let c := result journal_sched (ex_conf ex_raft [CPut "a" "1"; CPut "b" "2"]) in
   NoDup (c_dropped c ++ f_journal (files (c_raft c))) ∧ map_Forall (logged (log (c_raft c))) (entries (st (c_raft c)))).
Proof.
  destruct (interleaving_invariant (result journal_sched (ex_conf ex_raft [CPut "a" "1"; CPut "b" "2"])))
    as (_ & _ & Hst & _ & Hnd & _).
  - apply sched_result; [exact ex_raft_fresh|]. vm_compute. by eexists.
  - vm_compute. reflexivity.
  - by split.
Defined.
