(* ===== verification/RaftFile.v ===== *)
(** * Package db: the bytes of the journal

    Raft.v has the journal as the list of its records, possibly followed by bytes
    that do not decode.  Here is the file: one JSON object per line, written by
    [append] and read back by the decoder loop of [recover] in
    internal/primitives/db/raft.go.  A crash in the middle of a write leaves a
    prefix of a line. *)

From S2P Require Import Prelude Json JsonStream Base64 Raft RaftSpec.

(** ** The struct and its JSON *)

(** [logEntry] with its [Op] as the text it is. *)
Record fileEntry := mk_fileEntry {
  fIndex : Z; fTerm : Z; fOp : string; fKey : string; fValue : string; fVersion : Z;
}.
Definition zero_fileEntry : fileEntry := mk_fileEntry 0 0 "" "" "" 0.

Definition op_text (o : op) : string := match o with op_put => "put" | op_del => "del" end.
Definition file_entry (e : logEntry) : fileEntry :=
  mk_fileEntry (lIndex e) (lTerm e) (op_text (lOp e)) (lKey e) (lValue e) (lVersion e).
(** The store writes no other operation. *)
Definition entry_of (f : fileEntry) : option logEntry :=
  if bool_decide (fOp f = "put") then Some (mk_logEntry (fIndex f) (fTerm f) op_put (fKey f) (fValue f) (fVersion f))
  else if bool_decide (fOp f = "del") then Some (mk_logEntry (fIndex f) (fTerm f) op_del (fKey f) (fValue f) (fVersion f))
  else None.

(** The tags of the struct: the value is base64 and omitted when empty. *)
Definition entry_json (f : fileEntry) : json :=
  JObj ([("i", JInt (fIndex f)); ("t", JInt (fTerm f)); ("o", JStr (fOp f)); ("k", JStr (fKey f))] ++
        (if bool_decide (fValue f = "") then [] else [("v", JStr (EncodeToString false (fValue f)))]) ++
        [("vr", JInt (fVersion f))]).

(** [strconv.ParseUint(lit, 10, 64)]. *)
Definition ParseUint10 (s : string) : option Z :=
  if bool_decide (s = "") then None
  else match digits_value s 0 with
       | Some v => if (v <? 2 ^ 64)%Z then Some v else None
       | None => None
       end.
Definition set_uint {A} (f : Z → A → A) (v : json) (x : A) : A * bool :=
  match v with
  | JNum lit => match ParseUint10 lit with Some z => (f z x, true) | None => (x, false) end
  | JNull => (x, true)
  | _ => (x, false)
  end.
(** A byte slice: a base64 text, or an array of bytes. *)
Definition byte_of (v : json) : option string :=
  match v with
  | JNum lit => z ← ParseUint10 lit; if (z <? 256)%Z then Some (String (ascii_of_N (Z.to_N z)) "") else None
  | JNull => Some (String "000" "")
  | _ => None
  end.
Definition set_bytes {A} (f : string → A → A) (v : json) (x : A) : A * bool :=
  match v with
  | JStr s => match DecodeString false s with Some b => (f b x, true) | None => (x, false) end
  | JNull => (f "" x, true)
  | JArr l => match mapM byte_of l with Some bs => (f (Join bs "") x, true) | None => (x, false) end
  | _ => (x, false)
  end.

Definition entry_fields : list (string * (json → fileEntry → fileEntry * bool)) :=
  [("i", set_uint (λ z f, mk_fileEntry z (fTerm f) (fOp f) (fKey f) (fValue f) (fVersion f)));
   ("t", set_uint (λ z f, mk_fileEntry (fIndex f) z (fOp f) (fKey f) (fValue f) (fVersion f)));
   ("o", set_string (λ s f, mk_fileEntry (fIndex f) (fTerm f) s (fKey f) (fValue f) (fVersion f)));
   ("k", set_string (λ s f, mk_fileEntry (fIndex f) (fTerm f) (fOp f) s (fValue f) (fVersion f)));
   ("v", set_bytes (λ s f, mk_fileEntry (fIndex f) (fTerm f) (fOp f) (fKey f) s (fVersion f)));
   ("vr", set_uint (λ z f, mk_fileEntry (fIndex f) (fTerm f) (fOp f) (fKey f) (fValue f) z))].

(** ** Writing and reading *)

Definition nl : string := String "010" "".

(** What [append] writes for a record. *)
Definition journal_line (e : logEntry) : string := Marshal (entry_json (file_entry e)) +:+ nl.
Definition journal_bytes (es : list logEntry) : string := Join (journal_line <$> es) "".

(** The loop of [recover]: the records up to the end of the file or the first
    error, and whether there was one. *)
Fixpoint entries_of (vs : list json) (bad : bool) : list fileEntry * bool :=
  match vs with
  | [] => ([], bad)
  | v :: vs =>
      match decode_struct false entry_fields zero_fileEntry v with
      | (f, true) => let '(fs, b) := entries_of vs bad in (f :: fs, b)
      | (_, false) => ([], true)
      end
  end.
Definition read_journal (s : string) : list fileEntry * bool :=
  let '(vs, bad) := decode_stream s in entries_of vs bad.

(** The disk of Raft.v that the bytes stand for. *)
Definition disk_of (bytes : string) (snap : snap_file) : option disk :=
  let '(fs, bad) := read_journal bytes in
  es ← mapM entry_of fs; Some (mk_disk es bad snap).

(** ** One record *)

(** What JSON can carry: text in UTF-8, unsigned 64-bit integers.  The value may
    be any bytes. *)
Definition encodable (e : logEntry) : Prop :=
  in_u64 (lIndex e) ∧ in_u64 (lTerm e) ∧ in_u64 (lVersion e) ∧ utf8 (lKey e).

Lemma ParseUint10_pretty z : in_u64 z → ParseUint10 (pretty z) = Some z.
Proof.
  unfold in_u64, ParseUint10. intros Hz. destruct z as [|p|p]; [done| |lia].
  change (pretty (Z.pos p)) with (pretty_N_go (N.pos p) "").
  destruct (pretty_N_go_head (N.pos p) "") as (a & t & Ht & _); [lia|].
  rewrite bool_decide_false by by rewrite Ht. rewrite digits_value_pretty. cbn [digits_value].
  by rewrite (proj2 (Z.ltb_lt _ _)) by lia.
Qed.

Lemma entry_json_wf e : encodable e → wf (entry_json (file_entry e)).
Proof.
  intros (Hi & Ht & Hv & Hk). constructor. unfold file_entry. cbn [fIndex fTerm fOp fKey fValue fVersion].
  assert (∀ s, all_single s = true → utf8 s) as Hs by apply all_single_utf8.
  assert (∀ k v (ms : list (string * json)), all_single k = true → wf v → Forall (λ m, utf8 m.1 ∧ wf m.2) ms →
    Forall (λ m, utf8 m.1 ∧ wf m.2) ((k, v) :: ms)) as Hc by (intros; constructor; [split; [by apply Hs|]|]; done).
  assert (wf (JStr (op_text (lOp e)))) by (constructor; apply Hs; by destruct (lOp e)).
  assert (wf (JStr (EncodeToString false (lValue e)))) by (constructor; apply Hs, encode_single).
  case_bool_decide; cbn [app]; repeat (apply Hc; [done|first [done|apply wf_JInt|by constructor]|]); constructor.
Qed.

Lemma set_member_at k i set v x x' :
  find_field entry_fields.*1 k = Some k → list_find (λ y, y.1 = k) entry_fields = Some (i, (k, set)) →
  set v x = (x', true) → set_member false entry_fields (x, true) (k, v) = (x', true).
Proof. intros Hf Hl Hs. unfold set_member. cbn [fst snd]. by rewrite Hf, Hl, Hs. Qed.

Lemma set_uint_JInt {A} (f : Z → A → A) z x : in_u64 z → set_uint f (JInt z) x = (f z x, true).
Proof. intros Hz. unfold set_uint, JInt. by rewrite ParseUint10_pretty. Qed.

Lemma decode_entry e : encodable e →
  decode_struct false entry_fields zero_fileEntry (entry_json (file_entry e)) = (file_entry e, true).
Proof.
  intros (Hi & Ht & Hv & Hk). unfold decode_struct, entry_json, zero_fileEntry.
  destruct e as [i t o k v vr]. cbn [file_entry fIndex fTerm fOp fKey fValue fVersion lIndex lTerm lOp lKey lValue lVersion] in *.
  case_bool_decide as E; cbn [app foldl].
  all: erewrite (set_member_at "i") by first [reflexivity|by apply set_uint_JInt].
  all: erewrite (set_member_at "t") by first [reflexivity|by apply set_uint_JInt].
  all: erewrite (set_member_at "o") by reflexivity.
  all: erewrite (set_member_at "k") by reflexivity.
  2: erewrite (set_member_at "v") by first [reflexivity|unfold set_bytes; by rewrite DecodeString_EncodeToString].
  all: erewrite (set_member_at "vr") by first [reflexivity|by apply set_uint_JInt].
  all: cbn [fIndex fTerm fOp fKey fValue fVersion]; by rewrite ?E.
Qed.

(** ** The file *)

Lemma parse_nl s : parse (nl +:+ s) = parse s.
Proof.
  unfold nl. cbn [String.append]. rewrite <- (parse_fuel (2 * String.length (String "010" s) + 2) s) by (cbn; lia).
  unfold parse. destruct (2 * String.length (String "010" s) + 2) as [|n] eqn:E; [done|].
  cbn [parse_value]. done.
Qed.

Lemma decode_next_nl s : decode_next (nl +:+ s) = decode_next s.
Proof. unfold decode_next. by rewrite parse_nl. Qed.

Lemma decode_stream_nl s : decode_stream (nl +:+ s) = decode_stream s.
Proof.
  pose proof (decode_next_nl s) as E. destruct (decode_next s) as [| |v r] eqn:Es.
  - by rewrite !decode_stream_end.
  - by rewrite !decode_stream_error.
  - by rewrite (decode_stream_cons _ _ _ E), (decode_stream_cons _ _ _ Es).
Qed.

Lemma next_entry e rest : encodable e → stops rest = true →
  decode_next (Marshal (entry_json (file_entry e)) +:+ rest) = DValue (entry_json (file_entry e)) rest.
Proof.
  intros He Hr. unfold decode_next. destruct (Marshal_brace (match entry_json (file_entry e) with JObj ms => ms | _ => [] end))
    as [t Ht]. change (JObj _) with (entry_json (file_entry e)) in Ht.
  rewrite bool_decide_false.
  - unfold Marshal. by rewrite (print_parse None _ rest (entry_json_wf e He) Hr).
  - rewrite Ht. cbn [String.append]. by rewrite skip_white_head.
Qed.

(** A record at the front of the file is read, and then the rest. *)
Lemma read_record e rest : encodable e → stops rest = true →
  read_journal (Marshal (entry_json (file_entry e)) +:+ rest) =
    let '(fs, b) := read_journal rest in (file_entry e :: fs, b).
Proof.
  intros He Hr. unfold read_journal. rewrite (decode_stream_cons _ _ _ (next_entry e rest He Hr)).
  destruct (decode_stream rest) as [vs bad]. cbn [entries_of]. rewrite decode_entry by done. by destruct (entries_of vs bad).
Qed.

Lemma read_line e rest : encodable e →
  read_journal (journal_line e +:+ rest) = let '(fs, b) := read_journal rest in (file_entry e :: fs, b).
Proof.
  intros He. unfold journal_line. rewrite <- string_app_assoc, read_record by done.
  unfold read_journal. by rewrite decode_stream_nl.
Qed.

Lemma journal_bytes_cons e es : journal_bytes (e :: es) = journal_line e +:+ journal_bytes es.
Proof.
  unfold journal_bytes. cbn [fmap list_fmap]. destruct es as [|e' es]; [symmetry; apply string_app_nil_r|].
  rewrite Join_cons by done. done.
Qed.

Lemma journal_bytes_snoc es e : journal_bytes (es ++ [e]) = journal_bytes es +:+ journal_line e.
Proof.
  induction es as [|x es IH]; [cbn [app]; rewrite journal_bytes_cons; apply string_app_nil_r|].
  cbn [app]. by rewrite !journal_bytes_cons, IH, string_app_assoc.
Qed.

Lemma read_records es rest : Forall encodable es →
  read_journal (journal_bytes es +:+ rest) = let '(fs, b) := read_journal rest in ((file_entry <$> es) ++ fs, b).
Proof.
  induction 1 as [|e es He Hes IH].
  { change (journal_bytes [] +:+ rest) with rest. by destruct (read_journal rest). }
  rewrite journal_bytes_cons, <- string_app_assoc, read_line, IH by done. by destruct (read_journal rest).
Qed.

Lemma entry_of_file_entry e : entry_of (file_entry e) = Some e.
Proof. by destruct e as [i t [] k v vr]. Qed.

Lemma disk_of_records es rest snap fs b es' : Forall encodable es →
  read_journal rest = (fs, b) → mapM entry_of fs = Some es' →
  disk_of (journal_bytes es +:+ rest) snap = Some (mk_disk (es ++ es') b snap).
Proof.
  intros He Hr Hf. unfold disk_of. rewrite read_records, Hr by done.
  assert (mapM entry_of ((file_entry <$> es) ++ fs) = Some (es ++ es')) as ->; [|done].
  clear He Hr. induction es as [|e es IH]; [done|]. cbn. by rewrite entry_of_file_entry, IH.
Qed.

(** C28: The file is the list: the bytes [append] has written for a sequence of
    records, which any values, UTF-8 keys and 64-bit numbers may make up, decode
    to exactly those records, with nothing left over; so the list Raft.v works
    with and the file hold the same. *)
Theorem journal_roundtrip (es : list logEntry) (snap : snap_file) (He : Forall encodable es) :
  read_journal (journal_bytes es) = (file_entry <$> es, false) ∧
  disk_of (journal_bytes es) snap = Some (mk_disk es false snap).
Proof.
  rewrite <- (string_app_nil_r (journal_bytes es)). split.
  - rewrite read_records by done. change (read_journal "") with (@nil fileEntry, false). cbv beta iota. by rewrite app_nil_r.
  - rewrite <- (app_nil_r es) at 2. by apply (disk_of_records es "" snap []).
Qed.

(** ** A crash in the middle of a write *)

Lemma app_eq_split p x m n :
  p +:+ x = m +:+ n → String.length n ≤ String.length x → ∃ y, x = y +:+ n ∧ m = p +:+ y.
Proof.
  revert m. induction p as [|a p IH]; intros m Hm Hl; [by exists m|]. destruct m as [|b m].
  - cbn in Hm. subst n. cbn in Hl. rewrite string_length_app in Hl. lia.
  - cbn in Hm. injection Hm as <- Hm. destruct (IH m Hm Hl) as (y & -> & ->). by exists y.
Qed.

Lemma read_torn e p x : encodable e → journal_line e = p +:+ x → p ≠ "" → 1 < String.length x →
  read_journal p = ([], true).
Proof.
  intros He Hp Hne Hx. unfold journal_line in Hp. symmetry in Hp.
  destruct (app_eq_split p x _ nl Hp) as (y & -> & Hy); [cbn; lia|].
  unfold read_journal. rewrite decode_stream_error; [done|].
  eapply truncated_object; [apply (entry_json_wf e He)|exact Hy|done|].
  intros ->. cbn in Hx. lia.
Qed.

Lemma open_journal now c l b : single_cfg c → indexed l →
  match openRaft now c (mk_disk l b SnapAbsent) with
  | Ok r => b = false ∧ abs r = spec_replay l ∧ log r = l
  | Err _ => b = true
  end.
Proof.
  intros Hc Hl. rewrite openRaft_single by done. cbn [f_journal].
  pose proof (replayed_all now c (mk_disk l b SnapAbsent) [] _ l (replayed_opening c _) Hl) as [R1 R2 _ _ _ R6 _ _].
  cbv zeta. set (r1 := foldl _ _ _) in *. rewrite R6. cbn [f_garbage app] in *. destruct b; [done|].
  unfold recover_snap. rewrite R6. cbn [f_snap]. destruct (bootstrap_fields c r1) as (B1 & B2 & _).
  split_and!; [done| |congruence]. unfold abs in *. by rewrite B1.
Qed.

(** C27: What a crash during an append leaves.  When the records so far are in the
    file (their keys in UTF-8, as the next one's) and the process stops after
    writing the part [p] of the next one's line: if nothing was written, reopening gives the store of the records so
    far; if all but the newline was written, or that too, it gives the store
    with the new record applied; and if the write stopped anywhere in between,
    the store cannot be opened any more, although every earlier record is
    intact. *)
Theorem crash_during_append (c : Config) (now : Time) (es : list logEntry) (e : logEntry) (p x : string)
    (Hc : single_cfg c) (Hi : indexed (es ++ [e])) (He : Forall encodable (es ++ [e]))
    (Hp : journal_line e = p +:+ x) :
  ∃ d, disk_of (journal_bytes es +:+ p) SnapAbsent = Some d ∧
  match p, String.length x with
  | "", _ => ∃ r, openRaft now c d = Ok r ∧ abs r = spec_replay es
  | _, 0 | _, 1 => ∃ r, openRaft now c d = Ok r ∧ abs r = spec_replay (es ++ [e])
  | _, _ => f_journal d = es ∧ ∃ err, openRaft now c d = Err err
  end.
Proof.
  apply Forall_app in He as [He [He1 _]%Forall_cons].
  assert (indexed es) as Hi' by (intros i y Hy; apply Hi; by apply lookup_app_l_Some).
  assert (∀ l b, indexed l → b = false → ∃ r, openRaft now c (mk_disk l b SnapAbsent) = Ok r ∧ abs r = spec_replay l) as Hok.
  { intros l b Hl ->. pose proof (open_journal now c l false Hc Hl) as Ho. destruct (openRaft _ _ _); [|done].
    destruct Ho as (_ & Ho & _). eauto. }
  destruct p as [|a p].
  { exists (mk_disk (es ++ []) false SnapAbsent). split; [by apply (disk_of_records es "" _ [])|].
    rewrite app_nil_r. by apply Hok. }
  assert (String.length x ≤ 1 → read_journal (String a p) = ([file_entry e], false)) as Hwhole.
  { intros Hx. unfold journal_line in Hp. destruct (app_eq_split _ nl (String a p) x Hp) as (y & Hy & ->); [cbn; lia|].
    rewrite read_record; [|done|by destruct y as [|b [|]]; cbn in Hy |- *; [|injection Hy as <- ?|discriminate Hy]].
    destruct y as [|b [|b' y]]; [done| |discriminate Hy]. cbn in Hy. injection Hy as <- <-. done. }
  destruct (String.length x) as [|[|k]] eqn:Hx.
  1,2: eexists; split; [by eapply disk_of_records; [|apply Hwhole; lia|cbn; rewrite entry_of_file_entry]|by apply Hok].
  exists (mk_disk (es ++ []) true SnapAbsent). split.
  - eapply disk_of_records; [done|eapply read_torn; [done|exact Hp|done|lia]|done].
  - rewrite app_nil_r. split; [done|]. pose proof (open_journal now c es true Hc Hi') as Ho.
    destruct (openRaft _ _ _); [by destruct Ho|eauto].
Qed.

(** ** Examples *)

Definition ex_config : Config :=
  {| cNodeID := "n1"; cDataDir := "data"; cListen := ""; cBootstrap := true; cPeers := [] |}.
Definition ex_put : logEntry := mk_logEntry 1 1 op_put "a" (String "255" (String "000" "!")) 1.
Definition ex_del : logEntry := mk_logEntry 2 1 op_del "b" "" 0.

Lemma ex_encodable : Forall encodable [ex_put; ex_del].
Proof.
  constructor; [|constructor; [|constructor]];
    (split; [|split; [|split]]; [unfold in_u64; cbn; lia..|by apply all_single_utf8]).
Qed.

(** The first line of a file. *)
Example ex_line :
  String.length (journal_line ex_put) = 50 ∧ Split dquote (journal_line ex_put) =
    ["{"; "i"; ":1,"; "t"; ":1,"; "o"; ":"; "put"; ","; "k"; ":"; "a"; ","; "v"; ":"; "/wAh"; ","; "vr"; ":1}" +:+ nl] ∧
  DecodeString false "/wAh" = Some (lValue ex_put).
Proof. by vm_compute. Qed.

Lemma journal_roundtrip_witness :
  Forall encodable [ex_put; ex_del] ∧
  disk_of (journal_bytes [ex_put; ex_del]) SnapAbsent = Some (mk_disk [ex_put; ex_del] false SnapAbsent).
Proof.
  split; [exact ex_encodable|]. exact (proj2 (journal_roundtrip [ex_put; ex_del] SnapAbsent ex_encodable)).
Defined.

(** Nine bytes of the second line, and the rest of it. *)
Definition ex_part : string := Eval vm_compute in string_take 9 (journal_line ex_del).
Definition ex_rest : string := Eval vm_compute in string_drop 9 (journal_line ex_del).

Lemma crash_during_append_witness : ∃ d err,
  disk_of (journal_bytes [ex_put] +:+ ex_part) SnapAbsent = Some d ∧
  f_journal d = [ex_put] ∧ openRaft 7 ex_config d = Err err.
Proof.
  destruct (crash_during_append ex_config 7 [ex_put] ex_del ex_part ex_rest) as (d & Hd & Hx).
  - split; [discriminate|]. split; [discriminate|reflexivity].
  - intros [|[|i]] y Hy; [injection Hy as <-; reflexivity|injection Hy as <-; reflexivity|discriminate Hy].
  - exact ex_encodable.
  - vm_compute. reflexivity.
  - unfold ex_part at 1, ex_rest in Hx. cbn [String.length] in Hx. destruct Hx as [Hj [err Hr]].
    exists d, err. split; [exact Hd|]. split; [exact Hj|exact Hr].
Defined.

(** A key that is not UTF-8 comes back as another one: the encoder replaces its
    bytes. *)
Lemma non_utf8_key_changes :
  let e := mk_logEntry 1 1 op_put (String "255" "") "x" 1 in
  read_journal (journal_bytes [e]) = ([mk_fileEntry 1 1 "put" replacement "x" 1], false).
Proof. vm_compute. reflexivity. Qed.
