(* ===== verification/RaftLive.v ===== *)
(** * Package db: a node at work, and its restart

    A single node of internal/primitives/db/raft.go from its opening on: clients
    call the operations, the journal may refuse a write, and the loop that
    [openRaft] starts runs between them, with its elections and its snapshots
    ([RaftSpec.node_step]).  Every operation here runs to its end before the next
    event; [RaftConc] has them interrupt each other.  The node refines the
    abstract machine of [RaftSpec]; and as long as no write fails and no
    snapshot is due, the bytes of its journal restore it. *)

From S2P Require Import Prelude Json Raft RaftSpec RaftProps RaftFile.

(** ** Refinement *)

(** The machine of a node opened on an empty directory. *)
Definition machine_start : astate := mk_astate ∅ 0 true.

Lemma open_sim now c :
  single_cfg c → ∃ r, openRaft now c empty_disk = Ok r ∧ sim r machine_start ∧ ready r ∧ durable r ∧ log r = [].
Proof.
  intros Hc. destruct (open_empty now c Hc) as (r & Ho & Hr & Hd & Ha & Hl). exists r.
  split_and!; [done| |done|done|done]. split; [by apply ready_running|done| |apply Hr].
  rewrite openRaft_single in Ho by done. cbn in Ho. injection Ho as <-. unfold bootstrap. by destruct (_ && _).
Qed.

(** C1: a single-node store (its own only peer) opened on an empty directory,
    with the loop of openRaft running and with watches, none of which times
    out, behaves as an abstract machine: whatever sequence of Get, Put, Delete,
    CompareAndSwap and List calls, loop iterations, elections and snapshots
    follows, each call running to its end before the next event, nothing panics
    and every call is answered as the machine answers it.  The machine is a map
    from keys to a value and a version; a write that the journal refuses, be it
    for an error of the file or because a failed snapshot has left it closed,
    returns that error and leaves the map as it was; a snapshot is due in the
    iterations at which the number of applied writes is a positive multiple of
    256, and never changes the map.  The version of a key counts its writes
    since it was last absent: Delete makes it start again at 1, although the
    comment of Entry calls it monotonically increasing.  The number of events is
    below 2^64. *)
Theorem kv_refines_spec (c : Config) (now : Time) (H : single_cfg c) :
  ∃ r, openRaft now c empty_disk = Ok r ∧
    ∀ evs, (Z.of_nat (length evs) + 1 < 2 ^ 64)%Z →
      ∃ r', run_node r evs = Ret (r', snd (run_machine machine_start evs)) ∧
            abs r' = a_map (fst (run_machine machine_start evs)) ∧
            journal_open r' = a_open (fst (run_machine machine_start evs)).
Proof.
  destruct (open_sim now c H) as (r & Ho & Hsim & _ & _ & Hl).
  exists r. split; [done|]. intros evs Hlen.
  destruct (run_node_sim r machine_start evs Hsim) as (r' & Hrun & Hs'); [by rewrite Hl|].
  exists r'. split_and!; [done|apply Hs'..].
Qed.

(** What the machine does with a write the journal refuses, and with a key that
    is deleted. *)
Example machine_demo :
  run_machine machine_start
    [NOp 1 IoOk (OpPut "a" "1"); NOp 2 (WriteFails "no space") (OpPut "a" "2"); NOp 3 IoOk (OpGet "a");
     NOp 4 IoOk (OpDel "a"); NOp 5 IoOk (OpPut "a" "3")] =
  (mk_astate {["a" := ("3", 1%Z)]} 3 true,
   [RWrite (Ok (Some ("1", 1%Z))); RWrite (Err "no space"); RGet (Ok ("1", 1%Z)); RDel (Ok ());
    RWrite (Ok (Some ("3", 1%Z)))]).
Proof. by vm_compute. Qed.

Lemma kv_refines_spec_witness :
  ∃ r, openRaft 7 demo_cfg empty_disk = Ok r ∧
    ∀ evs, (Z.of_nat (length evs) + 1 < 2 ^ 64)%Z →
      ∃ r', run_node r evs = Ret (r', snd (run_machine machine_start evs)) ∧
            abs r' = a_map (fst (run_machine machine_start evs)) ∧
            journal_open r' = a_open (fst (run_machine machine_start evs)).
Proof. apply (kv_refines_spec demo_cfg 7). exact demo_cfg_single. Defined.

(** ** Durability *)

Definition op_keys (o : kv_op) : list string :=
  match o with OpGet _ | OpList _ => [] | OpPut k _ | OpDel k | OpCas k _ _ => [k] end.

(** An event whose journal write succeeds and whose key JSON can carry. *)
Definition calm_event (ev : node_event) : Prop :=
  match ev with
  | NOp _ io o => io = IoOk ∧ Forall utf8 (op_keys o)
  | NLoop _ _ | NWatch _ => True
  end.

(** What the node keeps besides the simulation: the journal is the log, and JSON
    can carry it; [n] writes have been applied. *)
Record kept (n : nat) (r : raft) (a : astate) : Prop := {
  k_sim : sim r a;
  k_open : a_open a = true;
  k_dur : durable r;
  k_enc : Forall encodable (log r);
  k_term : in_u64 (currentTerm r);
  k_count : (0 ≤ a_applied a ≤ Z.of_nat n)%Z;
  k_len : length (log r) ≤ n;
}.

Lemma kept_same n n' r r' a :
  kept n r a → n ≤ n' → sim r' a → files r' = files r → log r' = log r → st r' = st r →
  in_u64 (currentTerm r') → kept n' r' a.
Proof.
  intros [Hs Ho Hd He Ht Hc Hl] Hn Hs' E1 E2 E3 Ht'. split; try done; rewrite ?E2; try done; try lia.
  by eapply durable_same.
Qed.

Lemma stamped_encodable r e :
  small r → in_u64 (currentTerm r) → utf8 (lKey e) →
  (0 ≤ lVersion e ≤ Z.of_nat (length (log r)) + 1)%Z → encodable (stamped r e).
Proof.
  unfold small, in_u64, encodable. intros Hs Ht Hk Hv. cbn. unfold in_u64.
  split_and!; try done; try lia; destruct (currentTerm r =? 0)%Z; lia.
Qed.

(** A write that succeeds. *)
Lemma kept_commit n now r a e :
  kept n r a → small r → utf8 (lKey e) → (0 ≤ lVersion e ≤ Z.of_nat (length (log r)) + 1)%Z →
  (lOp e = op_put → 1 ≤ lVersion e)%Z →
  ∃ r' a', commit_entry (good_env now) r e = Ret (r', None) ∧ kept (S n) r' a'.
Proof.
  intros [Hsim Ho Hd He Ht Hc Hl] Hs Hk Hv Hp.
  assert (Hput : (lOp e = op_put → 1 ≤ lVersion e ≤ Z.of_nat (length (log r)) + 1)%Z) by (intros Ep; specialize (Hp Ep); lia).
  destruct (commit_sim now IoOk r a e Hsim Hs Hput) as (r1 & E1 & Hl1 & Hs1).
  destruct (commit_running now r e) as (r' & E & Hcm); [apply Hsim|by rewrite (sim_open _ _ Hsim)|done|].
  unfold good_env in *. rewrite Ho in E1, Hs1. cbn [journal_err] in E1, Hs1. rewrite E in E1. injection E1 as <-.
  exists r', (mk_astate (spec_apply (a_map a) e) (u64 (a_applied a + 1)) true). split; [done|].
  split; try done.
  - by eapply committed_durable.
  - rewrite (cm_log _ _ _ _ Hcm). apply Forall_app. split; [done|]. repeat constructor; by apply stamped_encodable.
  - rewrite (cm_term _ _ _ _ Hcm). destruct (_ =? 0)%Z; [unfold in_u64; lia|done].
  - cbn [a_applied]. pose proof (u64_range (a_applied a + 1)) as Hu. unfold in_u64 in Hu.
    assert (u64 (a_applied a + 1) ≤ a_applied a + 1)%Z; [|lia].
    unfold u64. apply Z.mod_le; lia.
  - lia.
Qed.

Lemma kept_op n now r a o :
  kept n r a → small r → Forall utf8 (op_keys o) →
  ∃ r' x a', impl_op (good_env now) r o = Ret (r', x) ∧ kept (S n) r' a'.
Proof.
  intros Hk Hs Hu. assert (kept (S n) r a) as Hsame by (eapply kept_same; [done|lia|apply Hk|done..|apply Hk]).
  pose proof (sim_running _ _ (k_sim _ _ _ Hk)) as Hr.
  assert (∀ k v, Forall utf8 [k] → ∃ r' a', commit_entry (good_env now) r (mk_logEntry 0 0 op_put k v (spec_version (abs r) k + 1)) =
    Ret (r', None) ∧ kept (S n) r' a') as Hput.
  { intros k v [Hkey _]%Forall_cons. destruct (put_entry_version r k v Hr Hs) as [_ Hv].
    apply (kept_commit n now r a); [done|done|done|cbn; lia|cbn; lia]. }
  destruct o as [k|k v|k|k v x|p]; cbn [impl_op op_keys] in *.
  - by exists r, (RGet (match Get r k with Ok e => Ok (abs_entry e) | Err e => Err e end)), a.
  - destruct (put_entry_version r k v Hr Hs) as [Hpe _]. destruct (Hput k v Hu) as (r' & a' & E & Hk').
    unfold Put. rewrite Hpe, E. cbn [go_bind]. eexists _, _, a'. split; [reflexivity|].
    eapply kept_same; [exact Hk'|done|eapply sim_same; [apply Hk'|try done..]; apply Hk'|done..|apply Hk'].
  - apply Forall_cons in Hu as [Hkey _].
    destruct (kept_commit n now r a (mk_logEntry 0 0 op_del k "" 0)) as (r' & a' & E & Hk'); [done|done|done|cbn; lia|done|].
    unfold Delete. rewrite E. cbn [go_bind]. eexists _, _, a'. split; [reflexivity|].
    eapply kept_same; [exact Hk'|done|eapply sim_same; [apply Hk'|try done..]; apply Hk'|done..|apply Hk'].
  - unfold CompareAndSwap. rewrite cas_check_spec by done. destruct (_ && _); cbn [go_bind]; [|by eexists _, _, a].
    destruct (Hput k v Hu) as (r' & a' & E & Hk'). unfold cas_finish. rewrite E. cbn [go_bind]. by eexists _, _, a'.
  - by eexists _, _, a.
Qed.

(** Before the 256th write no snapshot is due. *)
Lemma no_snapshot io r a : sim r a → (0 ≤ a_applied a < 256)%Z → run_snapshot io r = r.
Proof.
  intros Hs Ha. unfold run_snapshot. rewrite (sim_count _ _ Hs), Z.mod_small by lia.
  by destruct (Z.eqb_spec (a_applied a) 0) as [->|].
Qed.
Lemma no_machine_snapshot io a : (0 ≤ a_applied a < 256)%Z → machine_loop io a = a.
Proof.
  intros Ha. unfold machine_loop. rewrite Z.mod_small by lia. by destruct (Z.eqb_spec (a_applied a) 0) as [->|].
Qed.

Lemma kept_loop n io ev r a :
  kept n r a → n < 256 → ∃ r', run_step io ev r = Ret r' ∧ kept (S n) r' a.
Proof.
  intros Hk Hn. pose proof (k_count _ _ _ Hk) as Hc. pose proof (k_sim _ _ _ Hk) as Hs.
  destruct (sim_loop io ev r a Hs) as (r' & E & Hs' & Hl). rewrite no_machine_snapshot in Hs' by lia.
  exists r'. split; [done|]. destruct ev; cbn [run_step] in E.
  - injection E as <-. match goal with |- kept _ (run_snapshot _ ?y) _ => assert (sim y a) as Hy end.
    { case_bool_decide; (eapply sim_same; [exact Hs|try done..]; apply Hs). }
    rewrite (no_snapshot io _ a Hy) by lia.
    eapply kept_same; [exact Hk|lia|exact Hy|..]; case_bool_decide; try done; apply u64_range.
  - unfold applyFromQueue in E. cbn -[fanout_list] in E.
    match type of E with context [fanout_list ?r0 ?evs] =>
      destruct (fanout_list_open evs r0) as (m & E1 & Hw); [apply Hs|] end.
    rewrite E1 in E. cbn [go_bind] in E. injection E as <-.
    match goal with |- kept _ (run_snapshot _ ?y) _ => assert (sim y a) as Hy by (by apply (sim_same r y a)) end.
    rewrite (no_snapshot io _ a Hy) by lia.
    eapply kept_same; [exact Hk|lia|exact Hy|done..|apply Hk].
Qed.

Lemma kept_step n r a ev :
  kept n r a → n < 256 → calm_event ev →
  ∃ r' x a', node_step r ev = Ret (r', x) ∧ kept (S n) r' a'.
Proof.
  intros Hk Hn Hev. destruct ev as [now io o|io ev|opts]; cbn [node_step calm_event] in *.
  - destruct Hev as [-> Hu]. destruct (kept_op n now r a o Hk) as (r' & x & a' & E & Hk'); [|done|].
    + unfold small. pose proof (k_len _ _ _ Hk). lia.
    + unfold good_env in E. rewrite E. by eexists _, _, a'.
  - destruct (kept_loop n io ev r a Hk Hn) as (r' & -> & Hk'). by eexists _, _, a.
  - eexists _, _, a. split; [reflexivity|]. eapply kept_same; [exact Hk|lia| |done..|apply Hk].
    eapply sim_same; [apply Hk|try done..]. apply Watch_open, Hk.
Qed.

Lemma kept_run n r a evs :
  kept n r a → n + length evs ≤ 256 → Forall calm_event evs →
  ∃ r' xs a' n', run_node r evs = Ret (r', xs) ∧ kept n' r' a'.
Proof.
  intros Hk Hn Hev. revert n r a Hk Hn. induction Hev as [|ev evs Hev _ IH]; intros n r a Hk Hn; cbn in *.
  { by exists r, [], a, n. }
  destruct (kept_step n r a ev Hk) as (r1 & x & a1 & -> & Hk1); [lia|done|]. cbn.
  destruct (IH (S n) r1 a1 Hk1) as (r2 & xs & a2 & n2 & -> & Hk2); [lia|]. by eexists _, _, a2, n2.
Qed.

Lemma reopen_log now c r : single_cfg c → durable r →
  ∃ r', openRaft now c (mk_disk (log r) false SnapAbsent) = Ok r' ∧ abs r' = abs r.
Proof.
  intros Hc Hd. destruct (reopen now c r Hc Hd) as (r' & E & _ & _ & Ha & _). exists r'. split; [|done].
  rewrite <- E. f_equal. destruct Hd as [D1 D2 D3 _ _ _]. destruct (files r) as [j g sn]. cbn in *. by subst.
Qed.

(** C2: what was stored is there after a restart.  A single-node store opened on
    an empty directory sees up to 256 events, namely calls of Get, Put, Delete,
    CompareAndSwap and List, each run to its end, whose keys are UTF-8 and whose
    journal writes succeed, iterations of the loop with their elections, and
    watches, none of which times out; so no snapshot is taken, since the first
    is due in an iteration after 256 applied writes.  Then no event panics, and
    the bytes that the journal file holds decode, without an error, to records
    that a new openRaft replays into the same map: the same keys with the same
    values and versions.  (A snapshot changes this, and so does a key that is
    not UTF-8: see the findings.) *)
Theorem restart_preserves_store (c : Config) (now now' : Time) (evs : list node_event)
    (Hc : single_cfg c) (Hlen : length evs ≤ 256) (Hevs : Forall calm_event evs) :
  ∃ r r' xs d r'', openRaft now c empty_disk = Ok r ∧ run_node r evs = Ret (r', xs) ∧
    disk_of (journal_bytes (f_journal (files r'))) (f_snap (files r')) = Some d ∧
    openRaft now' c d = Ok r'' ∧ abs r'' = abs r'.
Proof.
  destruct (open_sim now c Hc) as (r & Ho & Hsim & Hr & Hd & Hl).
  assert (kept 0 r machine_start) as Hk.
  { split; try done; rewrite ?Hl; try done; try (cbn; lia).
    rewrite openRaft_single in Ho by done. cbn in Ho. injection Ho as <-.
    unfold bootstrap. cbn. destruct (cBootstrap c); cbn; unfold in_u64; lia. }
  destruct (kept_run 0 r machine_start evs Hk) as (r' & xs & a' & n' & Hrun & Hk'); [done|done|].
  destruct (reopen_log now' c r' Hc (k_dur _ _ _ Hk')) as (r'' & Ho'' & Ha).
  exists r, r', xs, (mk_disk (log r') false SnapAbsent), r''. split_and!; [done|done| |done|done].
  rewrite (dur_journal _ (k_dur _ _ _ Hk')), (dur_snap _ (k_dur _ _ _ Hk')).
  rewrite <- (string_app_nil_r (journal_bytes _)). rewrite <- (app_nil_r (log r')) at 2.
  by apply (disk_of_records (log r') "" SnapAbsent []); [apply Hk'| |].
Qed.

Definition restart_demo : list node_event :=
  [NOp 1 IoOk (OpPut "a" "1"); NLoop SnapIoOk EvApply; NOp 2 IoOk (OpCas "a" "2" 1); NLoop SnapIoOk EvElection;
   NOp 3 IoOk (OpPut "b" "x"); NOp 4 IoOk (OpDel "b")].

Lemma restart_preserves_store_witness :
  ∃ r r' xs d r'', openRaft 0 demo_cfg empty_disk = Ok r ∧ run_node r restart_demo = Ret (r', xs) ∧
    disk_of (journal_bytes (f_journal (files r'))) (f_snap (files r')) = Some d ∧
    openRaft 9 demo_cfg d = Ok r'' ∧ abs r'' = abs r'.
Proof.
  apply (restart_preserves_store demo_cfg 0 9 restart_demo); [exact demo_cfg_single|cbn; lia|].
  repeat constructor; by apply all_single_utf8.
Defined.

(** After a restart that follows a failed write the log is shorter than the
    applied index, and the next write is answered with the old entry. *)
Definition failed_then_restarted : go (res (option Entry)) :=
  match run_node demo_open [NOp 1 (WriteFails "no space") (OpPut "a" "1"); NOp 2 IoOk (OpPut "b" "2")] with
  | Ret (r, _) =>
      match openRaft 3 demo_cfg (files r) with
      | Ok r => go_bind (Put (good_env 4) r "b" "3") (λ '(_, x), Ret x)
      | Err e => Ret (Err e)
      end
  | Panic => Panic
  end.
Lemma write_after_failed_write_and_restart_dropped :
  failed_then_restarted = Ret (Ok (Some (mk_Entry "b" "2" 1 false 3))).
Proof. by vm_compute. Qed.
