(* ===== verification/Scheduler.v ===== *)
(** * Package scheduler: filter, score and placement

    Models internal/scheduler/scheduler.go.  CPU, memory and replica counts are
    [int64] and [int32] with their wrap-around; scores are binary64. *)

From S2P Require Import Prelude GoFloat State.

(** The scheduler's own placement, before it becomes a stored one. *)
Record SPlacement := mk_SPlacement { spNodeID : string; spReplicaIdx : Z; spReason : string }.

Record Decision := mk_Decision {
  dWorkloadID : string; dPlacements : list SPlacement; dUnscheduled : string;
}.

Definition no_node : string := "no node satisfies filters".
Definition no_capacity : string := "not enough capacity for all replicas".

(** ** Filter *)

(** [labels[k] != v]: a missing label reads as the empty string. *)
Definition matchSelector (sel labels : gmap string string) : bool :=
  forallb (λ kv, bool_decide (default "" (labels !! kv.1) = kv.2)) (map_to_list sel).

Definition hasToleration (tol : list string) (t : Taint) : bool :=
  existsb (λ t2,
    match SplitN2 "="%char t2 with
    | (_, None) => false
    | (k, Some v) =>
        if negb (bool_decide (k = tKey t)) then false
        else bool_decide (v = "*") || bool_decide (v = tValue t)
    end) tol.

Definition tolerates (tol : list string) (taints : list Taint) : bool :=
  forallb (λ t, negb (bool_decide (tEffect t = "NoSchedule") && negb (hasToleration tol t))) taints.

Definition freeCPU (n : Node) : Z := i64 (nCPUAllocatable n - nCPUAllocated n).
Definition freeMem (n : Node) : Z := i64 (nMemAllocatable n - nMemAllocated n).

(** The guards of the loop of [filter], in order. *)
Definition admits (w : Workload) (n : Node) : bool :=
  if nUnschedulable n || nDrain n || nCordoned n then false
  else if negb (bool_decide (nStatus n = "Ready")) then false
  else if (freeCPU n <? wlCPUMillicores w)%Z then false
  else if (freeMem n <? wlMemoryBytes w)%Z then false
  else if (nGPUs n <? wlGPUs w)%Z then false
  else if negb (matchSelector (wlNodeSelector w) (nLabels n)) then false
  else if negb (tolerates (wlTolerations w) (nTaints n)) then false
  else true.

Definition filter (nodes : list Node) (w : Workload) : list Node :=
  List.filter (admits w) nodes.

(** ** Score *)

Definition node_score (n : Node) : float64 :=
  let total := f64_of_Z (i64 (nCPUAllocatable n + nMemAllocatable n)) in
  let avail := f64_add (f64_of_Z (freeCPU n)) (f64_of_Z (freeMem n)) in
  if f64_eq total f64_zero then f64_zero else f64_div avail total.

Definition score (nodes : list Node) (w : Workload) : list Node :=
  let scs := (λ n, (n, node_score n)) <$> nodes in
  fst <$> sort_slice (λ a b, f64_gt a.2 b.2) scs.

(** ** Placement *)

Definition maxPerNode (w : Workload) (n : Node) : Z :=
  if existsb (λ a, Contains a (wlName w)) (wlAntiAffinity w) then 1%Z
  else
    let free := freeCPU n in
    if (wlCPUMillicores w =? 0)%Z then 4%Z
    else
      let c := i64 (Z.quot free (wlCPUMillicores w)) in
      if (4 <? c)%Z then 4%Z
      else if (c <=? 0)%Z then 0%Z
      else i32 c.

Definition count_on (perNode : gmap string Z) (id : string) : Z := default 0%Z (perNode !! id).

Lemma count_on_insert m id c id' :
  count_on (<[id := c]> m) id' = if decide (id = id') then c else count_on m id'.
Proof. unfold count_on. rewrite lookup_insert. by case_decide. Qed.

(** The inner loop: the first scored node that still has room. *)
Fixpoint choose (w : Workload) (perNode : gmap string Z) (scored : list Node) : option Node :=
  match scored with
  | [] => None
  | n :: ns => if (maxPerNode w n <=? count_on perNode (nID n))%Z then choose w perNode ns else Some n
  end.

(** The outer loop, from replica [i], [fuel] iterations left. *)
Fixpoint place (fuel : nat) (w : Workload) (scored : list Node) (i : Z)
    (perNode : gmap string Z) (placements : list SPlacement) : Decision :=
  match fuel with
  | O => mk_Decision (wlID w) placements ""
  | S fuel =>
      match choose w perNode scored with
      | None => mk_Decision (wlID w) placements no_capacity
      | Some n =>
          place fuel w scored (i + 1)
            (<[nID n := i32 (count_on perNode (nID n) + 1)]> perNode)
            (placements ++ [mk_SPlacement (nID n) i ""])
      end
  end.

(** [make([]Placement, 0, w.Replicas)] panics on a negative capacity. *)
Definition plan_nodes (nodes : list Node) (w : Workload) : go Decision :=
  let filtered := filter nodes w in
  if bool_decide (length filtered = 0) then Ret (mk_Decision (wlID w) [] no_node)
  else if (wlReplicas w <? 0)%Z then Panic
  else Ret (place (Z.to_nat (wlReplicas w)) w (score filtered w) 0 ∅ []).

Section Store.
Context {S : Type} `{NodeStore S, PlacementStore S}.

Definition Plan (s : S) (w : Workload) : go (res Decision) :=
  match ListNodes s with
  | Err e => Ret (Err e)
  | Ok nodes => go_bind (plan_nodes nodes w) (λ d, Ret (Ok d))
  end.

Definition stored_placement (w : Workload) (p : SPlacement) : Placement :=
  mk_Placement
    (mk_Base (wlID w +:+ "-" +:+ pretty (spReplicaIdx p)) (wlProjectID w)
             (wlName w +:+ "-" +:+ pretty (spReplicaIdx p)))
    (wlID w) (spNodeID p) (spReplicaIdx p) "Pending".

Definition Reconcile (s : S) (w : Workload) : go (S * option error) :=
  go_bind (Plan s w) (λ d,
    match d with
    | Err e => Ret (s, Some e)
    | Ok d => Ret (SetPlacements s (wlID w) (stored_placement w <$> dPlacements d))
    end).

End Store.

Definition ValidateWorkload (w : Workload) : option error :=
  if bool_decide (wlID w = "") then Some "scheduler: workload id required"
  else if (wlCPUMillicores w <? 0)%Z || (wlMemoryBytes w <? 0)%Z
       then Some "scheduler: negative resources"
  else if (wlReplicas w <? 0)%Z then Some "scheduler: negative replicas"
  else None.

(** ** What the filter promises *)

(** The workload may run on the node, as a proposition. *)
Record fits (w : Workload) (n : Node) : Prop := {
  fit_open : nUnschedulable n = false ∧ nDrain n = false ∧ nCordoned n = false;
  fit_ready : nStatus n = "Ready";
  fit_cpu : (wlCPUMillicores w ≤ freeCPU n)%Z;
  fit_mem : (wlMemoryBytes w ≤ freeMem n)%Z;
  fit_gpu : (wlGPUs w ≤ nGPUs n)%Z;
  fit_selector : ∀ k v, wlNodeSelector w !! k = Some v → default "" (nLabels n !! k) = v;
  fit_taints : ∀ t, t ∈ nTaints n → tEffect t = "NoSchedule" →
    ∃ t2 v, t2 ∈ wlTolerations w ∧ t2 = tKey t +:+ "=" +:+ v ∧ (v = "*" ∨ v = tValue t) ∧
            string_In "="%char (tKey t) = false;
}.

Lemma matchSelector_spec sel labels :
  matchSelector sel labels = true ↔ ∀ k v, sel !! k = Some v → default "" (labels !! k) = v.
Proof.
  unfold matchSelector. rewrite forallb_forall. split.
  - intros H k v Hk. specialize (H (k, v)). rewrite <- list_elem_of_In, elem_of_map_to_list in H.
    by apply (bool_decide_eq_true_1 _ (H Hk)).
  - intros H [k v] Hin. rewrite <- list_elem_of_In, elem_of_map_to_list in Hin.
    by apply bool_decide_eq_true_2, H.
Qed.

Lemma hasToleration_spec tol t :
  hasToleration tol t = true ↔
  ∃ t2 v, t2 ∈ tol ∧ t2 = tKey t +:+ "=" +:+ v ∧ (v = "*" ∨ v = tValue t) ∧
          string_In "="%char (tKey t) = false.
Proof.
  unfold hasToleration. rewrite existsb_exists. split.
  - intros (t2 & Hin & Ht). rewrite <- list_elem_of_In in Hin.
    destruct (SplitN2 "="%char t2) as [k [v|]] eqn:E; [|done].
    apply SplitN2_some in E as [-> Hk].
    case_bool_decide as Hkk; [|done]. subst k. cbn in Ht.
    apply orb_true_iff in Ht. rewrite !bool_decide_eq_true in Ht. by eexists _, v.
  - intros (t2 & v & Hin & -> & Hv & Hk). eexists. rewrite <- list_elem_of_In. split; [done|].
    rewrite (proj2 (SplitN2_some _ _ (tKey t) v)) by done.
    rewrite (bool_decide_true (tKey t = tKey t)) by done. cbn. apply orb_true_iff.
    by rewrite !bool_decide_eq_true.
Qed.

Lemma admits_spec w n : admits w n = true ↔ fits w n.
Proof.
  unfold admits. split.
  - intros H. repeat (case_match; [done|]). split_bools. split; try done.
    + by apply matchSelector_spec.
    + intros t Ht He. apply hasToleration_spec.
      match goal with H : tolerates _ _ = true |- _ => unfold tolerates in H; rewrite forallb_forall in H;
        specialize (H t); rewrite <- list_elem_of_In, He in H; specialize (H Ht) end.
      cbn in *. by destruct (hasToleration _ _).
  - intros [(-> & -> & ->) H1 H2 H3 H4 H5 H6]. cbn. rewrite bool_decide_true by done. cbn.
    rewrite (proj2 (Z.ltb_ge _ _)), (proj2 (Z.ltb_ge _ _)), (proj2 (Z.ltb_ge _ _)) by done.
    rewrite (proj2 (matchSelector_spec _ _) H5). cbn.
    assert (tolerates (wlTolerations w) (nTaints n) = true) as ->; [|done].
    unfold tolerates. rewrite forallb_forall. intros t Ht%list_elem_of_In.
    case_bool_decide as He; [|done]. cbn. rewrite negb_involutive. apply hasToleration_spec; auto.
Qed.

Lemma elem_of_filter_nodes n nodes w : n ∈ filter nodes w ↔ n ∈ nodes ∧ fits w n.
Proof.
  unfold filter. rewrite !list_elem_of_In, List.filter_In, admits_spec. done.
Qed.

Lemma score_perm nodes w : score nodes w ≡ₚ nodes.
Proof.
  unfold score. rewrite sort_slice_perm, <- list_fmap_compose. by rewrite list_fmap_id.
Qed.

(** ** The placement loop *)

Definition placed_on (ps : list SPlacement) (id : string) : nat :=
  length (base.filter (λ p, spNodeID p = id) ps).

Lemma placed_on_snoc ps p id :
  placed_on (ps ++ [p]) id = placed_on ps id + (if decide (spNodeID p = id) then 1 else 0).
Proof.
  unfold placed_on. rewrite list_filter_app_one, length_app. by case_decide.
Qed.

Lemma maxPerNode_range w n : (0 ≤ maxPerNode w n ≤ 4)%Z.
Proof.
  unfold maxPerNode. destruct (existsb _ _); [lia|].
  destruct (_ =? 0)%Z; [lia|]. cbv zeta.
  destruct (Z.ltb_spec 4 (i64 (Z.quot (freeCPU n) (wlCPUMillicores w)))); [lia|].
  destruct (Z.leb_spec (i64 (Z.quot (freeCPU n) (wlCPUMillicores w))) 0); [lia|].
  rewrite i32_id; [lia|]. unfold in_i32. lia.
Qed.

Lemma choose_some w m scored n :
  choose w m scored = Some n → n ∈ scored ∧ (count_on m (nID n) < maxPerNode w n)%Z.
Proof.
  induction scored as [|x scored IH]; [done|]. cbn.
  destruct (Z.leb_spec (maxPerNode w x) (count_on m (nID x))).
  - intros Hc%IH. set_solver.
  - intros [= ->]. split; [set_solver|done].
Qed.

Lemma choose_none w m scored n :
  choose w m scored = None → n ∈ scored → (maxPerNode w n ≤ count_on m (nID n))%Z.
Proof.
  induction scored as [|x scored IH]; [set_solver|]. cbn.
  destruct (Z.leb_spec (maxPerNode w x) (count_on m (nID x))); [|done].
  intros Hc [->|Hin]%elem_of_cons; auto.
Qed.

(** The state of the loop: [perNode] counts the placements made so far. *)
Record loop_inv (w : Workload) (scored : list Node) (i : Z) (m : gmap string Z)
    (ps : list SPlacement) : Prop := {
  li_count : ∀ id, count_on m id = Z.of_nat (placed_on ps id);
  li_small : ∀ id, placed_on ps id ≤ 4;
  li_anti : existsb (λ a, Contains a (wlName w)) (wlAntiAffinity w) = true → ∀ id, placed_on ps id ≤ 1;
  li_from : ∀ p, p ∈ ps → ∃ n, n ∈ scored ∧ spNodeID p = nID n ∧ spReason p = "";
  li_max : ∀ n, n ∈ scored → (∀ n', n' ∈ scored → nID n' = nID n → n' = n) →
    (Z.of_nat (placed_on ps (nID n)) ≤ maxPerNode w n)%Z;
  li_idx : spReplicaIdx <$> ps = Z.of_nat <$> seq 0 (length ps);
  li_i : i = Z.of_nat (length ps);
}.

Lemma loop_inv_init w scored : loop_inv w scored 0 ∅ [].
Proof.
  split; try done; try (cbn; lia).
  - set_solver.
  - intros n _ _. cbn. apply maxPerNode_range.
Qed.

Lemma loop_inv_step w scored i m ps n :
  loop_inv w scored i m ps → choose w m scored = Some n →
  loop_inv w scored (i + 1) (<[nID n := i32 (count_on m (nID n) + 1)]> m)
    (ps ++ [mk_SPlacement (nID n) i ""]).
Proof.
  intros [Hc Hs Hx Hf Hm Hi Hl] [Hin Hlt]%choose_some.
  pose proof (maxPerNode_range w n) as Hr. rewrite Hc in Hlt. specialize (Hs (nID n)) as Hsn.
  assert (i32 (count_on m (nID n) + 1) = Z.of_nat (placed_on ps (nID n)) + 1)%Z as Hi32
    by (rewrite Hc, i32_id; unfold in_i32; lia).
  split.
  - intros id. rewrite placed_on_snoc, count_on_insert. cbn.
    case_decide; subst; [lia|]. rewrite Hc. lia.
  - intros id. rewrite placed_on_snoc. cbn. specialize (Hs id). case_decide; subst; lia.
  - intros Ha id. rewrite placed_on_snoc. cbn. specialize (Hx Ha id). case_decide; subst; [|lia].
    unfold maxPerNode in Hlt. rewrite Ha in Hlt. lia.
  - intros p [Hp|Hp]%elem_of_app; [by apply Hf|]. apply list_elem_of_singleton in Hp as ->. eauto.
  - intros n' Hn' Hu. rewrite placed_on_snoc. cbn.
    destruct (decide (nID n = nID n')) as [E|]; [|specialize (Hm n' Hn' Hu); lia].
    rewrite <- (Hu n Hin E). lia.
  - rewrite length_app, fmap_app, Hi, seq_app, fmap_app. cbn. by subst i.
  - rewrite length_app. cbn. lia.
Qed.

(** The loop as a whole: either every remaining replica is placed, or it stops
    with every scored node full. *)
Record plan_ok (w : Workload) (scored : list Node) (want : nat) (d : Decision) : Prop := {
  po_id : dWorkloadID d = wlID w;
  po_inv : ∃ m, loop_inv w scored (Z.of_nat (length (dPlacements d))) m (dPlacements d);
  po_done : (dUnscheduled d = "" ∧ length (dPlacements d) = want) ∨
            (dUnscheduled d = no_capacity ∧ length (dPlacements d) < want ∧
             ∀ n, n ∈ scored → (maxPerNode w n ≤ Z.of_nat (placed_on (dPlacements d) (nID n)))%Z);
}.

Lemma place_ok fuel w scored i m ps :
  loop_inv w scored i m ps →
  plan_ok w scored (length ps + fuel) (place fuel w scored i m ps).
Proof.
  revert i m ps. induction fuel as [|fuel IH]; intros i m ps Hinv; cbn [place].
  - split; [done| |].
    + exists m. cbn. by rewrite <- (li_i _ _ _ _ _ Hinv).
    + left. cbn. split; [done|lia].
  - destruct (choose w m scored) as [n|] eqn:E.
    + specialize (IH _ _ _ (loop_inv_step _ _ _ _ _ _ Hinv E)).
      rewrite length_app in IH. cbn [length] in IH.
      by replace (length ps + S fuel) with (length ps + 1 + fuel) by lia.
    + split; [done| |].
      * exists m. cbn. by rewrite <- (li_i _ _ _ _ _ Hinv).
      * right. cbn [dPlacements dUnscheduled]. split_and!; [done|lia|]. intros n Hn.
        rewrite <- (li_count _ _ _ _ _ Hinv). by eapply choose_none.
Qed.

Lemma plan_nodes_cases nodes w d :
  plan_nodes nodes w = Ret d →
  (filter nodes w = [] ∧ d = mk_Decision (wlID w) [] no_node) ∨
  (0 ≤ wlReplicas w)%Z ∧ filter nodes w ≠ [] ∧
  plan_ok w (score (filter nodes w) w) (Z.to_nat (wlReplicas w)) d.
Proof.
  unfold plan_nodes. case_bool_decide as He.
  - apply nil_length_inv in He. intros [= <-]. auto.
  - destruct (Z.ltb_spec (wlReplicas w) 0); [done|]. intros [= <-]. right.
    split_and!; [done|intros E; by rewrite E in He|]. apply (place_ok _ _ _ _ _ [] (loop_inv_init _ _)).
Qed.

(** With anti-affinity, or one node at most per replica, counts are below the
    CPU the node has left. *)
Lemma maxPerNode_cpu w n :
  (0 < wlCPUMillicores w)%Z → (wlCPUMillicores w ≤ freeCPU n)%Z →
  (maxPerNode w n * wlCPUMillicores w ≤ freeCPU n)%Z.
Proof.
  intros Hc Hf. unfold maxPerNode. destruct (existsb _ _); [lia|].
  destruct (Z.eqb_spec (wlCPUMillicores w) 0); [lia|]. cbv zeta.
  pose proof (i64_range (nCPUAllocatable n - nCPUAllocated n)) as Hr. fold (freeCPU n) in Hr.
  unfold in_i64 in Hr.
  rewrite Z.quot_div_nonneg by lia.
  pose proof (Z.mul_div_le (freeCPU n) (wlCPUMillicores w) Hc) as Hm.
  assert (0 ≤ freeCPU n / wlCPUMillicores w ≤ freeCPU n)%Z as Hq.
  { split; [apply Z.div_pos; lia|]. apply Z.div_le_upper_bound; nia. }
  rewrite i64_id by (unfold in_i64; lia).
  destruct (Z.ltb_spec 4 (freeCPU n / wlCPUMillicores w)); [nia|].
  destruct (Z.leb_spec (freeCPU n / wlCPUMillicores w) 0); [nia|].
  rewrite i32_id by (unfold in_i32; lia). nia.
Qed.

(** ** Properties *)

Lemma plan_nodes_placed nodes w d :
  plan_nodes nodes w = Ret d →
  dPlacements d = [] ∨
  ∃ m, loop_inv w (score (filter nodes w) w) (Z.of_nat (length (dPlacements d))) m (dPlacements d).
Proof.
  intros [[_ ->]|(_ & _ & Hok)]%plan_nodes_cases; [by left|right]. apply Hok.
Qed.

Lemma elem_of_scored n nodes w : n ∈ score (filter nodes w) w ↔ n ∈ nodes ∧ fits w n.
Proof. rewrite score_perm. apply elem_of_filter_nodes. Qed.

Lemma Plan_inv {S} `{NodeStore S} (s : S) w d :
  Plan s w = Ret (Ok d) → ∃ nodes, ListNodes s = Ok nodes ∧ plan_nodes nodes w = Ret d.
Proof.
  unfold Plan. destruct (ListNodes s) as [nodes|e]; [|done].
  destruct (plan_nodes nodes w) as [d'|] eqn:E; [|done]. intros [= ->]. eauto.
Qed.

Lemma same_id_same_node (nodes : list Node) n n' :
  NoDup (nID <$> nodes) → n ∈ nodes → n' ∈ nodes → nID n' = nID n → n' = n.
Proof.
  intros Hnd [i Hi]%list_elem_of_lookup [j Hj]%list_elem_of_lookup He.
  assert (i = j) as ->.
  { eapply (NoDup_lookup _ _ _ (nID n) Hnd); rewrite list_lookup_fmap.
    - by rewrite Hi. - rewrite Hj. cbn. by rewrite He. }
  by simplify_eq.
Qed.

(** The bound of [maxPerNode] holds for every node of a store whose node IDs
    are distinct. *)
Lemma placed_bound nodes w d n :
  NoDup (nID <$> nodes) → plan_nodes nodes w = Ret d → n ∈ nodes → fits w n →
  (Z.of_nat (placed_on (dPlacements d) (nID n)) ≤ maxPerNode w n)%Z.
Proof.
  intros Hnd [->|[m Hinv]]%plan_nodes_placed Hn Hf.
  { cbn. apply maxPerNode_range. }
  apply (li_max _ _ _ _ _ Hinv); [by apply elem_of_scored|].
  intros n' [Hn' _]%elem_of_scored. by apply (same_id_same_node nodes).
Qed.

Lemma placed_on_unique_NoDup ps :
  (∀ id, placed_on ps id ≤ 1) → NoDup (spNodeID <$> ps).
Proof.
  induction ps as [|p ps IH]; [constructor|]. intros H. cbn. constructor.
  - intros (q & Hq & Hin)%list_elem_of_fmap. specialize (H (spNodeID p)). unfold placed_on in H.
    rewrite filter_cons_True in H by done. cbn in H.
    assert (q ∈ base.filter (λ x, spNodeID x = spNodeID p) ps) as Hf
      by (by apply list_elem_of_filter).
    destruct (base.filter _ ps); [set_solver|cbn in H; lia].
  - apply IH. intros id. specialize (H id). unfold placed_on in *. rewrite filter_cons in H.
    case_decide; cbn in H; lia.
Qed.

Lemma placed_on_pos ps id : 0 < placed_on ps id → ∃ p, p ∈ ps ∧ spNodeID p = id.
Proof.
  unfold placed_on. destruct (base.filter _ ps) as [|p l] eqn:E; [cbn; lia|]. intros _. exists p.
  assert (p ∈ base.filter (λ p, spNodeID p = id) ps) as [? ?]%list_elem_of_filter
    by (rewrite E; set_solver). done.
Qed.

(** A node that satisfies every field of the filter, for examples. *)
Definition ex_node (id : string) (cpu mem : Z) : Node :=
  mk_Node (mk_Base id "" id) "" "Ready" cpu 0 mem 0 0 ∅ [] false false false 0.
Definition ex_workload (id : string) (replicas cpu mem : Z) (anti : list string) : Workload :=
  mk_Workload (mk_Base id "proj" id) replicas cpu mem 0 ∅ [] anti ∅ [] []
    (mk_WorkloadStatus false "" 0 0).
Definition ex_store (nodes : list Node) : mem :=
  mk_mem (list_to_map ((λ n, (nID n, n)) <$> nodes)) ∅ ∅ [] ∅.

(** C5: Every replica the scheduler places goes to a node of the store that
    the workload fits on: open for scheduling, Ready, with the CPU, memory and
    GPUs one replica asks for, the selected labels, and every NoSchedule taint
    tolerated.  Conversely a node of the store that fits is a candidate: the
    plan is only refused for want of candidates when there is none. *)
Theorem Plan_sound {S} `{NodeStore S} (s : S) (w : Workload) (d : Decision) (nodes : list Node) :
  Plan s w = Ret (Ok d) → ListNodes s = Ok nodes →
  (∀ p, p ∈ dPlacements d → ∃ n, n ∈ nodes ∧ nID n = spNodeID p ∧ fits w n) ∧
  (dUnscheduled d = no_node ↔ ∀ n, n ∈ nodes → ¬ fits w n).
Proof.
  intros (ns & HL & HP)%Plan_inv HL'. rewrite HL in HL'. injection HL' as ->. split.
  - intros p Hp. destruct (plan_nodes_placed _ _ _ HP) as [Hd|[m Hinv]].
    { rewrite Hd in Hp. set_solver. }
    destruct (li_from _ _ _ _ _ Hinv p Hp) as (n & Hn & He & _).
    apply elem_of_scored in Hn as [??]. eauto.
  - destruct (plan_nodes_cases _ _ _ HP) as [[Hf ->]|(_ & Hf & Hok)].
    + split; [|done]. intros _ n Hn Hfit.
      assert (n ∈ filter nodes w) as Hin by (by apply elem_of_filter_nodes).
      rewrite Hf in Hin. set_solver.
    + split; [destruct (po_done _ _ _ _ Hok) as [[-> _]|[-> _]]; done|].
      intros Hno. destruct (filter nodes w) as [|n l] eqn:E; [done|].
      assert (n ∈ filter nodes w) as [Hn Hfit]%elem_of_filter_nodes by (rewrite E; set_solver).
      by destruct (Hno n Hn).
Qed.

Lemma Plan_sound_witness : ∃ d,
  Plan (ex_store [ex_node "n1" 1000 10; ex_node "n2" 2000 10]) (ex_workload "w" 3 900 5 []) = Ret (Ok d) ∧
  length (dPlacements d) = 3 ∧
  ∀ p, p ∈ dPlacements d →
    ∃ n, n ∈ [ex_node "n1" 1000 10; ex_node "n2" 2000 10] ∧ nID n = spNodeID p ∧
         fits (ex_workload "w" 3 900 5 []) n.
Proof.
  eexists. split; [vm_compute; reflexivity|]. split; [reflexivity|].
  refine (proj1 (Plan_sound (ex_store [ex_node "n1" 1000 10; ex_node "n2" 2000 10])
            (ex_workload "w" 3 900 5 []) _ _ _ _)); vm_compute; reflexivity.
Defined.

(** C3: The plan for a workload with a non-negative replica count always
    exists, and is complete or the nodes are full: either nothing is left
    unscheduled and the replicas 0 .. Replicas-1 are placed in that order, or
    no node fits, or fewer replicas are placed and every node that fits holds
    exactly [maxPerNode] of them. *)
Theorem Plan_complete (nodes : list Node) (w : Workload) :
  (0 ≤ wlReplicas w)%Z → NoDup (nID <$> nodes) →
  ∃ d, plan_nodes nodes w = Ret d ∧ dWorkloadID d = wlID w ∧
    spReplicaIdx <$> dPlacements d = Z.of_nat <$> seq 0 (length (dPlacements d)) ∧
    (dUnscheduled d = "" ∧ Z.of_nat (length (dPlacements d)) = wlReplicas w ∨
     dUnscheduled d = no_node ∧ dPlacements d = [] ∧ (∀ n, n ∈ nodes → ¬ fits w n) ∨
     dUnscheduled d = no_capacity ∧ (Z.of_nat (length (dPlacements d)) < wlReplicas w)%Z ∧
       ∀ n, n ∈ nodes → fits w n →
         Z.of_nat (placed_on (dPlacements d) (nID n)) = maxPerNode w n).
Proof.
  intros Hr Hnd. destruct (plan_nodes nodes w) as [d|] eqn:HP.
  2:{ unfold plan_nodes in HP. case_bool_decide; [done|].
      destruct (Z.ltb_spec (wlReplicas w) 0); [lia|done]. }
  exists d. split; [done|].
  destruct (plan_nodes_cases _ _ _ HP) as [[Hf ->]|(_ & Hf & [Hid [m Hinv] Hdone])].
  - split_and!; [done..|]. right; left. split_and!; [done..|]. intros n Hn Hfit.
    assert (n ∈ filter nodes w) as Hin by (by apply elem_of_filter_nodes).
    rewrite Hf in Hin. set_solver.
  - split_and!; [done|apply Hinv|]. destruct Hdone as [[-> Hl]|(-> & Hl & Hfull)].
    + left. split; [done|lia].
    + right; right. split_and!; [done|lia|]. intros n Hn Hfit.
      apply Z.le_antisymm; [by eapply placed_bound|]. by apply Hfull, elem_of_scored.
Qed.

Lemma Plan_complete_witness :
  ∃ d, plan_nodes [ex_node "n1" 1000 10] (ex_workload "w" 3 500 5 []) = Ret d ∧
       dUnscheduled d = no_capacity ∧
       (∀ n, n ∈ [ex_node "n1" 1000 10] → fits (ex_workload "w" 3 500 5 []) n →
         Z.of_nat (placed_on (dPlacements d) (nID n)) = maxPerNode (ex_workload "w" 3 500 5 []) n).
Proof.
  destruct (Plan_complete [ex_node "n1" 1000 10] (ex_workload "w" 3 500 5 []))
    as (d & HP & _ & _ & Hd).
  - cbn. lia.
  - by apply NoDup_singleton.
  - exists d. split; [exact HP|]. vm_compute in HP. injection HP as <-.
    destruct Hd as [[Hd _]|[[Hd _]|[_ [_ Hd]]]]; [discriminate Hd..|]. split; [reflexivity|exact Hd].
Defined.

(** What a node is asked for, when its share is within [maxPerNode]; a request
    of no CPU asks for nothing, and a negative one for less than one replica. *)
Lemma share_cpu w n k :
  fits w n → 1 ≤ k → (Z.of_nat k ≤ maxPerNode w n)%Z → (Z.of_nat k * wlCPUMillicores w ≤ freeCPU n)%Z.
Proof.
  intros Hf Hk Hle. pose proof (fit_cpu _ _ Hf) as Hfc.
  destruct (Z.lt_total 0 (wlCPUMillicores w)) as [Hc|Hc]; [|nia].
  pose proof (maxPerNode_cpu w n Hc Hfc). nia.
Qed.

(** C4: Whatever the workload asks for, be it no CPU or, unvalidated, a negative
    amount: a plan never names one node more than four times; if the nodes have
    distinct IDs, no node it names is asked for more CPU in all than the node
    has free (allocatable less allocated, in 64-bit arithmetic); and when one of
    the workload's anti-affinity texts contains its name, the plan names no node
    twice. *)
Theorem Plan_respects_cpu (nodes : list Node) (w : Workload) (d : Decision) :
  plan_nodes nodes w = Ret d →
  (∀ id, placed_on (dPlacements d) id ≤ 4) ∧
  (NoDup (nID <$> nodes) → ∀ n, n ∈ nodes → 0 < placed_on (dPlacements d) (nID n) →
     (Z.of_nat (placed_on (dPlacements d) (nID n)) * wlCPUMillicores w ≤ freeCPU n)%Z) ∧
  ((∃ a, a ∈ wlAntiAffinity w ∧ Contains a (wlName w) = true) →
     NoDup (spNodeID <$> dPlacements d)).
Proof.
  intros HP. split_and!.
  - intros id. destruct (plan_nodes_placed _ _ _ HP) as [->|[m Hinv]]; [cbn; lia|apply Hinv].
  - intros Hnd n Hn H0. pose proof H0 as (p & Hp & He)%placed_on_pos.
    destruct (plan_nodes_placed _ _ _ HP) as [Hd|[m Hinv]]; [rewrite Hd in Hp; set_solver|].
    destruct (li_from _ _ _ _ _ Hinv p Hp) as (n' & [Hn' Hfit]%elem_of_scored & He' & _).
    assert (n' = n) as -> by (eapply same_id_same_node; [done..|congruence]).
    apply share_cpu; [done|lia|]. by eapply placed_bound.
  - intros (a & Ha & Hc). apply placed_on_unique_NoDup. intros id.
    destruct (plan_nodes_placed _ _ _ HP) as [->|[m Hinv]]; [cbn; lia|].
    apply (li_anti _ _ _ _ _ Hinv). apply existsb_exists. exists a. by rewrite <- list_elem_of_In.
Qed.

(** Two replicas that must not share a node, and five that ask for no CPU. *)
Lemma Plan_respects_cpu_witness : ∃ d d',
  plan_nodes [ex_node "n1" 1000 10; ex_node "n2" 1000 10] (ex_workload "w" 2 300 5 ["app=w"]) = Ret d ∧
  NoDup (spNodeID <$> dPlacements d) ∧ length (dPlacements d) = 2 ∧
  plan_nodes [ex_node "n1" 1000 10] (ex_workload "w" 5 0 0 []) = Ret d' ∧
  placed_on (dPlacements d') "n1" ≤ 4 ∧ length (dPlacements d') = 4.
Proof.
  eexists _, _. split; [vm_compute; reflexivity|]. split; [|split; [reflexivity|split; [vm_compute; reflexivity|split]]].
  - apply (Plan_respects_cpu [ex_node "n1" 1000 10; ex_node "n2" 1000 10] (ex_workload "w" 2 300 5 ["app=w"])).
    + vm_compute; reflexivity.
    + exists "app=w". split; [set_solver|reflexivity].
  - apply (Plan_respects_cpu [ex_node "n1" 1000 10] (ex_workload "w" 5 0 0 [])). vm_compute; reflexivity.
  - reflexivity.
Defined.

(** Scoring only reorders the candidates, and puts them in the order of
    their share of free resources, the least allocated first. *)
Theorem score_orders (nodes : list Node) (w : Workload) :
  Forall (λ n, is_nan (node_score n) = false) nodes →
  score nodes w ≡ₚ nodes ∧
  StronglySorted (λ a b, f64_lt (node_score a) (node_score b) = false) (score nodes w).
Proof.
  intros Hn. split; [apply score_perm|]. unfold score.
  pose proof (sort_slice_sorted _ (λ x : Node * float64, is_nan x.2 = false)
    (StrictWeak0 := f64_gt_sw snd) ((λ n, (n, node_score n)) <$> nodes)) as Hs.
  rewrite Forall_fmap in Hs. specialize (Hs Hn).
  assert (Hf : Forall (λ x, x.2 = node_score x.1)
     (sort_slice (λ a b : Node * float64, f64_gt a.2 b.2) ((λ n, (n, node_score n)) <$> nodes))).
  { rewrite sort_slice_perm, Forall_fmap. by apply Forall_true. }
  induction Hs as [|[a sa] l Hl IH Ha]; cbn; [constructor|].
  inversion_clear Hf as [|? ? Hfa Hfl]. constructor; [by apply IH|].
  rewrite Forall_fmap. rewrite Forall_forall in Ha, Hfl |- *. intros x Hx.
  specialize (Ha x Hx). unfold not_after, f64_gt in Ha. cbn in *.
  rewrite <- Hfa, <- (Hfl x Hx). exact Ha.
Qed.

Lemma score_orders_witness :
  let nodes := [ex_node "full" 10 10; ex_node "zero" 0 0;
                mk_Node (mk_Base "half" "" "") "" "Ready" 10 10 10 0 0 ∅ [] false false false 0] in
  score nodes (ex_workload "w" 1 1 1 []) ≡ₚ nodes ∧
  nID <$> score nodes (ex_workload "w" 1 1 1 []) = ["full"; "half"; "zero"].
Proof.
  split; [|vm_compute; reflexivity].
  refine (proj1 (score_orders _ _ _)). repeat constructor.
Defined.

Lemma string_app_inj (s t u : string) : s +:+ t = s +:+ u → t = u.
Proof. induction s as [|a s IH]; [done|]. cbn. intros [= H]. auto. Qed.

(** Reconcile replaces the stored placements of the workload by its plan:
    afterwards the store returns one Pending placement per planned replica, on
    the planned node, under pairwise distinct IDs, and the placements of every
    other workload are untouched. *)
Theorem Reconcile_stores_plan {S} `{NodeStore S} `{PlacementLaws S} (s s' : S) (w : Workload) :
  Reconcile s w = Ret (s', None) →
  (∃ d ps, Plan s w = Ret (Ok d) ∧ GetPlacements s' (wlID w) = Ok ps ∧
     NoDup (plID <$> ps) ∧
     Forall2 (λ p q, plNodeID q = spNodeID p ∧ plReplicaIdx q = spReplicaIdx p ∧
                     plWorkloadID q = wlID w ∧ plStatus q = "Pending") (dPlacements d) ps) ∧
  ∀ w', w' ≠ wlID w → GetPlacements s' w' = GetPlacements s w'.
Proof.
  unfold Reconcile. destruct (Plan s w) as [[d|e]|] eqn:HP; [|done..]. cbn. intros [= Hset].
  split.
  - exists d, (stored_placement w <$> dPlacements d).
    split_and!; [done|by eapply set_get_placements| |].
    + destruct (Plan_inv _ _ _ HP) as (nodes & _ & HN).
      assert (Hidx : NoDup (spReplicaIdx <$> dPlacements d)).
      { destruct (plan_nodes_placed _ _ _ HN) as [->|[m Hinv]]; [constructor|].
        rewrite (li_idx _ _ _ _ _ Hinv). apply NoDup_fmap_2; [apply _|apply NoDup_seq]. }
      rewrite <- list_fmap_compose.
      assert (Hc : plID ∘ stored_placement w =
        (λ i, wlID w +:+ "-" +:+ pretty i) ∘ spReplicaIdx) by done.
      rewrite Hc, list_fmap_compose. apply NoDup_fmap_2; [|done].
      intros i j Hij. apply string_app_inj in Hij. injection Hij as Hij. by apply (inj pretty).
    + apply Forall2_fmap_r, Forall_Forall2_diag, Forall_true. done.
  - intros w' Hw. by eapply set_get_placements_ne.
Qed.

Lemma Reconcile_stores_plan_witness : ∃ s' ps,
  Reconcile (ex_store [ex_node "n1" 1000 10]) (ex_workload "w" 2 300 5 []) = Ret (s', None) ∧
  GetPlacements s' "w" = Ok ps ∧ NoDup (plID <$> ps) ∧ length ps = 2.
Proof.
  assert (∃ s', Reconcile (ex_store [ex_node "n1" 1000 10]) (ex_workload "w" 2 300 5 []) = Ret (s', None))
    as [s' HR] by (eexists; vm_compute; reflexivity).
  destruct (Reconcile_stores_plan _ s' _ HR) as [(d & ps & HP & Hg & Hn & Hf) _].
  exists s', ps. split; [exact HR|]. split; [exact Hg|]. split; [exact Hn|].
  rewrite <- (Forall2_length _ _ _ Hf). vm_compute in HP. injection HP as <-. reflexivity.
Defined.

(** ** Behaviour outside the contract *)

(** A negative replica count that reaches [Plan] panics: [ValidateWorkload]
    rejects it, but [Plan] itself does not call it. *)
Lemma Plan_negative_replicas_panics nodes w n :
  n ∈ nodes → fits w n → (wlReplicas w < 0)%Z → plan_nodes nodes w = Panic.
Proof.
  intros Hn Hf Hr. unfold plan_nodes.
  assert (n ∈ filter nodes w) as Hin by (by apply elem_of_filter_nodes).
  destruct (filter nodes w) as [|m l]; [set_solver|]. cbn [length].
  rewrite bool_decide_false by done. by rewrite (proj2 (Z.ltb_lt _ _)).
Qed.

(** Only CPU bounds the replicas per node: a node with memory for one replica
    is given four. *)
Lemma Plan_overcommits_memory : ∃ d,
  plan_nodes [ex_node "n1" 4000 10] (ex_workload "w" 4 1000 10 []) = Ret d ∧
  placed_on (dPlacements d) "n1" = 4.
Proof. eexists. split; vm_compute; reflexivity. Qed.

(** Replicas are packed on the best node although an empty one is there. *)
Lemma Plan_packs_replicas : ∃ d,
  plan_nodes [ex_node "n1" 4000 10; ex_node "n2" 4000 10] (ex_workload "w" 2 1000 1 []) = Ret d ∧
  spNodeID <$> dPlacements d = ["n1"; "n1"].
Proof. eexists. split; vm_compute; reflexivity. Qed.
