(* ===== verification/Leader.v ===== *)
(** * Package leader: election over the key-value store

    Models internal/util/leader/leader.go and codec.go.  The election is
    written against the interface [KV] (the methods of db.KV it calls); the
    class [KVLaws] states what it relies on, and the single-node store of
    [Raft] is shown to provide it.  The two accesses a tick makes to the store
    are separate steps ([tick_read], [tick_claim]), so that the ticks of several
    candidates can interleave. *)

From S2P Require Import Prelude Raft RaftSpec.

(** ** The interface of db.KV *)

Class KV (K : Type) := {
  kv_Get : K → string → res Entry;
  kv_Put : Time → K → string → string → go (K * res (option Entry));
  kv_CompareAndSwap : Time → K → string → string → Z → go (K * res (option Entry));
}.

(** [kv_ok n k]: the store is healthy and will accept [n] more writes. *)
Class KVLaws (K : Type) `{KV K} := {
  kv_ok : nat → K → Prop;
  kv_abs : K → spec;
  kv_get_none : ∀ n k key, kv_ok n k → kv_abs k !! key = None → kv_Get k key = Err ErrNotFound;
  kv_get_some : ∀ n k key x, kv_ok n k → kv_abs k !! key = Some x → ∃ e,
    kv_Get k key = Ok e ∧ abs_entry e = x;
  kv_put_ok : ∀ n t k key v, kv_ok (S n) k → ∃ k' e,
    kv_Put t k key v = Ret (k', Ok e) ∧ kv_ok n k' ∧ kv_abs k' = spec_put (kv_abs k) key v;
  kv_cas_hit : ∀ n t k key v w x, kv_ok (S n) k → kv_abs k !! key = Some (w, x) → ∃ k' e,
    kv_CompareAndSwap t k key v x = Ret (k', Ok e) ∧ kv_ok n k' ∧
    kv_abs k' = spec_put (kv_abs k) key v;
  kv_cas_miss : ∀ n t k key v w x y, kv_ok n k → kv_abs k !! key = Some (w, x) → x ≠ y → ∃ k',
    kv_CompareAndSwap t k key v y = Ret (k', Err ErrCASMismatch) ∧ kv_ok n k' ∧
    kv_abs k' = kv_abs k;
}.

(** ** Data *)

Inductive State := Follower | Candidate | Leader.
#[export] Instance State_eq_dec : EqDecision State.
Proof. solve_decision. Defined.

Record LeaderRecord := mk_LeaderRecord { lrNodeID : string; lrTerm : Z; lrExpiry : Time }.

#[export] Instance LeaderRecord_eq_dec : EqDecision LeaderRecord.
Proof. solve_decision. Defined.
#[export] Program Instance LeaderRecord_countable : Countable LeaderRecord :=
  inj_countable' (λ r, (lrNodeID r, lrTerm r, lrExpiry r))
                 (λ x, mk_LeaderRecord x.1.1 x.1.2 x.2) _.
Next Obligation. by intros []. Qed.

Record Config := mk_Config {
  cfgNodeID : string; cfgGroup : string; cfgTTL : Duration; cfgHeartbeat : Duration;
}.

Record Election := mk_Election {
  cfg : Config; state : State; term : Z; lastSeen : Time; stopped : bool;
}.

(** ** Operations *)

Definition NewElection (c : Config) : Election :=
  let ttl := if (cfgTTL c =? 0)%Z then (5 * second)%Z else cfgTTL c in
  let hb := if (cfgHeartbeat c =? 0)%Z then (1500 * millisecond)%Z else cfgHeartbeat c in
  mk_Election (mk_Config (cfgNodeID c) (cfgGroup c) ttl hb) Follower 0 0 false.

(** Closing [stopCh] a second time panics. *)
Definition Stop (e : Election) : go Election :=
  if stopped e then Panic
  else Ret (mk_Election (cfg e) (state e) (term e) (lastSeen e) true).

Definition IsLeader (e : Election) : bool := bool_decide (state e = Leader).
Definition Term (e : Election) : Z := term e.
Definition leaderKey (group : string) : string := "_leader/" +:+ group.

Definition set_state (s : State) (e : Election) : Election :=
  mk_Election (cfg e) s (term e) (lastSeen e) (stopped e).
Definition set_term (t : Z) (e : Election) : Election :=
  mk_Election (cfg e) (state e) t (lastSeen e) (stopped e).
Definition set_lastSeen (t : Time) (e : Election) : Election :=
  mk_Election (cfg e) (state e) (term e) t (stopped e).

Definition versionOrZero (ent : option Entry) : Z :=
  match ent with None => 0%Z | Some e => eVersion e end.

Section Tick.
Context {K : Type} `{KV K} `{Codec LeaderRecord}.

(** The record the candidate would write. *)
Definition candidate (now : Time) (e : Election) : Election :=
  set_term (u64 (term e + 1)) (set_state Candidate e).
Definition cur_record (now : Time) (e : Election) : LeaderRecord :=
  mk_LeaderRecord (cfgNodeID (cfg e)) (term e) (time_Add now (cfgTTL (cfg e))).

(** The first part of [tick], up to and including the decision taken on the
    record read: the tick is over, or goes on to claim the entry it saw. *)
Inductive tick_next :=
| TickDone (e : Election)
| TickClaim (e : Election) (ent : option Entry).

Definition tick_read (now : Time) (e : Election) (k : K) : tick_next :=
  let e := candidate now e in
  match kv_Get k (leaderKey (cfgGroup (cfg e))) with
  | Err err => if bool_decide (err = ErrNotFound) then TickClaim e None else TickDone e
  | Ok ent =>
      let prev := (unmarshal (eValue ent)).1 in
      if After (lrExpiry prev) now && (lrTerm (cur_record now e) <=? lrTerm prev)%Z
      then TickDone (set_lastSeen now (set_term (lrTerm prev) (set_state Follower e)))
      else TickClaim e (Some ent)
  end.

(** The second part: claim with [Put] when there was no entry, with
    [CompareAndSwap] on the version seen otherwise.  Each is one step of the store
    here; the node's own [CompareAndSwap] compares in one critical section and
    writes in another, so claims that overlap inside it can both succeed
    ([RaftProps.cas_two_winners], and the threads of [RaftConc]). *)
Definition tick_claim (now t : Time) (e : Election) (ent : option Entry) (k : K) :
    go (Election * K) :=
  let b := marshal (cur_record now e) in
  let key := leaderKey (cfgGroup (cfg e)) in
  go_bind (match ent with
           | None => kv_Put t k key b
           | Some x => kv_CompareAndSwap t k key b (eVersion x)
           end) (λ '(k, r),
    match r with
    | Ok _ => Ret (set_lastSeen now (set_state Leader e), k)
    | Err _ => Ret (e, k)
    end).

Definition tick (now t : Time) (e : Election) (k : K) : go (Election * K) :=
  match tick_read now e k with
  | TickDone e => Ret (e, k)
  | TickClaim e ent => tick_claim now t e ent k
  end.

(** [Run]: a tick per ticker event, until the context is done or [Stop]. *)
Inductive run_event := EvDone | EvStop | EvTick (now t : Time).

Fixpoint Run (evs : list run_event) (e : Election) (k : K) : go (Election * K) :=
  match evs with
  | [] | EvDone :: _ | EvStop :: _ => Ret (e, k)
  | EvTick now t :: evs => go_bind (tick now t e k) (λ '(e, k), Run evs e k)
  end.

Definition GetLeader (k : K) (group : string) : res LeaderRecord :=
  match kv_Get k (leaderKey group) with
  | Err e => Err e
  | Ok ent => Ok (unmarshal (eValue ent)).1
  end.

End Tick.

(** ** The store of package db provides the interface *)

#[export] Instance raft_KV : KV raft := {|
  kv_Get := Get;
  kv_Put t := Put (good_env t);
  kv_CompareAndSwap t := CompareAndSwap (good_env t);
|}.

Definition raft_ok (n : nat) (r : raft) : Prop :=
  ready r ∧ (Z.of_nat (length (log r)) + Z.of_nat n < 2 ^ 64)%Z.

Lemma raft_cas now r key v x :
  ready r → small r →
  spec_version (abs r) key = x → is_Some (abs r !! key) →
  ∃ r' e, CompareAndSwap (good_env now) r key v x = Ret (r', Ok e) ∧ ready r' ∧
    abs r' = spec_put (abs r) key v ∧ length (log r') = S (length (log r)).
Proof.
  intros Hr Hs Hx [y Hy]. unfold CompareAndSwap. rewrite cas_check_spec by (done || by apply ready_running).
  rewrite Hx, Z.eqb_refl, bool_decide_true by (by rewrite Hy). cbn -[u64].
  destruct (put_entry_version r key v (ready_running _ Hr) Hs) as [_ Hv]. rewrite Hx in Hv.
  edestruct (cas_finish_ready now r key (mk_logEntry 0 0 op_put key v (x + 1))) as (r' & e & Hc & Hr' & Ha & Hl & _); [done..|exact Hv|].
  eexists r', _. split; [exact Hc|]. split; [done|]. split.
  - rewrite Ha, <- Hx. apply spec_put_apply.
  - rewrite Hl, length_app. cbn. lia.
Qed.

#[export] Program Instance raft_KVLaws : KVLaws raft := {|
  kv_ok := raft_ok; kv_abs := abs;
|}.
Next Obligation.
  intros n r key [Hr _] Hn. rewrite abs_lookup in Hn. cbn. unfold Get, get.
  by destruct (entries (st r) !! key).
Qed.
Next Obligation.
  intros n r key x [Hr _] Hn. rewrite abs_lookup in Hn. cbn. unfold Get, get.
  destruct (entries (st r) !! key) as [e|]; [|done]. injection Hn as <-. eauto.
Qed.
Next Obligation.
  intros n t r key v [Hr Hn]. assert (small r) as Hs by (unfold small; lia).
  destruct (Put_ready t r key v Hr Hs) as (r' & e & Hp & Hr' & Ha & Hl & _).
  exists r', (Some e). split; [done|]. split; [|done]. split; [done|].
  rewrite Hl, length_app. cbn. lia.
Qed.
Next Obligation.
  intros n t r key v w x [Hr Hn] Hk. assert (small r) as Hs by (unfold small; lia).
  destruct (raft_cas t r key v x Hr Hs) as (r' & e & Hc & Hr' & Ha & Hl).
  - unfold spec_version. by rewrite Hk.
  - eauto.
  - exists r', e. split; [done|]. split; [|done]. split; [done|]. lia.
Qed.
Next Obligation.
  intros n t r key v w x y [Hr Hn] Hk Hne. exists r. cbn. unfold CompareAndSwap, cas_check.
  rewrite abs_lookup in Hk. destruct (entries (st r) !! key) as [e|]; [|done].
  injection Hk as <- <-. destruct (Z.eqb_spec (eVersion e) y); [done|]. done.
Qed.

(** ** Properties *)

Section Properties.
Context {K : Type} `{KVLaws K} `{CodecLaws LeaderRecord}.

(** The store holds the leader record [lr] of the group, at a version. *)
Definition recorded (k : K) (group : string) (lr : LeaderRecord) (ver : Z) : Prop :=
  ∃ v, kv_abs k !! leaderKey group = Some (v, ver) ∧ (unmarshal v).1 = lr.

Definition unclaimed (k : K) (group : string) : Prop :=
  kv_abs k !! leaderKey group = None.

(** The lease of [lr] keeps a candidate about to enter term [t] out. *)
Definition blocks (lr : LeaderRecord) (now : Time) (t : Z) : bool :=
  After (lrExpiry lr) now && (t <=? lrTerm lr)%Z.

Definition version_of (k : K) (group : string) : Z := spec_version (kv_abs k) (leaderKey group).

Lemma recorded_version k group lr ver : recorded k group lr ver → version_of k group = ver.
Proof. intros (v & Hv & _). unfold version_of, spec_version. by rewrite Hv. Qed.

Lemma recorded_get n k group lr ver :
  kv_ok n k → recorded k group lr ver →
  ∃ ent, kv_Get k (leaderKey group) = Ok ent ∧ (unmarshal (eValue ent)).1 = lr ∧ eVersion ent = ver.
Proof.
  intros Hk (v & Hv & Hu). destruct (kv_get_some _ _ _ _ Hk Hv) as (ent & Hg & He).
  exists ent. injection He as <- <-. done.
Qed.

Lemma recorded_GetLeader n k group lr ver :
  kv_ok n k → recorded k group lr ver → GetLeader k group = Ok lr.
Proof.
  intros Hk Hr. destruct (recorded_get _ _ _ _ _ Hk Hr) as (ent & Hg & Hu & _).
  unfold GetLeader. by rewrite Hg, Hu.
Qed.

Lemma written_recorded k group lr ver :
  kv_abs k !! leaderKey group = Some (marshal lr, ver) → encodes lr → recorded k group lr ver.
Proof. intros Hk He. exists (marshal lr). split; [done|]. by rewrite unmarshal_marshal. Qed.

Lemma tick_read_recorded n now e k lr ver :
  kv_ok n k → recorded k (cfgGroup (cfg e)) lr ver →
  ∃ ent, eVersion ent = ver ∧
  tick_read now e k =
    if blocks lr now (u64 (term e + 1))
    then TickDone (set_lastSeen now (set_term (lrTerm lr) (set_state Follower (candidate now e))))
    else TickClaim (candidate now e) (Some ent).
Proof.
  intros Hk Hr. destruct (recorded_get _ _ _ _ _ Hk Hr) as (ent & Hg & Hu & Hv).
  exists ent. split; [done|]. unfold tick_read. cbn -[leaderKey u64 After]. rewrite Hg, Hu. done.
Qed.

Lemma tick_read_unclaimed n now e k :
  kv_ok n k → unclaimed k (cfgGroup (cfg e)) → tick_read now e k = TickClaim (candidate now e) None.
Proof.
  intros Hk Hr. unfold tick_read. cbn -[leaderKey u64].
  by rewrite (kv_get_none _ _ _ Hk Hr).
Qed.

(** Claiming the entry the store still holds succeeds. *)
Lemma tick_claim_wins n now t e ent k :
  kv_ok (S n) k →
  match ent with
  | None => True
  | Some x => ∃ v, kv_abs k !! leaderKey (cfgGroup (cfg e)) = Some (v, eVersion x)
  end →
  ∃ k', tick_claim now t e ent k = Ret (set_lastSeen now (set_state Leader e), k') ∧
    kv_ok n k' ∧
    kv_abs k' = spec_put (kv_abs k) (leaderKey (cfgGroup (cfg e))) (marshal (cur_record now e)).
Proof.
  intros Hk Hent. unfold tick_claim. destruct ent as [x|].
  - destruct Hent as [v Hv].
    destruct (kv_cas_hit n t k _ (marshal (cur_record now e)) _ _ Hk Hv) as (k' & y & -> & Hk' & Ha).
    exists k'. done.
  - destruct (kv_put_ok n t k (leaderKey (cfgGroup (cfg e))) (marshal (cur_record now e)) Hk)
      as (k' & y & -> & Hk' & Ha). exists k'. done.
Qed.

(** The outcome of a tick that finds nothing in its way. *)
Record won (now : Time) (e e' : Election) (k k' : K) : Prop := {
  won_state : state e' = Leader;
  won_term : term e' = u64 (term e + 1);
  won_seen : lastSeen e' = now;
  won_cfg : cfg e' = cfg e;
  won_record : kv_abs k' !! leaderKey (cfgGroup (cfg e)) = Some
    (marshal (mk_LeaderRecord (cfgNodeID (cfg e)) (term e') (time_Add now (cfgTTL (cfg e)))),
     (version_of k (cfgGroup (cfg e)) + 1)%Z);
  won_others : ∀ key, key ≠ leaderKey (cfgGroup (cfg e)) → kv_abs k' !! key = kv_abs k !! key;
}.

Lemma claim_won n now t e ent k :
  kv_ok (S n) k →
  match ent with
  | None => True
  | Some x => ∃ v, kv_abs k !! leaderKey (cfgGroup (cfg e)) = Some (v, eVersion x)
  end →
  ∃ e' k', tick_claim now t (candidate now e) ent k = Ret (e', k') ∧ kv_ok n k' ∧ won now e e' k k'.
Proof.
  intros Hk Hent. destruct (tick_claim_wins n now t (candidate now e) ent k Hk Hent)
    as (k' & Hc & Hk' & Ha).
  eexists _, k'. split; [exact Hc|]. split; [done|]. split; try done.
  - rewrite Ha. unfold spec_put. by rewrite lookup_insert_eq.
  - intros key Hkey. rewrite Ha. unfold spec_put. by rewrite lookup_insert_ne.
Qed.

(** A tick on a healthy store always returns, and its outcome is decided by
    the record it finds: an unexpired record of the candidate's next term or a
    later one makes it a follower in that term and leaves the store alone;
    otherwise it becomes leader of the next term and the store holds its record,
    with the lease running from the time of the tick. *)
Theorem tick_outcome (n : nat) (now t : Time) (e : Election) (k : K) :
  kv_ok (S n) k →
  (∀ lr ver, recorded k (cfgGroup (cfg e)) lr ver → blocks lr now (u64 (term e + 1)) = true →
     ∃ e', tick now t e k = Ret (e', k) ∧ state e' = Follower ∧ term e' = lrTerm lr ∧
           lastSeen e' = now) ∧
  (unclaimed k (cfgGroup (cfg e)) ∨
   (∃ lr ver, recorded k (cfgGroup (cfg e)) lr ver ∧ blocks lr now (u64 (term e + 1)) = false) →
   ∃ e' k', tick now t e k = Ret (e', k') ∧ kv_ok n k' ∧ won now e e' k k' ∧
     let lr := mk_LeaderRecord (cfgNodeID (cfg e)) (term e') (time_Add now (cfgTTL (cfg e))) in
     (encodes lr → GetLeader k' (cfgGroup (cfg e)) = Ok lr)).
Proof.
  intros Hk. unfold tick. split.
  - intros lr ver Hr Hb. destruct (tick_read_recorded _ now _ _ _ _ Hk Hr) as (ent & _ & ->).
    rewrite Hb. eexists. done.
  - intros Hcase.
    assert (∃ e' k', tick now t e k = Ret (e', k') ∧ kv_ok n k' ∧ won now e e' k k')
      as (e' & k' & Ht & Hk' & Hw).
    { unfold tick. destruct Hcase as [Hu|(lr & ver & Hr & Hb)].
      - rewrite (tick_read_unclaimed _ now _ _ Hk Hu). by apply claim_won.
      - destruct (tick_read_recorded _ now _ _ _ _ Hk Hr) as (ent & Hv & ->). rewrite Hb.
        apply claim_won; [done|]. destruct Hr as (v & Hv' & _). rewrite Hv. eauto. }
    exists e', k'. split_and!; [done..|]. intros Hlr.
    eapply recorded_GetLeader; [done|]. by eapply written_recorded; [apply Hw|].
Qed.

(** C14: The claim is exclusive: of two candidates that decided on the same
    entry, once the first one's claim is written the second one's fails, leaves
    the first one's record in place, and does not make it a leader. *)
Theorem claim_exclusive (n : nat) (now1 t1 now2 t2 : Time) (e1 e2 : Election) (k : K)
    (lr : LeaderRecord) (ver : Z) :
  kv_ok (S n) k → cfgGroup (cfg e1) = cfgGroup (cfg e2) →
  recorded k (cfgGroup (cfg e1)) lr ver →
  blocks lr now1 (u64 (term e1 + 1)) = false → blocks lr now2 (u64 (term e2 + 1)) = false →
  ∃ c1 ent1 c2 ent2 e1' k',
    tick_read now1 e1 k = TickClaim c1 ent1 ∧ tick_read now2 e2 k = TickClaim c2 ent2 ∧
    tick_claim now1 t1 c1 ent1 k = Ret (e1', k') ∧ won now1 e1 e1' k k' ∧
    ∃ k'', tick_claim now2 t2 c2 ent2 k' = Ret (c2, k'') ∧ kv_abs k'' = kv_abs k' ∧
           state c2 = Candidate.
Proof.
  intros Hk Hg Hr Hb1 Hb2.
  destruct (tick_read_recorded _ now1 _ _ _ _ Hk Hr) as (ent1 & Hv1 & Hr1). rewrite Hb1 in Hr1.
  rewrite Hg in Hr. destruct (tick_read_recorded _ now2 _ _ _ _ Hk Hr) as (ent2 & Hv2 & Hr2).
  rewrite Hb2 in Hr2. rewrite <- Hg in Hr.
  destruct (claim_won n now1 t1 e1 (Some ent1) k Hk) as (e1' & k' & Hc & Hk' & Hw).
  { destruct Hr as (v & Hv & _). rewrite Hv1. eauto. }
  eexists _, _, _, _, e1', k'. split_and!; [exact Hr1|exact Hr2|exact Hc|exact Hw|].
  pose proof (won_record _ _ _ _ _ Hw) as Hv. rewrite (recorded_version _ _ _ _ Hr), Hg in Hv.
  destruct (kv_cas_miss n t2 k' _ (marshal (cur_record now2 (candidate now2 e2))) _ _ (eVersion ent2) Hk' Hv)
    as (k'' & Hm & Hk'' & Ha); [lia|].
  exists k''. split_and!; [|done|done]. unfold tick_claim. cbn -[leaderKey u64 cur_record].
  cbn -[leaderKey u64 cur_record] in Hm. rewrite Hm. done.
Qed.

(** A lease does not protect its holder: a follower that has seen an
    unexpired record of a term at least its own next one takes over on its very
    next tick, although the lease still runs and the holder has not ticked. *)
Theorem lease_stolen (n : nat) (now1 t1 now2 t2 : Time) (e : Election) (k : K)
    (lr : LeaderRecord) (ver : Z) :
  kv_ok (S n) k → recorded k (cfgGroup (cfg e)) lr ver →
  (0 ≤ lrTerm lr < 2 ^ 64 - 1)%Z → (u64 (term e + 1) ≤ lrTerm lr)%Z →
  (now1 ≤ now2 < lrExpiry lr)%Z →
  encodes (mk_LeaderRecord (cfgNodeID (cfg e)) (lrTerm lr + 1) (time_Add now2 (cfgTTL (cfg e)))) →
  ∃ e1 e2 k2, tick now1 t1 e k = Ret (e1, k) ∧ state e1 = Follower ∧
    tick now2 t2 e1 k = Ret (e2, k2) ∧ state e2 = Leader ∧ After (lrExpiry lr) now2 = true ∧
    GetLeader k2 (cfgGroup (cfg e)) = Ok (mk_LeaderRecord (cfgNodeID (cfg e)) (lrTerm lr + 1)
                                            (time_Add now2 (cfgTTL (cfg e)))).
Proof.
  intros Hk Hr Ht Hle Hnow Henc. unfold tick at 1.
  destruct (tick_read_recorded _ now1 _ _ _ _ Hk Hr) as (ent & _ & ->).
  unfold blocks at 1, After. rewrite (proj2 (Z.ltb_lt _ _)), (proj2 (Z.leb_le _ _)) by lia.
  cbn [andb]. eexists _. set (e1 := set_lastSeen _ _).
  assert (u64 (term e1 + 1) = lrTerm lr + 1)%Z as Hu by (cbn; rewrite u64_id; [done|unfold in_u64; lia]).
  unfold tick. destruct (tick_read_recorded _ now2 e1 _ _ _ Hk Hr) as (ent2 & Hv & Hr2).
  unfold blocks in Hr2. rewrite Hu, (proj2 (Z.leb_gt _ _)), andb_false_r in Hr2 by lia.
  destruct (claim_won n now2 t2 e1 (Some ent2) k Hk) as (e2 & k2 & Hc & Hk2 & Hw).
  { destruct Hr as (v & Hv' & _). rewrite Hv. eauto. }
  exists e2, k2. rewrite Hr2. split_and!; [done|done|exact Hc|apply Hw|apply Z.ltb_lt; lia|].
  eapply recorded_GetLeader; [done|]. eapply written_recorded; [|done].
  pose proof (won_record _ _ _ _ _ Hw) as Hrec. rewrite (won_term _ _ _ _ _ Hw), Hu in Hrec. exact Hrec.
Qed.

(** Two candidates that both find the key missing both become leader. *)
Lemma initial_claim_race n now1 t1 now2 t2 e1 e2 (k : K) :
  kv_ok (S (S n)) k → unclaimed k (cfgGroup (cfg e1)) → cfgGroup (cfg e1) = cfgGroup (cfg e2) →
  ∃ c1 c2 e1' e2' k' k'',
    tick_read now1 e1 k = TickClaim c1 None ∧ tick_read now2 e2 k = TickClaim c2 None ∧
    tick_claim now1 t1 c1 None k = Ret (e1', k') ∧ tick_claim now2 t2 c2 None k' = Ret (e2', k'') ∧
    state e1' = Leader ∧ state e2' = Leader.
Proof.
  intros Hk Hu Hg. pose proof (tick_read_unclaimed _ now1 _ _ Hk Hu) as Hr1.
  rewrite Hg in Hu. pose proof (tick_read_unclaimed _ now2 _ _ Hk Hu) as Hr2.
  destruct (claim_won (S n) now1 t1 e1 None k Hk I) as (e1' & k' & Hc1 & Hk' & Hw1).
  destruct (claim_won n now2 t2 e2 None k' Hk' I) as (e2' & k'' & Hc2 & _ & Hw2).
  eexists _, _, e1', e2', k', k''. split_and!; [done..|apply Hw1|apply Hw2].
Qed.

End Properties.

(** ** Examples on the store of package db *)

#[local] Instance ex_codec : Codec LeaderRecord := countable_codec (mk_LeaderRecord "" 0 0).
#[local] Instance ex_codec_laws : CodecLaws LeaderRecord := countable_codec_laws _.

Definition ex_kv_cfg : Raft.Config := Raft.Build_Config "n" "dir" "a" true [].
Definition ex_raft : raft :=
  match openRaft 0 ex_kv_cfg empty_disk with Ok r => r | Err _ => new_raft ex_kv_cfg empty_disk end.

Lemma ex_raft_ok : kv_ok 8 ex_raft.
Proof.
  assert (single_cfg ex_kv_cfg) as Hc by by split_and!.
  destruct (open_empty 0 ex_kv_cfg Hc) as (r & Ho & Hr & _ & _ & Hl).
  unfold ex_raft. rewrite Ho. split; [done|]. by rewrite Hl.
Qed.

Definition ex_cand (id : string) : Election := NewElection (mk_Config id "g" 100 10).

(** n1 has ticked at time 1 and leads term 1 until time 101. *)
Definition ex_n1 : go (Election * raft) := tick 1 1 (ex_cand "n1") ex_raft.

Lemma ex_n1_ok : ∃ e k, ex_n1 = Ret (e, k) ∧ state e = Leader ∧ term e = 1%Z ∧ kv_ok 7 k ∧
  recorded k "g" (mk_LeaderRecord "n1" 1 101) 1.
Proof.
  destruct (claim_won 7 1 1 (ex_cand "n1") None ex_raft ex_raft_ok I) as (e & k & Hc & Hk & Hw).
  exists e, k. split; [|split; [apply Hw|split; [apply Hw|split; [done|]]]].
  - unfold ex_n1, tick. rewrite (tick_read_unclaimed 8); [done|exact ex_raft_ok|]. by vm_compute.
  - pose proof (won_record _ _ _ _ _ Hw) as Hr. rewrite (won_term _ _ _ _ _ Hw) in Hr.
    by apply written_recorded in Hr.
Qed.

Lemma tick_outcome_witness : ∃ e' k',
  tick 1 1 (ex_cand "n1") ex_raft = Ret (e', k') ∧ state e' = Leader ∧
  GetLeader k' "g" = Ok (mk_LeaderRecord "n1" (term e') 101).
Proof.
  destruct (tick_outcome 7 1 1 (ex_cand "n1") ex_raft ex_raft_ok) as [_ Hclaim].
  destruct Hclaim as (e' & k' & Ht & _ & Hw & Hg); [left; by vm_compute|].
  exists e', k'. split; [exact Ht|]. split; [apply Hw|exact (Hg I)].
Defined.

Lemma claim_exclusive_witness : ∃ e k c1 ent1 c2 ent2 e1' k' k'',
  ex_n1 = Ret (e, k) ∧
  tick_read 200 (ex_cand "n2") k = TickClaim c1 ent1 ∧
  tick_read 201 (ex_cand "n3") k = TickClaim c2 ent2 ∧
  tick_claim 200 200 c1 ent1 k = Ret (e1', k') ∧ state e1' = Leader ∧
  tick_claim 201 201 c2 ent2 k' = Ret (c2, k'') ∧ state c2 = Candidate.
Proof.
  destruct ex_n1_ok as (e & k & He & _ & _ & Hk & Hr).
  destruct (claim_exclusive 6 200 200 201 201 (ex_cand "n2") (ex_cand "n3") k _ _ Hk eq_refl Hr)
    as (c1 & ent1 & c2 & ent2 & e1' & k' & H1 & H2 & H3 & Hw & k'' & H4 & _ & H5);
    [reflexivity..|].
  exists e, k, c1, ent1, c2, ent2, e1', k', k''. split_and!; try done. apply Hw.
Defined.

Lemma lease_stolen_witness : ∃ e k e1 e2 k2,
  ex_n1 = Ret (e, k) ∧ state e = Leader ∧
  tick 10 10 (ex_cand "n2") k = Ret (e1, k) ∧ state e1 = Follower ∧
  tick 20 20 e1 k = Ret (e2, k2) ∧ state e2 = Leader.
Proof.
  destruct ex_n1_ok as (e & k & He & Hl & _ & Hk & Hr).
  destruct (lease_stolen 6 10 10 20 20 (ex_cand "n2") k _ _ Hk Hr)
    as (e1 & e2 & k2 & H1 & H2 & H3 & H4 & _ & _); cbn; [lia|reflexivity + (vm_compute; discriminate)|lia|exact I|].
  exists e, k, e1, e2, k2. by split_and!.
Defined.
