(* ===== verification/Controller.v ===== *)
(** * Package controller: reconciliation of workloads

    Models internal/controller/controller.go over the scheduler and the store.
    The notifier is the interface of the source: a parameter with its own state
    [N], absent ([None]) when the field is nil. *)

From S2P Require Import Prelude State Scheduler Leader.

(** ** The Notifier interface *)

Class Notifier (N : Type) := {
  ApplyWorkload : N → Workload → Placement → N * option error;
  DeleteWorkload : N → Workload → Placement → N * option error;
}.

Definition ErrWorkload : error := "controller: workload not found".

Section Controller.
Context {S N : Type} `{NodeStore S, PlacementStore S, WorkloadStore S, ProjectStore S, Notifier N}.

(** The collaborators that change: the store, and the notifier if there is one. *)
Record world := mk_world { w_store : S; w_notifier : option N }.

(** The placements [reconcileWorkload] builds from a plan. *)
Definition placement_of (w : Workload) (p : SPlacement) : Placement :=
  mk_Placement
    (mk_Base (wlID w +:+ "-" +:+ spNodeID p) (wlProjectID w) (wlName w +:+ "-" +:+ spNodeID p))
    (wlID w) (spNodeID p) (spReplicaIdx p) "Pending".

(** The notification loop: the number of successful calls. *)
Fixpoint notify (n : option N) (w : Workload) (ps : list Placement) (ready : Z) : option N * Z :=
  match ps with
  | [] => (n, ready)
  | p :: ps =>
      match n with
      | None => notify None w ps ready
      | Some n =>
          let '(n, err) := ApplyWorkload n w p in
          notify (Some n) w ps (match err with None => i64 (ready + 1) | Some _ => ready end)
      end
  end.

Definition unavailable (w : Workload) (msg : string) : Workload :=
  set_wlStatus (mk_WorkloadStatus false msg (wsReadyReplicas (wlStatus w))
                  (wsDesiredReplicas (wlStatus w))) w.

Definition with_ready (w : Workload) (ready : Z) : Workload :=
  set_wlStatus (mk_WorkloadStatus (wlReplicas w <=? i32 ready)%Z (wsMessage (wlStatus w))
                  (i32 ready) (wlReplicas w)) w.

Definition reconcileWorkload (x : world) (w : Workload) : go (world * option error) :=
  go_bind (Plan (w_store x) w) (λ d,
    match d with
    | Err e => Ret (x, Some e)
    | Ok d =>
        if negb (bool_decide (dUnscheduled d = "")) && bool_decide (length (dPlacements d) = 0) then
          Ret (mk_world (UpdateWorkload (w_store x) (unavailable w (dUnscheduled d))).1 (w_notifier x),
               None)
        else
          let placements := placement_of w <$> dPlacements d in
          match SetPlacements (w_store x) (wlID w) placements with
          | (s, Some e) => Ret (mk_world s (w_notifier x), Some e)
          | (s, None) =>
              let '(n, ready) := notify (w_notifier x) w placements 0 in
              let '(s, e) := UpdateWorkload s (with_ready w ready) in
              Ret (mk_world s n, e)
          end
    end).

(** The inner loop of [reconcileAll]: an error on one workload is skipped. *)
Fixpoint reconcile_each (x : world) (ws : list Workload) : go world :=
  match ws with
  | [] => Ret x
  | w :: ws => go_bind (reconcileWorkload x w) (λ '(x, _), reconcile_each x ws)
  end.

Fixpoint reconcile_projects (x : world) (ps : list Project) : go world :=
  match ps with
  | [] => Ret x
  | p :: ps =>
      match ListWorkloads (w_store x) (pjID p) with
      | Err _ => reconcile_projects x ps
      | Ok ws => go_bind (reconcile_each x ws) (λ x, reconcile_projects x ps)
      end
  end.

Definition reconcileAll (x : world) : go (world * option error) :=
  match ListProjects (w_store x) with
  | Err e => Ret (x, Some e)
  | Ok ps => go_bind (reconcile_projects x ps) (λ x, Ret (x, None))
  end.

Definition ReconcileAll (x : world) : go (world * option error) := reconcileAll x.

Fixpoint find_workload (s : S) (ps : list Project) (id : string) : option Workload :=
  match ps with
  | [] => None
  | p :: ps => match GetWorkload s (pjID p) id with
               | Ok w => Some w
               | Err _ => find_workload s ps id
               end
  end.

Definition ReconcileOne (x : world) (workloadID : string) : go (world * option error) :=
  match ListProjects (w_store x) with
  | Err e => Ret (x, Some e)
  | Ok ps =>
      match find_workload (w_store x) ps workloadID with
      | Some w => reconcileWorkload x w
      | None => Ret (x, Some ErrWorkload)
      end
  end.

(** One ticker event of [Run]: reconcile unless another instance leads. *)
Definition run_tick (e : option Election) (x : world) : go world :=
  if match e with None => true | Some e => IsLeader e end
  then go_bind (reconcileAll x) (λ '(x, _), Ret x)
  else Ret x.

(** ** Lemmas *)

Lemma notify_none w ps r : notify None w ps r = (None, r).
Proof. induction ps; done. Qed.

(** A notifier that accepts every placement counts them all. *)
Lemma notify_all (n : N) w ps r :
  (∀ n p, (ApplyWorkload n w p).2 = None) →
  (0 ≤ r)%Z → (r + Z.of_nat (length ps) < 2 ^ 63)%Z →
  (notify (Some n) w ps r).2 = (r + Z.of_nat (length ps))%Z.
Proof.
  intros Hok. revert n r. induction ps as [|p ps IH]; intros n r Hr Hlt; cbn in *; [lia|].
  specialize (Hok n p). destruct (ApplyWorkload n w p) as [n' e]. cbn in Hok. subst e.
  rewrite i64_id by (unfold in_i64; lia). rewrite IH; lia.
Qed.

Lemma notify_range (n : option N) w ps r :
  (0 ≤ r)%Z → (r + Z.of_nat (length ps) < 2 ^ 63)%Z →
  (r ≤ (notify n w ps r).2 ≤ r + Z.of_nat (length ps))%Z.
Proof.
  revert n r. induction ps as [|p ps IH]; intros n r Hr Hlt; cbn in *; [lia|].
  destruct n as [n|]; [|rewrite notify_none; cbn; lia].
  destruct (ApplyWorkload n w p) as [n' e]. destruct e.
  - specialize (IH (Some n') r). lia.
  - specialize (IH (Some n') (i64 (r + 1))). rewrite i64_id in * by (unfold in_i64; lia). lia.
Qed.

End Controller.
Arguments world : clear implicits.

(** ** Properties *)

Section Properties.
Context {S N : Type} `{NodeStore S, PlacementLaws S, WorkloadLaws S, !FrameLaws S, Notifier N}.

Lemma Plan_length (s : S) w d :
  Plan s w = Ret (Ok d) → dPlacements d ≠ [] →
  (Z.of_nat (length (dPlacements d)) ≤ wlReplicas w)%Z ∧
  (Z.of_nat (length (dPlacements d)) = wlReplicas w → dUnscheduled d = "").
Proof.
  intros (nodes & _ & HP)%Plan_inv Hne.
  destruct (plan_nodes_cases _ _ _ HP) as [[_ ->]|(Hr & _ & [_ _ Hdone])]; [done|].
  destruct Hdone as [[-> Hl]|(-> & Hl & _)]; split; intros; try done; lia.
Qed.

(** C16: A reconcile that succeeds on a plan with placements leaves the store
    with exactly those placements and a status that is true to them: the
    desired count is the spec's, the ready count never exceeds the placements,
    and the workload is reported available exactly when it has reached the
    desired count, which for a positive count means every replica was placed. *)
Theorem reconcileWorkload_status (x x' : world S N) (w : Workload) (d : Decision) :
  Plan (w_store x) w = Ret (Ok d) → dPlacements d ≠ [] → in_i32 (wlReplicas w) →
  reconcileWorkload x w = Ret (x', None) →
  GetPlacements (w_store x') (wlID w) = Ok (placement_of w <$> dPlacements d) ∧
  ∃ w', GetWorkload (w_store x') (wlProjectID w) (wlID w) = Ok w' ∧
    wsDesiredReplicas (wlStatus w') = wlReplicas w ∧
    (0 ≤ wsReadyReplicas (wlStatus w') ≤ Z.of_nat (length (dPlacements d)))%Z ∧
    (wsAvailable (wlStatus w') = true ↔ wsReadyReplicas (wlStatus w') = wlReplicas w) ∧
    (wsAvailable (wlStatus w') = true → dUnscheduled d = "") ∧
    ((∃ n, w_notifier x = Some n) → (∀ n p, (ApplyWorkload n w p).2 = None) →
     dUnscheduled d = "" → Z.of_nat (length (dPlacements d)) = wlReplicas w →
     wsAvailable (wlStatus w') = true).
Proof.
  intros HP Hne Hr. destruct (Plan_length _ _ _ HP Hne) as [Hle Hfull]. unfold in_i32 in Hr.
  unfold reconcileWorkload. rewrite HP. cbn [go_bind].
  rewrite (bool_decide_false (length (dPlacements d) = 0)) by (by intros ?%nil_length_inv).
  rewrite andb_false_r.
  destruct (SetPlacements _ _ _) as [s1 [e|]] eqn:Hset; [done|].
  pose proof (notify_range (w_notifier x) w (placement_of w <$> dPlacements d) 0) as Hn.
  rewrite length_fmap in Hn.
  destruct (notify _ _ _ _) as [n ready] eqn:Hnot. cbn [snd] in Hn.
  destruct (UpdateWorkload s1 (with_ready w ready)) as [s2 e] eqn:Hupd.
  intros [= <- ->]. cbn [w_store].
  assert (i32 ready = ready) as Hi by (apply i32_id; unfold in_i32; lia). split.
  - rewrite (update_workload_frame _ _ _ _ _ Hupd). by eapply set_get_placements.
  - exists (with_ready w ready). split; [exact (update_get_workload _ _ _ Hupd)|].
    cbn. rewrite Hi, Z.leb_le. split_and!; [done|lia|lia|lia| |].
    + intros. apply Hfull. lia.
    + intros [n0 Hn0] Hok _ Hlen. rewrite Hn0 in Hnot.
      pose proof (notify_all n0 w (placement_of w <$> dPlacements d) 0 Hok) as Ha.
      rewrite Hnot, length_fmap in Ha. cbn in Ha. lia.
Qed.

(** When no node fits any more, the status says so but the placements stored
    earlier stay. *)
Lemma reconcileWorkload_unschedulable (x : world S N) (w : Workload) (d : Decision) :
  Plan (w_store x) w = Ret (Ok d) → dUnscheduled d ≠ "" → dPlacements d = [] →
  ∃ x', reconcileWorkload x w = Ret (x', None) ∧
    (∀ id, GetPlacements (w_store x') id = GetPlacements (w_store x) id) ∧ w_notifier x' = w_notifier x.
Proof.
  intros HP Hu Hd. unfold reconcileWorkload. rewrite HP. cbn [go_bind].
  rewrite Hd, bool_decide_false, bool_decide_true by done. cbn.
  destruct (UpdateWorkload _ _) as [s e] eqn:Hupd. eexists. split; [done|]. split; [|done].
  intros id. cbn. by rewrite (update_workload_frame _ _ _ _ _ Hupd).
Qed.

End Properties.

(** A notifier that records what it is asked to apply, for examples. *)
#[export] Instance list_notifier : Notifier (list Placement) := {|
  ApplyWorkload n _ p := (n ++ [p], None);
  DeleteWorkload n _ p := (n, None);
|}.

Definition ex_world : world mem (list Placement) := mk_world (ex_store [ex_node "n1" 1000 10]) (Some []).

Lemma reconcileWorkload_status_witness : ∃ x' w',
  reconcileWorkload ex_world (ex_workload "w" 2 300 5 []) = Ret (x', None) ∧
  GetWorkload (w_store x') "proj" "w" = Ok w' ∧ wsAvailable (wlStatus w') = true.
Proof.
  assert (∃ x', reconcileWorkload ex_world (ex_workload "w" 2 300 5 []) = Ret (x', None)) as [x' HR]
    by (eexists; vm_compute; reflexivity).
  assert (∃ d, Plan (w_store ex_world) (ex_workload "w" 2 300 5 []) = Ret (Ok d) ∧ dUnscheduled d = "" ∧
    length (dPlacements d) = 2) as (d & HP & Hd & Hl)
    by (eexists; split; [vm_compute; reflexivity|split; reflexivity]).
  destruct (reconcileWorkload_status ex_world x' (ex_workload "w" 2 300 5 []) d HP)
    as [_ (w' & Hw & _ & _ & _ & _ & Hav)]; [|unfold in_i32; cbn; lia|exact HR|].
  { intros E. rewrite E in Hl. discriminate Hl. }
  exists x', w'. split; [exact HR|]. split; [exact Hw|]. apply Hav; [by eexists|done|done|]. by rewrite Hl.
Defined.

(** Two replicas on the same node get the same placement ID. *)
Lemma placement_ids_collide : ∃ d,
  Plan (w_store ex_world) (ex_workload "w" 2 300 5 []) = Ret (Ok d) ∧
  plID <$> (placement_of (ex_workload "w" 2 300 5 []) <$> dPlacements d) = ["w-n1"; "w-n1"].
Proof. eexists. split; vm_compute; reflexivity. Qed.
