(* ===== verification/Runtime.v ===== *)
(** * Packages runtime and fake: the container runtime

    Models internal/primitives/runtime/runtime.go (the data and the part of the
    interface its clients use) and internal/primitives/runtime/fake/fake.go, the
    in-memory implementation.  A container lives in a heap of the fake, because
    the goroutines [Start] launches keep a pointer to it after [Remove]; the
    goroutines are explicit and run one step at a time. *)

From S2P Require Import Prelude.

(** ** Data (runtime.go) *)

Inductive Status := StatusCreating | StatusRunning | StatusExited | StatusFailed | StatusUnknown.
#[export] Instance Status_eq_dec : EqDecision Status.
Proof. solve_decision. Defined.

Record Mount := mk_Mount { mtHostPath : string; mtMountPath : string; mtReadOnly : bool }.
Record Port := mk_Port { ptContainerPort : Z; ptHostPort : Z; ptProtocol : string }.

Record Spec := mk_Spec {
  spID : string; spName : string; spImage : string; spCommand : list string; spArgs : list string;
  spEnv : list string; spWorkingDir : string; spLabels : gmap string string;
  spCPUQuota : Z; spMemory : Z; spMounts : list Mount; spPorts : list Port; spNetwork : string;
}.

Record Container := mk_Container {
  ctID : string; ctName : string; ctStatus : Status; ctImage : string;
  ctCreated : Time; ctStarted : Time; ctExited : Time; ctExit : Z; ctPID : Z;
}.

Record Stats := mk_Stats { stCPUUsageMilli : Z; stMemUsageBytes : Z; stNetBytes : Z }.

Definition ErrNotFound : error := "runtime: container not found".
Definition ErrRunning : error := "runtime: container still running".

(** The methods of [Runtime] the node agent calls.  [rt_Exec] returns the bytes
    it wrote to stdout. *)
Class Runtime (R : Type) := {
  rt_List : R → bool → list Container * option error;
  rt_Get : R → string → res Container;
  rt_Remove : R → string → bool → R * option error;
  rt_Exec : R → string → list string → R * res string;
  rt_Logs : R → string → res string;
}.

(** What the agent relies on: the set of container IDs, listed in full and without
    an error (which the agent would ignore) by [List(ctx, true)], and shrunk by
    exactly the removed one. *)
Class RuntimeLaws (R : Type) `{Runtime R} := {
  rt_inv : R → Prop;
  rt_ids : R → gset string;
  rt_list_ok : ∀ r, rt_inv r → (rt_List r true).2 = None;
  rt_list_ids : ∀ r id, rt_inv r → id ∈ ctID <$> (rt_List r true).1 ↔ id ∈ rt_ids r;
  rt_remove_ids : ∀ r id, rt_inv r →
    rt_inv (rt_Remove r id true).1 ∧ rt_ids (rt_Remove r id true).1 = rt_ids r ∖ {[id]};
}.

(** ** The fake runtime (fake.go) *)

Record fakeContainer := mk_fakeContainer {
  cont : Container; stop_closed : bool; done_closed : bool;
}.

(** A goroutine of [Start], holding a pointer to the container. *)
Inductive goroutine :=
| GBegin (c : nat)                 (* about to close c.done *)
| GWait (c : nat)                  (* blocked on <-c.stop *)
| GTicker (id : string) (c : nat). (* the 200 ms resource ticker *)

Record Fake := mk_Fake {
  images : gset string;
  heap : list fakeContainer;
  conts : gmap string nat;
  logs : gmap string string;
  stats : gmap string Stats;
  gos : list goroutine;
}.

Definition New : Fake := mk_Fake ∅ [] ∅ ∅ ∅ [].

Definition with_cont (f : Container → Container) (c : fakeContainer) : fakeContainer :=
  mk_fakeContainer (f (cont c)) (stop_closed c) (done_closed c).

Definition Pull (f : Fake) (image : string) : Fake :=
  mk_Fake ({[image]} ∪ images f) (heap f) (conts f) (logs f) (stats f) (gos f).

Definition Create (now : Time) (f : Fake) (s : Spec) : Fake * Container :=
  let images := if bool_decide (spImage s ∈ images f) then images f else {[spImage s]} ∪ images f in
  let c := mk_Container (spID s) (spName s) StatusCreating (spImage s) now 0 0 0 0 in
  (mk_Fake images (heap f ++ [mk_fakeContainer c false false])
     (<[spID s := length (heap f)]> (conts f)) (<[spID s := ""]> (logs f))
     (<[spID s := mk_Stats 0 0 0]> (stats f)) (gos f), c).

Definition started (now : Time) (pid : Z) (c : Container) : Container :=
  mk_Container (ctID c) (ctName c) StatusRunning (ctImage c) (ctCreated c) now (ctExited c)
    (ctExit c) pid.

Definition Start (now : Time) (f : Fake) (id : string) : Fake * option error :=
  match conts f !! id with
  | None => (f, Some ErrNotFound)
  | Some a =>
      let pid := (Z.of_nat (size (conts f)) * 100 + 1)%Z in
      (mk_Fake (images f) (alter (with_cont (started now pid)) a (heap f)) (conts f) (logs f) (stats f)
         (gos f ++ [GBegin a; GTicker id a]), None)
  end.

Definition close_stop (c : fakeContainer) : fakeContainer :=
  mk_fakeContainer (cont c) true (done_closed c).

(** The select with a default makes closing an already closed stop channel a
    no-op. *)
Definition Stop (f : Fake) (id : string) : Fake * option error :=
  match conts f !! id with
  | None => (f, Some ErrNotFound)
  | Some a =>
      (mk_Fake (images f) (alter close_stop a (heap f)) (conts f) (logs f) (stats f) (gos f), None)
  end.

Definition status_at (f : Fake) (a : nat) : option Status := (λ c, ctStatus (cont c)) <$> heap f !! a.

Definition Remove (f : Fake) (id : string) (force : bool) : Fake * option error :=
  match conts f !! id with
  | None => (f, Some ErrNotFound)
  | Some a =>
      if bool_decide (status_at f a = Some StatusRunning) && negb force then (f, Some ErrRunning)
      else (mk_Fake (images f) (heap f) (delete id (conts f)) (delete id (logs f))
              (delete id (stats f)) (gos f), None)
  end.

(** The listed containers, in the map's iteration order. *)
Definition List (f : Fake) (all : bool) : list Container :=
  omap (λ ia, c ← heap f !! ia.2;
              if negb all && negb (bool_decide (ctStatus (cont c) = StatusRunning)) then None
              else Some (cont c)) (map_to_list (conts f)).

Definition Get (f : Fake) (id : string) : res Container :=
  match conts f !! id with
  | None => Err ErrNotFound
  | Some a => match heap f !! a with Some c => Ok (cont c) | None => Err ErrNotFound end
  end.

Definition Logs (f : Fake) (id : string) : res string :=
  match logs f !! id with None => Err ErrNotFound | Some b => Ok b end.

Fixpoint joinCmd_go (i : nat) (cmd : list string) (out : string) : string :=
  match cmd with
  | [] => out
  | s :: cmd =>
      let out := if bool_decide (0 < i) then out +:+ " " else out in
      joinCmd_go (S i) cmd (out +:+ s)
  end.
Definition joinCmd (cmd : list string) : string := joinCmd_go 0 cmd "".

Definition newline : string := String (ascii_of_nat 10) "".

Definition Exec (f : Fake) (id : string) (cmd : list string) : Fake * (Z * string * option error) :=
  match conts f !! id with
  | None => (f, (1%Z, "", Some ErrNotFound))
  | Some _ =>
      let line := "$ " +:+ joinCmd cmd +:+ newline in
      (mk_Fake (images f) (heap f) (conts f) (alter (λ b, b +:+ line) id (logs f)) (stats f) (gos f),
       (0%Z, line, None))
  end.

Definition Stats_ (f : Fake) (id : string) : res Stats :=
  match stats f !! id with None => Err ErrNotFound | Some s => Ok s end.

Definition AppendLog (f : Fake) (id line : string) : Fake :=
  let line := if bool_decide (line ≠ "") && negb (HasSuffix line newline)
              then line +:+ newline else line in
  mk_Fake (images f) (heap f) (conts f) (alter (λ b, b +:+ line) id (logs f)) (stats f) (gos f).

(** ** The goroutines *)

Definition exited (now : Time) (c : Container) : Container :=
  mk_Container (ctID c) (ctName c) StatusExited (ctImage c) (ctCreated c) (ctStarted c) now 0
    (ctPID c).

Definition set_gos (g : list goroutine) (f : Fake) : Fake :=
  mk_Fake (images f) (heap f) (conts f) (logs f) (stats f) g.

Definition stop_is_closed (f : Fake) (a : nat) : bool :=
  default false (stop_closed <$> heap f !! a).

Definition usage_tick (s : Stats) : Stats :=
  mk_Stats (i64 (stCPUUsageMilli s + 50)) (i64 (stMemUsageBytes s + 1024 * 1024)) (stNetBytes s).

(** One step of the goroutine [g], or [None] while it is blocked; it is replaced by what is left of it.
    [tick] says which case of the ticker's select fires when it may choose. *)
Definition go_step (now : Time) (tick : bool) (f : Fake) (g : goroutine) :
    option (go (Fake * option goroutine)) :=
  match g with
  | GBegin a =>
      c ← heap f !! a;
      if done_closed c then Some Panic
      else Some (Ret (mk_Fake (images f)
                        (<[a := mk_fakeContainer (cont c) (stop_closed c) true]> (heap f))
                        (conts f) (logs f) (stats f) (gos f), Some (GWait a)))
  | GWait a =>
      if stop_is_closed f a
      then Some (Ret (mk_Fake (images f) (alter (with_cont (exited now)) a (heap f)) (conts f) (logs f)
                        (stats f) (gos f), None))
      else None
  | GTicker id a =>
      if tick then
        let cur := default (mk_Stats 0 0 0) (stats f !! id) in
        Some (Ret (mk_Fake (images f) (heap f) (conts f) (logs f) (<[id := usage_tick cur]> (stats f))
                     (gos f), Some g))
      else if stop_is_closed f a then Some (Ret (f, None)) else None
  end.

(** Run the [i]-th goroutine for one step. *)
Definition run_go (now : Time) (tick : bool) (i : nat) (f : Fake) : option (go Fake) :=
  g ← gos f !! i;
  r ← go_step now tick f g;
  Some (go_bind r (λ '(f', g'),
    Ret (set_gos (match g' with
                  | Some g' => <[i := g']> (gos f)
                  | None => delete i (gos f)
                  end) f'))).

(** ** The invariant of the fake runtime *)

Record fake_wf (f : Fake) : Prop := {
  wf_conts : ∀ id a, conts f !! id = Some a → ∃ c, heap f !! a = Some c ∧ ctID (cont c) = id;
  wf_logs : dom (logs f) = dom (conts f);
  wf_stats : dom (conts f) ⊆ dom (stats f);
}.

(** Every call of the interface and every goroutine step. *)
Inductive fake_step : Fake → Fake → Prop :=
| step_pull f i : fake_step f (Pull f i)
| step_create now f s : fake_step f (Create now f s).1
| step_start now f id : fake_step f (Start now f id).1
| step_stop f id : fake_step f (Stop f id).1
| step_remove f id force : fake_step f (Remove f id force).1
| step_exec f id cmd : fake_step f (Exec f id cmd).1
| step_append f id line : fake_step f (AppendLog f id line)
| step_go now tick i f f' : run_go now tick i f = Some (Ret f') → fake_step f f'.

Definition same_id (g : fakeContainer → fakeContainer) : Prop :=
  ∀ c, ctID (cont (g c)) = ctID (cont c).

Lemma wf_alter f g a :
  fake_wf f → same_id g →
  ∀ id b, conts f !! id = Some b → ∃ c, alter g a (heap f) !! b = Some c ∧ ctID (cont c) = id.
Proof.
  intros Hwf Hg id b Hb. destruct (wf_conts _ Hwf _ _ Hb) as (c & Hc & Hid).
  destruct (decide (a = b)) as [->|Hne].
  - exists (g c). by rewrite list_lookup_alter_eq, Hc, Hg.
  - exists c. by rewrite list_lookup_alter_ne.
Qed.

Lemma wf_heap f g a gs :
  fake_wf f → same_id g →
  fake_wf (mk_Fake (images f) (alter g a (heap f)) (conts f) (logs f) (stats f) gs).
Proof. intros Hwf Hg. split; [exact (wf_alter f g a Hwf Hg)|exact (wf_logs _ Hwf)|exact (wf_stats _ Hwf)]. Qed.

Lemma wf_create now f s : fake_wf f → fake_wf (Create now f s).1.
Proof.
  intros [Hc Hl Hs]. split; cbn.
  - intros id a. rewrite lookup_insert. case_decide as E.
    + intros [= <-]. eexists. rewrite lookup_app_r, Nat.sub_diag by lia. cbn. split; [done|]. done.
    + intros Ha. destruct (Hc _ _ Ha) as (c & Hc' & Hid). exists c. split; [|done].
      by apply lookup_app_l_Some.
  - by rewrite !dom_insert_L, Hl.
  - rewrite !dom_insert_L. set_solver.
Qed.

Lemma wf_remove f id force : fake_wf f → fake_wf (Remove f id force).1.
Proof.
  intros Hwf. unfold Remove. destruct (conts f !! id) as [a|]; [|done].
  destruct (_ && _); [done|]. destruct Hwf as [Hc Hl Hs]. split; cbn.
  - intros id' a' [_ Ha]%lookup_delete_Some. eauto.
  - by rewrite !dom_delete_L, Hl.
  - rewrite !dom_delete_L. set_solver.
Qed.

Lemma wf_go now tick i f f' : fake_wf f → run_go now tick i f = Some (Ret f') → fake_wf f'.
Proof.
  intros Hwf. unfold run_go. destruct (gos f !! i) as [g|]; [|done]. cbn.
  destruct (go_step now tick f g) as [[[f1 g1]|]|] eqn:E; [|done..]. intros [= <-].
  assert (fake_wf f1) as [Hc Hl Hs]; [|by split].
  destruct g as [a|a|id a]; cbn in E.
  - destruct (heap f !! a) as [c|] eqn:Ea; [|done]. cbn in E.
    destruct (done_closed c); [done|]. injection E as <- _.
    destruct Hwf as [Hc Hl Hs]. split; [|done..]. cbn. intros id b Hb.
    destruct (Hc _ _ Hb) as (c' & Hc' & Hid). destruct (decide (a = b)) as [->|Hne].
    + eexists. rewrite list_lookup_insert_eq by (by eapply lookup_lt_Some). split; [done|].
      cbn. by simplify_eq.
    + exists c'. by rewrite list_lookup_insert_ne.
  - destruct (stop_is_closed f a); [|done]. injection E as <- _. by apply wf_heap.
  - destruct tick.
    + injection E as <- _. destruct Hwf as [Hc Hl Hs]. split; [done..|]. cbn.
      rewrite dom_insert_L. set_solver.
    + destruct (stop_is_closed f a); [|done]. by injection E as <- _.
Qed.

Lemma wf_step f f' : fake_step f f' → fake_wf f → fake_wf f'.
Proof.
  intros Hs Hwf. destruct Hs as [f i|now f s|now f id|f id|f id force|f id cmd|f id line|now tick i f f' E].
  - destruct Hwf. by split.
  - by apply wf_create.
  - unfold Start. destruct (conts f !! id); [|done]. by apply wf_heap.
  - unfold Stop. destruct (conts f !! id); [|done]. by apply wf_heap.
  - by apply wf_remove.
  - unfold Exec. destruct (conts f !! id); [|done]. destruct Hwf as [Hc Hl Hs]. split; [done| |done].
    cbn. by rewrite dom_alter_L.
  - destruct Hwf as [Hc Hl Hs]. split; [done| |done]. cbn. by rewrite dom_alter_L.
  - by eapply wf_go.
Qed.

Lemma wf_reachable f f' : rtc fake_step f f' → fake_wf f → fake_wf f'.
Proof. induction 1; eauto using wf_step. Qed.

Lemma wf_New : fake_wf New.
Proof. by split. Qed.

Lemma List_ids f id : fake_wf f → id ∈ ctID <$> List f true ↔ id ∈ dom (conts f).
Proof.
  intros Hwf. rewrite elem_of_dom, list_elem_of_fmap. unfold List. split.
  - intros (c & -> & ([id' a] & Hin & Hc)%list_elem_of_omap). apply elem_of_map_to_list in Hin.
    destruct (wf_conts _ Hwf _ _ Hin) as (c' & Hc' & Hid). cbn in Hc. rewrite Hc' in Hc. cbn in Hc.
    injection Hc as <-. rewrite Hid. eauto.
  - intros [a Ha]. destruct (wf_conts _ Hwf _ _ Ha) as (c & Hc & Hid).
    exists (cont c). split; [done|]. apply list_elem_of_omap. exists (id, a).
    rewrite elem_of_map_to_list. cbn. by rewrite Hc.
Qed.

#[export] Instance fake_Runtime : Runtime Fake := {|
  rt_List f all := (List f all, None);
  rt_Get := Get;
  rt_Remove := Remove;
  rt_Exec f id cmd := let '(f, (_, out, e)) := Exec f id cmd in
                      (f, match e with None => Ok out | Some e => Err e end);
  rt_Logs := Logs;
|}.

Lemma Remove_force f id :
  conts (Remove f id true).1 = delete id (conts f).
Proof.
  unfold Remove. destruct (conts f !! id) as [a|] eqn:E.
  - by rewrite andb_false_r.
  - cbn. by rewrite delete_id.
Qed.

#[export] Program Instance fake_RuntimeLaws : RuntimeLaws Fake := {|
  rt_inv := fake_wf; rt_ids f := dom (conts f);
|}.
Next Obligation. done. Qed.
Next Obligation. intros f id Hwf. by apply List_ids. Qed.
Next Obligation.
  intros f id Hwf. split; [by apply wf_remove|]. cbn. by rewrite Remove_force, dom_delete_L.
Qed.

(** ** Properties *)

Lemma Get_ok f id : fake_wf f → is_ok (Get f id) = true ↔ id ∈ dom (conts f).
Proof.
  intros Hwf. unfold Get. rewrite elem_of_dom. destruct (conts f !! id) as [a|] eqn:E.
  - destruct (wf_conts _ Hwf _ _ E) as (c & -> & _). split; [by eexists|done].
  - split; [done|]. by intros [].
Qed.

(** C24: In every state the fake runtime can reach, by calls of its interface
    and steps of the goroutines [Start] leaves behind, the views of the
    interface agree: the containers listed are those [Get] finds, under their
    own ID, each with its log and its statistics; and a forced removal succeeds
    on each of them, whatever its status, and leaves it unknown to [Get], [Logs]
    and [List]. *)
Theorem fake_views_agree (f : Fake) (id : string) :
  rtc fake_step New f →
  (id ∈ ctID <$> List f true ↔ is_ok (Get f id) = true) ∧
  (is_ok (Get f id) = is_ok (Logs f id)) ∧
  (is_ok (Get f id) = true → is_ok (Stats_ f id) = true ∧ (Remove f id true).2 = None) ∧
  let f' := (Remove f id true).1 in
  Get f' id = Err ErrNotFound ∧ Logs f' id = Err ErrNotFound ∧ id ∉ ctID <$> List f' true.
Proof.
  intros Hr. assert (fake_wf f) as Hwf by (eapply wf_reachable, wf_New; done).
  assert (fake_wf (Remove f id true).1) as Hwf' by by apply wf_remove.
  assert (id ∉ dom (conts (Remove f id true).1)) as Hno by (rewrite Remove_force; set_solver).
  cbv zeta. split_and!.
  - by rewrite List_ids, Get_ok.
  - apply eq_true_iff_eq. rewrite Get_ok, <- wf_logs by done. unfold Logs. rewrite elem_of_dom.
    destruct (logs f !! id); cbn; split; try done; by intros [].
  - intros Hd. apply Get_ok in Hd; [|done]. split.
    + apply (wf_stats _ Hwf), elem_of_dom in Hd as [s Hs]. unfold Stats_. by rewrite Hs.
    + apply elem_of_dom in Hd as [a Ha]. unfold Remove. by rewrite Ha, andb_false_r.
  - apply not_elem_of_dom in Hno. unfold Get. by rewrite Hno.
  - rewrite <- wf_logs in Hno by done. apply not_elem_of_dom in Hno. unfold Logs. by rewrite Hno.
  - by rewrite List_ids.
Qed.

Definition ex_spec (id : string) : Spec :=
  mk_Spec id "c" "img" [] [] [] "" ∅ 100 1000 [] [] "".
Definition ex_started : Fake := (Start 2 (Create 1 New (ex_spec "a")).1 "a").1.

Lemma ex_started_reachable : rtc fake_step New ex_started.
Proof. eapply rtc_l; [apply (step_create 1)|]. apply rtc_once, step_start. Qed.

Lemma fake_views_agree_witness :
  (Remove ex_started "a" true).2 = None ∧
  Get (Remove ex_started "a" true).1 "a" = Err ErrNotFound ∧
  (Remove ex_started "a" false).2 = Some ErrRunning.
Proof.
  destruct (fake_views_agree ex_started "a" ex_started_reachable) as (_ & _ & Hok & Hget & _).
  split; [apply Hok; reflexivity|]. split; [exact Hget|reflexivity].
Defined.

(** Starting a container twice panics: the goroutine of the second start closes
    a closed channel. *)
Lemma start_twice_panics : ∃ f,
  run_go 3 false 0 (Start 2 ex_started "a").1 = Some (Ret f) ∧ run_go 4 false 2 f = Some Panic.
Proof. eexists. split; vm_compute; reflexivity. Qed.

(** The ticker of a removed container brings its statistics back. *)
Lemma stats_return_after_remove :
  Stats_ (Remove ex_started "a" true).1 "a" = Err ErrNotFound ∧
  ∃ f, run_go 5 true 1 (Remove ex_started "a" true).1 = Some (Ret f) ∧
       Stats_ f "a" = Ok (mk_Stats 50 (1024 * 1024) 0).
Proof. split; [reflexivity|]. eexists. split; vm_compute; reflexivity. Qed.
