(* ===== verification/NodeAgent.v ===== *)
(** * Package nodeagent: the agent of one node

    Models internal/nodeagent/agent.go over the store and the runtime
    interface.  [Apply] is the field of the same name: a function on the
    runtime's state, or [None] when it is nil. *)

From S2P Require Import Prelude State Runtime Scheduler.

Record Heartbeat := mk_Heartbeat {
  hbNodeID : string; hbAddress : string; hbCPUUsage : Z; hbMemUsage : Z; hbDiskUsage : Z;
  hbGPUCount : Z; hbContainers : Z; hbTimestamp : Time;
}.

Record StaticCollector := mk_StaticCollector {
  scNodeID : string; scAddress : string; scCPU : Z; scMem : Z; scDisk : Z; scGPU : Z;
}.

Definition Collect (now : Time) (c : StaticCollector) : res Heartbeat :=
  Ok (mk_Heartbeat (scNodeID c) (scAddress c) (scCPU c) (scMem c) (scDisk c) (scGPU c) 0 now).

Record Agent := mk_Agent { agNodeID : string; agAddress : string; agDraining : bool }.

Definition HeartbeatInterval : Duration := (5 * second)%Z.

Definition SetDrain (a : Agent) (drain : bool) : Agent := mk_Agent (agNodeID a) (agAddress a) drain.
Definition IsDraining (a : Agent) : bool := agDraining a.

(** ** Heartbeat *)

(** The node registered the first time the store does not know it. *)
Definition fresh_node (a : Agent) : Node :=
  mk_Node (mk_Base (agNodeID a) "" (agNodeID a)) (agAddress a) "Ready" 8000 0 (16 * 2 ^ 30) 0 0 ∅ []
    false false false 0.

Definition refreshed_node (a : Agent) (hb : Heartbeat) (n : Node) : Node :=
  mk_Node (nBase n) (agAddress a) "Ready" (nCPUAllocatable n) (nCPUAllocated n) (nMemAllocatable n)
    (nMemAllocated n) (nGPUs n) (nLabels n) (nTaints n) (nUnschedulable n) (nDrain n) (nCordoned n)
    (hbTimestamp hb).

(** The fields set on either path. *)
Definition report_usage (hb : Heartbeat) (draining : bool) (n : Node) : Node :=
  mk_Node (nBase n) (nAddress n) (nStatus n) (nCPUAllocatable n) (hbCPUUsage hb) (nMemAllocatable n)
    (hbMemUsage hb) (nGPUs n) (nLabels n) (nTaints n)
    (if draining then true else nUnschedulable n) (if draining then true else nDrain n)
    (nCordoned n) (hbTimestamp hb).

Definition heartbeatOnce {S} `{NodeStore S} (a : Agent) (hb : res Heartbeat) (s : S) : S :=
  match hb with
  | Err _ => s
  | Ok hb =>
      let n := match GetNode s (agNodeID a) with
               | Err _ => fresh_node a
               | Ok n => refreshed_node a hb n
               end in
      (UpsertNode s (report_usage hb (agDraining a) n)).1
  end.

(** ** Reconcile *)

Section Reconcile.
Context {S R : Type} `{ProjectStore S, WorkloadStore S, PlacementStore S, Runtime R}.
Context (Apply : option (R → Workload → Placement → R * option error)).

Fixpoint take_placements (a : Agent) (w : Workload) (ps : list Placement)
    (want : gmap string Placement) (r : R) : gmap string Placement * R :=
  match ps with
  | [] => (want, r)
  | pl :: ps =>
      if bool_decide (plNodeID pl = agNodeID a)
      then take_placements a w ps (<[plID pl := pl]> want)
             (match Apply with Some f => (f r w pl).1 | None => r end)
      else take_placements a w ps want r
  end.

Fixpoint take_workloads (s : S) (a : Agent) (ws : list Workload)
    (want : gmap string Placement) (r : R) : gmap string Placement * R :=
  match ws with
  | [] => (want, r)
  | w :: ws =>
      match GetPlacements s (wlID w) with
      | Err _ => take_workloads s a ws want r
      | Ok ps => let '(want, r) := take_placements a w ps want r in take_workloads s a ws want r
      end
  end.

(** The error of [ListWorkloads] is dropped, and its slice is then nil. *)
Fixpoint take_projects (s : S) (a : Agent) (ps : list Project)
    (want : gmap string Placement) (r : R) : gmap string Placement * R :=
  match ps with
  | [] => (want, r)
  | p :: ps =>
      let ws := match ListWorkloads s (pjID p) with Ok ws => ws | Err _ => [] end in
      let '(want, r) := take_workloads s a ws want r in take_projects s a ps want r
  end.

Fixpoint sweep (want : gmap string Placement) (cs : list Container) (r : R) : R :=
  match cs with
  | [] => r
  | c :: cs =>
      match want !! ctID c with
      | Some _ => sweep want cs r
      | None => sweep want cs (rt_Remove r (ctID c) true).1
      end
  end.

Definition reconcileOnce (s : S) (a : Agent) (r : R) : R :=
  match ListProjects s with
  | Err _ => r
  | Ok ps =>
      let '(want, r) := take_projects s a ps ∅ r in
      let '(conts, _) := rt_List r true in
      sweep want conts r
  end.

(** One ticker event of [Run]. *)
Definition run_tick `{NodeStore S} (hb : res Heartbeat) (a : Agent) (s : S) (r : R) : S * R :=
  let s := heartbeatOnce a hb s in (s, reconcileOnce s a r).

End Reconcile.

(** ** Exec and Logs *)

Record bytesBuffer := mk_bytesBuffer { bb : string }.
Definition Write (b : bytesBuffer) (p : string) : bytesBuffer * Z :=
  (mk_bytesBuffer (bb b +:+ p), Z.of_nat (String.length p)).

Record bytesReader := mk_bytesReader { br_b : string; br_pos : nat }.
Definition bytesReaderFromBytes (b : string) : bytesReader := mk_bytesReader b 0.
(** [Read] into a slice of length [n]. *)
Definition Read (r : bytesReader) (n : nat) : bytesReader * res string :=
  if bool_decide (String.length (br_b r) ≤ br_pos r) then (r, Err "EOF")
  else
    let out := string_take n (string_drop (br_pos r) (br_b r)) in
    (mk_bytesReader (br_b r) (br_pos r + String.length out), Ok out).

Definition Exec {R} `{Runtime R} (r : R) (containerID : string) (cmd : list string) :
    R * res string :=
  match cmd with
  | [] => (r, Err "nodeagent: command required")
  | _ =>
      match rt_Get r containerID with
      | Err _ => (r, Err ("nodeagent: container " +:+ containerID +:+ " not found"))
      | Ok _ =>
          match rt_Exec r containerID cmd with
          | (r, Err e) => (r, Err e)
          | (r, Ok out) => (r, Ok (bb (Write (mk_bytesBuffer "") out).1))
          end
      end
  end.

Definition log_chunk : nat := 64 * 1024.
(** One [Read] into a 64 KiB buffer. *)
Definition Logs {R} `{Runtime R} (r : R) (containerID : string) (tail : Z) : res string :=
  match rt_Logs r containerID with
  | Err e => Err e
  | Ok b => Ok (string_take log_chunk b)
  end.

(** ** Lemmas *)

(** Successive reads of any positive sizes deliver the bytes in order. *)
Fixpoint read_all (fuel : nat) (r : bytesReader) (n : nat) : string :=
  match fuel with
  | O => ""
  | S fuel => match Read r n with
              | (_, Err _) => ""
              | (r, Ok out) => out +:+ read_all fuel r n
              end
  end.

Lemma read_all_rest fuel b pos n :
  0 < n → String.length b ≤ pos + fuel →
  read_all fuel (mk_bytesReader b pos) n = string_drop pos b.
Proof.
  intros Hn. revert pos. induction fuel as [|fuel IH]; intros pos Hf; cbn [read_all].
  { rewrite string_drop_all; [done|lia]. }
  unfold Read. cbn [br_b br_pos]. case_bool_decide as Hp.
  { by rewrite string_drop_all. }
  rewrite IH; rewrite string_take_length, string_length_drop; [|lia].
  rewrite <- (string_take_drop n (string_drop pos b)) at 2. f_equal.
  rewrite string_drop_drop. destruct (decide (n ≤ String.length b - pos)).
  - by rewrite Nat.min_l.
  - rewrite Nat.min_r by lia. rewrite !string_drop_all; [done|lia|lia].
Qed.

(** ** Convergence of reconcile *)

Section Convergence.
Context {S R : Type} `{ProjectStore S, WorkloadStore S, PlacementStore S, RuntimeLaws R}.

(** A placement of the store is meant for this node. *)
Definition wanted_in (s : S) (a : Agent) (ws : list Workload) (id : string) : Prop :=
  ∃ w ps pl, w ∈ ws ∧ GetPlacements s (wlID w) = Ok ps ∧ pl ∈ ps ∧
             plNodeID pl = agNodeID a ∧ plID pl = id.
Definition wanted (s : S) (a : Agent) (projects : list Project) (id : string) : Prop :=
  ∃ p ws, p ∈ projects ∧ ListWorkloads s (pjID p) = Ok ws ∧ wanted_in s a ws id.

(** [Apply] materialises the placement it is given and nothing else. *)
Definition apply_ok (Apply : option (R → Workload → Placement → R * option error)) : Prop :=
  match Apply with
  | None => True
  | Some f => ∀ r w p, rt_inv r → rt_inv (f r w p).1 ∧ rt_ids (f r w p).1 = {[plID p]} ∪ rt_ids r
  end.

Context (Apply : option (R → Workload → Placement → R * option error)).
Context (Hok : apply_ok Apply).

(** What collecting has achieved: the IDs collected are those of [Q], and the
    runtime gained exactly them, if [Apply] is there. *)
Record collected (Q : string → Prop) (want : gmap string Placement) (r : R)
    (want' : gmap string Placement) (r' : R) : Prop := {
  col_inv : rt_inv r';
  col_want : ∀ id, id ∈ dom want' ↔ id ∈ dom want ∨ Q id;
  col_ids : ∀ id, id ∈ rt_ids r' ↔ id ∈ rt_ids r ∨ (Apply ≠ None ∧ Q id);
}.

Lemma collected_nil want r : rt_inv r → collected (λ _, False) want r want r.
Proof. intros. split; [done|set_solver..]. Qed.

Lemma collected_trans Q1 Q2 w1 r1 w2 r2 w3 r3 :
  collected Q1 w1 r1 w2 r2 → collected Q2 w2 r2 w3 r3 →
  collected (λ id, Q1 id ∨ Q2 id) w1 r1 w3 r3.
Proof.
  intros [_ W1 I1] [Hi W2 I2]. split; [done| |]; intros id.
  - rewrite W2, W1. tauto.
  - rewrite I2, I1. tauto.
Qed.

Lemma collected_iff Q Q' w r w' r' :
  (∀ id, Q id ↔ Q' id) → collected Q w r w' r' → collected Q' w r w' r'.
Proof.
  intros HQ [Hi W I]. split; [done| |]; intros id; rewrite <- HQ; auto.
Qed.

Lemma take_placements_collected a w ps want r :
  rt_inv r →
  let '(want', r') := take_placements Apply a w ps want r in
  collected (λ id, ∃ pl, pl ∈ ps ∧ plNodeID pl = agNodeID a ∧ plID pl = id) want r want' r'.
Proof using Hok.
  revert want r. induction ps as [|pl ps IH]; intros want r Hr; cbn.
  { eapply collected_iff, (collected_nil _ _ Hr). set_solver. }
  case_bool_decide as Hn.
  - assert (collected (λ id, id = plID pl) want r (<[plID pl := pl]> want)
              (match Apply with Some f => (f r w pl).1 | None => r end)) as Hone.
    { destruct Apply as [f|] eqn:E.
      - destruct (Hok r w pl Hr) as [Hi Hd]. split; [done| |]; intros id.
        + rewrite dom_insert. set_solver.
        + rewrite Hd, E. set_solver.
      - split; [done| |]; intros id; [rewrite dom_insert|rewrite E]; set_solver. }
    pose proof (col_inv _ _ _ _ _ Hone) as Hi.
    specialize (IH (<[plID pl := pl]> want) _ Hi). destruct (take_placements _ _ _ _ _ _) as [want' r'].
    eapply collected_iff, (collected_trans _ _ _ _ _ _ _ _ Hone IH). set_solver.
  - specialize (IH want r Hr). destruct (take_placements _ _ _ _ _ _) as [want' r'].
    eapply collected_iff, IH. set_solver.
Qed.

Lemma wanted_in_cons s a w ws id :
  wanted_in s a (w :: ws) id ↔
  (∃ ps, GetPlacements s (wlID w) = Ok ps ∧ ∃ pl, pl ∈ ps ∧ plNodeID pl = agNodeID a ∧ plID pl = id) ∨
  wanted_in s a ws id.
Proof.
  split.
  - intros (w' & ps & pl & [->|Hin]%elem_of_cons & ? & ? & ? & ?).
    + left. exists ps. eauto 6.
    + right. exists w', ps, pl. done.
  - intros [(ps & ? & pl & ? & ? & ?)|(w' & ps & pl & ? & ? & ? & ? & ?)].
    + exists w, ps, pl. split_and!; [left|..]; done.
    + exists w', ps, pl. split_and!; [right|..]; done.
Qed.

Lemma take_workloads_collected s a ws want r :
  rt_inv r →
  let '(want', r') := take_workloads Apply s a ws want r in
  collected (wanted_in s a ws) want r want' r'.
Proof using Hok.
  revert want r. induction ws as [|w ws IH]; intros want r Hr; cbn.
  { eapply collected_iff, (collected_nil _ _ Hr). unfold wanted_in. set_solver. }
  destruct (GetPlacements s (wlID w)) as [ps|e] eqn:E.
  - pose proof (take_placements_collected a w ps want r Hr) as Hp.
    destruct (take_placements _ _ _ _ _ _) as [want1 r1].
    specialize (IH want1 r1 (col_inv _ _ _ _ _ Hp)).
    destruct (take_workloads _ _ _ _ _ _) as [want' r'].
    eapply collected_iff, (collected_trans _ _ _ _ _ _ _ _ Hp IH).
    intros id. rewrite wanted_in_cons, E. split; [intros [?|?]; [left; eauto|by right]|].
    intros [(ps' & [= <-] & ?)|?]; auto.
  - specialize (IH want r Hr). destruct (take_workloads _ _ _ _ _ _) as [want' r'].
    eapply collected_iff, IH. intros id. rewrite wanted_in_cons, E. split; [by right|].
    by intros [(ps' & ? & _)|?].
Qed.

Lemma take_projects_collected s a ps want r :
  rt_inv r →
  let '(want', r') := take_projects Apply s a ps want r in
  collected (wanted s a ps) want r want' r'.
Proof using Hok.
  revert want r. induction ps as [|p ps IH]; intros want r Hr; cbn.
  { eapply collected_iff, (collected_nil _ _ Hr). unfold wanted. set_solver. }
  pose proof (take_workloads_collected s a
    (match ListWorkloads s (pjID p) with Ok ws => ws | Err _ => [] end) want r Hr) as Hp.
  destruct (take_workloads _ _ _ _ _ _) as [want1 r1].
  specialize (IH want1 r1 (col_inv _ _ _ _ _ Hp)).
  destruct (take_projects _ _ _ _ _ _) as [want' r'].
  eapply collected_iff, (collected_trans _ _ _ _ _ _ _ _ Hp IH). intros id. unfold wanted. split.
  - intros [Hw|(p' & ws & ? & ? & ?)]; [|exists p', ws; set_solver].
    destruct (ListWorkloads s (pjID p)) as [ws|] eqn:E; [exists p, ws; set_solver|].
    destruct Hw as (w & _ & _ & Hw & _). set_solver.
  - intros (p' & ws & [->|Hin]%elem_of_cons & Hl & Hw); [left; by rewrite Hl|right; eauto].
Qed.

Lemma sweep_ids want cs r :
  rt_inv r → rt_inv (sweep want cs r) ∧
  ∀ id, id ∈ rt_ids (sweep want cs r) ↔
        id ∈ rt_ids r ∧ (id ∈ ctID <$> cs → id ∈ dom want).
Proof using Type.
  clear Hok Apply.
  revert r. induction cs as [|c cs IH]; intros r Hr; cbn; [set_solver|].
  destruct (want !! ctID c) as [pl|] eqn:E.
  - assert (ctID c ∈ dom want) by (apply elem_of_dom; eauto).
    destruct (IH r Hr) as [Hi Hids]. split; [done|]. intros id. rewrite Hids. set_solver.
  - apply not_elem_of_dom in E.
    destruct (rt_remove_ids r (ctID c) Hr) as [Hi Hd]. destruct (IH _ Hi) as [Hi' Hids].
    split; [done|]. intros id. rewrite Hids, Hd. set_solver.
Qed.

End Convergence.

(** ** Properties *)

(** C15: A reconcile pass over a store that lists its projects, and a runtime
    that lists its containers, converges: afterwards the containers of the runtime
    are exactly the placements of the store that name this node, when [Apply]
    materialises what it is given (when it is nil: those of them that were
    there already).  Everything else is removed, running or not. *)
Theorem reconcileOnce_converges {S R} `{ProjectStore S, WorkloadStore S, PlacementStore S}
    `{RuntimeLaws R} (Apply : option (R → Workload → Placement → R * option error))
    (s : S) (a : Agent) (r : R) (projects : list Project) :
  apply_ok Apply → rt_inv r → ListProjects s = Ok projects →
  ∀ id, id ∈ rt_ids (reconcileOnce Apply s a r) ↔
        wanted s a projects id ∧ (id ∈ rt_ids r ∨ Apply ≠ None).
Proof.
  intros Hok Hr Hp id. unfold reconcileOnce. rewrite Hp.
  pose proof (take_projects_collected Apply Hok s a projects ∅ r Hr) as Hc.
  destruct (take_projects Apply s a projects ∅ r) as [want r1]. destruct Hc as [Hi Hw Hids].
  destruct (rt_List r1 true) as [conts e] eqn:El. destruct (sweep_ids want conts r1 Hi) as [_ Hs].
  pose proof (rt_list_ids r1 id Hi) as Hl. rewrite El in Hl. cbn [fst] in Hl. rewrite Hs, Hl, Hids, Hw by done. set_solver.
Qed.

Definition ex_project : Project := mk_Project (mk_Base "proj" "proj" "proj") "" 0 0 0.
Definition ex_planned : mem :=
  let w := ex_workload "w" 1 100 1 [] in
  mk_mem ∅ {[("proj", "w") := w]}
    {["w" := [mk_Placement (mk_Base "w-n1" "proj" "w") "w" "n1" 0 "Pending"]]} [ex_project] ∅.
Definition ex_agent : Agent := mk_Agent "n1" "10.0.0.1" false.
(** An [Apply] that creates the container. *)
Definition ex_apply (r : Fake) (w : Workload) (p : Placement) : Fake * option error :=
  ((Create 7 r (ex_spec (plID p))).1, None).

Lemma ex_apply_ok : apply_ok (Some ex_apply).
Proof. intros r w p Hr. split; [by apply wf_create|]. cbn. by rewrite dom_insert_L. Qed.

Lemma reconcileOnce_converges_witness :
  "w-n1" ∈ rt_ids (reconcileOnce (Some ex_apply) ex_planned ex_agent ex_started) ↔
  wanted ex_planned ex_agent [ex_project] "w-n1" ∧ ("w-n1" ∈ rt_ids ex_started ∨ Some ex_apply ≠ None).
Proof.
  apply (reconcileOnce_converges (Some ex_apply) ex_planned ex_agent ex_started [ex_project]).
  - exact ex_apply_ok.
  - exact (wf_reachable _ _ ex_started_reachable wf_New).
  - reflexivity.
Defined.

Lemma reconcileOnce_example :
  ctID <$> List (reconcileOnce (Some ex_apply) ex_planned ex_agent ex_started) true = ["w-n1"].
Proof. vm_compute. reflexivity. Qed.

(** The node a heartbeat writes. *)
Definition reported {S} `{NodeStore S} (a : Agent) (hb : Heartbeat) (s : S) : Node :=
  report_usage hb (agDraining a)
    (match GetNode s (agNodeID a) with Err _ => fresh_node a | Ok n => refreshed_node a hb n end).

(** After a heartbeat the store knows the node, under the agent's ID, as
    Ready at the agent's address, with the usage and the time just measured;
    while the agent drains, no workload fits on it, so that the scheduler plans
    nothing there. *)
Theorem heartbeat_reports {S} `{NodeLaws S} (a : Agent) (hb : Heartbeat) (s : S) :
  (UpsertNode s (reported a hb s)).2 = None →
  (∀ n, GetNode s (agNodeID a) = Ok n → nID n = agNodeID a) →
  ∃ n, GetNode (heartbeatOnce a (Ok hb) s) (agNodeID a) = Ok n ∧ nID n = agNodeID a ∧
    nStatus n = "Ready" ∧ nAddress n = agAddress a ∧ nCPUAllocated n = hbCPUUsage hb ∧
    nMemAllocated n = hbMemUsage hb ∧ nLastHeartbeat n = hbTimestamp hb ∧
    (agDraining a = true → ∀ w, ¬ fits w n).
Proof.
  intros Hu Hid. unfold heartbeatOnce. fold (reported a hb s).
  destruct (UpsertNode s (reported a hb s)) as [s' e] eqn:E. cbn in Hu. subst e.
  assert (nID (reported a hb s) = agNodeID a) as Hn.
  { unfold reported. destruct (GetNode s (agNodeID a)) as [n|]; [|done]. exact (Hid n eq_refl). }
  exists (reported a hb s). split.
  { rewrite <- Hn at 1. cbn. exact (upsert_get_node _ _ _ E). }
  split; [done|]. unfold reported. destruct (GetNode s (agNodeID a)); cbn; split_and!; try done.
  all: intros Hd w [(Hopen & _) _ _ _ _ _ _]; cbn in Hopen; by rewrite Hd in Hopen.
Qed.

Definition ex_hb (t : Time) : Heartbeat := mk_Heartbeat "n1" "10.0.0.1" 120 4096 0 0 0 t.

Lemma heartbeat_reports_witness : ∃ n,
  GetNode (heartbeatOnce (SetDrain ex_agent true) (Ok (ex_hb 9)) empty_mem) "n1" = Ok n ∧
  nCPUAllocated n = 120%Z ∧ ∀ w, ¬ fits w n.
Proof.
  destruct (heartbeat_reports (SetDrain ex_agent true) (ex_hb 9) empty_mem)
    as (n & Hg & _ & _ & _ & Hc & _ & _ & Hd); [reflexivity|intros n Hn; vm_compute in Hn; discriminate Hn|].
  exists n. split; [exact Hg|]. split; [exact Hc|apply Hd; reflexivity].
Defined.

(** Once drained, always drained: the node stays closed after [SetDrain(false)]. *)
Lemma drain_is_sticky :
  let s1 := heartbeatOnce (SetDrain ex_agent true) (Ok (ex_hb 1)) empty_mem in
  let s2 := heartbeatOnce (SetDrain ex_agent false) (Ok (ex_hb 2)) s1 in
  ∃ n, GetNode s2 "n1" = Ok n ∧ nDrain n = true ∧ nUnschedulable n = true.
Proof. eexists. split_and!; vm_compute; reflexivity. Qed.

(** Draining does not stop containers. *)
Lemma drain_keeps_containers {S R} `{ProjectStore S, WorkloadStore S, PlacementStore S}
    `{Runtime R} (Apply : option (R → Workload → Placement → R * option error)) (s : S) (a : Agent) (r : R) :
  reconcileOnce Apply s (SetDrain a true) r = reconcileOnce Apply s (SetDrain a false) r.
Proof.
  assert (Hp : ∀ w ps want r, take_placements Apply (SetDrain a true) w ps want r =
                              take_placements Apply (SetDrain a false) w ps want r).
  { intros w ps. induction ps as [|p ps IH]; intros want r0; cbn; [done|]. by rewrite !IH. }
  assert (Hw : ∀ ws want r, take_workloads Apply s (SetDrain a true) ws want r =
                            take_workloads Apply s (SetDrain a false) ws want r).
  { intros ws. induction ws as [|w ws IH]; intros want r0; cbn; [done|].
    destruct (GetPlacements s (wlID w)); [|done]. rewrite Hp. by destruct (take_placements _ _ _ _ _ _). }
  assert (Hj : ∀ ps want r, take_projects Apply s (SetDrain a true) ps want r =
                            take_projects Apply s (SetDrain a false) ps want r).
  { intros ps. induction ps as [|p ps IH]; intros want r0; cbn; [done|].
    rewrite Hw. by destruct (take_workloads _ _ _ _ _ _). }
  unfold reconcileOnce. by destruct (ListProjects s); rewrite ?Hj.
Qed.

(** The log view is the head of the log, whatever tail was asked for. *)
Lemma Logs_is_head {R} `{Runtime R} (r : R) id b tail :
  rt_Logs r id = Ok b → Logs r id tail = Ok (string_take log_chunk b).
Proof. unfold Logs. by intros ->. Qed.
