(* ===== verification/Mq.v ===== *)
(** * Package mq: the in-memory message broker

    Models internal/primitives/mq/mq.go.  A message is allocated once and the
    queues hold pointers to it ([addr]): a retry re-appends the same pointer
    and rewrites the headers of the shared message.  Channels of dead letters
    are allocated too, because [DLQ] and [getOrCreateTopic] may create two for
    one topic.  The handler of a subscription is a parameter with a state of its
    own. *)

From S2P Require Import Prelude.

(** ** Data *)

Definition ErrNoMessages : error := "mq: no messages".
Abbreviation addr := nat.

Record Message := mk_Message {
  mTopic : string; mPartition : Z; mOffset : Z; mKey : string; mValue : string;
  mHeaders : gmap string string; mTimestamp : Time;
}.

Record BrokerConfig := mk_BrokerConfig {
  bcDataDir : string; bcMaxRetries : Z; bcBaseBackoff : Duration; bcMaxBackoff : Duration;
  bcPersistOnDisk : bool;
}.

Record Stats := mk_Stats {
  Published : Z; Delivered : Z; Acked : Z; Nacked : Z; Retried : Z; Dead : Z;
}.

Record topic := mk_topic {
  t_name : string; nextOff : Z; queue : list addr; groups : gmap string Z; t_dlq : list addr;
}.

Record mem := mk_mem {
  cfg : BrokerConfig;
  msgs : list Message;              (* every message allocated *)
  t : gmap string topic;
  chans : list (list addr);         (* every dead-letter channel allocated *)
  dlq : gmap string nat;
  stop_closed : bool;
  st : Stats;
}.

Definition zero_stats : Stats := mk_Stats 0 0 0 0 0 0.
Definition newMem (c : BrokerConfig) : mem := mk_mem c [] ∅ [] ∅ false zero_stats.

Definition Open (c : BrokerConfig) : mem :=
  let mr := if (bcMaxRetries c =? 0)%Z then 5%Z else bcMaxRetries c in
  let bb := if (bcBaseBackoff c =? 0)%Z then (100 * millisecond)%Z else bcBaseBackoff c in
  let mb := if (bcMaxBackoff c =? 0)%Z then (30 * second)%Z else bcMaxBackoff c in
  newMem (mk_BrokerConfig (bcDataDir c) mr bb mb (bcPersistOnDisk c)).

(** Setters. *)
Definition set_msgs (x : list Message) (m : mem) : mem :=
  mk_mem (cfg m) x (t m) (chans m) (dlq m) (stop_closed m) (st m).
Definition set_topic (name : string) (x : topic) (m : mem) : mem :=
  mk_mem (cfg m) (msgs m) (<[name := x]> (t m)) (chans m) (dlq m) (stop_closed m) (st m).
Definition set_chans (x : list (list addr)) (m : mem) : mem :=
  mk_mem (cfg m) (msgs m) (t m) x (dlq m) (stop_closed m) (st m).
Definition bump (f : Stats → Stats) (m : mem) : mem :=
  mk_mem (cfg m) (msgs m) (t m) (chans m) (dlq m) (stop_closed m) (f (st m)).

Definition inc_Published (s : Stats) : Stats :=
  mk_Stats (u64 (Published s + 1)) (Delivered s) (Acked s) (Nacked s) (Retried s) (Dead s).
Definition inc_Delivered (s : Stats) : Stats :=
  mk_Stats (Published s) (u64 (Delivered s + 1)) (Acked s) (Nacked s) (Retried s) (Dead s).
Definition inc_Acked (s : Stats) : Stats :=
  mk_Stats (Published s) (Delivered s) (u64 (Acked s + 1)) (Nacked s) (Retried s) (Dead s).
Definition inc_Retried (s : Stats) : Stats :=
  mk_Stats (Published s) (Delivered s) (Acked s) (Nacked s) (u64 (Retried s + 1)) (Dead s).
Definition inc_Dead (s : Stats) : Stats :=
  mk_Stats (Published s) (Delivered s) (Acked s) (Nacked s) (Retried s) (u64 (Dead s + 1)).

(** ** Topics and publishing *)

(** A new topic gets a new dead-letter channel, replacing the one [DLQ] may
    have handed out before. *)
Definition getOrCreateTopic (m : mem) (name : string) : mem * topic :=
  match t m !! name with
  | Some x => (m, x)
  | None =>
      let x := mk_topic name 0 [] ∅ [] in
      (mk_mem (cfg m) (msgs m) (<[name := x]> (t m)) (chans m ++ [[]])
         (<[name := length (chans m)]> (dlq m)) (stop_closed m) (st m), x)
  end.

Definition copyHeaders (h : gmap string string) : gmap string string := h.

Definition Publish (now : Time) (m : mem) (topic key value : string) (headers : gmap string string) : mem :=
  let '(m, x) := getOrCreateTopic m topic in
  let off := u64 (nextOff x + 1) in
  let mv := mk_Message topic 0 off key value (copyHeaders headers) now in
  let a := length (msgs m) in
  let m := set_msgs (msgs m ++ [mv]) m in
  bump inc_Published
    (set_topic topic (mk_topic (t_name x) off (queue x ++ [a]) (groups x) (t_dlq x)) m).

(** The channel handed to the caller. *)
Definition DLQ (m : mem) (topic : string) : mem * nat :=
  match dlq m !! topic with
  | Some ch => (m, ch)
  | None =>
      let ch := length (chans m) in
      (mk_mem (cfg m) (msgs m) (t m) (chans m ++ [[]]) (<[topic := ch]> (dlq m)) (stop_closed m) (st m), ch)
  end.

Definition Stats_ (m : mem) : Stats := st m.

(** Closing the stop channel twice panics. *)
Definition Close (m : mem) : go mem :=
  if stop_closed m then Panic
  else Ret (mk_mem (cfg m) (msgs m) (t m) (chans m) (dlq m) true (st m)).

(** ** The retry counter *)

Definition digit (c : ascii) : option Z :=
  let n := Z.of_nat (nat_of_ascii c) in
  if ((n <? 48) || (57 <? n))%Z then None else Some (n - 48)%Z.

(** The loop that reads the header, stopping at the first non-digit. *)
Fixpoint parse_digits (v : string) (retries : Z) : Z :=
  match v with
  | EmptyString => retries
  | String c v =>
      match digit c with
      | None => retries
      | Some d => parse_digits v (i64 (retries * 10 + d))
      end
  end.

Definition retries_of (h : gmap string string) : Z :=
  match h !! "retries" with Some v => parse_digits v 0 | None => 0%Z end.

(** [itoa]: digits are written from the end of a 16-byte buffer, [i] of them
    free; writing below index 0 panics. *)
Definition digit_char (d : Z) : ascii := ascii_of_nat (Z.to_nat (u8 (48 + d))).

Fixpoint itoa_loop (i : nat) (n : Z) (out : string) : go string :=
  if (0 <? n)%Z then
    match i with
    | O => Panic
    | S i => itoa_loop i (Z.quot n 10) (String (digit_char (Z.rem n 10)) out)
    end
  else Ret out.
Definition itoa (n : Z) : go string := if (n =? 0)%Z then Ret "0" else itoa_loop 16 n "".

(** ** Delivery *)

Definition chan_cap : nat := 1024.

(** A send that is dropped when the buffer is full. *)
Definition try_send (a : addr) (buf : list addr) : list addr :=
  if bool_decide (length buf < chan_cap) then buf ++ [a] else buf.

Definition toDLQ (m : mem) (x : topic) (a : addr) : mem :=
  let m := set_topic (t_name x) (mk_topic (t_name x) (nextOff x) (queue x) (groups x) (t_dlq x ++ [a])) m in
  let m := bump inc_Dead m in
  match dlq m !! t_name x with
  | Some ch => set_chans (alter (try_send a) ch (chans m)) m
  | None => m   (* a send on a nil channel: the default case *)
  end.

Definition with_headers (h : gmap string string) (mv : Message) : Message :=
  mk_Message (mTopic mv) (mPartition mv) (mOffset mv) (mKey mv) (mValue mv) h (mTimestamp mv).

(** The first part of [deliverOnce]: take the message under the group's cursor. *)
Definition deliver_fetch (m : mem) (name group : string) : option (mem * addr) :=
  x ← t m !! name;
  cursor ← groups x !! group;
  if (Z.of_nat (length (queue x)) <=? cursor)%Z then None
  else
    a ← queue x !! Z.to_nat cursor;
    Some (bump inc_Delivered
            (set_topic name (mk_topic (t_name x) (nextOff x) (queue x)
               (<[group := u64 (cursor + 1)]> (groups x)) (t_dlq x)) m), a).

(** The retry: [mv.Headers] is replaced by an empty map before its entries are
    copied from it, so that only the counter is left. *)
Definition retry_headers (retries : Z) : go (gmap string string) :=
  go_bind (itoa (i64 (retries + 1))) (λ v, Ret {["retries" := v]}).

(** The second part: the handler has answered [err] for message [a]. *)
Definition deliver_finish (m : mem) (name : string) (a : addr) (err : option error) : go mem :=
  match err with
  | None => Ret (bump inc_Acked m)
  | Some _ =>
      match msgs m !! a, t m !! name with
      | Some mv, Some x =>
          let retries := retries_of (mHeaders mv) in
          if (bcMaxRetries (cfg m) <=? retries)%Z then Ret (toDLQ m x a)
          else
            go_bind (retry_headers retries) (λ h,
              let m := set_msgs (<[a := with_headers h mv]> (msgs m)) m in
              Ret (bump inc_Retried
                     (set_topic name (mk_topic (t_name x) (nextOff x) (queue x ++ [a]) (groups x) (t_dlq x)) m)))
      | _, _ => Ret m
      end
  end.

Section Deliver.
Context {H : Type} (handler : H → Message → H * option error).

Definition deliverOnce (m : mem) (name group : string) (h : H) : go (mem * H * bool) :=
  match deliver_fetch m name group with
  | None => Ret (m, h, false)
  | Some (m, a) =>
      match msgs m !! a with
      | None => Ret (m, h, true)
      | Some mv =>
          let '(h, err) := handler h mv in
          go_bind (deliver_finish m name a err) (λ m, Ret (m, h, true))
      end
  end.

(** [fuel] iterations of the subscription's goroutine, while not stopped. *)
Fixpoint deliver_loop (fuel : nat) (m : mem) (name group : string) (h : H) : go (mem * H) :=
  match fuel with
  | O => Ret (m, h)
  | S fuel =>
      if stop_closed m then Ret (m, h)
      else go_bind (deliverOnce m name group h) (λ '(m, h, _), deliver_loop fuel m name group h)
  end.
End Deliver.

(** The part of [Subscribe] before its goroutine. *)
Definition Subscribe (m : mem) (name group : string) : mem :=
  let '(m, x) := getOrCreateTopic m name in
  match groups x !! group with
  | Some _ => m
  | None => set_topic name (mk_topic (t_name x) (nextOff x) (queue x) (<[group := 0%Z]> (groups x)) (t_dlq x)) m
  end.

(** ** The counter round trip *)

Lemma digit_digit_char d : (0 ≤ d < 10)%Z → digit (digit_char d) = Some d.
Proof.
  intros H. unfold digit, digit_char, u8. rewrite Z.mod_small by lia.
  rewrite nat_ascii_embedding by lia. rewrite Z2Nat.id by lia.
  rewrite (proj2 (Z.ltb_ge _ _)), (proj2 (Z.ltb_ge _ _)) by lia. cbn. f_equal. lia.
Qed.

(** The value of a digit string read after [acc], without wrap-around. *)
Fixpoint digits_value (v : string) (acc : Z) : option Z :=
  match v with
  | EmptyString => Some acc
  | String c v => d ← digit c; digits_value v (acc * 10 + d)%Z
  end.

Lemma parse_digits_value v acc n :
  digits_value v acc = Some n → (0 ≤ acc)%Z → (n < 2 ^ 63)%Z → parse_digits v acc = n ∧ (acc ≤ n)%Z.
Proof.
  revert acc. induction v as [|c v IH]; intros acc; cbn; [intros [= ->]; lia|].
  destruct (digit c) as [d|] eqn:E; [|done]. cbn. intros Hv Ha Hn.
  assert (0 ≤ d)%Z as Hd.
  { unfold digit in E. destruct (_ || _)%bool eqn:B; [done|]. injection E as <-. split_bools. lia. }
  destruct (IH _ Hv ltac:(lia) Hn) as [Hp Hle]. assert (acc * 10 + d < 2 ^ 63)%Z by lia.
  rewrite i64_id by (unfold in_i64; lia). split; [done|lia].
Qed.

(** The loop of [itoa] prepends the decimal digits of [n]: reading the result
    is reading the old text after [n]. *)
Lemma itoa_loop_value i n out :
  (0 ≤ n < 10 ^ Z.of_nat i)%Z →
  ∃ s, itoa_loop i n out = Ret s ∧ digits_value s 0 = digits_value out n.
Proof.
  revert n out. induction i as [|i IH]; intros n out Hn; cbn -[Z.pow Z.ltb].
  { change (10 ^ Z.of_nat 0)%Z with 1%Z in Hn. assert (n = 0)%Z as -> by lia. by exists out. }
  destruct (Z.ltb_spec 0 n) as [Hpos|Hz].
  2:{ assert (n = 0)%Z as -> by lia. by exists out. }
  rewrite Z.quot_div_nonneg, Z.rem_mod_nonneg by lia.
  rewrite Nat2Z.inj_succ, Z.pow_succ_r in Hn by lia.
  destruct (IH (n / 10)%Z (String (digit_char (n mod 10)) out)) as (s & Hs & Hv).
  - split; [apply Z.div_pos; lia|]. apply Z.div_lt_upper_bound; lia.
  - exists s. split; [done|]. rewrite Hv. cbn -[Z.modulo Z.div Z.mul].
    rewrite digit_digit_char by (apply Z.mod_pos_bound; lia). cbn -[Z.modulo Z.div Z.mul].
    f_equal. rewrite (Z.div_mod n 10) at 3 by lia. lia.
Qed.

(** A counter that fits the buffer is written, and read back as itself. *)
Lemma itoa_parse n : (0 ≤ n < 10 ^ 16)%Z → ∃ s, itoa n = Ret s ∧ parse_digits s 0 = n.
Proof.
  intros Hn. unfold itoa. destruct (Z.eqb_spec n 0) as [->|Hne]; [by exists "0"|].
  destruct (itoa_loop_value 16 n "" Hn) as (s & Hs & Hv). exists s. split; [done|].
  apply (parse_digits_value s 0 n Hv); lia.
Qed.

(** A negative counter is written as the empty string, which reads as zero. *)
Lemma itoa_negative n : (n < 0)%Z → itoa n = Ret "".
Proof.
  intros Hn. unfold itoa. destruct (Z.eqb_spec n 0); [lia|]. unfold itoa_loop.
  by rewrite (proj2 (Z.ltb_ge 0 n)) by lia.
Qed.

(** ** The broker's invariant *)

Record topic_ok (ms : list Message) (n : string) (x : topic) : Prop := {
  to_name : t_name x = n;
  to_queue : ∀ a, a ∈ queue x → ∃ mv, ms !! a = Some mv ∧ mTopic mv = n;
  to_cursor : ∀ g c, groups x !! g = Some c → (0 ≤ c ≤ Z.of_nat (length (queue x)))%Z;
  to_dlq : ∀ a, a ∈ t_dlq x → a ∈ queue x;
}.

Record broker_ok (m : mem) : Prop := {
  bo_topics : map_Forall (topic_ok (msgs m)) (t m);
  bo_kept : ∀ a mv, msgs m !! a = Some mv → ∃ x, t m !! mTopic mv = Some x ∧ a ∈ queue x;
  bo_chan : ∀ n, is_Some (t m !! n) → ∃ ch, dlq m !! n = Some ch ∧ ch < length (chans m);
  bo_dlq : ∀ n ch, dlq m !! n = Some ch → ch < length (chans m);
}.

(** Deliveries handed to a handler that has not answered yet. *)
Abbreviation flight := (list (string * addr)).

Inductive broker_step : mem * flight → mem * flight → Prop :=
| bs_publish now m fl n k v h : broker_step (m, fl) (Publish now m n k v h, fl)
| bs_dlq m fl n : broker_step (m, fl) ((DLQ m n).1, fl)
| bs_subscribe m fl n g : broker_step (m, fl) (Subscribe m n g, fl)
| bs_fetch m fl n g m' a :
    deliver_fetch m n g = Some (m', a) → broker_step (m, fl) (m', (n, a) :: fl)
| bs_finish m fl1 fl2 n a err m' :
    deliver_finish m n a err = Ret m' → broker_step (m, fl1 ++ (n, a) :: fl2) (m', fl1 ++ fl2).

(** Same messages up to headers, and possibly more. *)
Definition msgs_le (ms ms' : list Message) : Prop :=
  ∀ a mv, ms !! a = Some mv → ∃ mv', ms' !! a = Some mv' ∧ mTopic mv' = mTopic mv.

Lemma topic_ok_mono ms ms' n x : msgs_le ms ms' → topic_ok ms n x → topic_ok ms' n x.
Proof.
  intros Hle [H1 H2 H3 H4]. split; try done. intros a Ha.
  destruct (H2 a Ha) as (mv & Hm & <-). destruct (Hle _ _ Hm) as (mv' & ? & ?). eauto.
Qed.

Lemma getOrCreateTopic_ok m n :
  broker_ok m → let '(m', x) := getOrCreateTopic m n in
  broker_ok m' ∧ t m' !! n = Some x ∧ msgs m' = msgs m ∧ st m' = st m ∧
  (∀ n' x', t m !! n' = Some x' → t m' !! n' = Some x').
Proof.
  intros Hok. unfold getOrCreateTopic. destruct (t m !! n) as [x|] eqn:E; [done|].
  destruct Hok as [Ht Hk Hc Hd]. split_and!; [|cbn; by rewrite lookup_insert_eq|done|done|].
  - split; cbn.
    + apply map_Forall_insert_2; [|done]. split; cbn; set_solver.
    + intros a mv Ha. destruct (Hk _ _ Ha) as (x & Hx & Hin). exists x. split; [|done].
      rewrite lookup_insert_ne; [done|]. congruence.
    + intros n'. rewrite !lookup_insert, length_app. case_decide as En; cbn.
      * intros _. eexists. split; [done|]. lia.
      * intros Hs. destruct (Hc _ Hs) as (ch & ? & ?). exists ch. split; [done|lia].
    + intros n' ch. rewrite lookup_insert, length_app. case_decide; cbn.
      * intros [= <-]. lia.
      * intros ?%Hd. lia.
  - intros n' x' Hx. cbn. rewrite lookup_insert_ne; [done|]. congruence.
Qed.

(** Replacing a topic by one that keeps its queue, over messages that keep
    theirs, preserves the invariant when new messages are in the new queue. *)
Lemma broker_ok_update m n x x' ms' :
  broker_ok m → t m !! n = Some x → msgs_le (msgs m) ms' → topic_ok ms' n x' →
  (∀ a, a ∈ queue x → a ∈ queue x') →
  (∀ a mv, ms' !! a = Some mv → a < length (msgs m) ∨ mTopic mv = n ∧ a ∈ queue x') →
  broker_ok (set_topic n x' (set_msgs ms' m)).
Proof.
  intros [Ht Hk Hc Hd] Hx Hle Hx' Hq Hnew. split; cbn; try done.
  - apply map_Forall_insert_2; [done|]. intros n' y Hy. eapply topic_ok_mono; [done|]. by apply Ht.
  - intros a mv Ha. destruct (Hnew _ _ Ha) as [Hlt|[<- Hin]].
    + apply lookup_lt_is_Some in Hlt as [mv0 Hmv0]. destruct (Hle _ _ Hmv0) as (mv1 & Hmv1 & Ht1).
      assert (mv1 = mv) as -> by congruence. rewrite Ht1.
      destruct (Hk _ _ Hmv0) as (y & Hy & Hin). rewrite lookup_insert. case_decide as E; [|eauto].
      exists x'. split; [done|]. apply Hq. by simplify_eq.
    + exists x'. by rewrite lookup_insert_eq.
  - intros n' [y Hy]. apply Hc. rewrite lookup_insert in Hy. case_decide; subst; eauto.
Qed.

Lemma broker_ok_bump f m : broker_ok m → broker_ok (bump f m).
Proof. by intros [? ? ? ?]. Qed.

Lemma set_msgs_id m : set_msgs (msgs m) m = m.
Proof. by destruct m. Qed.

Lemma msgs_le_refl ms : msgs_le ms ms.
Proof. intros a mv ?. eauto. Qed.

Lemma lookup_in_range {A} (l : list A) a x : l !! a = Some x → a < length l.
Proof. apply lookup_lt_Some. Qed.
#[local] Hint Resolve broker_ok_bump msgs_le_refl lookup_in_range : core.

Lemma Publish_ok now m n k v h : broker_ok m → broker_ok (Publish now m n k v h).
Proof.
  intros Hok. unfold Publish. pose proof (getOrCreateTopic_ok m n Hok) as Hg.
  destruct (getOrCreateTopic m n) as [m1 x]. destruct Hg as (Hok1 & Hx & _).
  apply broker_ok_bump. pose proof (bo_topics _ Hok1 _ _ Hx) as [H1 H2 H3 H4].
  eapply broker_ok_update; [done|done| | | |].
  - intros a mv Ha. exists mv. split; [by apply lookup_app_l_Some|done].
  - split; cbn; [done| | |].
    + intros a [Ha| ->%list_elem_of_singleton]%elem_of_app.
      * destruct (H2 a Ha) as (mv & Hmv & <-). exists mv. split; [by apply lookup_app_l_Some|done].
      * eexists. rewrite lookup_app_r, Nat.sub_diag by lia. done.
    + intros g c Hg. rewrite length_app. specialize (H3 g c Hg). cbn. lia.
    + intros a Ha. apply elem_of_app. left. auto.
  - cbn. intros a Ha. apply elem_of_app. by left.
  - intros a mv Ha. cbn. destruct (decide (a < length (msgs m1))); [by left|right].
    rewrite lookup_app_r in Ha by lia.
    destruct (a - length (msgs m1)) as [|i] eqn:E; [|done]. injection Ha as <-. split; [done|].
    apply elem_of_app. right. apply list_elem_of_singleton. lia.
Qed.

Lemma DLQ_ok m n : broker_ok m → broker_ok (DLQ m n).1.
Proof.
  intros [Ht Hk Hc Hd]. unfold DLQ. destruct (dlq m !! n) as [ch|] eqn:E; [done|].
  split; cbn; [done..| |]; rewrite length_app; cbn.
  - intros n' Hs. destruct (Hc _ Hs) as (ch & Hch & Hlt). exists ch. split; [|lia].
    rewrite lookup_insert_ne; [done|]. congruence.
  - intros n' ch. rewrite lookup_insert. case_decide; [intros [= <-]; lia|]. intros ?%Hd. lia.
Qed.

Lemma Subscribe_ok m n g : broker_ok m → broker_ok (Subscribe m n g).
Proof.
  intros Hok. unfold Subscribe. pose proof (getOrCreateTopic_ok m n Hok) as Hg.
  destruct (getOrCreateTopic m n) as [m1 x]. destruct Hg as (Hok1 & Hx & _).
  destruct (groups x !! g) as [c|]; [done|].
  pose proof (bo_topics _ Hok1 _ _ Hx) as [H1 H2 H3 H4]. rewrite <- (set_msgs_id m1).
  eapply broker_ok_update; eauto. split; cbn; [done..| |done].
  intros g' c. rewrite lookup_insert. case_decide; [intros [= <-]; lia|]. apply H3.
Qed.

(** What a fetch does, in one record. *)
Record fetched (m : mem) (n g : string) (m' : mem) (a : addr) : Prop := {
  fe_ex : ∃ x c, t m !! n = Some x ∧ groups x !! g = Some c ∧ (c < Z.of_nat (length (queue x)))%Z ∧
    queue x !! Z.to_nat c = Some a ∧
    t m' = <[n := mk_topic (t_name x) (nextOff x) (queue x) (<[g := u64 (c + 1)]> (groups x)) (t_dlq x)]> (t m);
  fe_msgs : msgs m' = msgs m;
  fe_st : st m' = inc_Delivered (st m);
  fe_cfg : cfg m' = cfg m ∧ stop_closed m' = stop_closed m;
}.

Lemma deliver_fetch_inv m n g m' a : deliver_fetch m n g = Some (m', a) → fetched m n g m' a.
Proof.
  unfold deliver_fetch. destruct (t m !! n) as [x|] eqn:Ex; [|done]. cbn.
  destruct (groups x !! g) as [c|] eqn:Ec; [|done]. cbn.
  destruct (Z.leb_spec (Z.of_nat (length (queue x))) c); [done|].
  destruct (queue x !! Z.to_nat c) as [a'|] eqn:Ea; [|done]. cbn. intros [= <- <-].
  split; [|done..]. exists x, c. done.
Qed.

Lemma u64_pred_bound c n : (0 ≤ c < n)%Z → (0 ≤ u64 (c + 1) ≤ n)%Z.
Proof.
  intros H. pose proof (u64_range (c + 1)) as [? _]. split; [done|].
  pose proof (Z.mod_le (c + 1) (2 ^ 64)). unfold u64. lia.
Qed.

Lemma deliver_fetch_ok m n g m' a :
  broker_ok m → deliver_fetch m n g = Some (m', a) →
  broker_ok m' ∧ ∃ x, t m' !! n = Some x ∧ a ∈ queue x.
Proof.
  intros Hok. unfold deliver_fetch. destruct (t m !! n) as [x|] eqn:Ex; [|done]. cbn.
  destruct (groups x !! g) as [c|] eqn:Ec; [|done]. cbn.
  destruct (Z.leb_spec (Z.of_nat (length (queue x))) c) as [|Hlt]; [done|].
  destruct (queue x !! Z.to_nat c) as [a'|] eqn:Ea; [|done]. cbn. intros [= <- <-].
  pose proof (bo_topics _ Hok _ _ Ex) as [H1 H2 H3 H4]. split.
  - apply broker_ok_bump. rewrite <- (set_msgs_id m). eapply broker_ok_update; eauto.
    split; cbn; [done..| |done]. intros g' c'. rewrite lookup_insert. case_decide as E; [|apply H3].
    intros [= <-]. apply u64_pred_bound. specialize (H3 _ _ Ec). lia.
  - eexists. cbn. rewrite lookup_insert_eq. split; [done|]. cbn. by eapply list_elem_of_lookup_2.
Qed.

Lemma toDLQ_ok m n x a :
  broker_ok m → t m !! n = Some x → a ∈ queue x → broker_ok (toDLQ m x a).
Proof.
  intros Hok Hx Ha. pose proof (bo_topics _ Hok _ _ Hx) as [H1 H2 H3 H4]. unfold toDLQ. rewrite H1.
  assert (broker_ok (bump inc_Dead
    (set_topic n (mk_topic n (nextOff x) (queue x) (groups x) (t_dlq x ++ [a])) m))) as Hok'.
  { apply broker_ok_bump. rewrite <- (set_msgs_id m). eapply broker_ok_update; eauto.
    split; cbn; [done..|]. intros a' [?| ->%list_elem_of_singleton]%elem_of_app; auto. }
  cbv zeta. cbn [dlq bump set_topic]. destruct (dlq m !! n) as [ch|]; [|done].
  destruct Hok' as [? ? Hc Hd]. split; cbn in *; try done; by rewrite length_alter.
Qed.

Lemma with_headers_le ms a mv h :
  ms !! a = Some mv → msgs_le ms (<[a := with_headers h mv]> ms).
Proof.
  intros Ha b mv' Hb. rewrite list_lookup_insert. case_decide as E; [|eauto].
  destruct E as [-> _]. eexists. split; [done|]. by simplify_eq.
Qed.

Lemma deliver_finish_ok m n a err m' :
  broker_ok m → (∃ x, t m !! n = Some x ∧ a ∈ queue x) →
  deliver_finish m n a err = Ret m' → broker_ok m'.
Proof.
  intros Hok (x & Hx & Ha). unfold deliver_finish. destruct err as [e|]; [|intros [= <-]; auto].
  pose proof (bo_topics _ Hok _ _ Hx) as [H1 H2 H3 H4].
  destruct (H2 a Ha) as (mv & Hmv & Ht). rewrite Hmv, Hx.
  destruct (_ <=? _)%Z; [intros [= <-]; by eapply toDLQ_ok|].
  destruct (retry_headers _) as [h|]; [|done]. cbn. intros [= <-]. apply broker_ok_bump.
  eapply broker_ok_update; eauto using with_headers_le.
  - eapply topic_ok_mono; [by apply with_headers_le|]. split; cbn; [done| | |].
    + intros b [?| ->%list_elem_of_singleton]%elem_of_app; eauto.
    + intros g c Hg. rewrite length_app. specialize (H3 g c Hg). cbn. lia.
    + intros b Hb. apply elem_of_app. left. auto.
  - cbn. intros b Hb. apply elem_of_app. by left.
  - intros b mv' Hb. left. apply lookup_lt_Some in Hb. by rewrite length_insert in Hb.
Qed.

(** Queues only grow. *)
Definition queue_le (m m' : mem) : Prop :=
  ∀ n x a, t m !! n = Some x → a ∈ queue x → ∃ x', t m' !! n = Some x' ∧ a ∈ queue x'.

Lemma queue_le_set m n x x' ms f :
  t m !! n = Some x → (∀ a, a ∈ queue x → a ∈ queue x') →
  queue_le m (bump f (set_topic n x' (set_msgs ms m))).
Proof.
  intros Hx Hq n' y a Hy Ha. cbn. rewrite lookup_insert. case_decide; simplify_eq; eauto.
Qed.

Lemma queue_le_refl m m' : t m' = t m → queue_le m m'.
Proof. intros Ht n x a Hx Ha. rewrite Ht. eauto. Qed.

Lemma broker_step_queue_le m fl m' fl' :
  broker_ok m → broker_step (m, fl) (m', fl') → queue_le m m'.
Proof.
  intros Hok Hs. inversion Hs as [now ? ? n k v h|? ? n|? ? n g|? ? n g ? a Hf|? fl1 fl2 n a err ? Hf]; subst.
  - unfold Publish. pose proof (getOrCreateTopic_ok m n Hok) as Hg.
    destruct (getOrCreateTopic m n) as [m1 x]. destruct Hg as (_ & Hx & _ & _ & Hmono).
    intros n' y a Hy Ha. eapply (queue_le_set m1 n x); eauto. cbn. intros b Hb. apply elem_of_app. by left.
  - apply queue_le_refl. unfold DLQ. by destruct (dlq m !! n).
  - unfold Subscribe. pose proof (getOrCreateTopic_ok m n Hok) as Hg.
    destruct (getOrCreateTopic m n) as [m1 x]. destruct Hg as (_ & Hx & _ & _ & Hmono).
    intros n' y a Hy%Hmono Ha. destruct (groups x !! g); [eauto|]. cbn. rewrite lookup_insert.
    case_decide; [|eauto]. subst. eexists. split; [done|]. cbn. by simplify_eq.
  - destruct (deliver_fetch_inv _ _ _ _ _ Hf) as [(x & c & Hx & _ & _ & _ & Ht) _ _ _].
    intros n' y b Hy Hb. rewrite Ht, lookup_insert. case_decide; [|eauto]. subst.
    eexists. split; [done|]. cbn. by simplify_eq.
  - unfold deliver_finish in Hf. destruct err as [e|]; [|injection Hf as <-; by apply queue_le_refl].
    destruct (msgs m !! a) as [mv|]; [|injection Hf as <-; by apply queue_le_refl].
    destruct (t m !! n) as [x|] eqn:Hx; [|injection Hf as <-; by apply queue_le_refl].
    pose proof (to_name _ _ _ (bo_topics _ Hok _ _ Hx)) as Hname.
    destruct (_ <=? _)%Z.
    + injection Hf as <-. unfold toDLQ. intros n' y b Hy Hb. rewrite Hname.
      cbv zeta. cbn [dlq bump set_topic].
      destruct (dlq m !! n); cbn; rewrite lookup_insert; case_decide; eauto; subst;
        eexists; (split; [done|]); cbn; by simplify_eq.
    + destruct (retry_headers _) as [h|]; [|done]. cbn in Hf. injection Hf as <-.
      eapply queue_le_set; eauto. cbn. intros b Hb. apply elem_of_app. by left.
Qed.

(** Counters account for every delivery; [Nacked] is never touched. *)
Definition accounted (s : Stats) (inflight : nat) : Prop :=
  Delivered s = u64 (Acked s + Retried s + Dead s + Z.of_nat inflight) ∧ Nacked s = 0%Z.

Lemma finish_stats m n a err m' :
  broker_ok m → (∃ x, t m !! n = Some x ∧ a ∈ queue x) → deliver_finish m n a err = Ret m' →
  st m' = (match err with
           | None => inc_Acked (st m)
           | Some _ =>
               if (bcMaxRetries (cfg m) <=? retries_of (default ∅ (mHeaders <$> msgs m !! a)))%Z
               then inc_Dead (st m) else inc_Retried (st m)
           end).
Proof.
  intros Hok (x & Hx & Ha) Hf. unfold deliver_finish in Hf. destruct err as [e|]; [|by injection Hf as <-].
  destruct (to_queue _ _ _ (bo_topics _ Hok _ _ Hx) a Ha) as (mv & Hmv & _). rewrite Hmv, Hx in Hf.
  rewrite Hmv. cbn. destruct (_ <=? _)%Z.
  - injection Hf as <-. unfold toDLQ. cbv zeta. cbn [dlq bump set_topic]. by destruct (dlq m !! t_name x).
  - destruct (retry_headers _) as [h|]; [|done]. cbn in Hf. by injection Hf as <-.
Qed.

Definition broker_inv (x : mem * flight) : Prop :=
  broker_ok x.1 ∧ (∀ n a, (n, a) ∈ x.2 → ∃ y, t x.1 !! n = Some y ∧ a ∈ queue y) ∧
  accounted (st x.1) (length x.2).

Lemma broker_inv_step x y : broker_step x y → broker_inv x → broker_inv y.
Proof.
  destruct x as [m fl], y as [m' fl']. intros Hs (Hok & Hfl & Hac). cbn in *.
  pose proof (broker_step_queue_le _ _ _ _ Hok Hs) as Hle.
  assert (Hold : ∀ n a, (n, a) ∈ fl → ∃ y, t m' !! n = Some y ∧ a ∈ queue y).
  { intros n a Hin. destruct (Hfl n a Hin) as (y & Hy & Ha). eauto. }
  inversion Hs as [now ? ? n k v h|? ? n|? ? n g|? ? n g ? a Hf|? fl1 fl2 n a err ? Hf]; subst;
    unfold broker_inv; cbn.
  - split_and!; [by apply Publish_ok|done|]. unfold Publish.
    pose proof (getOrCreateTopic_ok m n Hok) as Hg. destruct (getOrCreateTopic m n) as [m1 z].
    destruct Hg as (_ & _ & _ & Est & _). cbn. by rewrite Est.
  - split_and!; [by apply DLQ_ok|done|]. unfold DLQ. by destruct (dlq m !! n).
  - split_and!; [by apply Subscribe_ok|done|]. unfold Subscribe.
    pose proof (getOrCreateTopic_ok m n Hok) as Hg. destruct (getOrCreateTopic m n) as [m1 z].
    destruct Hg as (_ & _ & _ & Est & _). destruct (groups z !! g); cbn; by rewrite Est.
  - destruct (deliver_fetch_ok _ _ _ _ _ Hok Hf) as [Hok' Hx]. split_and!; [done| |].
    + intros n' a' [[= -> ->]|Hin]%elem_of_cons; eauto.
    + pose proof (fe_st _ _ _ _ _ (deliver_fetch_inv _ _ _ _ _ Hf)) as ->.
      destruct Hac as [Hd Hn]. split; [|done]. cbn -[u64 Z.of_nat].
      rewrite Hd, u64_add_l. f_equal. lia.
  - assert (∃ y, t m !! n = Some y ∧ a ∈ queue y) as Hx by (apply Hfl; set_solver).
    split_and!; [by eapply deliver_finish_ok| |].
    + intros n' a' Hin. apply Hold. set_solver.
    + rewrite (finish_stats _ _ _ _ _ Hok Hx Hf). rewrite length_app in *. cbn in Hac.
      destruct Hac as [Hd Hn].
      destruct err as [e|]; [destruct (_ <=? _)%Z|]; (split; [|done]); cbn -[u64 Z.of_nat];
        rewrite Hd; clear; unfold u64; Z.to_euclidean_division_equations; lia.
Qed.

Lemma Open_inv c : broker_inv (Open c, []).
Proof.
  split_and!; [|set_solver|done]. split; cbn; try done.
  intros n. rewrite lookup_empty. by intros [].
Qed.

(** C8: Accounting and retention of the broker, in every state it can reach
    whatever calls, deliveries and handler answers interleave: each delivery is
    counted once as acknowledged, retried or dead, or is still with its handler
    (modulo 2^64); every message ever published is still in the queue of its
    topic; every group's cursor lies within the queue; and only messages of the
    queue are dead letters. *)
Theorem broker_accounting (c : BrokerConfig) (m : mem) (fl : flight) :
  rtc broker_step (Open c, []) (m, fl) →
  Delivered (st m) = u64 (Acked (st m) + Retried (st m) + Dead (st m) + Z.of_nat (length fl)) ∧
  (∀ a mv, msgs m !! a = Some mv → ∃ x, t m !! mTopic mv = Some x ∧ a ∈ queue x) ∧
  (∀ n x g k, t m !! n = Some x → groups x !! g = Some k → (0 ≤ k ≤ Z.of_nat (length (queue x)))%Z) ∧
  (∀ n x a, t m !! n = Some x → a ∈ t_dlq x → a ∈ queue x).
Proof.
  intros Hr. assert (broker_inv (m, fl)) as (Hok & _ & Hac).
  { assert (∀ x y, rtc broker_step x y → broker_inv x → broker_inv y) as Hind.
    { intros x y. induction 1; eauto using broker_inv_step. }
    eapply Hind; [done|]. apply Open_inv. }
  split_and!; [apply Hac|apply Hok| |].
  - intros n x g k Hx. apply (to_cursor _ _ _ (bo_topics _ Hok _ _ Hx)).
  - intros n x a Hx. apply (to_dlq _ _ _ (bo_topics _ Hok _ _ Hx)).
Qed.

Definition ex_cfg : BrokerConfig := mk_BrokerConfig "" 2 0 0 false.
Definition ex_published : mem := Subscribe (Publish 1 (Open ex_cfg) "t" "k" "v" {["tenant" := "acme"]}) "t" "g".

Lemma broker_accounting_witness : ∃ m a,
  deliver_fetch ex_published "t" "g" = Some (m, a) ∧
  Delivered (st m) = u64 (Acked (st m) + Retried (st m) + Dead (st m) + 1).
Proof.
  assert (∃ m a, deliver_fetch ex_published "t" "g" = Some (m, a)) as (m & a & E)
    by (eexists _, _; vm_compute; reflexivity).
  exists m, a. split; [exact E|].
  refine (proj1 (broker_accounting ex_cfg m [("t", a)] _)).
  eapply rtc_l; [apply (bs_publish 1 _ _ "t" "k" "v" {["tenant" := "acme"]})|].
  eapply rtc_l; [apply (bs_subscribe _ _ "t" "g")|]. apply rtc_once. by apply (bs_fetch _ _ "t" "g").
Defined.

(** ** Draining a queue *)

Definition retries_at (m : mem) (a : addr) : Z := retries_of (default ∅ (mHeaders <$> msgs m !! a)).

(** How often a queued message may still be handled. *)
Definition weight (m : mem) (a : addr) : nat :=
  Z.to_nat (Z.max 1 (bcMaxRetries (cfg m) + 1 - retries_at m a)).

Definition pending (m : mem) (x : topic) (k : Z) : nat :=
  sum_list_with (weight m) (drop (Z.to_nat k) (queue x)).

Definition sane_retries (m : mem) : Prop := (0 ≤ bcMaxRetries (cfg m) ≤ 10 ^ 15)%Z.

Lemma parse_digits_range v acc : in_i64 acc → in_i64 (parse_digits v acc).
Proof.
  revert acc. induction v as [|c v IH]; intros acc Ha; cbn; [done|].
  destruct (digit c); [|done]. apply IH, i64_range.
Qed.

Lemma retries_of_range h : in_i64 (retries_of h).
Proof.
  unfold retries_of. destruct (h !! "retries"); [apply parse_digits_range|]; unfold in_i64; lia.
Qed.

(** The counter of a retried message is the next one, or 0 after a negative. *)
Lemma retry_headers_spec r :
  in_i64 r → (r < 10 ^ 15)%Z →
  ∃ h, retry_headers r = Ret h ∧ retries_of h = Z.max 0 (r + 1) ∧ dom h = {["retries"]}.
Proof.
  intros Hr Hlt. unfold retry_headers, in_i64 in *. rewrite i64_id by (unfold in_i64; lia).
  destruct (decide (r + 1 < 0)%Z) as [Hn|Hn].
  - rewrite itoa_negative by done. cbn. eexists. split; [done|].
    unfold retries_of. rewrite lookup_singleton_eq, dom_singleton_L. cbn. split; [lia|done].
  - destruct (itoa_parse (r + 1)) as (s & -> & Hp); [lia|]. cbn. eexists. split; [done|].
    unfold retries_of. rewrite lookup_singleton_eq, dom_singleton_L, Hp. split; [lia|done].
Qed.

Lemma sum_weight_le (f g : addr → nat) l :
  (∀ a, f a ≤ g a) → sum_list_with f l ≤ sum_list_with g l.
Proof. intros Hf. induction l as [|a l IH]; cbn; [lia|]. specialize (Hf a). lia. Qed.

Record stepped (n g : string) (m : mem) (x : topic) (k : Z) (m' : mem) : Prop := {
  sp_ok : broker_ok m';
  sp_cfg : cfg m' = cfg m ∧ stop_closed m' = stop_closed m;
  sp_topic : ∃ x', t m' !! n = Some x' ∧ groups x' !! g = Some (k + 1)%Z ∧
    length (queue x') ≤ S (length (queue x)) ∧ pending m' x' (k + 1) < pending m x k;
}.

Lemma weight_pos m a : 1 ≤ weight m a.
Proof. unfold weight. lia. Qed.

Lemma weight_ext m m' a : cfg m' = cfg m → msgs m' = msgs m → weight m' a = weight m a.
Proof. unfold weight, retries_at. by intros -> ->. Qed.

Lemma pending_step m m' x x' k a :
  (0 ≤ k)%Z → queue x !! Z.to_nat k = Some a → queue x' = queue x →
  (∀ b, weight m' b ≤ weight m b) →
  pending m' x' (k + 1) < pending m x k.
Proof.
  intros Hk Ha Hq Hw. unfold pending. rewrite Hq, (drop_S _ _ _ Ha).
  rewrite Z2Nat.inj_add, Nat.add_1_r by lia. cbn. pose proof (weight_pos m a).
  pose proof (sum_weight_le _ _ (drop (S (Z.to_nat k)) (queue x)) Hw). lia.
Qed.

Lemma pending_retry m m' x x' k a :
  (0 ≤ k)%Z → queue x !! Z.to_nat k = Some a → queue x' = queue x ++ [a] →
  (∀ b, weight m' b ≤ weight m b) → weight m' a < weight m a →
  pending m' x' (k + 1) < pending m x k.
Proof.
  intros Hk Ha Hq Hw Hlt. unfold pending. rewrite Hq, (drop_S _ _ _ Ha).
  pose proof (lookup_lt_Some _ _ _ Ha) as Hlen.
  rewrite Z2Nat.inj_add, Nat.add_1_r, drop_app_le by lia.
  rewrite sum_list_with_app. cbn.
  pose proof (sum_weight_le _ _ (drop (S (Z.to_nat k)) (queue x)) Hw). lia.
Qed.

(** A retry takes one from the weight of the message, wherever it is queued. *)
Lemma retry_weight m m' a mv h :
  msgs m !! a = Some mv → (retries_of (mHeaders mv) < bcMaxRetries (cfg m))%Z →
  retries_of h = Z.max 0 (retries_of (mHeaders mv) + 1) → (0 ≤ bcMaxRetries (cfg m))%Z →
  cfg m' = cfg m → msgs m' = <[a := with_headers h mv]> (msgs m) →
  weight m' a < weight m a ∧ ∀ b, weight m' b ≤ weight m b.
Proof.
  intros Ha Hlt Hh Hmr Hc Hm.
  assert (weight m' a < weight m a) as Hw.
  { unfold weight, retries_at. rewrite Hc, Hm, list_lookup_insert_eq, Ha by (by eapply lookup_lt_Some).
    cbn. lia. }
  split; [done|]. intros b. destruct (decide (a = b)) as [->|Hne]; [lia|].
  unfold weight, retries_at. by rewrite Hc, Hm, list_lookup_insert_ne.
Qed.

(** The state between the two parts of a delivery. *)
Record taken (n g : string) (m : mem) (x : topic) (k : Z) (m1 : mem) (x1 : topic) (a : addr)
    (mv : Message) : Prop := {
  tk_ok : broker_ok m1;
  tk_cfg : cfg m1 = cfg m ∧ stop_closed m1 = stop_closed m;
  tk_msgs : msgs m1 = msgs m;
  tk_topic : t m1 !! n = Some x1 ∧ t_name x1 = n;
  tk_group : groups x1 !! g = Some (k + 1)%Z;
  tk_queue : queue x1 = queue x;
  tk_k : (0 ≤ k)%Z;
  tk_at : queue x !! Z.to_nat k = Some a;
  tk_msg : msgs m1 !! a = Some mv;
}.

Lemma fetch_taken m n g x k :
  broker_ok m → t m !! n = Some x → groups x !! g = Some k →
  (k < Z.of_nat (length (queue x)) < 2 ^ 64)%Z →
  ∃ m1 x1 a mv, deliver_fetch m n g = Some (m1, a) ∧ taken n g m x k m1 x1 a mv.
Proof.
  intros Hok Hx Hg Hk.
  pose proof (to_cursor _ _ _ (bo_topics _ Hok _ _ Hx) _ _ Hg) as Hk0.
  destruct (lookup_lt_is_Some_2 (queue x) (Z.to_nat k)) as [a Ha]; [lia|].
  assert (∃ m1, deliver_fetch m n g = Some (m1, a)) as [m1 Hf].
  { unfold deliver_fetch. rewrite Hx. cbn. rewrite Hg. cbn. rewrite (proj2 (Z.leb_gt _ _)), Ha by lia.
    by eexists. }
  destruct (deliver_fetch_ok _ _ _ _ _ Hok Hf) as [Hok1 (x1 & Hx1 & Ha1)].
  destruct (deliver_fetch_inv _ _ _ _ _ Hf) as [(y & c & Hy & Hc & _ & _ & Ht1) Hm1 _ Hc1].
  destruct (to_queue _ _ _ (bo_topics _ Hok1 _ _ Hx1) a Ha1) as (mv & Hmv & _).
  rewrite Hx in Hy. injection Hy as <-. rewrite Hg in Hc. injection Hc as <-.
  pose proof (to_name _ _ _ (bo_topics _ Hok1 _ _ Hx1)) as Hn1. pose proof Hx1 as Hx1'.
  rewrite Ht1, lookup_insert_eq in Hx1. injection Hx1 as Ex1.
  rewrite (u64_id (k + 1)) in Ex1 by (unfold in_u64; lia).
  exists m1, x1, a, mv. split; [done|]. split; try done.
  - rewrite <- Ex1. cbn. by rewrite lookup_insert_eq.
  - by rewrite <- Ex1.
  - lia.
Qed.

Section Finish.
Context {n g : string} {m : mem} {x : topic} {k : Z} {m1 : mem} {x1 : topic} {a : addr} {mv : Message}.
Context (Hs : sane_retries m) (Htk : taken n g m x k m1 x1 a mv).

Lemma taken_in_queue : ∃ y, t m1 !! n = Some y ∧ a ∈ queue y.
Proof using Htk.
  exists x1. split; [apply Htk|]. rewrite (tk_queue _ _ _ _ _ _ _ _ _ Htk).
  eapply list_elem_of_lookup_2, Htk.
Qed.

Lemma finish_done m' :
  broker_ok m' → cfg m' = cfg m1 → stop_closed m' = stop_closed m1 → msgs m' = msgs m1 →
  (∃ x', t m' !! n = Some x' ∧ groups x' = groups x1 ∧ queue x' = queue x1) →
  stepped n g m x k m'.
Proof using Htk.
  intros Hok Ec Est Em (x' & Hx' & Eg & Eq). destruct Htk as [_ [Hc Hst] Hm _ Hg Hq Hk Ha _].
  split; [done|split; congruence|]. exists x'.
  split_and!; [done|by rewrite Eg|rewrite Eq, Hq; lia|].
  eapply pending_step; [done..|congruence|]. intros b. rewrite (weight_ext m m' b); [done|congruence..].
Qed.

Lemma finish_dead : stepped n g m x k (toDLQ m1 x1 a).
Proof using Htk.
  pose proof taken_in_queue as (y & Hy & Ha). destruct (tk_topic _ _ _ _ _ _ _ _ _ Htk) as [Hx1 Hn1].
  rewrite Hx1 in Hy. injection Hy as <-. pose proof (toDLQ_ok _ _ _ _ (tk_ok _ _ _ _ _ _ _ _ _ Htk) Hx1 Ha).
  apply finish_done; [done|..]; unfold toDLQ; rewrite Hn1; cbv zeta; cbn [dlq bump set_topic];
    destruct (dlq m1 !! n); cbn; try done; rewrite lookup_insert_eq; by eexists.
Qed.

Lemma finish_retry m' :
  (retries_of (mHeaders mv) < bcMaxRetries (cfg m))%Z →
  deliver_finish m1 n a (Some "") = Ret m' → stepped n g m x k m'.
Proof using Hs Htk.
  intros Hlt Hfin. pose proof (deliver_finish_ok _ _ _ _ _ (tk_ok _ _ _ _ _ _ _ _ _ Htk) taken_in_queue Hfin) as Hok'.
  destruct Htk as [_ [Hc Hst] Hm [Hx1 Hn1] Hg Hq Hk Ha Hmv]. unfold sane_retries in Hs.
  unfold deliver_finish in Hfin. rewrite Hmv, Hx1, Hc, (proj2 (Z.leb_gt _ _)) in Hfin by done.
  destruct (retry_headers_spec _ (retries_of_range (mHeaders mv))) as (hd & Hhd & Hhr & _); [lia|].
  rewrite Hhd in Hfin. cbn [go_bind] in Hfin. injection Hfin as Em'.
  destruct (retry_weight m m' a mv hd) as [Hwa Hwb]; try done; try lia.
  { by rewrite <- Hm. } { by subst m'. } { subst m'. cbn. by rewrite Hm. }
  split; [done|subst m'; done|]. subst m'. eexists.
  split_and!; [cbn; by rewrite lookup_insert_eq|done|cbn; rewrite Hq, length_app; cbn; lia|].
  eapply pending_retry; eauto. cbn. by rewrite Hq.
Qed.

Lemma finish_stepped err : ∃ m', deliver_finish m1 n a err = Ret m' ∧ stepped n g m x k m'.
Proof using Hs Htk.
  destruct (tk_topic _ _ _ _ _ _ _ _ _ Htk) as [Hx1 _]. destruct err as [e|].
  2:{ eexists. split; [done|]. apply finish_done; try done; [|by eexists].
      by apply broker_ok_bump, Htk. }
  assert (deliver_finish m1 n a (Some e) = deliver_finish m1 n a (Some "")) as -> by done.
  pose proof (tk_msg _ _ _ _ _ _ _ _ _ Htk) as Hmv.
  destruct (tk_cfg _ _ _ _ _ _ _ _ _ Htk) as [Hc _].
  destruct (Z.leb_spec (bcMaxRetries (cfg m1)) (retries_of (mHeaders mv))) as [Hge|Hlt].
  - exists (toDLQ m1 x1 a). split; [|apply finish_dead].
    unfold deliver_finish. rewrite Hmv, Hx1. by rewrite (proj2 (Z.leb_le _ _)).
  - destruct (deliver_finish m1 n a (Some "")) as [m'|] eqn:Hfin.
    + exists m'. split; [done|]. apply finish_retry; [by rewrite <- Hc|done].
    + exfalso. unfold deliver_finish in Hfin. rewrite Hmv, Hx1, (proj2 (Z.leb_gt _ _)) in Hfin by done.
      unfold sane_retries in Hs. rewrite <- Hc in Hs.
      destruct (retry_headers_spec _ (retries_of_range (mHeaders mv))) as (hd & Hhd & _); [lia|].
      by rewrite Hhd in Hfin.
Qed.
End Finish.

Lemma deliverOnce_step {H} (handler : H → Message → H * option error) m n g h x k :
  broker_ok m → sane_retries m → t m !! n = Some x → groups x !! g = Some k →
  (k < Z.of_nat (length (queue x)) < 2 ^ 64)%Z →
  ∃ m' h', deliverOnce handler m n g h = Ret (m', h', true) ∧ stepped n g m x k m'.
Proof.
  intros Hok Hs Hx Hg Hk. destruct (fetch_taken _ _ _ _ _ Hok Hx Hg Hk) as (m1 & x1 & a & mv & Hf & Htk).
  unfold deliverOnce. rewrite Hf, (tk_msg _ _ _ _ _ _ _ _ _ Htk). destruct (handler h mv) as [h' err].
  destruct (finish_stepped Hs Htk err) as (m' & -> & Hst). by exists m', h'.
Qed.

(** C9: A subscription drains its queue: if the broker is open and the retry
    limit sane, then after as many rounds of its loop as the queued messages
    may still be handled (their remaining retries plus one each), the group's
    cursor is at the end of the queue, whatever the handler answers; no round
    panics. *)
Theorem deliver_loop_drains {H} (handler : H → Message → H * option error)
    (fuel : nat) (m : mem) (n g : string) (h : H) (x : topic) (k : Z) :
  broker_ok m → sane_retries m → stop_closed m = false →
  t m !! n = Some x → groups x !! g = Some k →
  pending m x k ≤ fuel → (Z.of_nat (length (queue x) + fuel) < 2 ^ 64)%Z →
  ∃ m' h' x', deliver_loop handler fuel m n g h = Ret (m', h') ∧ broker_ok m' ∧
    t m' !! n = Some x' ∧ groups x' !! g = Some (Z.of_nat (length (queue x'))).
Proof.
  revert m h x k. induction fuel as [|fuel IH]; intros m h x k Hok Hs Hstop Hx Hg Hp Hlen.
  all: pose proof (to_cursor _ _ _ (bo_topics _ Hok _ _ Hx) _ _ Hg) as Hk; cbn [deliver_loop].
  { exists m, h, x. split_and!; [done..|]. rewrite Hg. f_equal. unfold pending in Hp.
    destruct (drop (Z.to_nat k) (queue x)) as [|b l] eqn:E.
    - apply (f_equal length) in E. rewrite length_drop in E. cbn in E. lia.
    - cbn in Hp. pose proof (weight_pos m b). lia. }
  rewrite Hstop. destruct (decide (k < Z.of_nat (length (queue x)))%Z) as [Hlt|Hge].
  - destruct (deliverOnce_step handler m n g h x k) as (m' & h' & -> & [Hok' [Hc Hst] (x' & Hx' & Hg' & Hl & Hpl)]);
      [done..|lia|].
    cbn [go_bind]. apply (IH m' h' x' (k + 1)%Z); try done; [|congruence|lia|lia].
    unfold sane_retries. by rewrite Hc.
  - assert (deliverOnce handler m n g h = Ret (m, h, false)) as ->.
    { unfold deliverOnce, deliver_fetch. rewrite Hx. cbn. rewrite Hg. cbn.
      by rewrite (proj2 (Z.leb_le _ _)) by lia. }
    cbn [go_bind]. apply (IH m h x k); try done; [|lia]. unfold pending. rewrite drop_ge; [cbn; lia|lia].
Qed.

(** A handler that always fails. *)
Definition failing (h : unit) (mv : Message) : unit * option error := (h, Some "boom").

Lemma ex_published_ok : broker_ok ex_published.
Proof. apply Subscribe_ok, Publish_ok, (proj1 (Open_inv ex_cfg)). Qed.

Definition ex_topic : topic := mk_topic "t" 1 [0] {["g" := 0%Z]} [].

Lemma deliver_loop_drains_witness : ∃ m' h' x',
  deliver_loop failing 3 ex_published "t" "g" () = Ret (m', h') ∧ broker_ok m' ∧
  t m' !! "t" = Some x' ∧ groups x' !! "g" = Some (Z.of_nat (length (queue x'))).
Proof.
  apply (deliver_loop_drains failing 3 ex_published "t" "g" () ex_topic 0).
  - exact ex_published_ok.
  - split; vm_compute; discriminate.
  - reflexivity.
  - vm_compute. reflexivity.
  - vm_compute. reflexivity.
  - vm_compute. apply le_n.
  - vm_compute. reflexivity.
Defined.

(** The next round of a failing handler on the last message of the queue. *)
Lemma failing_round m n g x k a :
  broker_ok m → sane_retries m → t m !! n = Some x → groups x !! g = Some k →
  queue x !! Z.to_nat k = Some a → Z.of_nat (length (queue x)) = (k + 1)%Z → (k + 1 < 2 ^ 64)%Z →
  (0 ≤ retries_at m a)%Z →
  ∃ m' x', deliverOnce failing m n g () = Ret (m', (), true) ∧ broker_ok m' ∧ cfg m' = cfg m ∧
    stop_closed m' = stop_closed m ∧ t m' !! n = Some x' ∧ groups x' !! g = Some (k + 1)%Z ∧
    (if (bcMaxRetries (cfg m) <=? retries_at m a)%Z
     then queue x' = queue x ∧ t_dlq x' = t_dlq x ++ [a]
     else queue x' = queue x ++ [a] ∧ t_dlq x' = t_dlq x ∧ retries_at m' a = (retries_at m a + 1)%Z).
Proof.
  intros Hok Hs Hx Hg Ha Hlen Hb Hr.
  destruct (fetch_taken _ _ _ _ _ Hok Hx Hg) as (m1 & x1 & a' & mv & Hf & Htk); [lia|].
  destruct (finish_stepped Hs Htk (Some "boom")) as (m' & Hfin & [Hok' [Hc' Hst'] _]).
  pose proof (deliver_fetch_inv _ _ _ _ _ Hf) as [(y & c & Hy & _ & _ & _ & Ht1) _ _ _].
  destruct Htk as [Hok1 [Hc Hst] Hm [Hx1 Hn1] Hg1 Hq Hk Hat Hmv].
  rewrite Ha in Hat. injection Hat as <-. rewrite Hx in Hy. injection Hy as <-.
  rewrite Ht1, lookup_insert_eq in Hx1. injection Hx1 as Ex1.
  assert (t_dlq x1 = t_dlq x) as Hdl by (by rewrite <- Ex1).
  assert (t m1 !! n = Some x1) as Hx1 by (by rewrite Ht1, lookup_insert_eq, Ex1).
  assert (retries_at m a = retries_of (mHeaders mv)) as Hra
    by (unfold retries_at; rewrite <- Hm, Hmv; done).
  unfold deliverOnce. rewrite Hf, Hmv. cbn -[deliver_finish]. rewrite Hfin. cbn [go_bind]. exists m'.
  unfold deliver_finish in Hfin. rewrite Hmv, Hx1, Hc, <- Hra in Hfin.
  destruct (Z.leb_spec (bcMaxRetries (cfg m)) (retries_at m a)) as [|Hlt].
  - injection Hfin as <-. exists (mk_topic n (nextOff x1) (queue x1) (groups x1) (t_dlq x1 ++ [a])).
    split_and!; try done; [|by cbn; rewrite Hdl]. unfold toDLQ. rewrite Hn1. cbv zeta. cbn [dlq bump set_topic].
    destruct (dlq m1 !! n); cbn; by rewrite lookup_insert_eq.
  - destruct (retry_headers_spec (retries_at m a)) as (hd & Hhd & Hhr & _).
    { rewrite Hra. apply retries_of_range. } { unfold sane_retries in Hs. lia. }
    rewrite Hhd in Hfin. cbn [go_bind] in Hfin. injection Hfin as <-.
    exists (mk_topic (t_name x1) (nextOff x1) (queue x1 ++ [a]) (groups x1) (t_dlq x1)).
    split_and!; try done; [cbn; by rewrite lookup_insert_eq|cbn; by rewrite Hq|].
    unfold retries_at at 1. cbn. rewrite list_lookup_insert_eq by (by eapply lookup_lt_Some). cbn. lia.
Qed.

(** C10: A message whose handler always fails is not dropped and not retried for
    ever: the last message of a queue, with r retries behind it, is handed out
    MaxRetries - r + 1 more times and is then a dead letter of its topic. *)
Theorem poison_message_dead_lettered (d : nat) (m : mem) (n g : string) (x : topic) (k : Z) (a : addr) :
  broker_ok m → sane_retries m → stop_closed m = false → t m !! n = Some x → groups x !! g = Some k →
  queue x !! Z.to_nat k = Some a → Z.of_nat (length (queue x)) = (k + 1)%Z →
  (k + 2 + Z.of_nat d < 2 ^ 64)%Z →
  (0 ≤ retries_at m a)%Z → (bcMaxRetries (cfg m) = retries_at m a + Z.of_nat d)%Z →
  ∃ m' x', deliver_loop failing (S d) m n g () = Ret (m', ()) ∧ t m' !! n = Some x' ∧
    queue x' = queue x ++ replicate d a ∧ t_dlq x' = t_dlq x ++ [a] ∧
    groups x' !! g = Some (Z.of_nat (length (queue x'))).
Proof.
  revert m x k. induction d as [|d IH]; intros m x k Hok Hs Hstop Hx Hg Ha Hlen Hb Hr Hmr;
    cbn [deliver_loop]; rewrite Hstop;
    destruct (failing_round m n g x k a) as (m1 & x1 & -> & Hok1 & Hc1 & Hst1 & Hx1 & Hg1 & Hq);
    try done; try lia.
  - rewrite (proj2 (Z.leb_le _ _)) in Hq by lia. destruct Hq as [Hq Hd]. exists m1, x1.
    cbn. rewrite app_nil_r, Hq, Hg1. split_and!; try done. f_equal. lia.
  - rewrite (proj2 (Z.leb_gt _ _)) in Hq by lia. destruct Hq as (Hq & Hdl & Hra). cbn [go_bind].
    destruct (IH m1 x1 (k + 1)%Z) as (m' & x' & Hl & Hx' & Hq' & Hd' & Hg'); try done; try lia.
    all: try (unfold sane_retries; by rewrite Hc1).
    + congruence.
    + rewrite Hq, lookup_app_r by lia. by replace (Z.to_nat (k + 1) - length (queue x)) with 0 by lia.
    + rewrite Hq, length_app. cbn. lia.
    + rewrite Hc1. lia.
    + exists m', x'. split_and!; [exact Hl|done| | |done].
      * rewrite Hq', Hq, <- app_assoc. done.
      * by rewrite Hd', Hdl.
Qed.

Lemma poison_message_dead_lettered_witness : ∃ m' x',
  deliver_loop failing 3 ex_published "t" "g" () = Ret (m', ()) ∧ t m' !! "t" = Some x' ∧
  queue x' = [0] ++ replicate 2 0 ∧ t_dlq x' = [0] ∧
  groups x' !! "g" = Some (Z.of_nat (length (queue x'))).
Proof.
  apply (poison_message_dead_lettered 2 ex_published "t" "g" ex_topic 0 0).
  - exact ex_published_ok.
  - split; vm_compute; discriminate.
  - reflexivity.
  - vm_compute. reflexivity.
  - vm_compute. reflexivity.
  - reflexivity.
  - reflexivity.
  - reflexivity.
  - vm_compute. discriminate.
  - vm_compute. reflexivity.
Defined.

(** ** Behaviour the comments do not promise *)

(** The broker after one delivery round. *)
Definition after_round (handler : unit → Message → unit * option error) (m : mem) (n g : string) : mem :=
  match deliverOnce handler m n g () with Ret (m, _, _) => m | Panic => m end.

(** A retry loses every header of the message but the counter. *)
Lemma retry_drops_headers :
  mHeaders <$> msgs ex_published !! 0 = Some {["tenant" := "acme"]} ∧
  mHeaders <$> msgs (after_round failing ex_published "t" "g") !! 0 = Some {["retries" := "1"]}.
Proof. split; vm_compute; reflexivity. Qed.

(** Two groups share the counter of a message: with MaxRetries 2 and two
    failing groups the first group reaches the dead-letter queue on its second
    delivery. *)
Definition ok_handler (h : unit) (mv : Message) : unit * option error := (h, None).
Definition two_groups : mem := Subscribe ex_published "t" "g2".
Lemma groups_share_retries :
  t_dlq <$> t (after_round failing (after_round failing (after_round failing
    two_groups "t" "g") "t" "g2") "t" "g") !! "t" = Some [0].
Proof. vm_compute. reflexivity. Qed.

(** A message one group has acknowledged is delivered to it again when another
    group fails on it. *)
Lemma acked_message_redelivered :
  Acked (st (after_round ok_handler (after_round failing (after_round ok_handler
    two_groups "t" "g") "t" "g2") "t" "g")) = 2%Z.
Proof. vm_compute. reflexivity. Qed.

(** A channel obtained from [DLQ] before the topic exists stays empty: the
    topic gets another one. *)
Lemma early_dlq_channel_orphaned c n :
  let '(m, ch) := DLQ (Open c) n in
  dlq (getOrCreateTopic m n).1 !! n = Some (S ch).
Proof.
  unfold DLQ, getOrCreateTopic. cbn. rewrite lookup_empty. cbn. rewrite lookup_empty. cbn.
  by rewrite lookup_insert_eq.
Qed.
