(* ===== verification/Metrics.v ===== *)
(** * Package obs: metrics, logs and traces

    Models internal/primitives/obs/metrics.go.  Values are binary64.  Go
    iterates a map in an unspecified order, so the operations that do take the
    iteration order as an argument [it], any permutation of the registry's
    values.  The [%g] and [%q] verbs of package fmt are parameters of the text
    exposition. *)

From S2P Require Import Prelude GoFloat.

(** ** Data *)

Record Metric := mk_Metric {
  Name : string; Help : string; Type_ : string; Labels : gmap string string; Value : float64;
  Buckets : list float64; BucketCounts : list Z; Sum : float64; Count : Z;
}.

Record Metrics := mk_Metrics { mets : gmap string Metric }.

Definition NewMetrics : Metrics := mk_Metrics ∅.

Definition copyMap (m : gmap string string) : gmap string string := m.

Definition sort_Strings (l : list string) : list string := sort_slice string_ltb l.
Definition sorted_keys (labels : gmap string string) : list string :=
  sort_Strings ((map_to_list labels).*1).

Definition metricKey (name : string) (labels : gmap string string) : string :=
  foldl (λ b k, b +:+ "|" +:+ k +:+ "=" +:+ default "" (labels !! k)) name (sorted_keys labels).

(** ** Counters and gauges *)

Definition set_Value (v : float64) (c : Metric) : Metric :=
  mk_Metric (Name c) (Help c) (Type_ c) (Labels c) v (Buckets c) (BucketCounts c) (Sum c) (Count c).

Definition Set_ (m : Metrics) (name : string) (v : float64) (labels : gmap string string) : Metrics :=
  let key := metricKey name labels in
  match mets m !! key with
  | None => mk_Metrics (<[key := mk_Metric name "" "counter" (copyMap labels) v [] [] f64_zero 0]> (mets m))
  | Some cur => mk_Metrics (<[key := set_Value v cur]> (mets m))
  end.

Definition Get (m : Metrics) (name : string) (labels : gmap string string) : float64 :=
  match mets m !! metricKey name labels with None => f64_zero | Some cur => Value cur end.

Definition Add (m : Metrics) (name : string) (delta : float64) (labels : gmap string string) : Metrics :=
  Set_ m name (f64_add (Get m name labels) delta) labels.

Definition Incr (m : Metrics) (name : string) (labels : gmap string string) : Metrics :=
  Add m name (f64_of_Z 1) labels.

(** ** Histograms *)

(** The loop over the buckets: indexing [BucketCounts] outside its length
    panics. *)
Fixpoint bump_buckets (i : nat) (v : float64) (bs : list float64) (counts : list Z) : go (list Z) :=
  match bs with
  | [] => Ret counts
  | b :: bs =>
      if f64_le v b then
        match counts !! i with
        | None => Panic
        | Some c => bump_buckets (S i) v bs (<[i := u64 (c + 1)]> counts)
        end
      else bump_buckets (S i) v bs counts
  end.

Definition bump_last (counts : list Z) : go (list Z) :=
  match last counts with
  | None => Panic
  | Some c => Ret (<[pred (length counts) := u64 (c + 1)]> counts)
  end.

Definition observe_metric (v : float64) (c : Metric) : go Metric :=
  go_bind (bump_buckets 0 v (Buckets c) (BucketCounts c)) (λ counts,
    go_bind (bump_last counts) (λ counts,
      Ret (mk_Metric (Name c) (Help c) (Type_ c) (Labels c) (Value c) (Buckets c) counts
             (f64_add (Sum c) v) (u64 (Count c + 1))))).

Definition new_histogram (name : string) (labels : gmap string string) (buckets : list float64) : Metric :=
  mk_Metric name "" "histogram" (copyMap labels) f64_zero buckets
    (replicate (length buckets + 1) 0%Z) f64_zero 0.

Definition Observe (m : Metrics) (name : string) (v : float64) (labels : gmap string string)
    (buckets : list float64) : go Metrics :=
  let key := metricKey name labels in
  let cur := match mets m !! key with None => new_histogram name labels buckets | Some c => c end in
  go_bind (observe_metric v cur) (λ cur, Ret (mk_Metrics (<[key := cur]> (mets m)))).

(** ** Reading the registry *)

Definition values (m : Metrics) : list Metric := (map_to_list (mets m)).*2.

Fixpoint sum_named (it : list Metric) (name : string) (sum : float64) (n : Z) : float64 * Z :=
  match it with
  | [] => (sum, n)
  | v :: it =>
      if bool_decide (Name v = name) then sum_named it name (f64_add sum (Value v)) (i64 (n + 1))
      else sum_named it name sum n
  end.

Definition AvgCPU (it : list Metric) (workloadMetricName : string) : float64 :=
  let '(sum, n) := sum_named it workloadMetricName f64_zero 0 in
  if (n =? 0)%Z then f64_zero else f64_div sum (f64_of_Z n).

Definition Snapshot (it : list Metric) : list Metric :=
  sort_slice (λ a b, string_ltb (Name a) (Name b)) it.

Definition mergeLabels (a b : gmap string string) : gmap string string := b ∪ a.

(** ** Text exposition *)

Section Exposition.
Context (fmt_g : float64 → string) (fmt_q : string → string).

Definition formatFloat (f : float64) : string := fmt_g f.

Definition labelsString (labels : gmap string string) : string :=
  Join ((λ k, k +:+ "=" +:+ fmt_q (default "" (labels !! k))) <$> sorted_keys labels) ",".

Definition nl : string := String (ascii_of_nat 10) "".

Definition header_text (mm : Metric) : string :=
  "# HELP " +:+ Name mm +:+ " " +:+ Help mm +:+ nl +:+
  "# TYPE " +:+ Name mm +:+ " " +:+ Type_ mm +:+ nl.

Definition bucket_line (mm : Metric) (le : string) (count : Z) : string :=
  Name mm +:+ "_bucket{" +:+ labelsString (mergeLabels (Labels mm) {["le" := le]}) +:+ "} " +:+
  pretty count +:+ nl.

(** Indexing [BucketCounts] out of range panics. *)
Fixpoint bucket_lines (mm : Metric) (i : nat) (bs : list float64) : go string :=
  match bs with
  | [] => Ret ""
  | bk :: bs =>
      match BucketCounts mm !! i with
      | None => Panic
      | Some c => go_bind (bucket_lines mm (S i) bs) (λ rest,
                    Ret (bucket_line mm (formatFloat bk) c +:+ rest))
      end
  end.

Definition body_text (mm : Metric) : go string :=
  if bool_decide (Type_ mm = "histogram") then
    go_bind (bucket_lines mm 0 (Buckets mm)) (λ lines,
      match last (BucketCounts mm) with
      | None => Panic
      | Some c => Ret (lines +:+ bucket_line mm "+Inf" c +:+
                       Name mm +:+ "_sum " +:+ formatFloat (Sum mm) +:+ nl +:+
                       Name mm +:+ "_count " +:+ pretty (Count mm) +:+ nl)
      end)
  else Ret (Name mm +:+ "{" +:+ labelsString (Labels mm) +:+ "} " +:+ formatFloat (Value mm) +:+ nl).

Fixpoint expose (seen : gset string) (mts : list Metric) : go string :=
  match mts with
  | [] => Ret ""
  | mm :: mts =>
      let head := if bool_decide (Name mm ∈ seen) then "" else header_text mm in
      go_bind (body_text mm) (λ body,
        go_bind (expose ({[Name mm]} ∪ seen) mts) (λ rest, Ret (head +:+ body +:+ rest)))
  end.

Definition TextExposition (it : list Metric) : go string := expose ∅ (Snapshot it).
End Exposition.

(** ** Logs *)

Record LogRecord := mk_LogRecord {
  lTime : Time; lLevel : string; lMessage : string; lLabels : gmap string string;
}.
Definition zero_LogRecord : LogRecord := mk_LogRecord 0 "" "" ∅.

Record Logs := mk_Logs { ring : list LogRecord; next : Z; full : bool; maxSize : Z }.

Definition NewLogs (size : Z) : Logs :=
  let size := if (size <=? 0)%Z then 1024%Z else size in
  mk_Logs (replicate (Z.to_nat size) zero_LogRecord) 0 false size.

Definition Append (l : Logs) (rec : LogRecord) : go Logs :=
  if bool_decide (Z.to_nat (next l) < length (ring l)) && (0 <=? next l)%Z then
    let next' := Z.rem (i64 (next l + 1)) (maxSize l) in
    Ret (mk_Logs (<[Z.to_nat (next l) := rec]> (ring l)) next'
           (if (next' =? 0)%Z then true else full l) (maxSize l))
  else Panic.

Fixpoint tail_loop (l : Logs) (i : Z) (todo : nat) : go (list LogRecord) :=
  match todo with
  | O => Ret []
  | S todo =>
      let idx := (next l - 1 - i)%Z in
      let idx := if (idx <? 0)%Z then (idx + maxSize l)%Z else idx in
      match (if (0 <=? idx)%Z then ring l !! Z.to_nat idx else None) with
      | None => Panic
      | Some r => go_bind (tail_loop l (i + 1) todo) (λ out, Ret (r :: out))
      end
  end.

(** A negative [n] makes the allocation of the result panic. *)
Definition Tail (l : Logs) (n : Z) : go (list LogRecord) :=
  let n := if (maxSize l <? n)%Z then maxSize l else n in
  if (n <? 0)%Z then Panic
  else
    let count := if full l then maxSize l else next l in
    tail_loop l 0 (Z.to_nat (Z.min n count)).

Fixpoint AppendAll (l : Logs) (recs : list LogRecord) : go Logs :=
  match recs with
  | [] => Ret l
  | r :: recs => go_bind (Append l r) (λ l, AppendAll l recs)
  end.

(** ** Traces *)

Record Span := mk_Span {
  TraceID : string; SpanID : string; ParentID : string; SpanName : string;
  StartTime : Time; EndTime : Time; Attributes : gmap string string; Status : string;
}.
Record Tracer := mk_Tracer { spans : list Span }.
Definition NewTracer : Tracer := mk_Tracer [].

(** A builder holds its own span; the tracer is shared. *)
Definition Start (now : Time) (name : string) : Span := mk_Span "" "" "" name now 0 ∅ "".
Definition Spans (t : Tracer) : list Span := spans t.
Definition WithTraceID (b : Span) (id : string) : Span :=
  mk_Span id (SpanID b) (ParentID b) (SpanName b) (StartTime b) (EndTime b) (Attributes b) (Status b).
Definition WithParent (b : Span) (id : string) : Span :=
  mk_Span (TraceID b) (SpanID b) id (SpanName b) (StartTime b) (EndTime b) (Attributes b) (Status b).
Definition WithAttr (b : Span) (k v : string) : Span :=
  mk_Span (TraceID b) (SpanID b) (ParentID b) (SpanName b) (StartTime b) (EndTime b)
    (<[k := v]> (Attributes b)) (Status b).
Definition End_ (now : Time) (t : Tracer) (b : Span) (status : string) : Tracer * Span :=
  let b := mk_Span (TraceID b) (SpanID b) (ParentID b) (SpanName b) (StartTime b) now (Attributes b)
             (if bool_decide (status = "") then Status b else status) in
  (mk_Tracer (spans t ++ [b]), b).

(** ** Metric keys *)

Definition key_part (labels : gmap string string) (k : string) : string :=
  k +:+ "=" +:+ default "" (labels !! k).

Lemma metricKey_Join name labels :
  metricKey name labels = Join (name :: (key_part labels <$> sorted_keys labels)) "|".
Proof.
  unfold metricKey. generalize (sorted_keys labels) as ks. intros ks. revert name.
  induction ks as [|k ks IH]; intros name; [done|]. cbn [foldl fmap list_fmap].
  rewrite IH. destruct ks as [|k' ks]; cbn [fmap list_fmap].
  - done.
  - rewrite (Join_cons name), !(Join_cons _ (key_part labels k' :: _)) by done.
    change (key_part labels k) with (k +:+ "=" +:+ default "" (labels !! k)). by rewrite !string_app_assoc.
Qed.

(** Names and label texts that do not contain the separators. *)
Definition safe_labels (labels : gmap string string) : Prop :=
  map_Forall (λ k v, string_In "|" k = false ∧ string_In "=" k = false ∧ string_In "|" v = false) labels.

Lemma sorted_keys_perm labels : sorted_keys labels ≡ₚ (map_to_list labels).*1.
Proof. apply sort_slice_perm. Qed.

Lemma elem_of_sorted_keys labels k : k ∈ sorted_keys labels ↔ is_Some (labels !! k).
Proof.
  rewrite sorted_keys_perm, list_elem_of_fmap. split.
  - intros ([k' v] & -> & Hin%elem_of_map_to_list). cbn. by eexists.
  - intros [v Hv]. exists (k, v). by rewrite elem_of_map_to_list.
Qed.

Lemma key_parts_safe labels :
  safe_labels labels → Forall (λ w, string_In "|" w = false) (key_part labels <$> sorted_keys labels).
Proof.
  intros Hs. rewrite Forall_fmap, Forall_forall. intros k [v Hv]%elem_of_sorted_keys.
  destruct (Hs _ _ Hv) as (H1 & _ & H3). unfold compose, key_part. rewrite Hv.
  rewrite !string_In_app, H1. exact H3.
Qed.

(** The pairs a part stands for. *)
Lemma key_part_inj l1 l2 k1 k2 :
  string_In "=" k1 = false → string_In "=" k2 = false →
  key_part l1 k1 = key_part l2 k2 → k1 = k2 ∧ default "" (l1 !! k1) = default "" (l2 !! k2).
Proof.
  intros H1 H2 E.
  assert (∀ l k, string_In "=" k = false → SplitN2 "=" (key_part l k) = (k, Some (default "" (l !! k)))) as Hs.
  { intros l k Hk. by apply SplitN2_some. }
  pose proof (Hs l1 k1 H1) as E1. rewrite E, (Hs l2 k2 H2) in E1. by injection E1.
Qed.

Lemma parts_eq_labels l1 l2 ks1 ks2 :
  Forall (λ k, string_In "=" k = false) ks1 → Forall (λ k, string_In "=" k = false) ks2 →
  key_part l1 <$> ks1 = key_part l2 <$> ks2 →
  ks1 = ks2 ∧ ∀ k, k ∈ ks1 → default "" (l1 !! k) = default "" (l2 !! k).
Proof.
  intros H1. revert ks2. induction H1 as [|k ks1 Hk H1 IH]; intros ks2 H2 E.
  { destruct ks2; [|done]. split; [done|set_solver]. }
  destruct ks2 as [|k2 ks2]; [done|]. inversion_clear H2 as [|? ? Hk2 H2']. injection E as E1 E2.
  destruct (key_part_inj _ _ _ _ Hk Hk2 E1) as [-> Hv]. destruct (IH _ H2' E2) as [-> Hr].
  split; [done|]. intros k [->|Hin]%elem_of_cons; auto.
Qed.

Lemma safe_sorted_keys labels :
  safe_labels labels → Forall (λ k, string_In "=" k = false) (sorted_keys labels).
Proof.
  intros Hs. rewrite Forall_forall. intros k [v Hv]%elem_of_sorted_keys. by apply (Hs _ _ Hv).
Qed.

Lemma metricKey_inj n1 n2 l1 l2 :
  string_In "|" n1 = false → string_In "|" n2 = false → safe_labels l1 → safe_labels l2 →
  metricKey n1 l1 = metricKey n2 l2 → n1 = n2 ∧ l1 = l2.
Proof.
  intros Hn1 Hn2 Hl1 Hl2 E. rewrite !metricKey_Join in E.
  apply (f_equal (Split "|")) in E.
  rewrite !Split_Join in E by (try done; constructor; auto using key_parts_safe).
  injection E as -> E. split; [done|].
  destruct (parts_eq_labels _ _ _ _ (safe_sorted_keys _ Hl1) (safe_sorted_keys _ Hl2) E) as [Hk Hv].
  apply map_eq. intros k.
  destruct (l1 !! k) as [v1|] eqn:E1, (l2 !! k) as [v2|] eqn:E2; [|exfalso..|done].
  - assert (k ∈ sorted_keys l1) as Hin by (apply elem_of_sorted_keys; eauto).
    specialize (Hv k Hin). rewrite E1, E2 in Hv. cbn in Hv. by subst.
  - assert (k ∈ sorted_keys l1) as Hin by (apply elem_of_sorted_keys; eauto).
    rewrite Hk in Hin. apply elem_of_sorted_keys in Hin as [? Hin]. congruence.
  - assert (k ∈ sorted_keys l2) as Hin by (apply elem_of_sorted_keys; eauto).
    rewrite <- Hk in Hin. apply elem_of_sorted_keys in Hin as [? Hin]. congruence.
Qed.

(** ** The ring buffer *)

(** After the records [recs] were appended: slot [j mod maxSize] holds record
    [j], for the last [maxSize] of them. *)
Record ring_inv (size : Z) (l : Logs) (recs : list LogRecord) : Prop := {
  ri_size : maxSize l = size ∧ length (ring l) = Z.to_nat size;
  ri_next : next l = (Z.of_nat (length recs) mod size)%Z;
  ri_full : full l = bool_decide (size ≤ Z.of_nat (length recs))%Z;
  ri_slots : ∀ j : nat, (Z.of_nat (length recs) - size ≤ Z.of_nat j)%Z → j < length recs →
    ring l !! Z.to_nat (Z.of_nat j mod size) = recs !! j;
}.

Lemma ring_inv_new size : (0 < size)%Z → ring_inv size (NewLogs size) [].
Proof.
  intros Hs. unfold NewLogs. rewrite (proj2 (Z.leb_gt _ _)) by done. split; cbn.
  - by rewrite length_replicate.
  - done.
  - rewrite bool_decide_false; [done|lia].
  - intros. lia.
Qed.

Lemma mod_succ_wrap n size :
  (0 < size)%Z → (0 ≤ n)%Z → ((n mod size + 1) mod size = (n + 1) mod size)%Z.
Proof. intros. rewrite Z.add_mod_idemp_l; lia. Qed.

(** Full once the write position has come round. *)
Lemma full_step n size :
  (0 < size)%Z → (0 ≤ n)%Z →
  (if ((n + 1) mod size =? 0)%Z then true else bool_decide (size ≤ n)%Z) =
  bool_decide (size ≤ n + 1)%Z.
Proof.
  intros Hs Hn. destruct (Z.eqb_spec ((n + 1) mod size) 0) as [Hz|Hz].
  - symmetry. apply bool_decide_true. apply Z.mod_divide in Hz as [q Hq]; [|lia]. assert (1 ≤ q)%Z by nia. nia.
  - apply bool_decide_ext. split; [lia|]. intros Hle.
    destruct (decide (size = n + 1)%Z) as [->|]; [|lia]. by rewrite Z.mod_same in Hz by lia.
Qed.

Lemma mod_distinct n size j :
  (0 < size)%Z → (n + 1 - size ≤ j)%Z → (j < n)%Z → (j mod size ≠ n mod size)%Z.
Proof.
  intros Hs H1 H2 E. pose proof (Z.div_mod j size ltac:(lia)) as Ej.
  pose proof (Z.div_mod n size ltac:(lia)) as En. rewrite E in Ej.
  assert (n - j = size * (n / size - j / size))%Z as D by lia.
  assert (1 ≤ n / size - j / size)%Z by nia. nia.
Qed.

Lemma ring_inv_append size l recs r :
  (0 < size < 2 ^ 63)%Z → ring_inv size l recs →
  ∃ l', Append l r = Ret l' ∧ ring_inv size l' (recs ++ [r]).
Proof.
  intros Hs [[Hsz Hlen] Hn Hf Hsl].
  pose proof (Z.mod_pos_bound (Z.of_nat (length recs)) size ltac:(lia)) as Hb.
  unfold Append. rewrite bool_decide_true by lia. rewrite (proj2 (Z.leb_le _ _)) by lia. cbn [andb].
  eexists. split; [done|].
  rewrite Hsz, i64_id by (unfold in_i64; lia). rewrite Z.rem_mod_nonneg by lia.
  rewrite Hn, mod_succ_wrap, Hf, full_step by lia.
  split; cbn; rewrite ?length_insert, ?length_app.
  - done.
  - f_equal. cbn. lia.
  - apply bool_decide_ext. cbn. lia.
  - intros j H1 H2. cbn in H1, H2. destruct (decide (j = length recs)) as [->|Hne].
    + rewrite list_lookup_insert_eq by lia. by rewrite lookup_app_r, Nat.sub_diag by lia.
    + rewrite list_lookup_insert_ne, lookup_app_l by
        (try (pose proof (mod_distinct (Z.of_nat (length recs)) size (Z.of_nat j)) as D;
              pose proof (Z.mod_pos_bound (Z.of_nat j) size); intros E; apply D; lia); lia).
      apply Hsl; lia.
Qed.

Lemma ring_inv_appends size l recs more :
  (0 < size < 2 ^ 63)%Z → ring_inv size l recs →
  ∃ l', AppendAll l more = Ret l' ∧ ring_inv size l' (recs ++ more).
Proof.
  intros Hs. revert l recs. induction more as [|r more IH]; intros l recs Hi; cbn.
  { exists l. by rewrite app_nil_r. }
  destruct (ring_inv_append size l recs r Hs Hi) as (l1 & -> & Hi1).
  destruct (IH l1 _ Hi1) as (l2 & H2 & Hi2). exists l2. split; [done|].
  by rewrite <- app_assoc in Hi2.
Qed.

(** Position [i] counted back from the write position. *)
Lemma back_index n size i :
  (0 < size)%Z → (0 ≤ i < size)%Z → (i < n)%Z →
  (let idx := (n mod size - 1 - i) in if idx <? 0 then idx + size else idx)%Z = ((n - 1 - i) mod size)%Z.
Proof.
  intros Hs Hi Hn. pose proof (Z.mod_pos_bound n size Hs) as Hb.
  pose proof (Z.div_mod n size ltac:(lia)) as En. cbv zeta.
  destruct (Z.ltb_spec (n mod size - 1 - i) 0).
  - apply Z.mod_unique with (n / size - 1)%Z; [left; lia|lia].
  - apply Z.mod_unique with (n / size)%Z; [left; lia|lia].
Qed.

Lemma tail_loop_spec size l recs i todo :
  (0 < size)%Z → ring_inv size l recs →
  (Z.of_nat (i + todo) ≤ size)%Z → i + todo ≤ length recs →
  tail_loop l (Z.of_nat i) todo = Ret (take todo (drop i (reverse recs))).
Proof.
  intros Hs Hi. revert i. induction todo as [|todo IH]; intros i H1 H2; cbn [tail_loop]; [done|].
  destruct Hi as [[Hsz Hlen] Hn Hf Hsl].
  pose proof (back_index (Z.of_nat (length recs)) size (Z.of_nat i)) as Hidx. cbv zeta in Hidx.
  cbv zeta. rewrite Hsz, Hn, Hidx by lia.
  assert (Z.of_nat (length recs) - 1 - Z.of_nat i = Z.of_nat (length recs - 1 - i))%Z as -> by lia.
  rewrite (proj2 (Z.leb_le _ _)) by (apply Z.mod_pos_bound; lia). rewrite Hsl by lia.
  assert (reverse recs !! i = recs !! (length recs - 1 - i)) as Hr.
  { rewrite reverse_lookup by lia. f_equal. lia. }
  destruct (lookup_lt_is_Some_2 recs (length recs - 1 - i)) as [r Er]; [lia|].
  rewrite Er in Hr |- *. rewrite (drop_S _ _ _ Hr). cbn [take].
  replace (Z.of_nat i + 1)%Z with (Z.of_nat (S i)) by lia. by rewrite IH by lia.
Qed.

(** ** Histogram counting *)

Definition bumped (v : float64) (b : float64) (c : Z) : Z := if f64_le v b then u64 (c + 1) else c.

Lemma bump_buckets_spec v bs pre cs rest :
  length cs = length bs →
  bump_buckets (length pre) v bs (pre ++ cs ++ rest) = Ret (pre ++ zip_with (bumped v) bs cs ++ rest).
Proof.
  revert pre cs. induction bs as [|b bs IH]; intros pre cs Hl; destruct cs as [|c cs]; try done.
  injection Hl as Hl. cbn [bump_buckets zip_with]. unfold bumped at 1.
  specialize (IH (pre ++ [if f64_le v b then u64 (c + 1) else c]) cs Hl).
  rewrite length_app, Nat.add_1_r, <- !app_assoc in IH. cbn [app] in IH.
  destruct (f64_le v b); [|exact IH].
  rewrite lookup_app_r, Nat.sub_diag by lia. cbn [app lookup list_lookup].
  rewrite insert_app_r_alt, Nat.sub_diag by lia. exact IH.
Qed.

(** The samples not above a bound. *)
Definition count_le (vs : list float64) (b : float64) : Z :=
  Z.of_nat (length (filter (λ v, f64_le v b = true) vs)).

Fixpoint ObserveAll (m : Metrics) (name : string) (vs : list float64) (labels : gmap string string)
    (buckets : list float64) : go Metrics :=
  match vs with
  | [] => Ret m
  | v :: vs => go_bind (Observe m name v labels buckets) (λ m, ObserveAll m name vs labels buckets)
  end.

(** A histogram that has seen the samples [vs]. *)
Record has_seen (vs : list float64) (buckets : list float64) (c : Metric) : Prop := {
  hs_buckets : Buckets c = buckets;
  hs_counts : BucketCounts c = (count_le vs <$> buckets) ++ [Z.of_nat (length vs)];
  hs_count : Count c = Z.of_nat (length vs);
}.

Lemma count_le_snoc vs v b : count_le (vs ++ [v]) b = (count_le vs b + if f64_le v b then 1 else 0)%Z.
Proof.
  unfold count_le. rewrite list_filter_app_one, length_app.
  destruct (f64_le v b); case_decide; try done; cbn; lia.
Qed.

Lemma count_le_bound vs b : (0 ≤ count_le vs b ≤ Z.of_nat (length vs))%Z.
Proof. unfold count_le. pose proof (filter_length_le (λ v, f64_le v b = true) vs). lia. Qed.

Lemma observe_seen vs buckets v c :
  has_seen vs buckets c → (Z.of_nat (length vs) + 1 < 2 ^ 64)%Z →
  ∃ c', observe_metric v c = Ret c' ∧ has_seen (vs ++ [v]) buckets c' ∧ Name c' = Name c.
Proof.
  intros [Hb Hc Hn] Hlen. unfold observe_metric. rewrite Hb, Hc.
  pose proof (bump_buckets_spec v buckets [] (count_le vs <$> buckets) [Z.of_nat (length vs)]) as Hbb.
  cbn [app length] in Hbb. rewrite Hbb by by rewrite length_fmap. cbn [go_bind]. unfold bump_last. rewrite last_snoc. cbn [go_bind].
  eexists. split; [done|]. split; [|done].
  assert (∀ z, (0 ≤ z ≤ Z.of_nat (length vs))%Z → u64 (z + 1) = (z + 1)%Z) as Hu
    by (intros; apply u64_id; unfold in_u64; lia).
  split; cbn; [done| |by rewrite Hn, Hu, length_app by lia; cbn; lia].
  rewrite insert_app_r_alt by (rewrite length_app; cbn; lia).
  rewrite length_app. cbn [length]. replace (pred _ - _) with 0 by lia. cbn. f_equal.
  - clear -Hu. rewrite zip_with_fmap_r. induction buckets as [|b bs IH]; [done|]. cbn. rewrite IH. f_equal.
    unfold bumped. rewrite count_le_snoc. destruct (f64_le v b); [|lia]. apply Hu, count_le_bound.
  - rewrite Hu, length_app by lia. cbn. f_equal. lia.
Qed.

Lemma ObserveAll_seen name labels buckets more seen m c :
  mets m !! metricKey name labels = Some c → Name c = name → has_seen seen buckets c →
  (Z.of_nat (length seen + length more) < 2 ^ 64)%Z →
  ∃ m' c', ObserveAll m name more labels buckets = Ret m' ∧
    mets m' !! metricKey name labels = Some c' ∧ Name c' = name ∧ has_seen (seen ++ more) buckets c'.
Proof.
  revert seen m c. induction more as [|w more IH]; intros seen m c Hc Hname Hs Hl.
  { exists m, c. by rewrite app_nil_r. }
  destruct (observe_seen seen buckets w c Hs) as (c2 & Ho & Hs2 & Hn2); [cbn in Hl; lia|].
  cbn [ObserveAll]. unfold Observe. rewrite Hc, Ho. cbn [go_bind].
  destruct (IH (seen ++ [w]) (mk_Metrics (<[metricKey name labels := c2]> (mets m))) c2)
    as (m' & c' & H1 & H2 & H3 & H4); [cbn; by rewrite lookup_insert_eq|congruence|done| |].
  - rewrite length_app. cbn in *. lia.
  - exists m', c'. by rewrite <- app_assoc in H4.
Qed.

(** C22: A histogram that starts with its first observation counts exactly: once
    the samples [vs] have been observed under a fresh name and label set, every
    bucket holds the number of samples not above its bound, the last bucket and
    [Count] the number of samples, and no observation panics. *)
Theorem histogram_counts (m : Metrics) (name : string) (labels : gmap string string)
    (buckets : list float64) (v : float64) (vs : list float64) :
  mets m !! metricKey name labels = None → (Z.of_nat (length vs) + 1 < 2 ^ 64)%Z →
  ∃ m' c, ObserveAll m name (v :: vs) labels buckets = Ret m' ∧
    mets m' !! metricKey name labels = Some c ∧ Name c = name ∧
    BucketCounts c = (count_le (v :: vs) <$> buckets) ++ [Z.of_nat (S (length vs))] ∧
    Count c = Z.of_nat (S (length vs)).
Proof.
  intros Hnone Hlen.
  assert (has_seen [] buckets (new_histogram name labels buckets)) as H0.
  { split; cbn; [done| |done]. rewrite Nat.add_comm, replicate_S_end. f_equal.
    clear. induction buckets as [|b bs IH]; [done|]. cbn. by rewrite IH. }
  destruct (observe_seen [] buckets v _ H0) as (c1 & Ho & Hs1 & Hn1); [cbn; lia|].
  cbn [ObserveAll]. unfold Observe. rewrite Hnone, Ho. cbn [go_bind].
  destruct (ObserveAll_seen name labels buckets vs [v] (mk_Metrics (<[metricKey name labels := c1]> (mets m))) c1)
    as (m' & c' & Hall & Hc' & Hn' & [Hb Hcnt Hct]).
  - cbn. by rewrite lookup_insert_eq.
  - done.
  - done.
  - cbn. lia.
  - by exists m', c'.
Qed.

Lemma histogram_counts_witness : ∃ m' c,
  ObserveAll NewMetrics "lat" [f64_of_Z 3; f64_of_Z 7; f64_of_Z 20] ∅ [f64_of_Z 5; f64_of_Z 10] = Ret m' ∧
  mets m' !! metricKey "lat" ∅ = Some c ∧ BucketCounts c = [1; 2; 3]%Z.
Proof.
  destruct (histogram_counts NewMetrics "lat" ∅ [f64_of_Z 5; f64_of_Z 10] (f64_of_Z 3)
              [f64_of_Z 7; f64_of_Z 20]) as (m' & c & H1 & H2 & _ & H3 & _); [reflexivity|reflexivity|].
  exists m', c. split; [exact H1|]. split; [exact H2|]. rewrite H3. vm_compute. reflexivity.
Defined.

(** The log ring returns the newest records: after any sequence of appends
    to a fresh buffer, none of which panics, [Tail n] is the last n records
    appended, newest first, limited by the buffer's size and by what was
    appended. *)
Theorem Tail_newest (size : Z) (recs : list LogRecord) (n : Z) :
  (0 < size < 2 ^ 63)%Z → (0 ≤ n)%Z →
  ∃ l, AppendAll (NewLogs size) recs = Ret l ∧
       Tail l n = Ret (take (Z.to_nat (Z.min n size)) (reverse recs)).
Proof.
  intros Hs Hn. destruct (ring_inv_appends size (NewLogs size) [] recs Hs) as (l & Hl & Hi).
  { apply ring_inv_new. lia. }
  exists l. split; [done|]. cbn [app] in Hi. pose proof Hi as [[Hsz _] Hnx Hf _]. unfold Tail.
  rewrite Hsz. cbv zeta.
  replace (if (size <? n)%Z then size else n) with (Z.min n size) by (destruct (Z.ltb_spec size n); lia).
  rewrite (proj2 (Z.ltb_ge _ _)) by lia. change 0%Z with (Z.of_nat 0).
  destruct (decide (size ≤ Z.of_nat (length recs))%Z) as [Hfull|Hpart].
  - rewrite Hf, bool_decide_true by done. rewrite (tail_loop_spec size l recs) by (try done; lia).
    by rewrite drop_0, Z.min_l by lia.
  - rewrite Hf, bool_decide_false, Hnx, Z.mod_small by lia.
    rewrite (tail_loop_spec size l recs) by (try done; lia). rewrite drop_0. f_equal.
    rewrite Z2Nat.inj_min, Nat2Z.id, <- take_take.
    by rewrite (take_ge (reverse recs)) by (rewrite length_reverse; lia).
Qed.

Definition ex_log (s : string) : LogRecord := mk_LogRecord 0 "info" s ∅.

Lemma Tail_newest_witness : ∃ l,
  AppendAll (NewLogs 2) [ex_log "a"; ex_log "b"; ex_log "c"] = Ret l ∧ Tail l 5 = Ret [ex_log "c"; ex_log "b"].
Proof. apply (Tail_newest 2 [ex_log "a"; ex_log "b"; ex_log "c"] 5); lia. Defined.

(** ** Counters *)

Lemma Set_lookup m name v labels key :
  mets (Set_ m name v labels) !! key =
    if decide (metricKey name labels = key)
    then Some (match mets m !! key with
               | None => mk_Metric name "" "counter" (copyMap labels) v [] [] f64_zero 0
               | Some cur => set_Value v cur
               end)
    else mets m !! key.
Proof.
  unfold Set_. destruct (mets m !! metricKey name labels) as [c|] eqn:E; cbn;
    rewrite lookup_insert; case_decide; subst; rewrite ?E; done.
Qed.

(** A registry of plainly named series behaves as a map from a name and a
    label set to a value: [Set] is what [Get] returns, [Add] adds to it, and
    neither touches another series, whatever the order in which the labels were
    given.  Plain means: no [|] in names, labels or values, no [=] in label
    names. *)
Theorem metrics_is_a_map (m : Metrics) (n1 n2 : string) (v : float64) (l1 l2 : gmap string string) :
  string_In "|" n1 = false → string_In "|" n2 = false → safe_labels l1 → safe_labels l2 →
  Get (Set_ m n1 v l1) n1 l1 = v ∧
  Get (Add m n1 v l1) n1 l1 = f64_add (Get m n1 l1) v ∧
  ((n1, l1) ≠ (n2, l2) →
   Get (Set_ m n1 v l1) n2 l2 = Get m n2 l2 ∧ Get (Add m n1 v l1) n2 l2 = Get m n2 l2).
Proof.
  intros Hn1 Hn2 Hl1 Hl2.
  assert (Hsame : ∀ w, Get (Set_ m n1 w l1) n1 l1 = w).
  { intros w. unfold Get. rewrite Set_lookup, decide_True by done. by destruct (mets m !! _). }
  assert (Hother : ∀ w, (n1, l1) ≠ (n2, l2) → Get (Set_ m n1 w l1) n2 l2 = Get m n2 l2).
  { intros w Hne. unfold Get. rewrite Set_lookup, decide_False; [done|].
    intros E. destruct (metricKey_inj _ _ _ _ Hn1 Hn2 Hl1 Hl2 E) as [-> ->]. done. }
  unfold Add. split_and!; auto.
Qed.

Lemma metrics_is_a_map_witness :
  let m := Set_ NewMetrics "up" (f64_of_Z 4) {["node" := "a"]} in
  Get (Add m "up" (f64_of_Z 2) {["node" := "a"]}) "up" {["node" := "a"]} = f64_of_Z 6 ∧
  Get (Add m "up" (f64_of_Z 2) {["node" := "a"]}) "up" {["node" := "b"]} = f64_zero.
Proof.
  intros m.
  destruct (metrics_is_a_map m "up" "up" (f64_of_Z 2) {["node" := "a"]} {["node" := "b"]})
    as (_ & Hadd & Hne); [reflexivity|reflexivity|by apply map_Forall_singleton..|].
  split; [rewrite Hadd; vm_compute; reflexivity|].
  rewrite (proj2 (Hne ltac:(intros [=]))). vm_compute. reflexivity.
Defined.

(** Label texts containing the separators make two series collide. *)
Lemma metricKey_collision :
  metricKey "m" {["a" := "1|b=2"]} = metricKey "m" {["a" := "1"; "b" := "2"]}.
Proof. vm_compute. reflexivity. Qed.

(** Observing under a name that [Set] created panics. *)
Lemma Observe_after_Set_panics m name v w labels buckets :
  mets m !! metricKey name labels = None →
  Observe (Set_ m name v labels) name w labels buckets = Panic.
Proof.
  intros Hn. unfold Observe. rewrite Set_lookup, decide_True, Hn by done. done.
Qed.

(** A negative tail length panics. *)
Lemma Tail_negative_panics l n : (n < 0)%Z → (0 < maxSize l)%Z → Tail l n = Panic.
Proof.
  intros Hn Hs. unfold Tail. rewrite (proj2 (Z.ltb_ge (maxSize l) n)) by lia. by rewrite (proj2 (Z.ltb_lt _ _)).
Qed.

(** A snapshot lists the same series, by name. *)
Lemma Snapshot_sorted it :
  Snapshot it ≡ₚ it ∧ StronglySorted (λ a b, string_ltb (Name b) (Name a) = false) (Snapshot it).
Proof.
  split; [apply sort_slice_perm|].
  apply (sort_slice_sorted _ (λ _, True)). by apply Forall_true.
Qed.
