(* ===== verification/Alerts.v ===== *)
(** * Package obs: alert rules

    Models internal/primitives/obs/alerts.go over the registry of [Metrics].
    [fmt.Sscanf] with the verb [%f] is the parameter [scan_f]. *)

From S2P Require Import Prelude GoFloat Metrics.

Record AlertRule := mk_AlertRule {
  arID : string; arName : string; arSeverity : string; arExpression : string; arFor : Duration;
}.

Record AlertState := mk_AlertState {
  asRule : AlertRule; asFiring : bool; asPendingSince : Time; asLastEvaluated : Time;
  asLastValue : float64;
}.

(** The states are shared by ID: two rules with one ID update the same state. *)
Record Alerts := mk_Alerts { rules : list AlertRule; state : gmap string AlertState }.

Definition NewAlerts : Alerts := mk_Alerts [] ∅.

Definition Add (a : Alerts) (r : AlertRule) : Alerts :=
  mk_Alerts (rules a ++ [r]) (<[arID r := mk_AlertState r false 0 0 f64_zero]> (state a)).

(** ** Expressions *)

Fixpoint IndexByte (s : string) (c : ascii) : option nat :=
  match s with
  | EmptyString => None
  | String a s => if Ascii.eqb a c then Some 0 else S <$> IndexByte s c
  end.

(** The loop of [indexOutside] from position [i], on the rest of the string:
    a label block is jumped over. *)
Fixpoint index_from (fuel : nat) (i : nat) (s op : string) : option nat :=
  match fuel with
  | O => None
  | S fuel =>
      if bool_decide (String.length op ≤ String.length s) then
        match s with
        | EmptyString => if HasPrefix s op then Some i else None
        | String c s' =>
            if Ascii.eqb c "{" then
              match IndexByte s "}" with
              | None => None
              | Some j => index_from fuel (i + j + 1) (string_drop (j + 1) s) op
              end
            else if HasPrefix s op then Some i
            else index_from fuel (i + 1) s' op
        end
      else None
  end.

(** The string shrinks in every round, so its length bounds the rounds. *)
Definition indexOutside (s op : string) : option nat := index_from (S (String.length s)) 0 s op.

Record opThreshold := mk_opThreshold { op : string; threshold : float64 }.

Definition compareOp (o : string) (v t : float64) : bool :=
  if bool_decide (o = ">") then f64_gt v t
  else if bool_decide (o = "<") then f64_lt v t
  else if bool_decide (o = ">=") then f64_le t v
  else if bool_decide (o = "<=") then f64_le v t
  else if bool_decide (o = "==") then f64_eq v t
  else if bool_decide (o = "!=") then negb (f64_eq v t)
  else false.

Definition operators : list string := [">="; "<="; "=="; "!="; ">"; "<"].

Section Expr.
Context (scan_f : string → option float64).

Fixpoint try_ops (e : string) (ops : list string) : option (string * opThreshold) :=
  match ops with
  | [] => None
  | o :: ops =>
      match indexOutside e o with
      | Some i =>
          let name := TrimSpace (string_take i e) in
          let rest := TrimSpace (string_drop (i + String.length o) e) in
          match scan_f rest with
          | None => None
          | Some v => Some (name, mk_opThreshold o v)
          end
      | None => try_ops e ops
      end
  end.

Definition splitExpr (expr : string) : option (string * opThreshold) := try_ops expr operators.

Fixpoint sum_matching (mts : list Metric) (name : string) (sum : float64) (found : bool) : float64 * bool :=
  match mts with
  | [] => (sum, found)
  | mm :: mts =>
      if bool_decide (Name mm = name) then sum_matching mts name (f64_add sum (Value mm)) true
      else sum_matching mts name sum found
  end.

Definition evalExpr (expr : string) (it : list Metric) : float64 * bool :=
  match splitExpr expr with
  | None => (f64_zero, false)
  | Some (name, _) => sum_matching (Snapshot it) name f64_zero false
  end.

Definition matchesThreshold (expr : string) (v : float64) : bool :=
  match splitExpr expr with
  | None => false
  | Some (_, o) => compareOp (op o) v (threshold o)
  end.

(** ** Evaluation *)

Inductive transition := NoChange | Fires | Resolves.

(** The body of the loop for one rule, on the outcome of its expression. *)
Definition alert_step (now : Time) (r : AlertRule) (st : AlertState) (v : float64) (ok matches : bool) :
    AlertState * transition :=
  let st := mk_AlertState (asRule st) (asFiring st) (asPendingSince st) now v in
  if negb ok then (st, NoChange)
  else if matches then
    if negb (asFiring st) then
      if IsZero (asPendingSince st) then
        (mk_AlertState (asRule st) (asFiring st) now now v, NoChange)
      else if (arFor r <=? time_Sub now (asPendingSince st))%Z then
        (mk_AlertState (asRule st) true (asPendingSince st) now v, Fires)
      else (st, NoChange)
    else (st, NoChange)
  else
    (mk_AlertState (asRule st) false 0 now v, if asFiring st then Resolves else NoChange).

(** The loop; a rule without state would be a nil dereference. *)
Fixpoint evaluate_rules (now : Time) (it : list Metric) (rs : list AlertRule)
    (state : gmap string AlertState) (firing resolved : list AlertState) :
    go (gmap string AlertState * list AlertState * list AlertState) :=
  match rs with
  | [] => Ret (state, firing, resolved)
  | r :: rs =>
      match state !! arID r with
      | None => Panic
      | Some st =>
          let '(v, ok) := evalExpr (arExpression r) it in
          let '(st', tr) := alert_step now r st v ok (matchesThreshold (arExpression r) v) in
          (* the copy appended to [resolved] is taken before the reset *)
          let before := mk_AlertState (asRule st) (asFiring st) (asPendingSince st) now v in
          evaluate_rules now it rs (<[arID r := st']> state)
            (match tr with Fires => firing ++ [st'] | _ => firing end)
            (match tr with Resolves => resolved ++ [before] | _ => resolved end)
      end
  end.

Definition Evaluate (a : Alerts) (now : Time) (it : list Metric) :
    go (Alerts * list AlertState * list AlertState) :=
  go_bind (evaluate_rules now it (rules a) (state a) [] []) (λ '(s, f, r),
    Ret (mk_Alerts (rules a) s, f, r)).

End Expr.

Definition State_ (a : Alerts) : list AlertState := (map_to_list (state a)).*2.

(** ** The evaluation never dereferences a missing state *)

Definition alerts_wf (a : Alerts) : Prop := Forall (λ r, is_Some (state a !! arID r)) (rules a).

Lemma Add_wf a r : alerts_wf a → alerts_wf (Add a r).
Proof.
  unfold alerts_wf, Add. cbn. rewrite !Forall_forall. intros H x [Hx| ->%list_elem_of_singleton]%elem_of_app.
  - rewrite lookup_insert. case_decide; [by eexists|auto].
  - rewrite lookup_insert_eq. by eexists.
Qed.

Lemma evaluate_rules_total scan_f now it rs s f r :
  Forall (λ r, is_Some (s !! arID r)) rs →
  ∃ s' f' r', evaluate_rules scan_f now it rs s f r = Ret (s', f', r') ∧
    ∀ id, is_Some (s !! id) → is_Some (s' !! id).
Proof.
  revert s f r. induction rs as [|x rs IH]; intros s f r Hs; cbn; [by eexists _, _, _|].
  inversion_clear Hs as [|? ? [st Hst] Hrs]. rewrite Hst.
  destruct (evalExpr _ _ _) as [v ok]. destruct (alert_step _ _ _ _ _ _) as [st' tr].
  edestruct (IH (<[arID x := st']> s)) as (s' & f' & r' & He & Hk).
  { eapply Forall_impl; [exact Hrs|]. cbn. intros y Hy. rewrite lookup_insert. case_decide; [by eexists|done]. }
  rewrite He. eexists _, _, _. split; [done|]. intros id Hid. apply Hk. rewrite lookup_insert.
  case_decide; [by eexists|done].
Qed.

(** ** One rule over time *)

(** A rule evaluated at times with the value of its expression and the truth of
    its comparison, [None] when the expression had no value (no such metric). *)
Definition observation : Type := Time * float64 * option bool.
Fixpoint run_alert (r : AlertRule) (st : AlertState) (obs : list observation) :
    AlertState * list transition :=
  match obs with
  | [] => (st, [])
  | (now, v, b) :: obs =>
      let '(st, tr) := alert_step now r st v (bool_decide (is_Some b)) (default false b) in
      let '(st, trs) := run_alert r st obs in (st, tr :: trs)
  end.

Lemma run_alert_app r st o1 o2 :
  run_alert r st (o1 ++ o2) =
    let '(st1, t1) := run_alert r st o1 in
    let '(st2, t2) := run_alert r st1 o2 in (st2, t1 ++ t2).
Proof.
  revert st. induction o1 as [|[[now v] b] o1 IH]; intros st; cbn [run_alert app].
  { by destruct (run_alert r st o2). }
  destruct (alert_step _ _ _ _ _ _) as [st1 tr]. rewrite IH.
  destruct (run_alert r st1 o1) as [st2 t1]. by destruct (run_alert r st2 o2).
Qed.

Definition init_state (r : AlertRule) : AlertState := mk_AlertState r false 0 0 f64_zero.

Definition is_fires (t : transition) : bool := match t with Fires => true | _ => false end.
Definition fires_in (l : list transition) : nat := length (List.filter is_fires l).

(** The comparison has held since [t0]: the rule fires once, at the first later
    observation of a match at which it has held for the rule's duration. *)
Definition due (r : AlertRule) (t0 : Time) (o : observation) : bool :=
  bool_decide (o.2 = Some true) && (arFor r <=? time_Sub o.1.1 t0)%Z.

Lemma run_held r st t0 run :
  asPendingSince st = t0 → t0 ≠ 0%Z → Forall (λ o, o.2 ≠ Some false) run →
  let '(st', trs) := run_alert r st run in
  asPendingSince st' = t0 ∧ asFiring st' = asFiring st || existsb (due r t0) run ∧
  fires_in trs = if negb (asFiring st) && existsb (due r t0) run then 1 else 0.
Proof.
  intros Hp Hz Hrun. revert st Hp. induction Hrun as [|[[now v] b] run Hb Hrun IH]; intros st Hp; cbn [run_alert].
  { rewrite orb_false_r, andb_false_r. done. }
  cbn in Hb. unfold alert_step. cbn [asFiring asPendingSince].
  rewrite Hp. unfold IsZero. rewrite (proj2 (Z.eqb_neq _ _)) by done. cbn [existsb]. unfold due at 1 3. cbn [fst snd].
  assert (Hnext : ∀ f, let '(st', trs) := run_alert r (mk_AlertState (asRule st) f t0 now v) run in
    asPendingSince st' = t0 ∧ asFiring st' = f || existsb (due r t0) run ∧
    fires_in trs = if negb f && existsb (due r t0) run then 1 else 0) by (intros f; by apply IH).
  destruct b as [[]|]; [|done|].
  - rewrite !bool_decide_true by done. change (default false (Some true)) with true. cbn [negb andb asRule].
    destruct (asFiring st) eqn:Ef; cbn [negb].
    + specialize (Hnext true). destruct (run_alert _ _ _) as [st' trs]. destruct Hnext as (H1 & H2 & H3). cbn in *. auto.
    + destruct (arFor r <=? time_Sub now t0)%Z; [|specialize (Hnext false); by destruct (run_alert _ _ _)].
      specialize (Hnext true). destruct (run_alert _ _ _) as [st' trs]. destruct Hnext as (H1 & H2 & H3). cbn in *.
      split_and!; [done..|]. unfold fires_in in *. cbn. by rewrite H3.
  - rewrite !bool_decide_false by (done || by intros [? ?]). cbn [negb andb orb].
    specialize (Hnext (asFiring st)). by destruct (run_alert _ _ _) as [st' trs].
Qed.

(** Nothing held yet, or no longer. *)
Definition clean (st : AlertState) : Prop := asFiring st = false ∧ asPendingSince st = 0%Z.

(** Observations after which no match is left: none but missing values since the
    beginning or since the last one that did not match. *)
Definition settled (pre : list observation) : Prop :=
  ∃ p q, pre = p ++ q ∧ (p = [] ∨ ∃ p' now v, p = p' ++ [(now, v, Some false)]) ∧ Forall (λ o, o.2 = None) q.

Lemma run_missing r st q : clean st → Forall (λ o, o.2 = None) q → clean (run_alert r st q).1.
Proof.
  intros Hc Hq. revert st Hc. induction Hq as [|[[now v] b] q Hb Hq IH]; intros st Hc; [done|].
  cbn in Hb. subst b. cbn [run_alert]. unfold alert_step. cbn [default]. rewrite bool_decide_false by by intros [? ?].
  cbn [negb]. specialize (IH (mk_AlertState (asRule st) (asFiring st) (asPendingSince st) now v) Hc).
  by destruct (run_alert _ _ _).
Qed.

Lemma run_settled r pre : settled pre → clean (run_alert r (init_state r) pre).1.
Proof.
  intros (p & q & -> & Hp & Hq). rewrite run_alert_app.
  assert (clean (run_alert r (init_state r) p).1) as Hc.
  { destruct Hp as [->|(p' & now & v & ->)]; [done|]. rewrite run_alert_app. by destruct (run_alert r _ p'). }
  destruct (run_alert r (init_state r) p) as [st t]. pose proof (run_missing r st q Hc Hq) as Hm.
  by destruct (run_alert r st q).
Qed.

Lemma run_alert_length r st obs : length (run_alert r st obs).2 = length obs.
Proof.
  revert st. induction obs as [|[[now v] b] obs IH]; intros st; [done|].
  cbn [run_alert]. destruct (alert_step _ _ _ _ _ _) as [st1 tr]. specialize (IH st1).
  destruct (run_alert r st1 obs). cbn in *. lia.
Qed.

(** C21: A rule fires exactly when its comparison has held long enough.  Take the
    evaluations since the rule was added up to the first match after the last
    one that did not match (evaluations without a value apart): before that
    match the alert is neither firing nor pending.  From it on, over further
    evaluations that match or have no value, the alert is pending since that
    match, and it is firing if and only if some later match came at least [For]
    after it, in which case it was reported exactly once; an evaluation
    without a value changes none of this.  (The first match at a time other than
    Go's zero time.) *)
Theorem alert_fires_when_held (r : AlertRule) (pre run : list observation) (t0 : Time) (v0 : float64) :
  settled pre → t0 ≠ 0%Z → Forall (λ o, o.2 ≠ Some false) run →
  clean (run_alert r (init_state r) pre).1 ∧
  let '(st, trs) := run_alert r (init_state r) (pre ++ (t0, v0, Some true) :: run) in
  asPendingSince st = t0 ∧ asFiring st = existsb (due r t0) run ∧
  fires_in (drop (length pre) trs) = if existsb (due r t0) run then 1 else 0.
Proof.
  intros Hpre Hz Hrun. pose proof (run_settled r pre Hpre) as Hc. pose proof (run_alert_length r (init_state r) pre) as Hlen.
  split; [done|]. rewrite run_alert_app.
  destruct (run_alert r (init_state r) pre) as [st1 t1]. cbn [fst snd] in *. destruct Hc as [Hf Hp].
  cbn [run_alert]. unfold alert_step. rewrite bool_decide_true by done.
  change (default false (Some true)) with true. cbn [negb asFiring asPendingSince]. rewrite Hf, Hp. cbn [negb IsZero Z.eqb].
  pose proof (run_held r (mk_AlertState (asRule st1) false t0 t0 v0) t0 run eq_refl Hz Hrun) as H.
  destruct (run_alert r _ run) as [st2 t2]. destruct H as (H1 & H2 & H3). cbn in H2, H3.
  split_and!; [done..|]. rewrite drop_app_length' by done. exact H3.
Qed.

Definition ex_rule : AlertRule := mk_AlertRule "r" "high" "warn" "cpu > 80" 10.

Lemma alert_fires_when_held_witness :
  let '(st, trs) := run_alert ex_rule (init_state ex_rule)
    ([(1, f64_zero, Some false); (3, f64_zero, None)] ++ (5, f64_of_Z 90, Some true) ::
     [(9, f64_of_Z 91, Some true); (16, f64_zero, None); (20, f64_of_Z 92, Some true)])%Z in
  asPendingSince st = 5%Z ∧ asFiring st = true ∧ fires_in (drop 2 trs) = 1.
Proof.
  refine (proj2 (alert_fires_when_held ex_rule [(1%Z, f64_zero, Some false); (3%Z, f64_zero, None)]
           [(9%Z, f64_of_Z 91, Some true); (16%Z, f64_zero, None); (20%Z, f64_of_Z 92, Some true)] 5 (f64_of_Z 90)
           _ ltac:(discriminate) _)).
  - exists [(1%Z, f64_zero, Some false)], [(3%Z, f64_zero, None)]. split; [reflexivity|].
    split; [right; by exists [], 1%Z, f64_zero|repeat constructor].
  - repeat constructor; discriminate.
Defined.

(** Even with [For] zero an alert fires on the second evaluation at the earliest. *)
Lemma first_match_never_fires now r st v :
  asFiring st = false → asPendingSince st = 0%Z → (alert_step now r st v true true).2 = NoChange.
Proof. unfold alert_step. cbn. by intros -> ->. Qed.

(** The step of a rule on its own expression. *)
Definition rule_step scan_f (now : Time) (it : list Metric) (r : AlertRule) (st : AlertState) :
    AlertState * transition :=
  let '(v, ok) := evalExpr scan_f (arExpression r) it in
  alert_step now r st v ok (matchesThreshold scan_f (arExpression r) v).

Record evaluated scan_f (now : Time) (it : list Metric) (rs : list AlertRule)
    (s s' : gmap string AlertState) (f0 f : list AlertState) : Prop := {
  ev_frame : ∀ id, id ∉ arID <$> rs → s' !! id = s !! id;
  ev_step : ∀ r st, r ∈ rs → s !! arID r = Some st →
    s' !! arID r = Some (rule_step scan_f now it r st).1 ∧
    (is_fires (rule_step scan_f now it r st).2 = true → (rule_step scan_f now it r st).1 ∈ f);
  ev_keep : ∀ x, x ∈ f0 → x ∈ f;
  ev_only : ∀ x, x ∈ f → x ∈ f0 ∨ ∃ r st, r ∈ rs ∧ s !! arID r = Some st ∧
    rule_step scan_f now it r st = (x, Fires);
}.

Lemma evaluate_rules_spec scan_f now it rs s f0 r0 :
  Forall (λ r, is_Some (s !! arID r)) rs → NoDup (arID <$> rs) →
  ∃ s' f r', evaluate_rules scan_f now it rs s f0 r0 = Ret (s', f, r') ∧
    evaluated scan_f now it rs s s' f0 f.
Proof.
  revert s f0 r0. induction rs as [|x rs IH]; intros s f0 r0 Hs Hnd; cbn [evaluate_rules].
  { eexists _, _, _. split; [done|]. split; set_solver. }
  inversion_clear Hs as [|? ? [st Hst] Hrs]. apply NoDup_cons in Hnd as [Hx Hnd]. rewrite Hst.
  destruct (evalExpr scan_f (arExpression x) it) as [v ok] eqn:Ev.
  destruct (alert_step now x st v ok _) as [st' tr] eqn:Est.
  assert (rule_step scan_f now it x st = (st', tr)) as Hstep by (unfold rule_step; by rewrite Ev, Est).
  assert (Hother : ∀ r, r ∈ rs → <[arID x := st']> s !! arID r = s !! arID r).
  { intros r Hr. rewrite lookup_insert_ne; [done|]. intros E. apply Hx. rewrite E. by apply list_elem_of_fmap_2. }
  edestruct (IH (<[arID x := st']> s)) as (s' & f & r' & He & [Hfr Hev Hk Ho]); [|done|].
  { rewrite Forall_forall in Hrs |- *. intros r Hr. rewrite Hother by done. auto. }
  rewrite He. exists s', f, r'. split; [done|]. split.
  - intros id Hid. rewrite Hfr, lookup_insert_ne; set_solver.
  - intros r st0 [->|Hr]%elem_of_cons Hst0.
    + assert (st0 = st) as -> by congruence. rewrite Hstep. cbn.
      rewrite Hfr, lookup_insert_eq by done. split; [done|]. intros Hf. apply Hk. destruct tr; set_solver.
    + apply Hev; [done|]. by rewrite Hother.
  - intros y Hy. apply Hk. destruct tr; set_solver.
  - intros y Hy. destruct (Ho y Hy) as [Hin|(r & st0 & Hr & Hst0 & Hf)].
    + destruct tr; [by left| |by left]. apply elem_of_app in Hin as [?| ->%list_elem_of_singleton]; [by left|].
      right. exists x, st. split; [set_solver|done].
    + right. exists r, st0. split; [set_solver|]. by rewrite Hother in Hst0.
Qed.

(** One evaluation of a set of rules with distinct IDs never fails, takes
    each rule's state through one step on that rule's own expression, and
    reports as firing exactly the rules whose step fires. *)
Theorem Evaluate_steps_each_rule scan_f (a : Alerts) (now : Time) (it : list Metric) :
  alerts_wf a → NoDup (arID <$> rules a) →
  ∃ a' f res, Evaluate scan_f a now it = Ret (a', f, res) ∧ rules a' = rules a ∧
    (∀ r st, r ∈ rules a → state a !! arID r = Some st →
       state a' !! arID r = Some (rule_step scan_f now it r st).1) ∧
    (∀ x, x ∈ f ↔ ∃ r st, r ∈ rules a ∧ state a !! arID r = Some st ∧
       rule_step scan_f now it r st = (x, Fires)).
Proof.
  intros Hwf Hnd. unfold Evaluate.
  destruct (evaluate_rules_spec scan_f now it (rules a) (state a) [] [] Hwf Hnd)
    as (s' & f & r' & -> & [_ Hev _ Ho]).
  eexists _, _, _. split; [done|]. split; [done|]. split.
  - intros r st Hr Hst. apply (Hev r st Hr Hst).
  - intros x. split.
    + intros Hx. destruct (Ho x Hx) as [?|?]; [set_solver|done].
    + intros (r & st & Hr & Hst & Hf). pose proof (Hev r st Hr Hst) as [_ Hin]. rewrite Hf in Hin. by apply Hin.
Qed.

(** A scanner for a few texts, to run examples. *)
Definition ex_scan (s : string) : option float64 :=
  if bool_decide (s = "80") then Some (f64_of_Z 80) else None.
Definition ex_metric (name : string) (z : Z) : Metric :=
  mk_Metric name "" "counter" ∅ (f64_of_Z z) [] [] f64_zero 0.
Definition ex_alerts : Alerts :=
  mk_Alerts [ex_rule] {["r" := mk_AlertState ex_rule false 5 5 (f64_of_Z 90)]}.

Lemma Evaluate_steps_each_rule_witness : ∃ a' f res,
  Evaluate ex_scan ex_alerts 20 [ex_metric "cpu" 90] = Ret (a', f, res) ∧
  mk_AlertState ex_rule true 5 20 (f64_of_Z 90) ∈ f.
Proof.
  destruct (Evaluate_steps_each_rule ex_scan ex_alerts 20 [ex_metric "cpu" 90])
    as (a' & f & res & He & _ & _ & Hf).
  - repeat constructor. by eexists.
  - by apply NoDup_singleton.
  - exists a', f, res. split; [exact He|]. apply Hf. exists ex_rule, (mk_AlertState ex_rule false 5 5 (f64_of_Z 90)).
    split; [set_solver|]. split; [reflexivity|]. vm_compute. reflexivity.
Defined.

(** ** Parsing of expressions *)

Lemma index_from_none fuel i s c o :
  string_In c s = false → string_In "{" s = false → index_from fuel i s (String c o) = None.
Proof.
  revert i s. induction fuel as [|fuel IH]; intros i s Hc Hb; [done|]. cbn [index_from].
  case_bool_decide; [|done]. destruct s as [|a s]; [done|]. cbn in Hc, Hb.
  apply orb_false_iff in Hc as [Ha Hc]. apply orb_false_iff in Hb as [Hba Hb]. rewrite Hba.
  assert (HasPrefix (String a s) (String c o) = false) as ->; [|auto].
  unfold HasPrefix. cbn. destruct (ascii_dec c a) as [->|]; [|done]. by rewrite Ascii.eqb_refl in Ha.
Qed.

Lemma index_from_skip fuel i p s c o :
  string_In c p = false → string_In "{" p = false → String.length (String c o) ≤ String.length s →
  index_from (String.length p + fuel) i (p +:+ s) (String c o) =
  index_from fuel (i + String.length p) s (String c o).
Proof.
  revert i. induction p as [|a p IH]; intros i Hc Hb Hl; cbn [String.length Nat.add].
  { by rewrite Nat.add_0_r. }
  cbn in Hc, Hb. apply orb_false_iff in Hc as [Ha Hc]. apply orb_false_iff in Hb as [Hba Hb].
  change (String a p +:+ s) with (String a (p +:+ s)). cbn [index_from].
  rewrite bool_decide_true by (cbn [String.length] in *; rewrite string_length_app; lia). rewrite Hba.
  assert (HasPrefix (String a (p +:+ s)) (String c o) = false) as ->.
  { unfold HasPrefix. cbn. destruct (ascii_dec c a) as [->|]; [|done]. by rewrite Ascii.eqb_refl in Ha. }
  rewrite IH by done. f_equal. lia.
Qed.

Lemma index_found p r c o :
  string_In c p = false → string_In "{" p = false → Ascii.eqb c "{" = false →
  indexOutside (p +:+ String c o +:+ r) (String c o) = Some (String.length p).
Proof.
  intros Hc Hb Hne. unfold indexOutside. rewrite string_length_app.
  replace (S (String.length p + String.length (String c o +:+ r)))
    with (String.length p + S (String.length (String c o +:+ r))) by lia.
  rewrite index_from_skip by (try done; rewrite string_length_app; lia).
  pose proof (HasPrefix_app (String c o) r) as Hp. change (String c o +:+ r) with (String c (o +:+ r)) in *.
  cbn [index_from]. rewrite bool_decide_true by (cbn; rewrite string_length_app; lia).
  by rewrite Hne, Hp.
Qed.

Lemma index_missed p r c d d' :
  string_In c p = false → string_In "{" p = false → Ascii.eqb c "{" = false → d ≠ d' →
  string_In c (String d r) = false → string_In "{" (String d r) = false →
  indexOutside (p +:+ String c (String d r)) (String c (String d' "")) = None.
Proof.
  intros Hc Hb Hne Hd Hc' Hb'. unfold indexOutside. rewrite string_length_app.
  replace (S (String.length p + String.length (String c (String d r))))
    with (String.length p + S (String.length (String c (String d r)))) by lia.
  rewrite index_from_skip by (try done; cbn; lia).
  cbn [index_from]. rewrite bool_decide_true by (cbn; lia). rewrite Hne.
  assert (HasPrefix (String c (String d r)) (String c (String d' "")) = false) as ->.
  { unfold HasPrefix. cbn. destruct (ascii_dec c c); [|done]. by destruct (ascii_dec d' d); [subst|]. }
  by apply index_from_none.
Qed.

Lemma index_absent s c o :
  string_In c s = false → string_In "{" s = false → indexOutside s (String c o) = None.
Proof. apply index_from_none. Qed.

Lemma TrimSpace_after s : no_space s = true → TrimSpace (s +:+ " ") = s.
Proof.
  intros Hs. unfold TrimSpace, Trim.
  assert (trim_left is_space (s +:+ " ") = if bool_decide (s = "") then "" else s +:+ " ") as ->.
  { destruct s as [|a s]; [done|]. cbn in *. apply andb_true_iff in Hs as [Ha _].
    apply negb_true_iff in Ha. by rewrite Ha. }
  case_bool_decide; [by subst|]. rewrite trim_right_no_space by done. cbn. apply string_app_nil_r.
Qed.

Lemma TrimSpace_before s : no_space s = true → TrimSpace (" " +:+ s) = s.
Proof.
  intros Hs. unfold TrimSpace, Trim. cbn.
  assert (trim_left is_space s = s) as ->.
  { destruct s as [|a s]; [done|]. cbn in *. apply andb_true_iff in Hs as [Ha _].
    apply negb_true_iff in Ha. by rewrite Ha. }
  pose proof (trim_right_no_space s "" Hs) as Ht. cbn [trim_right] in Ht.
  by rewrite !string_app_nil_r in Ht.
Qed.

(** A word of an expression: no space, operator character or brace. *)
Definition plain (s : string) : Prop :=
  no_space s = true ∧ string_In ">" s = false ∧ string_In "<" s = false ∧ string_In "=" s = false ∧
  string_In "!" s = false ∧ string_In "{" s = false.

(** Expressions of the form "metric op value" are parsed as written: with
    plain words around one of the six operators, the parts are the metric's
    name, that operator (never a shorter or longer one), and the scanned value. *)
Theorem splitExpr_correct scan_f (name o vt : string) (v : float64) :
  plain name → plain vt → o ∈ operators → scan_f vt = Some v →
  splitExpr scan_f (name +:+ " " +:+ o +:+ " " +:+ vt) = Some (name, mk_opThreshold o v).
Proof.
  intros (Hns & Hn1 & Hn2 & Hn3 & Hn4 & Hn5) (Hvs & Hv1 & Hv2 & Hv3 & Hv4 & Hv5) Ho Hscan.
  rewrite (string_app_assoc name " ").
  assert (Hres : ∀ ops, indexOutside ((name +:+ " ") +:+ o +:+ " " +:+ vt) o = Some (String.length (name +:+ " ")) →
    try_ops scan_f ((name +:+ " ") +:+ o +:+ " " +:+ vt) (o :: ops) = Some (name, mk_opThreshold o v)).
  { intros ops Hi. cbn [try_ops]. rewrite Hi, string_take_app, TrimSpace_after by done.
    rewrite string_drop_app_add, string_drop_app, TrimSpace_before, Hscan by done. done. }
  assert (Hin : ∀ c, string_In c (name +:+ " ") = string_In c name || string_In c " ")
    by (intros c; apply string_In_app).
  assert (Hall : ∀ c, string_In c ((name +:+ " ") +:+ o +:+ " " +:+ vt) =
    string_In c name || string_In c " " || string_In c o || string_In c " " || string_In c vt).
  { intros c. by rewrite !string_In_app, !orb_assoc. }
  assert (Hf : ∀ c o', o = String c o' → string_In c name = false → string_In c " " = false →
    Ascii.eqb c "{" = false →
    indexOutside ((name +:+ " ") +:+ o +:+ " " +:+ vt) o = Some (String.length (name +:+ " "))).
  { intros c o' -> H1 H2 H3. apply index_found; rewrite ?Hin, ?H1, ?Hn5; done. }
  assert (Hskip : ∀ c o' ops, string_In c name = false → string_In c " " = false → string_In c o = false →
    string_In c vt = false → string_In "{" o = false →
    try_ops scan_f ((name +:+ " ") +:+ o +:+ " " +:+ vt) (String c o' :: ops) =
    try_ops scan_f ((name +:+ " ") +:+ o +:+ " " +:+ vt) ops).
  { intros c o' ops H1 H2 H3 H4 H5. cbn [try_ops].
    rewrite index_absent by (rewrite Hall, ?H1, ?H2, ?H3, ?H4, ?H5, ?Hn5, ?Hv5; done). done. }
  unfold splitExpr, operators. unfold operators in Ho.
  assert (Hmiss : ∀ p c d' ops, ((name +:+ " ") +:+ o +:+ " " +:+ vt) = p +:+ String c (String " " vt) →
    string_In c p = false → string_In "{" p = false → Ascii.eqb c "{" = false → d' ≠ " "%char →
    string_In c vt = false → Ascii.eqb " " c = false →
    try_ops scan_f ((name +:+ " ") +:+ o +:+ " " +:+ vt) (String c (String d' "") :: ops) =
    try_ops scan_f ((name +:+ " ") +:+ o +:+ " " +:+ vt) ops).
  { intros p c d' ops E H1 H2 H3 H4 H5 H6. cbn [try_ops]. rewrite E.
    rewrite (index_missed p vt c " " d'); [done|done..|by apply not_eq_sym| |exact Hv5].
    cbn [string_In]. by rewrite H5, H6. }
  repeat (apply elem_of_cons in Ho as [->|Ho]); [..|set_solver].
  - by apply Hres, (Hf ">"%char "=").
  - rewrite Hskip by done. by apply Hres, (Hf "<"%char "=").
  - rewrite !Hskip by done. by apply Hres, (Hf "="%char "=").
  - rewrite (Hskip ">"%char), (Hskip "<"%char) by done.
    rewrite (Hmiss ((name +:+ " ") +:+ "!") "="%char "="%char);
      [by apply Hres, (Hf "!"%char "=")|by rewrite <- (string_app_assoc (name +:+ " ") "!")| | |done..];
      rewrite string_In_app, Hin, ?Hn3, ?Hn5; done.
  - rewrite (Hmiss (name +:+ " ") ">"%char "="%char), (Hskip "<"%char), (Hskip "="%char), (Hskip "!"%char)
      by (rewrite ?Hin, ?Hn1, ?Hn5; done).
    by apply Hres, (Hf ">"%char "").
  - rewrite (Hskip ">"%char), (Hmiss (name +:+ " ") "<"%char "="%char), (Hskip "="%char), (Hskip "!"%char),
      (Hskip ">"%char) by (rewrite ?Hin, ?Hn2, ?Hn5; done).
    by apply Hres, (Hf "<"%char "").
Qed.

Lemma splitExpr_correct_witness :
  splitExpr ex_scan ("cpu" +:+ " " +:+ ">" +:+ " " +:+ "80") =
  Some ("cpu", mk_opThreshold ">" (f64_of_Z 80)).
Proof.
  apply (splitExpr_correct ex_scan "cpu" ">" "80" (f64_of_Z 80)).
  - repeat split.
  - repeat split.
  - unfold operators. set_solver.
  - reflexivity.
Defined.

(** The label block the expression syntax allows stays part of the name, which
    no metric has: such a rule is never evaluated. *)
Lemma labels_never_match :
  evalExpr ex_scan "cpu{node=a} > 80" [ex_metric "cpu" 90] = (f64_zero, false).
Proof. vm_compute. reflexivity. Qed.
