(* ===== verification/Autoscale.v ===== *)
(** * Package autoscale: the horizontal autoscaler

    Models internal/autoscale/autoscale.go over the store and the metrics
    registry.  [time.Now] and the metrics' iteration order are arguments. *)

From S2P Require Import Prelude GoFloat State Metrics Scheduler.

Record Policy := mk_Policy {
  poMin : Z; poMax : Z; poTargetCPU : float64; poScaleUpBy : Z; poScaleDownBy : Z; poCooldown : Duration;
}.

Record Spec := mk_Spec {
  spProjectID : string; spWorkloadID : string; spPolicy : Policy; spUpdatedAt : Time;
}.

Record Controller := mk_Controller { specs : gmap string Spec; lastAton : gmap string Time }.

Definition New : Controller := mk_Controller ∅ ∅.

Definition spec_key (projectID workloadID : string) : string := projectID +:+ "/" +:+ workloadID.

Definition SetPolicy (now : Time) (c : Controller) (projectID workloadID : string) (p : Policy) : Controller :=
  mk_Controller (<[spec_key projectID workloadID := mk_Spec projectID workloadID p now]> (specs c)) (lastAton c).

Definition RemovePolicy (c : Controller) (projectID workloadID : string) : Controller :=
  mk_Controller (delete (spec_key projectID workloadID) (specs c)) (lastAton c).

Definition workloadMetricKey (projectID workloadID : string) : string :=
  "workload_cpu_" +:+ projectID +:+ "_" +:+ workloadID.

(** The two scaling branches: the replica count the policy asks for. *)
Definition desired (p : Policy) (avg : float64) (replicas : Z) : Z :=
  let want := replicas in
  let want :=
    if f64_gt avg (poTargetCPU p) && (replicas <? poMax p)%Z then
      let want := i64 (want + poScaleUpBy p) in
      if (poMax p <? want)%Z then poMax p else want
    else want in
  if f64_lt avg (f64_div (poTargetCPU p) (f64_of_Z 2)) && (poMin p <? replicas)%Z then
    let want := i64 (want - poScaleDownBy p) in
    if (want <? poMin p)%Z then poMin p else want
  else want.

Section Evaluate.
Context {S : Type} `{WorkloadStore S}.

(** [now] is the clock at the cooldown check, [done] the one read after the
    update. *)
Definition evaluateOne (now done : Time) (it : list Metric) (c : Controller) (s : S) (x : Spec) :
    Controller * S * option error :=
  match GetWorkload s (spProjectID x) (spWorkloadID x) with
  | Err _ => (c, s, None)
  | Ok w =>
      let avg := AvgCPU it (workloadMetricKey (wlProjectID w) (wlID w)) in
      let want := desired (spPolicy x) avg (wlReplicas w) in
      let key := spec_key (wlProjectID w) (wlID w) in
      let last := default 0%Z (lastAton c !! key) in
      if (time_Sub now last <? poCooldown (spPolicy x))%Z then (c, s, None)
      else if (want =? wlReplicas w)%Z then (c, s, None)
      else
        match UpdateWorkload s (set_wlReplicas (i32 want) w) with
        | (s, Some e) => (c, s, Some e)
        | (s, None) => (mk_Controller (specs c) (<[key := done]> (lastAton c)), s, None)
        end
  end.

(** One pass over the specs in the order [order] the map is iterated in. *)
Fixpoint evaluate (clock : nat → Time * Time) (n : nat) (it : list Metric) (order : list Spec)
    (c : Controller) (s : S) : Controller * S :=
  match order with
  | [] => (c, s)
  | x :: order =>
      let '(now, done) := clock n in
      let '(c, s, _) := evaluateOne now done it c s x in
      evaluate clock (n + 1) it order c s
  end.

(** The ticks of [Run]; each has its clock, the metrics' iteration order, and
    the iteration order of the specs. *)
Fixpoint Run (ticks : list ((nat → Time * Time) * list Metric * (gmap string Spec → list Spec)))
    (c : Controller) (s : S) : Controller * S :=
  match ticks with
  | [] => (c, s)
  | (clock, it, order) :: ticks =>
      let '(c, s) := evaluate clock 0 it (order (specs c)) c s in Run ticks c s
  end.

End Evaluate.

(** ** Properties *)

(** A policy whose numbers make sense: bounds within int32, steps not negative. *)
Record policy_ok (p : Policy) : Prop := {
  pk_bounds : (- 2 ^ 31 ≤ poMin p ≤ poMax p)%Z ∧ (poMax p < 2 ^ 31)%Z;
  pk_up : (0 ≤ poScaleUpBy p < 2 ^ 62)%Z;
  pk_down : (0 ≤ poScaleDownBy p < 2 ^ 62)%Z;
}.

Lemma desired_range p avg n :
  policy_ok p → (poMin p ≤ n ≤ poMax p)%Z → (poMin p ≤ desired p avg n ≤ poMax p)%Z.
Proof.
  intros [Hb Hu Hd] Hn. unfold desired. cbv zeta.
  assert (∀ w, (poMin p ≤ w ≤ poMax p)%Z → i64 (w + poScaleUpBy p) = (w + poScaleUpBy p)%Z ∧
    i64 (w - poScaleDownBy p) = (w - poScaleDownBy p)%Z) as Hi.
  { intros w Hw. split; apply i64_id; unfold in_i64; lia. }
  set (w1 := if _ && _ then _ else n).
  assert (poMin p ≤ w1 ≤ poMax p)%Z as H1.
  { subst w1. destruct (f64_gt _ _ && _)%bool; [|done]. rewrite (proj1 (Hi n Hn)).
    destruct (Z.ltb_spec (poMax p) (n + poScaleUpBy p)); lia. }
  clearbody w1. destruct (f64_lt _ _ && _)%bool; [|done]. rewrite (proj2 (Hi w1 H1)).
  destruct (Z.ltb_spec (w1 - poScaleDownBy p) (poMin p)); lia.
Qed.

(** Replicas are added only under a load above the target, and taken away only
    under one below half of it. *)
Lemma desired_direction p avg n :
  policy_ok p → (poMin p ≤ n ≤ poMax p)%Z →
  ((n < desired p avg n)%Z → f64_gt avg (poTargetCPU p) = true) ∧
  ((desired p avg n < n)%Z → f64_lt avg (f64_div (poTargetCPU p) (f64_of_Z 2)) = true).
Proof.
  intros [Hb Hu Hd] Hn. unfold desired. cbv zeta. split.
  - destruct (f64_gt avg (poTargetCPU p)); [done|]. cbn [andb].
    destruct (f64_lt _ _ && _)%bool; [|lia]. rewrite i64_id by (unfold in_i64; lia).
    destruct (Z.ltb_spec (n - poScaleDownBy p) (poMin p)); lia.
  - destruct (f64_lt _ _); [done|]. cbn [andb].
    destruct (f64_gt avg (poTargetCPU p) && _)%bool; [|lia]. rewrite i64_id by (unfold in_i64; lia).
    destruct (Z.ltb_spec (poMax p) (n + poScaleUpBy p)); lia.
Qed.

(** C23: One evaluation of a policy whose bounds are ordered and within int32
    and whose steps are not negative (and below 2^62).  If the workload cannot be
    read, or the last action was less than the cooldown ago, or the policy asks
    for the count there is, store and controller are as before.  Otherwise, for a
    workload whose count is within the bounds, the store is asked to replace the
    workload by the same one with a count that is again within the bounds, larger
    only if the average load is above the target, smaller only if it is below
    half the target.  If the store refuses, its error is returned, the
    controller is as before and the store is what the refused update left; if it
    accepts, it holds the workload with the new count and the time of the action
    is recorded. *)
Theorem evaluateOne_bounded {S} `{WorkloadLaws S} (now done : Time) (it : list Metric)
    (c : Controller) (s : S) (x : Spec) :
  policy_ok (spPolicy x) →
  match GetWorkload s (spProjectID x) (spWorkloadID x) with
  | Err _ => evaluateOne now done it c s x = (c, s, None)
  | Ok w =>
      let key := spec_key (wlProjectID w) (wlID w) in
      let avg := AvgCPU it (workloadMetricKey (wlProjectID w) (wlID w)) in
      let n := desired (spPolicy x) avg (wlReplicas w) in
      ((time_Sub now (default 0 (lastAton c !! key)) < poCooldown (spPolicy x))%Z ∨ n = wlReplicas w →
         evaluateOne now done it c s x = (c, s, None)) ∧
      ((poCooldown (spPolicy x) ≤ time_Sub now (default 0 (lastAton c !! key)))%Z → n ≠ wlReplicas w →
       (poMin (spPolicy x) ≤ wlReplicas w ≤ poMax (spPolicy x))%Z →
         (poMin (spPolicy x) ≤ n ≤ poMax (spPolicy x))%Z ∧
         ((wlReplicas w < n)%Z → f64_gt avg (poTargetCPU (spPolicy x)) = true) ∧
         ((n < wlReplicas w)%Z → f64_lt avg (f64_div (poTargetCPU (spPolicy x)) (f64_of_Z 2)) = true) ∧
         match UpdateWorkload s (set_wlReplicas n w) with
         | (s', Some e) => evaluateOne now done it c s x = (c, s', Some e)
         | (s', None) =>
             evaluateOne now done it c s x = (mk_Controller (specs c) (<[key := done]> (lastAton c)), s', None) ∧
             GetWorkload s' (wlProjectID w) (wlID w) = Ok (set_wlReplicas n w)
         end)
  end.
Proof.
  intros Hp. unfold evaluateOne. destruct (GetWorkload s (spProjectID x) (spWorkloadID x)) as [w|e]; [|done].
  cbv zeta. set (n := desired _ _ _).
  destruct (Z.ltb_spec (time_Sub now (default 0%Z (lastAton c !! spec_key (wlProjectID w) (wlID w))))
              (poCooldown (spPolicy x))) as [|Hcool]; [split; [done|lia]|].
  destruct (Z.eqb_spec n (wlReplicas w)) as [|Hne]; [done|].
  split; [intros [|]; [lia|done]|]. intros _ _ Hr.
  pose proof (desired_range (spPolicy x) (AvgCPU it (workloadMetricKey (wlProjectID w) (wlID w))) _ Hp Hr) as Hd.
  destruct (desired_direction (spPolicy x) (AvgCPU it (workloadMetricKey (wlProjectID w) (wlID w))) _ Hp Hr) as [H1 H2].
  fold n in Hd, H1, H2. rewrite i32_id by (pose proof (pk_bounds _ Hp); unfold in_i32; lia).
  split_and!; [lia..|done|done|].
  destruct (UpdateWorkload s (set_wlReplicas n w)) as [s' [e|]] eqn:Hu; [done|]. split; [done|].
  exact (update_get_workload _ _ _ Hu).
Qed.

Definition ex_policy : Policy := mk_Policy 1 4 (f64_of_Z 60) 2 1 30.
Definition ex_spec_x : Spec := mk_Spec "proj" "w" ex_policy 0.
Definition ex_scaled : mem :=
  mk_mem ∅ {[("proj", "w") := ex_workload "w" 3 100 1 []]} ∅ [] ∅.
Definition ex_load : list Metric := [mk_Metric "workload_cpu_proj_w" "" "counter" ∅ (f64_of_Z 95) [] [] f64_zero 0].

Lemma ex_policy_ok : policy_ok ex_policy.
Proof. split; cbn; lia. Qed.

Lemma evaluateOne_bounded_witness :
  let '(c', s', err) := evaluateOne 100 101 ex_load New ex_scaled ex_spec_x in
  lastAton c' = {["proj/w" := 101%Z]} ∧ err = None ∧
  GetWorkload s' "proj" "w" = Ok (set_wlReplicas 4 (ex_workload "w" 3 100 1 [])).
Proof.
  destruct (evaluateOne_bounded 100 101 ex_load New ex_scaled ex_spec_x ex_policy_ok) as [_ H].
  destruct H as (_ & _ & _ & H); [vm_compute; discriminate|vm_compute; discriminate|cbn; lia|].
  assert (desired (spPolicy ex_spec_x) (AvgCPU ex_load (workloadMetricKey "proj" "w")) 3 = 4%Z) as Hd
    by (vm_compute; reflexivity).
  change (wlReplicas (ex_workload "w" 3 100 1 [])) with 3%Z in H.
  change (wlProjectID (ex_workload "w" 3 100 1 [])) with "proj" in H.
  change (wlID (ex_workload "w" 3 100 1 [])) with "w" in H. rewrite Hd in H.
  destruct (UpdateWorkload ex_scaled (set_wlReplicas 4 (ex_workload "w" 3 100 1 []))) as [s' [e|]] eqn:Hu;
    [apply (f_equal snd) in Hu; vm_compute in Hu; discriminate Hu|].
  destruct H as [-> Hg]. split; [vm_compute; reflexivity|]. split; [reflexivity|exact Hg].
Defined.

(** A workload below [Min] is not raised to it while its load is low. *)
Lemma below_min_not_raised p avg n :
  f64_gt avg (poTargetCPU p) = false → (n ≤ poMin p)%Z → desired p avg n = n.
Proof.
  intros Ha Hn. unfold desired. rewrite Ha. cbn [andb].
  rewrite (proj2 (Z.ltb_ge _ _)), andb_false_r by done. done.
Qed.

(** Under load a workload above [Max] is left there. *)
Lemma above_max_not_lowered p avg n :
  f64_lt avg (f64_div (poTargetCPU p) (f64_of_Z 2)) = false → (poMax p ≤ n)%Z → desired p avg n = n.
Proof.
  intros Ha Hn. unfold desired. rewrite Ha. rewrite (proj2 (Z.ltb_ge n (poMax p))), andb_false_r by done. done.
Qed.
