(* ===== verification/Dns.v ===== *)
(** * Package dns: the service-discovery server

    Models internal/dns/dns.go: the zone, the wire format and the handling of
    one query.  A packet is a Go byte string; a query buffer that is modified in
    place is returned with the response.  The sockets and their loops are in
    DnsServe.v.  [net.ParseIP(..).To4()] is the parameter [to4]. *)

From S2P Require Import Prelude State.

Record DNSRecord := mk_DNSRecord { drBase : Base; drIP : string; drType : string }.
Definition drName (r : DNSRecord) : string := bName (drBase r).

Class DNSStore (S : Type) := {
  ListDNS : S → string → res (list DNSRecord);
  PutDNS : S → DNSRecord → S * option error;
}.

Record zoneEntry := mk_zoneEntry { Records : list DNSRecord }.

Record Server := mk_Server {
  zone : string; upstream : string; zoneData : gmap string zoneEntry;
}.

Record Config := mk_Config { cListen : string; cZone : string; cUpstream : string }.

(** The configured listen address is not kept. *)
Definition NewServer (c : Config) : Server :=
  let z := if bool_decide (cZone c = "") then "cluster.local" else cZone c in
  mk_Server z (cUpstream c) ∅.

(** ** The zone *)

Definition add_record `{UnicodeTables} (z : gmap string zoneEntry) (r : DNSRecord) : gmap string zoneEntry :=
  let full := ToLower (drName r) in
  <[full := mk_zoneEntry (default [] (Records <$> z !! full) ++ [r])]> z.

Section Zone.
Context `{UnicodeTables} {S : Type} `{ProjectStore S, DNSStore S}.

(** The error of [ListDNS] is dropped, and its slice is then nil. *)
Definition records_of (s : S) (p : Project) : list DNSRecord :=
  match ListDNS s (pjID p) with Ok rs => rs | Err _ => [] end.

Definition refreshZone (s : S) (v : Server) : Server * option error :=
  match ListProjects s with
  | Err e => (v, Some e)
  | Ok ps =>
      let z := foldl (λ z p, foldl add_record z (records_of s p)) ∅ ps in
      (mk_Server (zone v) (upstream v) z, None)
  end.

Definition UpdateRecord (s : S) (projectID name ip : string) : S * option error :=
  PutDNS s (mk_DNSRecord (mk_Base (name +:+ "." +:+ projectID) projectID name) ip "A").
End Zone.

(** ** Names on the wire *)

Definition byte (z : Z) : string := String (ascii_of_nat (Z.to_nat (u8 z))) "".
Definition byte_at (buf : string) (i : nat) : option Z := (λ a, Z.of_nat (nat_of_ascii a)) <$> String.get i buf.
Definition slice (buf : string) (i n : nat) : string := string_take n (string_drop i buf).

Definition ErrBounds : error := "dns: name out of bounds".
Definition ErrPointer : error := "dns: pointer truncated".
Definition ErrLabel : error := "dns: label out of bounds".
Definition ErrShort : error := "dns: short query".

(** [readName] from its loop's head, with the labels read so far.  A pointer is
    followed by a recursive call, to any offset: [None] is running out of the
    [fuel], which bounds the labels and pointers visited. *)
Fixpoint read_name (fuel : nat) (buf : string) (off : nat) (labels : list string) :
    option (res (string * nat)) :=
  match fuel with
  | O => None
  | S fuel =>
      match byte_at buf off with
      | None => Some (Err ErrBounds)
      | Some l =>
          let off := off + 1 in
          if (l =? 0)%Z then Some (Ok (Join labels ".", off))
          else if (192 <=? l)%Z then
            match byte_at buf off with
            | None => Some (Err ErrPointer)
            | Some lo =>
                let ptr := Z.to_nat (Z.land (l * 256 + lo) 16383) in
                match read_name fuel buf ptr [] with
                | None => None
                | Some (Err e) => Some (Err e)
                | Some (Ok (sub, _)) => Some (Ok (Join (labels ++ [sub]) ".", off + 1))
                end
            end
          else if bool_decide (String.length buf < off + Z.to_nat l) then Some (Err ErrLabel)
          else read_name fuel buf (off + Z.to_nat l) (labels ++ [slice buf off (Z.to_nat l)])
      end
  end.

Definition readName (fuel : nat) (buf : string) (off : nat) : option (res (string * nat)) :=
  read_name fuel buf off [].

Fixpoint write_labels (ls : list string) : string :=
  match ls with
  | [] => byte 0
  | l :: ls =>
      if bool_decide (l = "") then write_labels ls
      else byte (Z.of_nat (String.length l)) +:+ l +:+ write_labels ls
  end.
Definition writeName (name : string) : string := write_labels (Split "." name).

(** ** Queries *)

Definition be16 (z : Z) : string := byte (Z.shiftr z 8) +:+ byte z.
Definition be32 (z : Z) : string := be16 (Z.shiftr z 16) +:+ be16 z.
Definition uint16_at (buf : string) (i : nat) : Z :=
  (default 0 (byte_at buf i) * 256 + default 0 (byte_at buf (i + 1)))%Z.

Fixpoint set_byte (i : nat) (b : Z) (s : string) : string :=
  match s, i with
  | EmptyString, _ => EmptyString
  | String _ s, O => byte b +:+ s
  | String a s, S i => String a (set_byte i b s)
  end.

Section Query.
Context `{UnicodeTables} (to4 : string → option string).

Definition answer (qname : string) (r : DNSRecord) : string :=
  writeName qname +:+ be16 1 +:+ be16 1 +:+ be32 60 +:+ be16 4 +:+ default "" (to4 (drIP r)).

(** The header written into the response, and left in the query buffer. *)
Definition reply_header (buf : string) : string :=
  set_byte 7 0 (set_byte 6 0 (set_byte 3 128 (set_byte 2 129 (slice buf 0 12)))).

(** The counts written after the header. *)
Definition counts : string := be16 1 +:+ be16 0 +:+ be16 0 +:+ be16 0.

(** [out[6:8]] is written in place, after the bytes were put in the buffer. *)
Definition set_ancount (n : Z) (resp : string) : string :=
  set_byte 7 n (set_byte 6 (Z.shiftr n 8) resp).

(** The query buffer afterwards and the response.  [None]: out of fuel. *)
Definition handleQuery (fuel : nat) (v : Server) (buf : string) : option (string * res string) :=
  if bool_decide (String.length buf < 12) then Some (buf, Err ErrShort)
  else
    match readName fuel buf 12 with
    | None => None
    | Some (Err e) => Some (buf, Err e)
    | Some (Ok (qname, off)) =>
        if bool_decide (String.length buf < off + 4) then Some (buf, Err ErrShort)
        else
          let qtype := uint16_at buf off in
          let qclass := uint16_at buf (off + 2) in
          let hdr := reply_header buf in
          let rest := string_drop 12 buf in
          let resp := hdr +:+ counts +:+ writeName qname +:+ be16 qtype +:+ be16 qclass in
          match zoneData v !! ToLower qname with
          | Some entry =>
              if (qtype =? 1)%Z then
                let resp := set_ancount (u16 (Z.of_nat (length (Records entry)))) resp in
                Some (hdr +:+ rest, Ok (resp +:+ foldr (λ r out, answer qname r +:+ out) "" (Records entry)))
              else Some (set_byte 3 131 hdr +:+ rest, Ok resp)
          | None => Some (set_byte 3 131 hdr +:+ rest, Ok resp)
          end
    end.
(** One datagram of [serveUDP]: what is sent back. *)
Definition serve_datagram (fuel : nat) (v : Server) (packet : string) : option (option string) :=
  match handleQuery fuel v packet with
  | None => None
  | Some (_, Ok resp) => Some (Some resp)
  | Some (_, Err _) => Some None
  end.

(** One connection of [serveTCP]: the bytes the client sends before it stops,
    and those it receives; a length that does not fit in 16 bits wraps. *)
Definition serve_stream (fuel : nat) (v : Server) (input : string) : option string :=
  if bool_decide (String.length input < 2) then Some ""
  else
    let l := Z.to_nat (uint16_at input 0) in
    if bool_decide (String.length input < 2 + l) then Some ""
    else
      match handleQuery fuel v (slice input 2 l) with
      | None => None
      | Some (_, Err _) => Some ""
      | Some (_, Ok resp) => Some (be16 (u16 (Z.of_nat (String.length resp))) +:+ resp)
      end.
End Query.

(** ** Bytes *)

Lemma byte_at_app p s i : byte_at (p +:+ s) (String.length p + i) = byte_at s i.
Proof. induction p as [|a p IH]; [done|]. apply IH. Qed.

Lemma byte_at_app0 p s : byte_at (p +:+ s) (String.length p) = byte_at s 0.
Proof. rewrite <- (Nat.add_0_r (String.length p)). apply byte_at_app. Qed.

Lemma byte_at_byte k s : (0 ≤ k < 256)%Z → byte_at (byte k +:+ s) 0 = Some k.
Proof.
  intros Hk. unfold byte_at, byte, u8. cbn -[Z.modulo ascii_of_nat nat_of_ascii].
  rewrite Z.mod_small by done. rewrite nat_ascii_embedding by lia. f_equal. lia.
Qed.

Lemma slice_app p s i n : slice (p +:+ s) (String.length p + i) n = slice s i n.
Proof. unfold slice. by rewrite string_drop_app_add. Qed.

Lemma byte_length k : String.length (byte k) = 1.
Proof. done. Qed.

(** ** Round trip of names *)

Definition valid_label (l : string) : Prop :=
  l ≠ "" ∧ String.length l < 192 ∧ string_In "." l = false.

Lemma write_labels_cons l ls :
  l ≠ "" → write_labels (l :: ls) = byte (Z.of_nat (String.length l)) +:+ l +:+ write_labels ls.
Proof. intros Hl. cbn [write_labels]. by rewrite bool_decide_false. Qed.

(** One label is read back, and the loop goes on behind it. *)
Lemma read_label fuel pre l rest acc :
  valid_label l →
  read_name (S fuel) (pre +:+ (byte (Z.of_nat (String.length l)) +:+ l +:+ rest)) (String.length pre) acc =
  read_name fuel ((pre +:+ byte (Z.of_nat (String.length l)) +:+ l) +:+ rest)
    (String.length (pre +:+ byte (Z.of_nat (String.length l)) +:+ l)) (acc ++ [l]).
Proof.
  intros (Hne & Hlen & _). set (k := Z.of_nat (String.length l)).
  assert (0 < String.length l) as Hpos by (destruct l; [done|cbn; lia]).
  cbn [read_name]. rewrite byte_at_app0, byte_at_byte by (unfold k; lia).
  rewrite (proj2 (Z.eqb_neq _ _)), (proj2 (Z.leb_gt _ _)) by (unfold k; lia).
  assert (Z.to_nat k = String.length l) as -> by (unfold k; lia).
  rewrite bool_decide_false by (rewrite !string_length_app, byte_length; lia).
  f_equal.
  - by rewrite !string_app_assoc.
  - rewrite !string_length_app, byte_length. lia.
  - f_equal. f_equal. rewrite slice_app. unfold slice. rewrite (string_drop_app (byte k)).
    apply string_take_app.
Qed.

Lemma read_write_labels fuel pre ls post acc :
  Forall valid_label ls → length ls < fuel →
  read_name fuel (pre +:+ write_labels ls +:+ post) (String.length pre) acc =
    Some (Ok (Join (acc ++ ls) ".", String.length (pre +:+ write_labels ls))).
Proof.
  intros Hls. revert fuel pre acc. induction Hls as [|l ls Hl Hls IH]; intros fuel pre acc Hf.
  - destruct fuel as [|fuel]; [cbn in Hf; lia|]. cbn [read_name write_labels].
    rewrite byte_at_app0, byte_at_byte by lia. rewrite Z.eqb_refl, app_nil_r. by rewrite string_length_app.
  - destruct fuel as [|fuel]; [cbn in Hf; lia|]. rewrite write_labels_cons by apply Hl.
    rewrite <- !string_app_assoc, read_label by done. rewrite IH by (cbn in Hf; lia).
    rewrite <- app_assoc. cbn [app]. do 3 f_equal. by rewrite <- !string_app_assoc.
Qed.

Lemma read_written_name (ls : list string) (pre post : string) (fuel : nat) :
  ls ≠ [] → Forall valid_label ls → length ls < fuel →
  readName fuel (pre +:+ writeName (Join ls ".") +:+ post) (String.length pre) =
    Some (Ok (Join ls ".", String.length (pre +:+ writeName (Join ls ".")))).
Proof.
  intros Hne Hls Hf. unfold readName, writeName.
  assert (Split "." (Join ls ".") = ls) as ->.
  { apply Split_Join; [done|]. eapply Forall_impl; [done|]. by intros l (_ & _ & ?). }
  by apply read_write_labels.
Qed.

(** C18: Names survive the wire: a dotted name of valid labels (non-empty,
    shorter than 192 bytes), written anywhere in a packet, is read back as
    itself, and the reader stops right behind it. *)
Theorem name_roundtrip (ls : list string) (pre post : string) (fuel : nat) :
  ls ≠ [] → Forall valid_label ls → length ls < fuel →
  readName fuel (pre +:+ writeName (Join ls ".") +:+ post) (String.length pre) =
    Some (Ok (Join ls ".", String.length (pre +:+ writeName (Join ls ".")))).
Proof. apply read_written_name. Qed.

Lemma name_roundtrip_witness :
  readName 4 ("123456789012" +:+ writeName "web.acme.svc" +:+ "tail") 12 =
    Some (Ok ("web.acme.svc", 26)).
Proof.
  apply (name_roundtrip ["web"; "acme"; "svc"] "123456789012" "tail" 4).
  - discriminate.
  - repeat constructor; done || (cbn; lia).
  - cbn. lia.
Defined.

(** ** Termination of the reader *)

Lemma byte_at_lt buf i b : byte_at buf i = Some b → i < String.length buf.
Proof.
  unfold byte_at. revert i. induction buf as [|a buf IH]; intros i; [by destruct i|].
  destruct i as [|i]; cbn; [lia|]. intros H. specialize (IH i H). lia.
Qed.

Lemma byte_at_nonneg buf i b : byte_at buf i = Some b → (0 ≤ b < 256)%Z.
Proof.
  unfold byte_at. destruct (String.get i buf) as [a|]; [|done]. intros [= <-].
  pose proof (nat_ascii_bounded a). lia.
Qed.

(** Where the reader goes from an offset: behind a label, or to the target of a
    pointer; nowhere when it is done or fails. *)
Definition hop (buf : string) (off : nat) : option nat :=
  match byte_at buf off with
  | None => None
  | Some l =>
      if (l =? 0)%Z then None
      else if (192 <=? l)%Z then
        match byte_at buf (off + 1) with
        | None => None
        | Some lo => Some (Z.to_nat (Z.land (l * 256 + lo) 16383))
        end
      else if bool_decide (String.length buf < off + 1 + Z.to_nat l) then None
      else Some (off + 1 + Z.to_nat l)
  end.
Fixpoint hops (n : nat) (buf : string) (off : nat) : option nat :=
  match n with
  | O => Some off
  | S n => match hop buf off with Some o => hops n buf o | None => None end
  end.

Lemma hop_lt buf off x : hop buf off = Some x → off < String.length buf.
Proof. unfold hop. destruct (byte_at buf off) eqn:E; [|done]. intros _. by eapply byte_at_lt. Qed.

Lemma hops_add a b buf off : hops (a + b) buf off = match hops a buf off with Some x => hops b buf x | None => None end.
Proof. revert off. induction a as [|a IH]; intros off; [done|]. cbn. destruct (hop buf off); [apply IH|done]. Qed.

(** The reader runs out of fuel exactly when it can make as many moves. *)
Lemma read_name_hops fuel buf off labels : read_name fuel buf off labels = None ↔ is_Some (hops fuel buf off).
Proof.
  revert off labels. induction fuel as [|fuel IH]; intros off labels; cbn [read_name hops]; [by split|].
  unfold hop. destruct (byte_at buf off) as [l|]; [|by split; [|intros []]].
  destruct (l =? 0)%Z; [by split; [|intros []]|]. destruct (192 <=? l)%Z.
  - destruct (byte_at buf (off + 1)) as [lo|]; [|by split; [|intros []]]. rewrite <- (IH _ []).
    destruct (read_name fuel buf _ []) as [[[]|]|]; by split.
  - case_bool_decide; [by split; [|intros []]|]. apply IH.
Qed.

Lemma read_name_more fuel fuel' buf off labels r :
  read_name fuel buf off labels = Some r → fuel ≤ fuel' → read_name fuel' buf off labels = Some r.
Proof.
  revert fuel' off labels r. induction fuel as [|fuel IH]; intros fuel' off labels r Hr Hf; [done|].
  destruct fuel' as [|fuel']; [lia|]. cbn [read_name] in *.
  destruct (byte_at buf off) as [l|]; [|done]. destruct (l =? 0)%Z; [done|]. destruct (192 <=? l)%Z.
  - destruct (byte_at buf (off + 1)) as [lo|]; [|done].
    destruct (read_name fuel buf _ []) as [x|] eqn:E; [|done]. by rewrite (IH fuel' _ _ _ E) by lia.
  - case_bool_decide; [done|]. apply IH; [done|lia].
Qed.

Lemma read_name_end fuel buf off labels name off' :
  read_name fuel buf off labels = Some (Ok (name, off')) → off < off' ≤ String.length buf.
Proof.
  revert off labels. induction fuel as [|fuel IH]; intros off labels; [done|]. cbn [read_name].
  destruct (byte_at buf off) as [l|] eqn:E; [|done]. apply byte_at_lt in E.
  destruct (l =? 0)%Z; [intros [= _ <-]; lia|]. destruct (192 <=? l)%Z.
  - destruct (byte_at buf (off + 1)) as [lo|] eqn:E1; [|done]. apply byte_at_lt in E1.
    destruct (read_name fuel buf _ []) as [[[sub o]|]|]; [|done..]. intros [= _ <-]. lia.
  - case_bool_decide; [done|]. intros Hr%IH. lia.
Qed.

Lemma not_NoDup_twice (l : list nat) : ¬ NoDup l → ∃ i j x, i < j ∧ l !! i = Some x ∧ l !! j = Some x.
Proof.
  induction l as [|y l IH]; intros Hn; [destruct Hn; constructor|].
  destruct (decide (y ∈ l)) as [[j Hj]%list_elem_of_lookup|Hy].
  - exists 0, (S j), y. split_and!; [lia|done|done].
  - destruct IH as (i & j & x & ? & ? & ?); [intros Hl; destruct Hn; by constructor|].
    exists (S i), (S j), x. split_and!; [lia|done|done].
Qed.

(** More moves than there are offsets go through one of them twice. *)
Lemma hops_cycle buf off n :
  is_Some (hops n buf off) → String.length buf < n →
  ∃ a b x, 0 < b ∧ hops a buf off = Some x ∧ hops b buf x = Some x.
Proof.
  intros Hs Hn. assert (Hall : ∀ i, i < n → ∃ x, hops i buf off = Some x ∧ x < String.length buf).
  { intros i Hi. replace n with (i + (1 + (n - i - 1))) in Hs by lia. rewrite hops_add in Hs.
    destruct (hops i buf off) as [x|]; [|by destruct Hs]. exists x. split; [done|]. cbn in Hs.
    destruct (hop buf x) eqn:E; [|by destruct Hs]. by eapply hop_lt. }
  destruct (not_NoDup_twice ((λ i, default 0 (hops i buf off)) <$> seq 0 n)) as (i & j & x & Hij & Hi & Hj).
  { intros Hnd. assert (((λ i, default 0 (hops i buf off)) <$> seq 0 n) ⊆+ seq 0 (String.length buf)) as Hsub.
    { apply NoDup_submseteq; [done|]. intros y (i & -> & Hi%elem_of_seq)%list_elem_of_fmap.
      destruct (Hall i) as (x & -> & Hx); [lia|]. apply elem_of_seq. cbn. lia. }
    apply submseteq_length in Hsub. rewrite length_fmap, !length_seq in Hsub. lia. }
  rewrite list_lookup_fmap in Hi, Hj. apply fmap_Some in Hi as (i' & Hi & Hx), Hj as (j' & Hj & Hx').
  apply lookup_seq in Hi as [-> Hi], Hj as [-> Hj]. cbn in *.
  destruct (Hall i) as (x1 & E1 & _), (Hall j) as (x2 & E2 & _); [lia..|].
  rewrite E1 in Hx. rewrite E2 in Hx'. cbn in Hx, Hx'. subst x1 x2. exists i, (j - i), x. split_and!; [lia|done|].
  replace j with (i + (j - i)) in E2 by lia. by rewrite hops_add, E1 in E2.
Qed.

Lemma hops_prefix n m buf off : is_Some (hops n buf off) → m ≤ n → is_Some (hops m buf off).
Proof.
  intros Hs Hm. replace n with (m + (n - m)) in Hs by lia. rewrite hops_add in Hs.
  destruct (hops m buf off); [done|by destruct Hs].
Qed.

Lemma cycle_forever b x buf : 0 < b → hops b buf x = Some x → ∀ n, is_Some (hops n buf x).
Proof.
  intros Hb Hc n. apply (hops_prefix (n * b)); [|nia].
  induction n as [|n IH]; [by eexists|]. cbn [Nat.mul]. by rewrite hops_add, Hc.
Qed.

(** C19: When reading a name ends.  From any offset of any packet, the reader
    either returns within as many moves (labels read and pointers followed) as
    the packet has bytes and one more, with an error or with a name that ends
    within the packet, or it never returns, no number of moves being enough.  It
    never returns exactly when the moves from that offset come back to an offset
    they have been at; so it does return when no length byte it comes to marks a
    compression pointer, whatever the other bytes of the packet are. *)
Theorem readName_termination (buf : string) (off : nat) :
  let loops := ∃ a b x, 0 < b ∧ hops a buf off = Some x ∧ hops b buf x = Some x in
  ((∃ r, ∀ fuel, String.length buf < fuel → readName fuel buf off = Some r) ∨ (∀ fuel, readName fuel buf off = None)) ∧
  ((∀ fuel, readName fuel buf off = None) ↔ loops) ∧
  (∀ fuel name off', readName fuel buf off = Some (Ok (name, off')) → off < off' ≤ String.length buf) ∧
  ((∀ n i l, hops n buf off = Some i → byte_at buf i = Some l → (l < 192)%Z) → ¬ loops).
Proof.
  assert (Hnever : (∃ a b x, 0 < b ∧ hops a buf off = Some x ∧ hops b buf x = Some x) →
    ∀ fuel, readName fuel buf off = None).
  { intros (a & b & x & Hb & Ha & Hc) fuel. apply read_name_hops. apply (hops_prefix (a + fuel)); [|lia].
    rewrite hops_add, Ha. by eapply cycle_forever. }
  cbv zeta. split_and!.
  - destruct (readName (S (String.length buf)) buf off) as [r|] eqn:E.
    + left. exists r. intros fuel Hf. by apply (read_name_more (S (String.length buf))).
    + right. apply Hnever. apply read_name_hops in E. eapply hops_cycle; [exact E|lia].
  - split; [|exact Hnever]. intros Hn. apply (hops_cycle buf off (S (String.length buf))); [|lia].
    apply (read_name_hops _ _ _ []). exact (Hn (S (String.length buf))).
  - intros fuel name off'. apply read_name_end.
  - intros Hno (a & b & x & Hb & Ha & Hc).
    assert (Hup : ∀ n i, hops n buf x = Some i → n = 0 ∨ x < i).
    { intros n. induction n as [|n IH]; intros i Hi; [by left|]. right.
      replace (S n) with (n + 1) in Hi by lia. rewrite hops_add in Hi.
      destruct (hops n buf x) as [y|] eqn:Ey; [|done]. cbn in Hi.
      assert (x ≤ y) by (destruct (IH y eq_refl) as [->|]; [by injection Ey as ->|lia]).
      destruct (hop buf y) as [z|] eqn:Ez; [|done]. injection Hi as ->. unfold hop in Ez.
      destruct (byte_at buf y) as [l|] eqn:El; [|done].
      assert (l < 192)%Z by (apply (Hno (a + n) y); [by rewrite hops_add, Ha|done]).
      destruct (l =? 0)%Z; [done|]. rewrite (proj2 (Z.leb_gt _ _)) in Ez by done.
      case_bool_decide; [done|]. injection Ez as <-. lia. }
    destruct (Hup b x Hc); lia.
Qed.

Definition ptr_packet : string := "123456789012" +:+ byte 192 +:+ byte 12 +:+ "....".

(** The witness of a loop and, in a packet whose header has a byte above 192,
    that of a name. *)
Lemma readName_termination_witness :
  (∀ fuel, readName fuel ptr_packet 12 = None) ∧
  ∃ r, ∀ fuel, String.length (byte 255 +:+ "23456789012" +:+ writeName "a.b") < fuel →
    readName fuel (byte 255 +:+ "23456789012" +:+ writeName "a.b") 12 = Some r.
Proof.
  split.
  - apply (readName_termination ptr_packet 12). exists 0, 1, 12. split; [lia|]. split; vm_compute; reflexivity.
  - destruct (readName_termination (byte 255 +:+ "23456789012" +:+ writeName "a.b") 12) as ([H|H] & _); [exact H|].
    exfalso. specialize (H 20). vm_compute in H. discriminate H.
Defined.

(** ** The zone after a refresh *)

Lemma add_records_lookup `{UnicodeTables} l z key :
  foldl add_record z l !! key =
    match filter (λ r, ToLower (drName r) = key) l with
    | [] => z !! key
    | new => Some (mk_zoneEntry (default [] (Records <$> z !! key) ++ new))
    end.
Proof.
  revert z. induction l as [|r l IH]; intros z; [done|]. cbn [foldl]. rewrite IH, filter_cons.
  unfold add_record. rewrite lookup_insert. case_decide as E.
  - subst key. destruct (filter _ l) as [|y ys]; cbn; [done|]. by rewrite <- app_assoc.
  - done.
Qed.

Lemma refresh_flatten `{UnicodeTables} {S} `{DNSStore S} (s : S) ps z :
  foldl (λ z p, foldl add_record z (records_of s p)) z ps =
  foldl add_record z (ps ≫= records_of s).
Proof.
  revert z. induction ps as [|p ps IH]; intros z; [done|]. cbn. by rewrite IH, foldl_app.
Qed.

(** A refresh renders the store: when it succeeds, a name is in the zone
    exactly when some project has a record whose lower-cased name it is, and its
    entry holds all those records, in the order of the store; when the projects
    cannot be listed, the old zone stays. *)
Theorem refreshZone_renders_store `{UnicodeTables} {S} `{ProjectStore S, DNSStore S} (s : S) (v : Server) :
  match ListProjects s with
  | Err e => refreshZone s v = (v, Some e)
  | Ok ps => ∃ v', refreshZone s v = (v', None) ∧
      ∀ key, zoneData v' !! key =
        let rs := filter (λ r, ToLower (drName r) = key) (ps ≫= records_of s) in
        if bool_decide (rs = []) then None else Some (mk_zoneEntry rs)
  end.
Proof.
  unfold refreshZone. destruct (ListProjects s) as [ps|e]; [|done]. eexists. split; [done|].
  intros key. cbn [zoneData]. rewrite refresh_flatten, add_records_lookup, lookup_empty. cbv zeta.
  by destruct (filter _ _).
Qed.

(** ** Responses *)

Lemma byte_at_app_l p s i : i < String.length p → byte_at (p +:+ s) i = byte_at p i.
Proof.
  unfold byte_at. revert i. induction p as [|a p IH]; intros i Hi; cbn in *; [lia|].
  destruct i as [|i]; [done|]. apply IH. lia.
Qed.

Lemma byte_at_set i j b s :
  j < String.length s →
  byte_at (set_byte i b s) j = if decide (i = j) then Some (u8 b) else byte_at s j.
Proof.
  revert i j. induction s as [|a s IH]; intros i j Hj; cbn in Hj; [lia|].
  destruct i as [|i], j as [|j]; cbn [set_byte].
  - unfold byte_at, byte, u8. cbn -[Z.modulo ascii_of_nat nat_of_ascii].
    pose proof (Z.mod_pos_bound b (2 ^ 8) ltac:(lia)).
    rewrite nat_ascii_embedding by lia. f_equal. lia.
  - done.
  - done.
  - unfold byte_at in *. cbn. rewrite IH by lia. repeat case_decide; try lia; done.
Qed.

Lemma set_byte_length i b s : String.length (set_byte i b s) = String.length s.
Proof. revert i. induction s as [|a s IH]; intros [|i]; cbn; by rewrite ?IH. Qed.

Lemma set_byte_drop i b s n : i < n → string_drop n (set_byte i b s) = string_drop n s.
Proof.
  revert i s. induction n as [|n IH]; intros i s Hi; [lia|].
  destruct s as [|a s]; [by destruct i|]. destruct i as [|i]; [reflexivity|]. apply (IH i s). lia.
Qed.

(** A query as a client writes it: header, question, and whatever follows. *)
Definition query (h : string) (ls : list string) (qt qc : Z) (post : string) : string :=
  h +:+ (writeName (Join ls ".") +:+ (be16 qt +:+ be16 qc +:+ post)).

Lemma uint16_at_be16 p z s :
  (0 ≤ z < 2 ^ 16)%Z → uint16_at (p +:+ be16 z +:+ s) (String.length p) = z.
Proof.
  intros Hz. unfold uint16_at, be16. rewrite byte_at_app0, byte_at_app, <- !string_app_assoc.
  rewrite Z.shiftr_div_pow2 by lia.
  assert (0 ≤ z / 2 ^ 8 < 256)%Z as Hd by (split; [apply Z.div_pos|apply Z.div_lt_upper_bound]; lia).
  rewrite byte_at_byte by done.
  change 1 with (String.length (byte (z / 2 ^ 8)) + 0). rewrite byte_at_app.
  assert (byte z = byte (z mod 256)) as ->.
  { unfold byte, u8. do 3 f_equal. by rewrite Z.mod_mod. }
  rewrite byte_at_byte by (apply Z.mod_pos_bound; lia). cbn -[Z.modulo Z.div Z.mul Z.add Z.pow].
  pose proof (Z.div_mod z 256 ltac:(lia)). change (2 ^ 8)%Z with 256%Z. lia.
Qed.

Definition reply_question (ls : list string) (qt qc : Z) : string :=
  writeName (Join ls ".") +:+ be16 qt +:+ be16 qc.

Lemma reply_header_bytes h rest :
  String.length h = 12 →
  let r := reply_header (h +:+ rest) in
  String.length r = 12 ∧ byte_at r 0 = byte_at h 0 ∧ byte_at r 1 = byte_at h 1 ∧
  byte_at r 2 = Some 129%Z ∧ byte_at r 3 = Some 128%Z ∧ byte_at r 6 = Some 0%Z ∧ byte_at r 7 = Some 0%Z.
Proof.
  intros Hh. cbv zeta. unfold reply_header.
  assert (slice (h +:+ rest) 0 12 = h) as ->.
  { unfold slice. cbn [string_drop]. replace (string_drop 0 (h +:+ rest)) with (h +:+ rest) by by destruct (h +:+ rest).
    rewrite <- Hh. apply string_take_app. }
  repeat rewrite ?byte_at_set by (rewrite ?set_byte_length; lia). rewrite !set_byte_length. done.
Qed.

(** Everything of a query but the zone. *)
Lemma handleQuery_parsed `{UnicodeTables} to4 fuel v h ls qt qc post :
  String.length h = 12 → ls ≠ [] → Forall valid_label ls → length ls < fuel →
  (0 ≤ qt < 2 ^ 16)%Z → (0 ≤ qc < 2 ^ 16)%Z →
  let buf := query h ls qt qc post in
  let resp := reply_header buf +:+ counts +:+ reply_question ls qt qc in
  ∃ buf', handleQuery to4 fuel v buf = Some (buf', Ok
    (match zoneData v !! ToLower (Join ls ".") with
     | Some entry =>
         if (qt =? 1)%Z then
           set_ancount (u16 (Z.of_nat (length (Records entry)))) resp +:+
           foldr (λ r out, answer to4 (Join ls ".") r +:+ out) "" (Records entry)
         else resp
     | None => resp
     end)).
Proof.
  intros Hh Hne Hls Hf Hqt Hqc. cbv zeta. unfold handleQuery.
  assert (Hlen : String.length (query h ls qt qc post) =
    String.length (h +:+ writeName (Join ls ".")) + 4 + String.length post)
    by (unfold query; rewrite !string_length_app; cbn; lia).
  rewrite bool_decide_false by (rewrite Hlen, string_length_app; lia).
  assert (readName fuel (query h ls qt qc post) 12 =
    Some (Ok (Join ls ".", String.length (h +:+ writeName (Join ls "."))))) as ->.
  { rewrite <- Hh. unfold query. by apply read_written_name. }
  rewrite bool_decide_false by lia.
  assert (uint16_at (query h ls qt qc post) (String.length (h +:+ writeName (Join ls "."))) = qt) as ->.
  { unfold query. rewrite string_app_assoc. by apply uint16_at_be16. }
  assert (uint16_at (query h ls qt qc post) (String.length (h +:+ writeName (Join ls ".")) + 2) = qc) as ->.
  { unfold query. rewrite string_app_assoc, (string_app_assoc _ (be16 qt)).
    replace (_ + 2) with (String.length ((h +:+ writeName (Join ls ".")) +:+ be16 qt))
      by (rewrite string_length_app; done). by apply uint16_at_be16. }
  destruct (zoneData v !! ToLower (Join ls ".")) as [entry|]; [|by eexists].
  destruct (qt =? 1)%Z; by eexists.
Qed.

Lemma ancount_bytes k :
  (default 0 (Some (u8 (Z.shiftr (u16 k) 8))) * 256 + default 0 (Some (u8 (u16 k))) = u16 k)%Z.
Proof.
  unfold u16, u8. rewrite Z.shiftr_div_pow2 by lia. cbn -[Z.modulo Z.div Z.mul Z.add Z.pow].
  pose proof (Z.mod_pos_bound k (2 ^ 16) ltac:(lia)).
  set (z := (k mod 2 ^ 16)%Z) in *. pose proof (Z.div_mod z 256 ltac:(lia)).
  assert (0 ≤ z / 256 < 256)%Z by (split; [apply Z.div_pos|apply Z.div_lt_upper_bound]; lia).
  change (2 ^ 8)%Z with 256%Z. rewrite (Z.mod_small (z / 256)) by lia. lia.
Qed.

Lemma string_drop_app_le n s t :
  n ≤ String.length s → string_drop n (s +:+ t) = string_drop n s +:+ t.
Proof.
  revert n. induction s as [|a s IH]; intros [|n] Hn; cbn in *; try done; [lia|]. apply IH. lia.
Qed.

(** The answers to a query: the records of its name, for type A only. *)
Definition answers_to `{UnicodeTables} (v : Server) (ls : list string) (qt : Z) : list DNSRecord :=
  match zoneData v !! ToLower (Join ls ".") with
  | Some entry => if (qt =? 1)%Z then Records entry else []
  | None => []
  end.

Lemma query_answered `{UnicodeTables} to4 (fuel : nat) (v : Server) (h : string) (ls : list string) (qt qc : Z) (post : string) :
  String.length h = 12 → ls ≠ [] → Forall valid_label ls → length ls < fuel →
  (0 ≤ qt < 2 ^ 16)%Z → (0 ≤ qc < 2 ^ 16)%Z →
  ∃ buf' resp, handleQuery to4 fuel v (query h ls qt qc post) = Some (buf', Ok resp) ∧
    byte_at resp 0 = byte_at h 0 ∧ byte_at resp 1 = byte_at h 1 ∧
    byte_at resp 2 = Some 129%Z ∧ byte_at resp 3 = Some 128%Z ∧
    uint16_at resp 6 = u16 (Z.of_nat (length (answers_to v ls qt))) ∧
    string_drop 12 resp =
      (counts +:+ reply_question ls qt qc) +:+
      foldr (λ r out, answer to4 (Join ls ".") r +:+ out) "" (answers_to v ls qt).
Proof.
  intros Hh Hne Hls Hf Hqt Hqc.
  destruct (handleQuery_parsed to4 fuel v h ls qt qc post Hh Hne Hls Hf Hqt Hqc) as [buf' Hq].
  destruct (reply_header_bytes h (writeName (Join ls ".") +:+ (be16 qt +:+ be16 qc +:+ post)) Hh)
    as (Hl & B0 & B1 & B2 & B3 & B6 & B7). fold (query h ls qt qc post) in *.
  set (hdr := reply_header (query h ls qt qc post)) in *.
  assert (Hplain : ∀ s, string_drop 12 (hdr +:+ s) = s) by (intros s; rewrite <- Hl; apply string_drop_app).
  assert (Hset : ∀ n s j, j < 12 → byte_at (set_ancount n (hdr +:+ s)) j =
    if decide (7 = j) then Some (u8 n) else if decide (6 = j) then Some (u8 (Z.shiftr n 8)) else byte_at hdr j).
  { intros n s j Hj. unfold set_ancount.
    rewrite byte_at_set by (rewrite set_byte_length, string_length_app; lia). case_decide; [done|].
    rewrite byte_at_set by (rewrite string_length_app; lia). case_decide; [done|].
    apply byte_at_app_l. lia. }
  eexists buf', _. split; [exact Hq|]. unfold answers_to, uint16_at. change (6 + 1) with 7.
  destruct (zoneData v !! ToLower (Join ls ".")) as [entry|]; [destruct (qt =? 1)%Z|].
  2,3: rewrite !byte_at_app_l, Hplain, B6, B7, string_app_nil_r by lia; split_and!; done.
  set (resp := set_ancount _ _).
  assert (12 ≤ String.length resp) as Hlen
    by (unfold resp, set_ancount; rewrite !set_byte_length, string_length_app; lia).
  rewrite !(byte_at_app_l resp) by lia. unfold resp. rewrite !Hset by lia. cbn [decide].
  repeat (rewrite decide_False by done). repeat (rewrite decide_True by done). split_and!; try done.
  - apply ancount_bytes.
  - rewrite string_drop_app_le by done. f_equal. unfold set_ancount.
    rewrite !set_byte_drop by lia. apply Hplain.
Qed.

(** The server answers every well-formed query, and in the header it echoes
    the query's ID, sets QR, RD and RA, and counts the A records of the
    lower-cased name in ANCOUNT; behind the header come eight bytes of counts,
    written a second time, the question and one answer per record in the zone's
    order.  For a name it does not know it
    returns the same header with no answer: the response code stays 0. *)
Theorem query_response `{UnicodeTables} to4 (fuel : nat) (v : Server) (h : string) (ls : list string) (qt qc : Z) (post : string) :
  String.length h = 12 → ls ≠ [] → Forall valid_label ls → length ls < fuel →
  (0 ≤ qt < 2 ^ 16)%Z → (0 ≤ qc < 2 ^ 16)%Z →
  ∃ buf' resp, handleQuery to4 fuel v (query h ls qt qc post) = Some (buf', Ok resp) ∧
    byte_at resp 0 = byte_at h 0 ∧ byte_at resp 1 = byte_at h 1 ∧
    byte_at resp 2 = Some 129%Z ∧ byte_at resp 3 = Some 128%Z ∧
    uint16_at resp 6 = u16 (Z.of_nat (length (answers_to v ls qt))) ∧
    string_drop 12 resp =
      (counts +:+ reply_question ls qt qc) +:+
      foldr (λ r out, answer to4 (Join ls ".") r +:+ out) "" (answers_to v ls qt).
Proof. apply query_answered. Qed.

(** Tables that change nothing, for the examples. *)
#[local] Instance ex_tables : UnicodeTables := {| lower_text s := s |}.

Definition ex_header : string := byte 171 +:+ byte 205 +:+ byte 1 +:+ byte 0 +:+ be16 1 +:+ be16 0 +:+ be16 0 +:+ be16 0.
Definition ex_zone : Server :=
  mk_Server "cluster.local" ""
    {["web.acme" := mk_zoneEntry [mk_DNSRecord (mk_Base "" "" "web.acme") "10.0.0.7" "A"]]}.

Lemma query_response_witness : ∃ buf' resp,
  handleQuery (λ _, Some "abcd") 4 ex_zone (query ex_header ["web"; "acme"] 1 1 "") = Some (buf', Ok resp) ∧
  byte_at resp 3 = Some 128%Z ∧ uint16_at resp 6 = 1%Z.
Proof.
  destruct (query_response (λ _, Some "abcd") 4 ex_zone ex_header ["web"; "acme"] 1 1 "")
    as (buf' & resp & H1 & _ & _ & _ & H2 & H3 & _).
  - reflexivity.
  - discriminate.
  - repeat constructor; done || (cbn; lia).
  - cbn. lia.
  - lia.
  - lia.
  - exists buf', resp. split; [exact H1|]. split; [exact H2|]. rewrite H3. vm_compute. reflexivity.
Defined.

(** The counts are in the header already; written once more behind it, they
    take the place of the question, which reads as the empty name. *)
Lemma response_question_misplaced hdr rest :
  String.length hdr = 12 →
  readName 2 (hdr +:+ counts +:+ rest) 12 = Some (Ok ("", 13)).
Proof.
  intros Hh. unfold readName. cbn [read_name].
  assert (byte_at (hdr +:+ counts +:+ rest) 12 = Some 0%Z) as ->; [|done].
  rewrite <- Hh. apply byte_at_app0.
Qed.

(** The NXDOMAIN code is stored in the query buffer, not in the response. *)
Lemma nxdomain_code_in_query : ∃ buf' resp,
  handleQuery (λ _, None) 4 ex_zone (query ex_header ["nope"] 1 1 "") = Some (buf', Ok resp) ∧
  byte_at buf' 3 = Some 131%Z ∧ byte_at resp 3 = Some 128%Z.
Proof. eexists _, _. split; [vm_compute; reflexivity|]. split; vm_compute; reflexivity. Qed.

(** An address that is not IPv4 is counted, but its answer has no data. *)
Lemma bad_ip_counted : ∃ buf' resp,
  handleQuery (λ _, None) 4 ex_zone (query ex_header ["web"; "acme"] 1 1 "") = Some (buf', Ok resp) ∧
  uint16_at resp 6 = 1%Z ∧ String.length resp = String.length (query ex_header ["web"; "acme"] 1 1 "") + 8 + 20.
Proof. eexists _, _. split; [vm_compute; reflexivity|]. split; vm_compute; reflexivity. Qed.

(** ** The two transports agree *)

(** A query over TCP gets the response it gets over UDP: with its two-byte
    length in front, and with the length of the response in front of it, as
    long as both lengths fit in 16 bits; and no response where UDP gives none. *)
Theorem tcp_answers_as_udp `{UnicodeTables} to4 (fuel : nat) (v : Server) (packet : string) (out : option string) :
  (Z.of_nat (String.length packet) < 2 ^ 16)%Z →
  serve_datagram to4 fuel v packet = Some out →
  (∀ resp, out = Some resp → (Z.of_nat (String.length resp) < 2 ^ 16)%Z) →
  ∃ stream, serve_stream to4 fuel v (be16 (Z.of_nat (String.length packet)) +:+ packet) = Some stream ∧
    match out with
    | None => stream = ""
    | Some resp => uint16_at stream 0 = Z.of_nat (String.length resp) ∧ string_drop 2 stream = resp
    end.
Proof.
  intros Hp Hd Hr. unfold serve_datagram in Hd. unfold serve_stream.
  set (n := Z.of_nat (String.length packet)).
  assert (uint16_at (be16 n +:+ packet) 0 = n) as Hn by (apply (uint16_at_be16 ""); lia).
  assert (slice (be16 n +:+ packet) 2 (String.length packet) = packet) as Hs.
  { change 2 with (String.length (be16 n) + 0). rewrite slice_app. unfold slice. cbn [string_drop].
    rewrite <- (string_app_nil_r packet) at 2. apply string_take_app. }
  rewrite !string_length_app, Hn. change (String.length (be16 n)) with 2.
  rewrite !bool_decide_false by (subst n; lia). cbv zeta. subst n. rewrite Nat2Z.id, Hs.
  destruct (handleQuery to4 fuel v packet) as [[buf [resp|e]]|]; [| |done]; injection Hd as <-.
  - specialize (Hr resp eq_refl). eexists. split; [reflexivity|].
    unfold u16. rewrite Z.mod_small by lia. split; [|done].
    apply (uint16_at_be16 ""). lia.
  - by eexists.
Qed.

Lemma tcp_answers_as_udp_witness : ∃ stream resp,
  serve_stream (λ _, Some "abcd") 4 ex_zone
    (be16 28 +:+ query ex_header ["web"; "acme"] 1 1 "--") = Some stream ∧
  string_drop 2 stream = resp ∧ uint16_at stream 0 = Z.of_nat (String.length resp).
Proof.
  assert (∃ resp, serve_datagram (λ _, Some "abcd") 4 ex_zone (query ex_header ["web"; "acme"] 1 1 "--") = Some (Some resp)
    ∧ (Z.of_nat (String.length resp) < 2 ^ 16)%Z) as (resp & Hd & Hl)
    by (eexists; split; [vm_compute; reflexivity|vm_compute; reflexivity]).
  destruct (tcp_answers_as_udp (λ _, Some "abcd") 4 ex_zone (query ex_header ["web"; "acme"] 1 1 "--") (Some resp))
    as (stream & H1 & H2 & H3).
  - vm_compute. reflexivity.
  - exact Hd.
  - intros r [= <-]. exact Hl.
  - exists stream, resp. split; [exact H1|]. split; [exact H3|exact H2].
Defined.
