(* ===== verification/DnsServe.v ===== *)
(** * Package dns: the running server

    Models the rest of internal/dns/dns.go: [Run] and the goroutines it starts.
    The two receiving loops, the refresher and one goroutine per connection
    share the zone; an execution is a sequence of their steps in any order.  What
    the network and the host do (addresses, sockets, timeouts, arriving bytes)
    are arguments of the steps.

    A query that makes [readName] recurse without end exhausts the goroutine's
    stack, which ends the whole process: [stack] is the number of labels and
    pointers there is room for. *)

From S2P Require Import Prelude State Dns.

(** ** Sockets *)

(** What the host answers: resolved addresses, and the local address of a socket. *)
Record host := mk_host {
  ResolveUDPAddr : string → res string; ListenUDP : string → res string;
  ResolveTCPAddr : string → res string; ListenTCP : string → res string;
}.

(** A connection's goroutine: the bytes that have arrived, those written to it,
    and whether it has returned. *)
Record conn := mk_conn { received : string; written : string; returned : bool }.

(** The goroutines of [Run]: which run, what they share, and what was sent. *)
Record service := mk_service {
  srv : Server; udp : option string; tcp : option string; stopCh : bool;
  main_runs : bool; udp_runs : bool; tcp_runs : bool; refresher_runs : bool;
  ctx_done : bool; crashed : bool;
  sent : list (string * string); conns : list conn;
}.

Definition idle (v : Server) : service :=
  mk_service v None None false false false false false false false [] [].

Definition addr (u t : option string) : string :=
  match u, t with Some a, _ => a | None, Some a => a | None, None => "" end.
Definition cfg (w : service) : Config := mk_Config (addr (udp w) (tcp w)) (zone (srv w)) (upstream (srv w)).

Definition set_sockets (u t : option string) (w : service) : service :=
  mk_service (srv w) u t (stopCh w) (main_runs w) (udp_runs w) (tcp_runs w) (refresher_runs w) (ctx_done w)
    (crashed w) (sent w) (conns w).
Definition set_srv (v : Server) (w : service) : service :=
  mk_service v (udp w) (tcp w) (stopCh w) (main_runs w) (udp_runs w) (tcp_runs w) (refresher_runs w) (ctx_done w)
    (crashed w) (sent w) (conns w).
Definition set_runs (m u t r : bool) (w : service) : service :=
  mk_service (srv w) (udp w) (tcp w) (stopCh w) m u t r (ctx_done w) (crashed w) (sent w) (conns w).
Definition set_signals (ctx stop : bool) (w : service) : service :=
  mk_service (srv w) (udp w) (tcp w) stop (main_runs w) (udp_runs w) (tcp_runs w) (refresher_runs w) ctx
    (crashed w) (sent w) (conns w).
Definition set_output (out : list (string * string)) (cs : list conn) (w : service) : service :=
  mk_service (srv w) (udp w) (tcp w) (stopCh w) (main_runs w) (udp_runs w) (tcp_runs w) (refresher_runs w)
    (ctx_done w) (crashed w) out cs.
Definition crash (w : service) : service :=
  mk_service (srv w) (udp w) (tcp w) (stopCh w) false false false false (ctx_done w) true (sent w) (conns w).

(** ** The goroutines *)

Section Serve.
Context `{UnicodeTables} {S : Type} `{ProjectStore S, DNSStore S}.
Context (to4 : string → option string) (stack : nat).

(** [Run] up to the three go statements.  The address asked for is that of
    [cfg], which is empty until the UDP socket exists and is the socket's own
    from then on.  An error leaves the sockets opened so far open. *)
Definition Run (n : host) (s : S) (v : Server) : service * option error :=
  let w := idle v in
  match ResolveUDPAddr n (cListen (cfg w)) with
  | Err e => (w, Some e)
  | Ok a =>
      match ListenUDP n a with
      | Err e => (w, Some e)
      | Ok u =>
          let w := set_sockets (Some u) None w in
          match ResolveTCPAddr n (cListen (cfg w)) with
          | Err e => (w, Some e)
          | Ok a =>
              match ListenTCP n a with
              | Err e => (w, Some e)
              | Ok t =>
                  let w := set_sockets (Some u) (Some t) w in
                  match refreshZone s (srv w) with
                  | (_, Some e) => (w, Some e)
                  | (v, None) => (set_runs true true true true (set_srv v w), None)
                  end
              end
          end
      end
  end.

(** What can happen next.  The sockets are open while [Run] has not returned.  [UError] and [TError] are the deadline of 500 ms, or
    the error of a closed socket. *)
Inductive event :=
| UDatagram (packet src : string)
| UError
| TAccept
| TError
| CReceive (i : nat) (bytes : string)
| CServe (i : nat)
| CFail (i : nat)
| RTick (s : S)
| RStop
| Cancel
| MainReturn.

Definition signalled (w : service) : bool := ctx_done w || stopCh w.

(** One round of the loop of [serveUDP] with a datagram: the buffer has 1500
    bytes. *)
Definition serveUDP_round (packet src : string) (w : service) : service :=
  match serve_datagram to4 stack (srv w) (slice packet 0 1500) with
  | None => crash w
  | Some None => w
  | Some (Some resp) => set_output (sent w ++ [(src, resp)]) (conns w) w
  end.

(** The two [io.ReadFull] of a connection have their bytes. *)
Definition complete (input : string) : bool :=
  bool_decide (2 ≤ String.length input) &&
  bool_decide (2 + Z.to_nat (uint16_at input 0) ≤ String.length input).

Definition set_conn (i : nat) (c : conn) (w : service) : service := set_output (sent w) (<[i := c]> (conns w)) w.

(** The rest of a connection's goroutine, once it has read the query. *)
Definition serveTCP_conn (i : nat) (c : conn) (w : service) : service :=
  match serve_stream to4 stack (srv w) (received c) with
  | None => crash w
  | Some out => set_conn i (mk_conn (received c) out true) w
  end.

(** The error branches of the two receiving loops: the select returns when a
    signal is there, and goes on otherwise. *)
Definition serveUDP_error (w : service) : service :=
  if signalled w then set_runs (main_runs w) false (tcp_runs w) (refresher_runs w) w else w.
Definition serveTCP_error (w : service) : service :=
  if signalled w then set_runs (main_runs w) (udp_runs w) false (refresher_runs w) w else w.
Definition serveTCP_accept (w : service) : service :=
  set_output (sent w) (conns w ++ [mk_conn "" "" false]) w.

(** One round of [zoneRefresher]: the error of a refresh is dropped. *)
Definition zoneRefresher_tick (s : S) (w : service) : service := set_srv (fst (refreshZone s (srv w))) w.
Definition zoneRefresher_stop (w : service) : service := set_runs (main_runs w) (udp_runs w) (tcp_runs w) false w.

(** The end of [Run]: the sockets and the stop channel are closed. *)
Definition Run_return (w : service) : service :=
  set_runs false (udp_runs w) (tcp_runs w) (refresher_runs w) (set_signals true true w).

(** [None]: the event cannot happen. *)
Definition step (e : event) (w : service) : option service :=
  if crashed w then None else
  match e with
  | UDatagram packet src =>
      if udp_runs w && main_runs w then Some (serveUDP_round packet src w) else None
  | UError => if udp_runs w then Some (serveUDP_error w) else None
  | TAccept => if tcp_runs w && main_runs w then Some (serveTCP_accept w) else None
  | TError => if tcp_runs w then Some (serveTCP_error w) else None
  | CReceive i bytes =>
      match conns w !! i with
      | Some c => if returned c then None
                  else Some (set_conn i (mk_conn (received c +:+ bytes) (written c) false) w)
      | None => None
      end
  | CServe i =>
      match conns w !! i with
      | Some c => if returned c || negb (complete (received c)) then None else Some (serveTCP_conn i c w)
      | None => None
      end
  | CFail i =>
      match conns w !! i with
      | Some c => if returned c || complete (received c) then None
                  else Some (set_conn i (mk_conn (received c) (written c) true) w)
      | None => None
      end
  | RTick s => if refresher_runs w then Some (zoneRefresher_tick s w) else None
  | RStop => if refresher_runs w && signalled w then Some (zoneRefresher_stop w) else None
  | Cancel => Some (set_signals true (stopCh w) w)
  | MainReturn => if main_runs w && ctx_done w then Some (Run_return w) else None
  end.

Fixpoint steps (es : list event) (w : service) : option service :=
  match es with [] => Some w | e :: es => w' ← step e w; steps es w' end.

(** ** Where an answer comes from *)

(** The store the zone shows after a sequence of events: that of the latest tick
    whose listing succeeded. *)
Definition latest (s : S) (es : list event) : S :=
  foldl (λ s e, match e with RTick s' => if is_ok (ListProjects s') then s' else s | _ => s end) s es.

Definition rendered (s : S) (v : Server) : Server := fst (refreshZone s v).

Lemma service_steps_app es1 es2 w : steps (es1 ++ es2) w = w' ← steps es1 w; steps es2 w'.
Proof. revert w. induction es1 as [|e es1 IH]; intros w; [done|]. cbn. by destruct (step e w) as [w1|]; [apply IH|]. Qed.

Lemma service_steps_snoc es e w w' :
  steps (es ++ [e]) w = Some w' → ∃ w1, steps es w = Some w1 ∧ step e w1 = Some w'.
Proof.
  rewrite service_steps_app. destruct (steps es w) as [w1|] eqn:E1; [|done]. cbn.
  destruct (step e w1) as [w2|] eqn:E2; [|done]. intros [= <-]. by exists w1.
Qed.

Lemma latest_snoc s es e :
  latest s (es ++ [e]) =
    match e with RTick s' => if is_ok (ListProjects s') then s' else latest s es | _ => latest s es end.
Proof. unfold latest. by rewrite foldl_app. Qed.

(** A refresh depends on the server only through what it never changes. *)
Lemma refresh_rendered s s' v :
  fst (refreshZone s' (rendered s v)) = if is_ok (ListProjects s') then rendered s' v else rendered s v.
Proof. unfold rendered, refreshZone. destruct (ListProjects s'), (ListProjects s); done. Qed.

(** The claim about every datagram sent and every connection answered. *)
Definition answered (s : S) (v : Server) (es : list event) (w : service) : Prop :=
  srv w = rendered (latest s es) v ∧
  (∀ src resp, (src, resp) ∈ sent w → ∃ es1 packet es2,
     es = es1 ++ UDatagram packet src :: es2 ∧
     serve_datagram to4 stack (rendered (latest s es1) v) (slice packet 0 1500) = Some (Some resp)) ∧
  (∀ i c, conns w !! i = Some c → written c = "" ∨ ∃ es1 es2,
     es = es1 ++ CServe i :: es2 ∧ returned c = true ∧
     serve_stream to4 stack (rendered (latest s es1) v) (received c) = Some (written c)).

(** What was answered before stays so. *)
Lemma answered_weaken s v es e w w' :
  answered s v es w → srv w' = rendered (latest s (es ++ [e])) v →
  (∀ x, x ∈ sent w' → x ∈ sent w ∨ ∃ packet,
     e = UDatagram packet x.1 ∧
     serve_datagram to4 stack (srv w) (slice packet 0 1500) = Some (Some x.2)) →
  (∀ i c, conns w' !! i = Some c → conns w !! i = Some c ∨ written c = "" ∨
     e = CServe i ∧ returned c = true ∧ serve_stream to4 stack (srv w) (received c) = Some (written c)) →
  answered s v (es ++ [e]) w'.
Proof.
  intros (Hv & Hs & Hc) Hv' Hs' Hc'. split_and!; [done| |].
  - intros src resp [Hx|(packet & -> & Hp)]%Hs'.
    + destruct (Hs _ _ Hx) as (es1 & p & es2 & -> & Hr). exists es1, p, (es2 ++ [e]). by rewrite <- app_assoc.
    + exists es, packet, []. by rewrite <- Hv.
  - intros i c [Hx|[Hx|(-> & Hr & Hp)]]%Hc'; [|by left|].
    + destruct (Hc i c Hx) as [?|(es1 & es2 & -> & Hr)]; [by left|right].
      exists es1, (es2 ++ [e]). by rewrite <- app_assoc.
    + right. exists es, []. by rewrite <- Hv.
Qed.

(** A step that is not an answer and not a tick keeps the claim. *)
Lemma answered_quiet s v es e w w' :
  answered s v es w → srv w' = srv w → sent w' = sent w →
  (∀ i c, conns w' !! i = Some c → conns w !! i = Some c ∨ written c = "") →
  (∀ s', e ≠ RTick s') → answered s v (es ++ [e]) w'.
Proof.
  intros Hw Hv Hs Hc Hn. apply (answered_weaken _ _ _ _ w); [done| | |].
  - rewrite Hv, latest_snoc. destruct Hw as [-> _]. destruct e; try done. by destruct (Hn s0).
  - rewrite Hs. by left.
  - intros i c [?|?]%Hc; [by left|by right; left].
Qed.

Lemma lookup_set_conn i c w j x : conns (set_conn i c w) !! j = Some x → conns w !! j = Some x ∨ j = i ∧ x = c.
Proof. cbn. intros [(-> & <- & _)|[_ Hj]]%list_lookup_insert_Some; [by right|by left]. Qed.

(** Bytes are written only by a goroutine that has returned. *)
Lemma unreturned_silent s v es w i c :
  answered s v es w → conns w !! i = Some c → returned c = false → written c = "".
Proof.
  intros (_ & _ & Hc) Hi Hr. destruct (Hc i c Hi) as [?|(? & ? & _ & Hx & _)]; [done|].
  congruence.
Qed.

Lemma answered_step s v es e w w' :
  answered s v es w → step e w = Some w' → answered s v (es ++ [e]) w'.
Proof.
  intros Hw. unfold step. destruct (crashed w); [done|].
  destruct e as [packet src| | | |i bytes|i|i|s'| | |].
  all: repeat case_match; try done; intros [= <-].
  all: try (unfold serveUDP_error, serveTCP_error; destruct (signalled w);
            (apply (answered_quiet _ _ _ _ w); [done|done|done|by left|done])).
  all: try (apply (answered_quiet _ _ _ _ w); [done|done|done|by left|done]).
  - (* a datagram *)
    unfold serveUDP_round. destruct (serve_datagram _ _ _ _) as [[resp|]|] eqn:E.
    2,3: apply (answered_quiet _ _ _ _ w); [done|done|done|by left|done].
    apply (answered_weaken _ _ _ _ w); [done|by rewrite latest_snoc; apply Hw| |by left].
    cbn. intros x [Hx|Hx%list_elem_of_singleton]%elem_of_app; [by left|right; subst x; eauto].
  - apply (answered_quiet _ _ _ _ w); [done|done|done| |done].
    cbn. intros j c [?|[_ Hc]]%lookup_app_Some; [by left|right]. by apply list_lookup_singleton_Some in Hc as [_ <-].
  - apply (answered_quiet _ _ _ _ w); [done|done|done| |done].
    intros j x [?|[-> ->]]%lookup_set_conn; [by left|right]. cbn. by eapply unreturned_silent.
  - (* a connection answers *)
    unfold serveTCP_conn. destruct (serve_stream _ _ _ _) as [out|] eqn:E.
    2: apply (answered_quiet _ _ _ _ w); [done|done|done|by left|done].
    apply (answered_weaken _ _ _ _ w); [done|by rewrite latest_snoc; apply Hw|by left|].
    intros j x [?|[-> ->]]%lookup_set_conn; [by left|right; right; eauto].
  - apply (answered_quiet _ _ _ _ w); [done|done|done| |done].
    intros j x [?|[-> ->]]%lookup_set_conn; [by left|right]. cbn.
    eapply unreturned_silent; [done..|].
    match goal with E : _ || _ = false |- _ => by apply orb_false_iff in E as [? _] end.
  - (* a tick *)
    apply (answered_weaken _ _ _ _ w); [done| |by left|by left].
    rewrite latest_snoc. unfold zoneRefresher_tick. cbn [srv set_srv]. destruct Hw as [-> _]. rewrite refresh_rendered.
    by destruct (is_ok _).
Qed.

Lemma Run_primed n s v w :
  Run n s v = (w, None) →
  answered s v [] w ∧ main_runs w = true ∧ udp_runs w = true ∧ tcp_runs w = true ∧ refresher_runs w = true ∧
  crashed w = false.
Proof.
  unfold Run. repeat case_match; try done. intros [= <-]. cbn in *. split_and!; try done; cbn. unfold answered. cbn.
  split_and!; [|by intros ? ? ?%elem_of_nil|done].
  unfold rendered. match goal with E : refreshZone _ _ = _ |- _ => by rewrite E end.
Qed.

Lemma steps_answered n s v w0 w es : Run n s v = (w0, None) → steps es w0 = Some w → answered s v es w.
Proof.
  intros Hrun. revert w. induction es as [|e es IH] using rev_ind; intros w Hs.
  - injection Hs as <-. by apply (Run_primed n).
  - destruct (service_steps_snoc _ _ _ _ Hs) as (w1 & Hw1 & He). eapply answered_step; [|done]. by apply IH.
Qed.

(** C31: However the goroutines interleave, every answer is computed from the
    zone of one refresh, the latest successful one before the question: after
    any sequence of events of a server that started, the zone renders the store
    as of that refresh; every datagram sent answers a datagram of its receiver,
    with the response for the zone at that point; and the bytes written to a
    connection are none, or the response that its own goroutine computed, from
    the zone at that point, to the query it sent. *)
Theorem answers_from_latest_refresh (n : host) (s : S) (v : Server) (w0 w : service) (es : list event) :
  Run n s v = (w0, None) → steps es w0 = Some w →
  srv w = rendered (latest s es) v ∧
  (∀ src resp, (src, resp) ∈ sent w → ∃ es1 packet es2,
     es = es1 ++ UDatagram packet src :: es2 ∧
     serve_datagram to4 stack (rendered (latest s es1) v) (slice packet 0 1500) = Some (Some resp)) ∧
  (∀ i c, conns w !! i = Some c → written c = "" ∨ ∃ es1 es2,
     es = es1 ++ CServe i :: es2 ∧ returned c = true ∧
     serve_stream to4 stack (rendered (latest s es1) v) (received c) = Some (written c)).
Proof. apply steps_answered. Qed.

(** ** Shutdown *)

(** Cancelled, [Run] returns and closes the sockets; each loop returns at its
    next event, which for the receivers is the error of the closed socket.  From
    any state of a running server these events can happen, in this order, and
    then nothing is received, accepted or refreshed any more.  (A connection
    that has not sent its query stays.) *)
Definition shutdown (w : service) : list event :=
  [Cancel; MainReturn] ++ (if udp_runs w then [UError] else []) ++ (if tcp_runs w then [TError] else []) ++
  (if refresher_runs w then [RStop] else []).

Lemma shutdown_stops w : crashed w = false → main_runs w = true →
  ∃ w', steps (shutdown w) w = Some w' ∧
    main_runs w' = false ∧ udp_runs w' = false ∧ tcp_runs w' = false ∧ refresher_runs w' = false ∧
    (∀ p src, step (UDatagram p src) w' = None) ∧ step TAccept w' = None ∧ (∀ s, step (RTick s) w' = None) ∧
    sent w' = sent w ∧ conns w' = conns w.
Proof.
  destruct w as [v u t st m ur tr rr c cr out cs]. cbn. intros -> ->. unfold shutdown. cbn.
  by destruct ur, tr, rr; cbn; eexists.
Qed.
End Serve.
Arguments event : clear implicits.
Arguments answered {_ S _ _} to4 stack s v es w.

(** ** A registered name resolves *)

(** What the server relies on: a record that was stored is listed. *)
Class DNSLaws (S : Type) `{ProjectStore S, DNSStore S} : Prop := {
  put_dns_listed s r s' : PutDNS s r = (s', None) →
    ∃ rs, ListDNS s' (bProjectID (drBase r)) = Ok rs ∧ r ∈ rs;
}.

Section Resolve.
Context `{UnicodeTables} {S : Type} `{DNSLaws S}.
Context (to4 : string → option string) (stack : nat).

Definition named (name : string) (rs : list DNSRecord) : list DNSRecord :=
  filter (λ r, ToLower (drName r) = ToLower name) rs.

Lemma refreshed_entry (s : S) (v : Server) (ps : list Project) (p : Project) (r : DNSRecord) :
  ListProjects s = Ok ps → p ∈ ps → r ∈ records_of s p →
  r ∈ named (drName r) (ps ≫= records_of s) ∧
  zoneData (rendered s v) !! ToLower (drName r) = Some (mk_zoneEntry (named (drName r) (ps ≫= records_of s))).
Proof.
  intros Hps Hp Hr. unfold rendered, refreshZone. rewrite Hps. cbn [zoneData fst].
  rewrite refresh_flatten, add_records_lookup, lookup_empty. unfold named.
  assert (r ∈ filter (λ x, ToLower (drName x) = ToLower (drName r)) (ps ≫= records_of s)) as Hin.
  { apply list_elem_of_filter. split; [done|]. apply list_elem_of_bind. eauto. }
  split; [done|]. by destruct (filter _ _); [apply elem_of_nil in Hin|].
Qed.

Lemma answers_split qname rs r :
  r ∈ rs → ∃ before after,
    foldr (λ r out, answer to4 qname r +:+ out) "" rs = before +:+ answer to4 qname r +:+ after.
Proof.
  induction 1 as [|x y l Hx (before & after & E)].
  - exists ""; eexists. reflexivity.
  - exists (answer to4 qname y +:+ before), after. cbn [foldr]. by rewrite E, <- string_app_assoc.
Qed.

Lemma slice_whole buf n : String.length buf ≤ n → slice buf 0 n = buf.
Proof.
  intros Hn. unfold slice. replace (string_drop 0 buf) with buf by by destruct buf.
  rewrite <- (string_take_drop n buf) at 2. by rewrite string_drop_all, string_app_nil_r.
Qed.

(** The store lists the record, in a project of it. *)
Definition lists (s : S) (r : DNSRecord) : Prop := ∃ ps p, ListProjects s = Ok ps ∧ p ∈ ps ∧ r ∈ records_of s p.

(** A record that the store of a tick lists, and those of the later successful
    ticks too, is listed by the store the zone shows. *)
Lemma latest_lists s0 es1 s es2 r :
  lists s r → (∀ s', RTick s' ∈ es2 → is_ok (ListProjects s') = true → lists s' r) →
  lists (latest s0 (es1 ++ RTick s :: es2)) r.
Proof.
  intros Hs. assert (latest s0 (es1 ++ [RTick s]) = s) as Hl.
  { rewrite latest_snoc. destruct Hs as (ps & p & Hps & _). by rewrite Hps. }
  change (RTick s :: es2) with ([RTick s] ++ es2). rewrite app_assoc.
  induction es2 as [|e es2 IH] using rev_ind; intros Hall; [by rewrite app_nil_r, Hl|].
  rewrite app_assoc, latest_snoc.
  assert (lists (latest s0 ((es1 ++ [RTick s]) ++ es2)) r) as IH' by (apply IH; intros s' Hin; apply Hall; set_solver).
  destruct e; try done. destruct (is_ok (ListProjects s1)) eqn:E; [|done]. apply Hall; [set_solver|done].
Qed.

(** C32: From registration to resolution.  A server started, the name was
    registered with [UpdateRecord] for a project that the store then lists, and
    the refresher ran on that store at some point.  After any further events, as
    long as every later refresh that succeeds sees a store that still lists the
    record and the server is still running (its main function has not
    returned, its UDP loop has not stopped, no query has exhausted its stack), a
    type A query for the name, in any spelling with the same lower-case form, is
    answered over UDP: the response goes to the sender and has the query's ID,
    the response flag and the number (modulo 2^16) of all the records of the
    name as its answer count; behind the 12 bytes of the header come the counts
    once more (eight bytes that belong there in no DNS message), the question,
    and among the answers one with the registered address.  The address is one
    that converts to IPv4, the name is made of valid labels (fewer than the
    stack has room for), and the query fits in 1500 bytes. *)
Theorem registered_name_resolves (n : host) (s0 s s' : S) (v : Server) (w0 w : service) (es1 es2 : list (event S))
    (project name ip a : string) (ps : list Project) (p : Project) (h : string) (ls : list string) (src : string) :
  let r := mk_DNSRecord (mk_Base (name +:+ "." +:+ project) project name) ip "A" in
  Run n s0 v = (w0, None) → steps to4 stack (es1 ++ RTick s' :: es2) w0 = Some w →
  UpdateRecord s project name ip = (s', None) → ListProjects s' = Ok ps → p ∈ ps → pjID p = project →
  (∀ s'', RTick s'' ∈ es2 → is_ok (ListProjects s'') = true → lists s'' r) →
  crashed w = false → main_runs w = true → udp_runs w = true →
  to4 ip = Some a → ToLower (Join ls ".") = ToLower name →
  String.length h = 12 → ls ≠ [] → Forall valid_label ls → length ls < stack →
  String.length (query h ls 1 1 "") ≤ 1500 →
  ∃ w' resp ps' k before after,
    step to4 stack (UDatagram (query h ls 1 1 "") src) w = Some w' ∧
    sent w' = sent w ++ [(src, resp)] ∧
    byte_at resp 0 = byte_at h 0 ∧ byte_at resp 1 = byte_at h 1 ∧ byte_at resp 2 = Some 129%Z ∧
    uint16_at resp 6 = u16 (Z.of_nat k) ∧ 0 < k ∧
    ListProjects (latest s0 (es1 ++ RTick s' :: es2)) = Ok ps' ∧
    k = length (named name (ps' ≫= records_of (latest s0 (es1 ++ RTick s' :: es2)))) ∧
    string_drop 12 resp = (counts +:+ reply_question ls 1 1) +:+ before +:+
      (writeName (Join ls ".") +:+ be16 1 +:+ be16 1 +:+ be32 60 +:+ be16 4 +:+ a) +:+ after.
Proof.
  intros r Hrun Hst Hput Hps Hp Hpj Hlater Hcr Hm Hu Hip Hname Hh Hne Hls Hf Hlen.
  destruct (put_dns_listed _ _ _ Hput) as (rs & Hrs & Hin). cbn [drBase bProjectID] in Hrs.
  assert (lists s' r) as Hs' by (exists ps, p; split_and!; [done|done|]; unfold records_of; by rewrite Hpj, Hrs).
  destruct (latest_lists s0 es1 s' es2 r Hs' Hlater) as (ps' & p' & Hps' & Hp' & Hr').
  set (sl := latest s0 (es1 ++ RTick s' :: es2)) in *.
  destruct (steps_answered to4 stack n s0 v w0 w _ Hrun Hst) as (Hsrv & _). fold sl in Hsrv.
  destruct (refreshed_entry sl v ps' p' r Hps' Hp' Hr') as [Hrf Hv].
  change (drName r) with name in Hrf, Hv. rewrite <- Hname, <- Hsrv in Hv. set (found := named name _) in *.
  destruct (query_answered to4 stack (srv w) h ls 1 1 "") as (buf & resp & Hq & B0 & B1 & B2 & _ & Hn & Hbody);
    [done..|lia|lia|].
  unfold answers_to in Hn, Hbody. rewrite Hv in Hn, Hbody. cbn [Records Z.eqb Pos.eqb] in Hn, Hbody.
  destruct (answers_split (Join ls ".") found r Hrf) as (before & after & Ha).
  exists (set_output (sent w ++ [(src, resp)]) (conns w) w), resp, ps', (length found), before, after.
  split_and!; try done.
  - unfold step. rewrite Hcr, Hu, Hm. cbn [andb]. unfold serveUDP_round, serve_datagram. by rewrite slice_whole, Hq.
  - destruct found; [by apply elem_of_nil in Hrf|cbn; lia].
  - rewrite Hbody, Ha. do 2 f_equal. unfold answer, r. cbn [drIP]. by rewrite Hip.
Qed.
End Resolve.

(** ** Examples *)

(** A store with a list of records per project. *)
Record dns_mem := mk_dns_mem { dm_projects : list Project; dm_records : gmap string (list DNSRecord) }.
#[local] Instance ex_tables : UnicodeTables := {| lower_text s := s |}.
#[local] Instance dm_project_store : ProjectStore dns_mem := {| ListProjects s := Ok (dm_projects s) |}.
#[local] Instance dm_dns_store : DNSStore dns_mem := {|
  ListDNS s p := Ok (default [] (dm_records s !! p));
  PutDNS s r :=
    let p := bProjectID (drBase r) in
    let old := filter (λ x, bID (drBase x) ≠ bID (drBase r)) (default [] (dm_records s !! p)) in
    (mk_dns_mem (dm_projects s) (<[p := old ++ [r]]> (dm_records s)), None);
|}.
#[local] Instance dm_laws : DNSLaws dns_mem.
Proof.
  constructor. intros s r s' [= <-]. cbn. rewrite lookup_insert_eq. eexists. split; [done|]. set_solver.
Qed.

Definition ex_host : host :=
  mk_host (λ _, Ok "0.0.0.0:0") (λ _, Ok "0.0.0.0:40001") Ok Ok.
Definition ex_dns_store : dns_mem := mk_dns_mem [mk_Project (mk_Base "acme" "" "acme") "" 0 0 0] ∅.
Definition ex_registered : dns_mem := (UpdateRecord ex_dns_store "acme" "Web.acme" "10.0.0.7").1.
Definition ex_to4 (ip : string) : option string :=
  if bool_decide (ip = "10.0.0.7") then Some (byte 10 +:+ byte 0 +:+ byte 0 +:+ byte 7) else None.
Definition ex_started : service :=
  (Run ex_host ex_dns_store (NewServer (mk_Config ":5353" "cloud.local" ""))).1.
Definition ex_events : list (event dns_mem) :=
  [UDatagram (query ex_header ["web"; "acme"] 1 1 "") "10.1.1.1:900"; RTick ex_registered;
   UDatagram (query ex_header ["web"; "acme"] 1 1 "") "10.1.1.2:901"; TAccept;
   CReceive 0 (be16 26 +:+ query ex_header ["web"; "acme"] 1 1 ""); CServe 0].

Lemma answers_from_latest_refresh_witness : ∃ w,
  steps ex_to4 9 ex_events ex_started = Some w ∧ length (sent w) = 2 ∧
  srv w = rendered ex_registered (NewServer (mk_Config ":5353" "cloud.local" "")) ∧
  ∀ src resp, (src, resp) ∈ sent w → ∃ es1 packet es2,
    ex_events = es1 ++ UDatagram packet src :: es2 ∧
    serve_datagram ex_to4 9 (rendered (latest ex_dns_store es1) (NewServer (mk_Config ":5353" "cloud.local" "")))
      (slice packet 0 1500) = Some (Some resp).
Proof.
  destruct (steps ex_to4 9 ex_events ex_started) as [w|] eqn:E; [|vm_compute in E; discriminate E].
  exists w. split; [reflexivity|].
  assert (Run ex_host ex_dns_store (NewServer (mk_Config ":5353" "cloud.local" "")) = (ex_started, None)) as Hrun
    by (vm_compute; reflexivity).
  destruct (answers_from_latest_refresh ex_to4 9 ex_host ex_dns_store (NewServer (mk_Config ":5353" "cloud.local" ""))
    ex_started w ex_events Hrun E) as (H1 & H2 & _).
  split; [vm_compute in E; injection E as <-; reflexivity|]. split; [exact H1|exact H2].
Defined.

(** Registered after the start; the refresher sees it; a connection and a second
    refresh come before the query. *)
Definition ex_before : list (event dns_mem) := [UDatagram (query ex_header ["web"; "acme"] 1 1 "") "10.1.1.1:900"].
Definition ex_after : list (event dns_mem) := [TAccept; RTick ex_registered].
Definition ex_running : service :=
  default ex_started (steps ex_to4 9 (ex_before ++ RTick ex_registered :: ex_after) ex_started).

Lemma registered_name_resolves_witness : ∃ w' resp before after,
  step ex_to4 9 (UDatagram (query ex_header ["web"; "acme"] 1 1 "") "c") ex_running = Some w' ∧
  sent w' = sent ex_running ++ [("c", resp)] ∧
  string_drop 12 resp = (counts +:+ reply_question ["web"; "acme"] 1 1) +:+ before +:+
    (writeName "web.acme" +:+ be16 1 +:+ be16 1 +:+ be32 60 +:+ be16 4 +:+
     (byte 10 +:+ byte 0 +:+ byte 0 +:+ byte 7)) +:+ after.
Proof.
  assert (Run ex_host ex_dns_store (NewServer (mk_Config ":5353" "cloud.local" "")) = (ex_started, None)) as Hrun
    by (vm_compute; reflexivity).
  assert (steps ex_to4 9 (ex_before ++ RTick ex_registered :: ex_after) ex_started = Some ex_running) as Hsteps
    by (vm_compute; reflexivity).
  destruct (registered_name_resolves ex_to4 9 ex_host ex_dns_store ex_dns_store ex_registered
    (NewServer (mk_Config ":5353" "cloud.local" "")) ex_started ex_running ex_before ex_after
    "acme" "Web.acme" "10.0.0.7" (byte 10 +:+ byte 0 +:+ byte 0 +:+ byte 7) (dm_projects ex_dns_store)
    (mk_Project (mk_Base "acme" "" "acme") "" 0 0 0) ex_header ["web"; "acme"] "c" Hrun Hsteps)
    as (w' & resp & ps' & k & before & after & H1 & H2 & _ & _ & _ & _ & _ & _ & _ & H3).
  - vm_compute. reflexivity.
  - reflexivity.
  - apply list_elem_of_here.
  - reflexivity.
  - intros s'' Hin _. assert (s'' = ex_registered) as ->.
    { apply elem_of_cons in Hin as [Hin|Hin]; [discriminate Hin|].
      apply list_elem_of_singleton in Hin. by injection Hin as ->. }
    exists (dm_projects ex_dns_store), (mk_Project (mk_Base "acme" "" "acme") "" 0 0 0).
    split; [reflexivity|]. split; [apply list_elem_of_here|]. vm_compute. apply list_elem_of_here.
  - vm_compute. reflexivity.
  - vm_compute. reflexivity.
  - vm_compute. reflexivity.
  - vm_compute. reflexivity.
  - vm_compute. reflexivity.
  - reflexivity.
  - discriminate.
  - repeat constructor; try discriminate; cbn; lia.
  - cbn. lia.
  - vm_compute. lia.
  - exists w', resp, before, after. split; [exact H1|]. split; [exact H2|exact H3].
Defined.

(** The configured address is not the one that is listened on. *)
Lemma configured_address_unused `{UnicodeTables} {S} `{ProjectStore S, DNSStore S} n (s : S) listen listen' z up :
  Run n s (NewServer (mk_Config listen z up)) = Run n s (NewServer (mk_Config listen' z up)) ∧
  (∀ e, ResolveUDPAddr n "" = Err e → (Run n s (NewServer (mk_Config listen z up))).2 = Some e).
Proof. split; [done|]. intros e He. unfold Run. cbn. by rewrite He. Qed.

(** When the TCP socket cannot be had, [Run] fails and leaves the other open. *)
Lemma failed_start_leaks_socket `{UnicodeTables} {S} `{ProjectStore S, DNSStore S} n (s : S) v a u e :
  ResolveUDPAddr n "" = Ok a → ListenUDP n a = Ok u → ResolveTCPAddr n u = Err e →
  (Run n s v).2 = Some e ∧ udp (Run n s v).1 = Some u.
Proof. intros E1 E2 E3. unfold Run. cbn. rewrite E1, E2. cbn. by rewrite E3. Qed.

(** A datagram whose pointer refers to itself ends the process, for any stack. *)
Lemma ptr_packet_loops fuel labels : read_name fuel ptr_packet 12 labels = None.
Proof.
  revert labels. induction fuel as [|fuel IH]; intros labels; [done|]. cbn [read_name].
  change (byte_at ptr_packet 12) with (Some 192%Z). change (byte_at ptr_packet (12 + 1)) with (Some 12%Z).
  change (Z.to_nat (Z.land (192 * 256 + 12) 16383)) with 12. cbn -[read_name]. by rewrite IH.
Qed.

Lemma one_datagram_ends_server `{UnicodeTables} {S} `{ProjectStore S, DNSStore S} to4 stack (w : service) src :
  crashed w = false → udp_runs w = true → main_runs w = true →
  ∃ w', step (S := S) to4 stack (UDatagram ptr_packet src) w = Some w' ∧ crashed w' = true ∧
    ∀ e : event S, step to4 stack e w' = None.
Proof.
  intros Hc Hu Hm. exists (crash w). unfold step. rewrite Hc, Hu, Hm. cbn. split; [|done].
  unfold serveUDP_round, serve_datagram. rewrite slice_whole by (vm_compute; lia).
  unfold handleQuery. rewrite bool_decide_false by (vm_compute; lia). unfold readName. by rewrite ptr_packet_loops.
Qed.
