(* ===== verification/Identity.v ===== *)
(** * Package identity: accounts, tokens, API keys and permissions

    Models internal/identity/identity.go.  The hashes and bcrypt, which it
    calls, are the operations of [Crypto]; [CryptoLaws] states what the accounts
    rely on.  Tokens are JSON in base64, from Json.v and Base64.v.  Random bytes
    and clock readings are arguments. *)

From S2P Require Import Prelude State Json Base64.

Definition ErrInvalidCredentials : error := "identity: invalid credentials".
Definition ErrUnauthorized : error := "identity: unauthorized".
Definition ErrTokenExpired : error := "identity: token expired".
Definition ErrTokenMalformed : error := "identity: token malformed".

(** ** Permissions *)

Definition builtinRoles : gmap string (list string) :=
  list_to_map [
    ("admin", ["*:*"]); ("editor", ["*:*"]); ("viewer", ["get:*"; "list:*"]);
    ("operator", ["get:nodes"; "list:nodes"; "post:nodes"; "get:workloads"; "list:workloads";
                  "get:metrics"; "get:alerts"; "list:alerts"])].

Definition matchPart (pattern value : string) : bool :=
  if bool_decide (pattern = "") || bool_decide (pattern = "*") then true
  else if HasSuffix pattern "*" then
    HasPrefix value (string_take (String.length pattern - 1) pattern)
  else if HasPrefix pattern "*" then HasSuffix value (string_drop 1 pattern)
  else bool_decide (pattern = value).

Definition matchRule (rule verb resource : string) : bool :=
  match SplitN2 ":" rule with
  | (_, None) => false
  | (v, Some r) =>
      if negb (matchPart v verb) then false
      else if negb (matchPart r resource) then false
      else true
  end.

Definition HasPermission (rules : list string) (verb resource : string) : bool :=
  existsb (λ r, matchRule r verb resource) rules.

Definition RulesFor (u : User) : list string :=
  if usAdmin u then ["*:*"] else default [] (builtinRoles !! "viewer").

Definition Authorize (u : option User) (verb resource : string) : option error :=
  match u with
  | None => Some ErrUnauthorized
  | Some u => if HasPermission (RulesFor u) verb resource then None else Some ErrUnauthorized
  end.

(** ** Primitives *)

Record token := mk_token { tkUserID : string; tkExpiresAt : Z }.

(** The tags of the struct. *)
Definition token_json (t : token) : json := JObj [("sub", JStr (tkUserID t)); ("exp", JInt (tkExpiresAt t))].
Definition token_fields : list (string * (json → token → token * bool)) :=
  [("sub", set_string (λ s t, mk_token s (tkExpiresAt t))); ("exp", set_int (λ z t, mk_token (tkUserID t) z))].
(** [json.Unmarshal(body, &t)]; [None] is an error. *)
Definition parse_token (body : string) : option token :=
  match Unmarshal body with
  | None => None
  | Some v => match decode_struct false token_fields (mk_token "" 0) v with (t, true) => Some t | (_, false) => None end
  end.

Class Crypto := {
  hmac_sha256 : string → string → string;
  sha256 : string → string;
  bcrypt_generate : string → string → res string;   (* random salt, password *)
  bcrypt_compare : string → string → bool;
}.
Class CryptoLaws `{Crypto} : Prop := {
  bcrypt_compare_ok : ∀ salt p h, bcrypt_generate salt p = Ok h → bcrypt_compare h p = true;
  bcrypt_hash_nonempty : ∀ salt p h, bcrypt_generate salt p = Ok h → h ≠ "";
}.

Definition hex_digit (n : nat) : ascii :=
  if bool_decide (n < 10) then ascii_of_nat (48 + n) else ascii_of_nat (87 + n).
Fixpoint hex (s : string) : string :=
  match s with
  | EmptyString => ""
  | String a s =>
      let n := nat_of_ascii a in
      String (hex_digit (n / 16)) (String (hex_digit (n mod 16)) (hex s))
  end.

(** [randID] and the nine bytes it draws. *)
Definition randID (b : string) : string := hex b.

(** [t.Unix()]: seconds since 1970, for a time counted from Go's zero time. *)
Definition Unix (t : Time) : Z := (t / 1000000000 - 62135596800)%Z.
Definition hour : Duration := (3600 * second)%Z.

Section Identity.
Context `{Crypto} {S : Type} `{UserStore S, APIKeyStore S}.
Context (hmacKey : string).

(** ** Accounts *)

Definition new_user (id email displayName hash : string) (admin : bool) : User :=
  mk_User (mk_Base id "" displayName) email displayName admin hash.

(** [rid] is what [randID] draws, [salt] the salt bcrypt draws. *)
Definition BootstrapAdmin (rid salt : string) (s : S) (email password displayName : string) : S * res User :=
  match FindUserByEmail s email with
  | Ok u => (s, Ok u)
  | Err _ =>
      match bcrypt_generate salt password with
      | Err e => (s, Err e)
      | Ok h =>
          let u := new_user ("usr_" +:+ rid) email displayName h true in
          match CreateUser_ s u with
          | (s, Some e) => (s, Err e)
          | (s, None) => (s, Ok u)
          end
      end
  end.

Definition CreateUser (rid salt : string) (s : S) (email password displayName : string) (admin : bool) :
    S * res User :=
  if bool_decide (email = "") || bool_decide (password = "") then
    (s, Err "identity: email and password required")
  else
    match bcrypt_generate salt password with
    | Err e => (s, Err e)
    | Ok h =>
        let u := new_user ("usr_" +:+ rid) email displayName h admin in
        match CreateUser_ s u with
        | (s, Some e) => (s, Err e)
        | (s, None) => (s, Ok u)
        end
    end.

Definition VerifyPassword (u : User) (password : string) : option error :=
  if bool_decide (usPasswordBcrypt u = "") then Some ErrInvalidCredentials
  else if bcrypt_compare (usPasswordBcrypt u) password then None
  else Some ErrInvalidCredentials.

(** ** Tokens *)

Definition signToken (userID : string) (exp : Time) : string :=
  let body := Marshal (token_json (mk_token userID (Unix exp))) in
  let enc := EncodeToString true body in
  enc +:+ "." +:+ EncodeToString true (hmac_sha256 hmacKey enc).

Definition VerifyToken (now : Time) (s : S) (tok : string) : res User :=
  match SplitN2 "." tok with
  | (_, None) => Err ErrTokenMalformed
  | (p0, Some p1) =>
      let wantSig := hmac_sha256 hmacKey p0 in
      match DecodeString true p1 with
      | None => Err ErrTokenMalformed
      | Some gotSig =>
          if negb (bool_decide (wantSig = gotSig)) then Err ErrTokenMalformed
          else
            match DecodeString true p0 with
            | None => Err ErrTokenMalformed
            | Some body =>
                match parse_token body with
                | None => Err ErrTokenMalformed
                | Some t =>
                    if (tkExpiresAt t <? Unix now)%Z then Err ErrTokenExpired
                    else match GetUser s (tkUserID t) with
                         | Err _ => Err ErrUnauthorized
                         | Ok u => Ok u
                         end
                end
            end
      end
  end.

Definition Login (now : Time) (s : S) (email password : string) : res (string * Time * User) :=
  match FindUserByEmail s email with
  | Err _ => Err ErrInvalidCredentials
  | Ok u =>
      match VerifyPassword u password with
      | Some _ => Err ErrInvalidCredentials
      | None =>
          let exp := time_Add now (24 * hour) in
          Ok (signToken (usID u) exp, exp, u)
      end
  end.

(** ** API keys *)

(** [randSecret] on the random bytes drawn. *)
Definition randSecret (bytes : string) : string := "ctlk_" +:+ hex bytes.

(** Slicing a string shorter than 8 bytes panics. *)
Definition first8 (s : string) : go string :=
  if bool_decide (8 ≤ String.length s) then Ret (string_take 8 s) else Panic.

Definition IssueAPIKey (now : Time) (bytes rid : string) (s : S) (projectID name : string) (ttl : Duration) :
    go (S * res (APIKey * string)) :=
  let secret := randSecret bytes in
  go_bind (first8 secret) (λ prefix,
    let ak := mk_APIKey (mk_Base ("key_" +:+ rid) projectID name) (hex (sha256 secret)) prefix
                (time_Add now ttl) in
    match CreateAPIKey s ak with
    | (s, Some e) => Ret (s, Err e)
    | (s, None) => Ret (s, Ok (ak, secret))
    end).

Fixpoint auth_loop (now : Time) (secret : string) (keys : list APIKey) : go (res APIKey) :=
  match keys with
  | [] => Ret (Err ErrInvalidCredentials)
  | k :: keys =>
      go_bind (first8 secret) (λ prefix,
        if negb (bool_decide (akPrefix k = prefix)) then auth_loop now secret keys
        else if bool_decide (akHash k = hex (sha256 secret)) then
          if negb (IsZero (akExpiresAt k)) && After now (akExpiresAt k) then Ret (Err ErrTokenExpired)
          else Ret (Ok k)
        else auth_loop now secret keys)
  end.

(** The error of [ListAPIKeys] is dropped, and its slice is then nil. *)
Definition AuthAPIKey (now : Time) (s : S) (secret : string) : go (res APIKey) :=
  if negb (HasPrefix secret "ctlk_") then Ret (Err ErrInvalidCredentials)
  else auth_loop now secret (match ListAPIKeys s with Ok ks => ks | Err _ => [] end).

End Identity.

(** ** Quotas *)

(** [QuotaCheck] accepts everything. *)
Definition QuotaCheck (p : option Project) (addCPU addMem : Z) : option error := None.

Definition FormatResource (cpu mem : Z) : string :=
  "cpu=" +:+ pretty cpu +:+ "m mem=" +:+ pretty (Z.quot mem (1024 * 1024)) +:+ "Mi".

(** ** Pattern matching *)




Lemma Authorize_some (u : User) (verb resource : string) :
  Authorize (Some u) verb resource = None ↔ usAdmin u = true ∨ verb = "get" ∨ verb = "list".
Proof.
  unfold Authorize, RulesFor. destruct (usAdmin u).
  - split; [auto|done].
  - assert (HasPermission (default [] (builtinRoles !! "viewer")) verb resource =
      bool_decide (verb = "get") || bool_decide (verb = "list")) as ->.
    { change (default [] (builtinRoles !! "viewer")) with ["get:*"; "list:*"].
      unfold HasPermission, matchRule. cbn -[bool_decide matchPart].
      change (matchPart "*" resource) with true. cbn [negb].
      unfold matchPart. cbn -[bool_decide].
      rewrite !(bool_decide_false (_ = "")), !(bool_decide_false (_ = "*")) by done. cbn [orb].
      rewrite !(bool_decide_ext (_ = verb) (verb = _)) by done.
      destruct (bool_decide (verb = "get")), (bool_decide (verb = "list")); done. }
    destruct (bool_decide_reflect (verb = "get")), (bool_decide_reflect (verb = "list")); cbn; split; auto; try done.
    intros [?|[?|?]]; done.
Qed.

(** Who may do what: without a user nothing is allowed; an administrator may
    do everything; every other user may get and list, any resource, and nothing
    else. *)
Theorem Authorize_policy (u : User) (verb resource : string) :
  Authorize None verb resource = Some ErrUnauthorized ∧
  (Authorize (Some u) verb resource = None ↔ usAdmin u = true ∨ verb = "get" ∨ verb = "list").
Proof. split; [done|]. apply Authorize_some. Qed.

(** ** Tokens *)

Section Tokens.
Context `{Crypto} {S : Type} `{UserStore S} (hmacKey : string).

Lemma parse_token_json t : utf8 (tkUserID t) → in_i64 (tkExpiresAt t) → parse_token (Marshal (token_json t)) = Some t.
Proof.
  intros Hu He. unfold parse_token, Marshal. rewrite Unmarshal_print.
  - unfold token_json, decode_struct. cbn [foldl]. destruct t as [u e]. cbn [tkUserID tkExpiresAt] in *.
    change (set_member false token_fields (mk_token "" 0, true) ("sub", JStr u)) with (mk_token u 0, true).
    change (set_member false token_fields (mk_token u 0, true) ("exp", JInt e)) with
      (let '(x, ok) := set_int (λ z t, mk_token (tkUserID t) z) (JInt e) (mk_token u 0) in (x, true && ok)).
    unfold set_int, JInt. by rewrite ParseInt10_pretty.
  - constructor. constructor; [split; [by apply all_single_utf8|by constructor]|].
    constructor; [split; [by apply all_single_utf8|apply wf_JInt]|constructor].
Qed.

Lemma VerifyToken_sign now (s : S) uid exp :
  utf8 uid → in_i64 (Unix exp) →
  VerifyToken hmacKey now s (signToken hmacKey uid exp) =
    if (Unix exp <? Unix now)%Z then Err ErrTokenExpired
    else match GetUser s uid with Err _ => Err ErrUnauthorized | Ok u => Ok u end.
Proof.
  intros Hu He. unfold VerifyToken, signToken.
  set (enc := EncodeToString true _). set (sig := EncodeToString true _).
  assert (SplitN2 "." (enc +:+ "." +:+ sig) = (enc, Some sig)) as ->
    by (apply SplitN2_some; split; [done|apply EncodeToString_no_dot]).
  subst sig. subst enc.
  rewrite DecodeString_EncodeToString, bool_decide_true by done. cbn [negb].
  by rewrite DecodeString_EncodeToString, parse_token_json.
Qed.

Lemma Login_inv now (s : S) email pw tok exp u :
  Login hmacKey now s email pw = Ok (tok, exp, u) →
  FindUserByEmail s email = Ok u ∧ VerifyPassword u pw = None ∧
  exp = time_Add now (24 * hour) ∧ tok = signToken hmacKey (usID u) exp.
Proof.
  unfold Login. destruct (FindUserByEmail s email) as [u'|]; [|done].
  destruct (VerifyPassword u' pw) eqn:E; [done|]. intros [= <- <- <-]. done.
Qed.
End Tokens.

(** C11: A session lasts as long as it says.  The token that a successful login
    returns, for a user whose ID is UTF-8, expires 24 hours after the login (a
    time whose seconds since 1970 fit in 64 bits).  Presented to a store that has
    the user, it is accepted, for the user as the store has it then, at every
    moment up to that expiry; presented to a store that does not have the user,
    it is refused as unauthorized up to the expiry; and whatever the store, it is
    reported as expired from one second after the expiry on. *)
Theorem login_session `{Crypto} {S} `{UserStore S} (key : string)
    (now : Time) (s : S) (email pw tok : string) (exp : Time) (u : User) :
  Login key now s email pw = Ok (tok, exp, u) → utf8 (usID u) → in_i64 (Unix exp) →
  exp = (now + 24 * 3600 * 10 ^ 9)%Z ∧
  ∀ (t : Time) (s' : S),
    ((t ≤ exp)%Z → ∀ u', GetUser s' (usID u) = Ok u' → VerifyToken key t s' tok = Ok u') ∧
    ((t ≤ exp)%Z → ∀ e, GetUser s' (usID u) = Err e → VerifyToken key t s' tok = Err ErrUnauthorized) ∧
    ((exp + 10 ^ 9 ≤ t)%Z → VerifyToken key t s' tok = Err ErrTokenExpired).
Proof.
  intros (_ & _ & Hexp & ->)%Login_inv Hid Hin. split.
  { rewrite Hexp. unfold time_Add, hour, second, millisecond. lia. }
  intros t s'. assert (Hlive : (t ≤ exp)%Z → (Unix exp <? Unix t)%Z = false).
  { intros Ht. apply Z.ltb_ge. unfold Unix. pose proof (Z.div_le_mono t exp 1000000000). lia. }
  split_and!.
  - intros Ht u' Hu. by rewrite VerifyToken_sign, Hlive, Hu.
  - intros Ht e Hu. by rewrite VerifyToken_sign, Hlive, Hu.
  - intros Ht. rewrite VerifyToken_sign, (proj2 (Z.ltb_lt _ _)); [done| |done|done].
    unfold Unix. pose proof (Z.div_le_mono (exp + 1 * 1000000000) t 1000000000).
    rewrite Z.div_add in * by lia. lia.
Qed.

(** C12: A token is accepted only when its second part is the signature, under
    the manager's key, of its first part, which encodes a token that has not
    expired and names an existing user, the one returned. *)
Theorem VerifyToken_sound `{Crypto} {S} `{UserStore S} (key : string)
    (now : Time) (s : S) (tok : string) (u : User) :
  VerifyToken key now s tok = Ok u →
  ∃ p0 p1 body t, tok = p0 +:+ "." +:+ p1 ∧ DecodeString true p1 = Some (hmac_sha256 key p0) ∧
    DecodeString true p0 = Some body ∧ parse_token body = Some t ∧
    (Unix now ≤ tkExpiresAt t)%Z ∧ GetUser s (tkUserID t) = Ok u.
Proof.
  unfold VerifyToken. destruct (SplitN2 "." tok) as [p0 [p1|]] eqn:Es; [|done].
  apply SplitN2_some in Es as [-> _].
  destruct (DecodeString true p1) as [sig|] eqn:E1; [|done].
  destruct (bool_decide_reflect (hmac_sha256 key p0 = sig)) as [<-|]; [|done]. cbn [negb].
  destruct (DecodeString true p0) as [body|] eqn:E0; [|done].
  destruct (parse_token body) as [t|] eqn:Eu; [|done].
  destruct (Z.ltb_spec (tkExpiresAt t) (Unix now)); [done|].
  destruct (GetUser s (tkUserID t)) as [u'|] eqn:Eg; [|done]. intros [= <-].
  by exists p0, p1, body, t.
Qed.

(** ** Instances to run the definitions on *)

#[local] Instance ex_crypto : Crypto := {|
  hmac_sha256 k m := k +:+ m;
  sha256 s := s;
  bcrypt_generate salt p := Ok ("h" +:+ p);
  bcrypt_compare h p := bool_decide (h = "h" +:+ p);
|}.

#[local] Instance ex_crypto_laws : CryptoLaws.
Proof.
  split.
  - intros salt p h [= <-]. cbn. by rewrite bool_decide_true.
  - intros salt p h [= <-]. done.
Qed.

(** A store with one user, and one with a list of keys. *)
Definition ex_user (admin : bool) : User :=
  mk_User (mk_Base "usr_1" "" "Ann") "ann@x" "Ann" admin "hpw".
#[local] Instance ex_users : UserStore User := {|
  FindUserByEmail s e := if bool_decide (usEmail s = e) then Ok s else Err "not found";
  GetUser s id := if bool_decide (usID s = id) then Ok s else Err "not found";
  ListUsers s := Ok [s];
  CreateUser_ s u := (s, Some "exists");
|}.
#[local] Instance ex_keys : APIKeyStore (list APIKey) := {|
  ListAPIKeys s := Ok s;
  CreateAPIKey s k := (s ++ [k], None);
|}.
#[local] Instance ex_keys_laws : APIKeyLaws (list APIKey).
Proof.
  split. intros s s' k [= <-]. exists (s ++ [k]). split; [done|]. split; [set_solver|].
  intros k' [?|?]%elem_of_app; [right; exists s; done|left; set_solver].
Qed.

Lemma login_session_witness : ∃ tok exp,
  Login "k" 0 (ex_user false) "ann@x" "pw" = Ok (tok, exp, ex_user false) ∧
  VerifyToken "k" 5 (ex_user false) tok = Ok (ex_user false) ∧
  VerifyToken "k" (10 ^ 15) (ex_user false) tok = Err ErrTokenExpired.
Proof.
  assert (∃ tok exp, Login "k" 0 (ex_user false) "ann@x" "pw" = Ok (tok, exp, ex_user false) ∧
    exp = (24 * 3600 * 10 ^ 9)%Z) as (tok & exp & HL & He) by (eexists _, _; split; reflexivity).
  exists tok, exp. split; [exact HL|].
  destruct (login_session "k" 0 (ex_user false) "ann@x" "pw" tok exp (ex_user false) HL) as (_ & H).
  { by apply all_single_utf8. }
  { rewrite He. unfold in_i64. vm_compute. split; congruence. }
  split; [apply (H 5%Z (ex_user false)); [rewrite He; lia|reflexivity]|].
  apply (H (10 ^ 15)%Z (ex_user false)). rewrite He. lia.
Defined.

Lemma VerifyToken_sound_witness : ∃ p0 p1 t,
  signToken "k" "usr_1" (10 ^ 20) = p0 +:+ "." +:+ p1 ∧
  DecodeString true p1 = Some (hmac_sha256 "k" p0) ∧ GetUser (ex_user true) (tkUserID t) = Ok (ex_user true).
Proof.
  destruct (VerifyToken_sound "k" 0 (ex_user true) (signToken "k" "usr_1" (10 ^ 20)) (ex_user true))
    as (p0 & p1 & body & t & H1 & H2 & _ & _ & _ & H3).
  - vm_compute. reflexivity.
  - exists p0, p1, t. split; [exact H1|]. split; [exact H2|exact H3].
Defined.

(** ** API keys *)

(** The identifiers of users are text JSON carries. *)
Lemma randID_utf8 b : utf8 ("usr_" +:+ randID b).
Proof.
  apply utf8_app; [by apply all_single_utf8|]. apply all_single_utf8. unfold randID.
  assert (∀ n, n < 16 → single (hex_digit n) = true) as Hd
    by (intros n Hn; do 16 (destruct n as [|n]; [done|]); lia).
  induction b as [|a b IH]; [done|]. cbn [hex all_single]. cbv zeta. cbn [all_single].
  pose proof (nat_ascii_bounded a). rewrite IH, !Hd; [done|apply Nat.mod_upper_bound; lia|].
  apply Nat.Div0.div_lt_upper_bound. lia.
Qed.

Lemma hex_length s : String.length (hex s) = 2 * String.length s.
Proof. induction s as [|a s IH]; [done|]. cbn [hex String.length]. rewrite IH. lia. Qed.

Lemma auth_loop_found `{Crypto} now secret prefix keys k :
  first8 secret = Ret prefix → k ∈ keys → akPrefix k = prefix → akHash k = hex (sha256 secret) →
  (∀ k', k' ∈ keys → akHash k' = hex (sha256 secret) → k' = k) →
  auth_loop now secret keys =
    Ret (if negb (IsZero (akExpiresAt k)) && After now (akExpiresAt k) then Err ErrTokenExpired else Ok k).
Proof.
  intros Hp Hin Hk Hh Hu. induction keys as [|x keys IH]; [set_solver|]. cbn [auth_loop].
  rewrite Hp. cbn [go_bind].
  destruct (decide (akHash x = hex (sha256 secret))) as [Ex|Hne].
  - assert (x = k) as -> by (apply Hu; [set_solver|done]). rewrite Hk, Hh, !bool_decide_true by done. cbn [negb]. by destruct (negb _ && _).
  - assert (k ∈ keys) as Hin' by (apply elem_of_cons in Hin as [->|]; done).
    rewrite (bool_decide_false (akHash x = _)) by done.
    assert (auth_loop now secret keys = Ret (if negb (IsZero (akExpiresAt k)) && After now (akExpiresAt k)
      then Err ErrTokenExpired else Ok k)) as -> by (apply IH; [done|]; intros; apply Hu; [set_solver|done]).
    by destruct (negb (bool_decide (akPrefix x = prefix))).
Qed.

(** C13: An API key works from the moment it is issued until it expires.  When
    24 random bytes were drawn and the store takes the record ([CreateAPIKey]
    succeeds), issuing returns, without a panic, the record and the secret, and
    the record holds of the secret only its first 8 characters and the hex of its
    SHA-256.  When the expiry (now plus the lifetime) is not Go's zero time or
    before it, and no key stored before has that hash, presenting the secret to
    the new store returns that record at every moment not after the expiry and
    the error for an expired key at every later one.  When the store refuses the
    record, its error is returned and no secret. *)
Theorem apikey_lifecycle `{Crypto} {S} `{APIKeyLaws S} (now t : Time) (bytes rid projectID name : string)
    (s s' : S) (ttl : Duration) (err : option error) :
  let secret := randSecret bytes in
  let ak := mk_APIKey (mk_Base ("key_" +:+ rid) projectID name) (hex (sha256 secret)) (string_take 8 secret) (now + ttl) in
  String.length bytes = 24 → CreateAPIKey s ak = (s', err) →
  match err with
  | Some e => IssueAPIKey now bytes rid s projectID name ttl = Ret (s', Err e)
  | None =>
      IssueAPIKey now bytes rid s projectID name ttl = Ret (s', Ok (ak, secret)) ∧
      ((0 < now + ttl)%Z → (∀ old k, ListAPIKeys s = Ok old → k ∈ old → akHash k ≠ hex (sha256 secret)) →
       AuthAPIKey t s' secret = Ret (if (now + ttl <? t)%Z then Err ErrTokenExpired else Ok ak))
  end.
Proof.
  intros secret ak Hb Hc.
  assert (first8 secret = Ret (string_take 8 secret)) as Hf.
  { unfold first8. rewrite bool_decide_true; [done|]. subst secret. unfold randSecret.
    rewrite string_length_app, hex_length. cbn. lia. }
  unfold IssueAPIKey. fold secret. rewrite Hf. cbn [go_bind]. unfold time_Add. fold ak. rewrite Hc.
  destruct err as [e|]; [done|]. split; [done|]. intros Hpos Hfresh.
  destruct (create_list_apikeys _ _ _ Hc) as (ks & Hl & Hin & Hold).
  unfold AuthAPIKey.
  assert (HasPrefix secret "ctlk_" = true) as -> by apply HasPrefix_app.
  cbn [negb]. rewrite Hl.
  rewrite (auth_loop_found t _ _ ks _ Hf Hin); [|done|done|].
  - cbn -[IsZero After]. unfold IsZero, After. by rewrite (proj2 (Z.eqb_neq _ _)) by lia.
  - intros k' Hk' He. destruct (Hold k' Hk') as [->|(old & Ho & Hk)]; [done|]. by destruct (Hfresh old k' Ho Hk).
Qed.

Definition ex_bytes : string := "abcdefghijklmnopqrstuvwx".

Definition ex_ak : APIKey :=
  mk_APIKey (mk_Base "key_r" "proj" "ci") (hex (sha256 (randSecret ex_bytes))) (string_take 8 (randSecret ex_bytes)) 150.
Lemma apikey_lifecycle_witness :
  IssueAPIKey 100 ex_bytes "r" [] "proj" "ci" 50 = Ret ([ex_ak], Ok (ex_ak, randSecret ex_bytes)) ∧
  AuthAPIKey 150 [ex_ak] (randSecret ex_bytes) = Ret (Ok ex_ak) ∧
  AuthAPIKey 151 [ex_ak] (randSecret ex_bytes) = Ret (Err ErrTokenExpired).
Proof.
  assert (∀ old k, ListAPIKeys (@nil APIKey) = Ok old → k ∈ old → akHash k ≠ hex (sha256 (randSecret ex_bytes))) as Hf
    by (intros old k [= <-]; set_solver).
  destruct (apikey_lifecycle 100 150 ex_bytes "r" "proj" "ci" (@nil APIKey) [ex_ak] 50 None) as [H1 H2];
    [reflexivity|vm_compute; reflexivity|].
  destruct (apikey_lifecycle 100 151 ex_bytes "r" "proj" "ci" (@nil APIKey) [ex_ak] 50 None) as [_ H3];
    [reflexivity|vm_compute; reflexivity|].
  split; [exact H1|]. split; [exact (H2 eq_refl Hf)|exact (H3 eq_refl Hf)].
Defined.

(** A short secret with the right prefix crashes the authentication as soon as
    one key exists. *)
Lemma AuthAPIKey_short_secret_panics `{Crypto} {S} `{APIKeyStore S} now (s : S) k ks :
  ListAPIKeys s = Ok (k :: ks) → AuthAPIKey now s "ctlk_" = Panic.
Proof. intros Hl. unfold AuthAPIKey. rewrite Hl. reflexivity. Qed.

(** It is the only way the authentication panics. *)
Definition short_key {S} `{APIKeyStore S} (s : S) (tok : string) : Prop :=
  HasPrefix tok "ctlk_" = true ∧ String.length tok < 8 ∧ ∃ k ks, ListAPIKeys s = Ok (k :: ks).
Lemma AuthAPIKey_panics_iff `{Crypto} {S} `{APIKeyStore S} now (s : S) tok :
  AuthAPIKey now s tok = Panic ↔ short_key s tok.
Proof.
  unfold AuthAPIKey, short_key. destruct (HasPrefix tok "ctlk_"); cbn [negb]; [|split; [done|by intros [? _]]].
  destruct (decide (String.length tok < 8)) as [Hs|Hs].
  - destruct (ListAPIKeys s) as [[|k ks]|e]; cbn [auth_loop].
    + split; [done|]. by intros (_ & _ & k & ks & [=]).
    + unfold first8. rewrite bool_decide_false by lia. split; [|done]. intros _. split_and!; [done|done|]. by exists k, ks.
    + split; [done|]. by intros (_ & _ & k & ks & [=]).
  - split; [|lia]. generalize (match ListAPIKeys s with Ok ks => ks | Err _ => [] end).
    intros ks. induction ks as [|k ks IH]; [done|]. cbn [auth_loop].
    unfold first8 at 1. rewrite bool_decide_true by lia. cbn [go_bind].
    repeat case_match; done.
Qed.

(** A key issued with a zero lifetime is refused right afterwards. *)
Lemma zero_ttl_key_expired `{Crypto} now t secret k keys :
  first8 secret = Ret (akPrefix k) → akHash k = hex (sha256 secret) → akExpiresAt k = (now + 0)%Z →
  (0 < now < t)%Z → auth_loop t secret (k :: keys) = Ret (Err ErrTokenExpired).
Proof.
  intros Hp Hh He Ht. cbn [auth_loop]. rewrite Hp. cbn [go_bind].
  rewrite Hh, !bool_decide_true by done. cbn [negb]. rewrite He. unfold IsZero, After.
  by rewrite (proj2 (Z.eqb_neq _ _)), (proj2 (Z.ltb_lt _ _)) by lia.
Qed.
