(* ===== verification/Api.v ===== *)
(** * Package apis: the v1 HTTP API

    Models internal/apis/v1/api.go: authentication and authorisation of a
    request, its dispatch, and every handler, over the identity manager and the
    store.  The resource types of package state that the handlers only decode,
    label and pass on are type parameters with the interface [Resource]; JSON is
    the interface [JSON].  A path is matched as it comes (the mux's redirect of
    unclean paths is not modelled). *)

From S2P Require Import Prelude State Identity.

(** ** Requests and responses *)

Record Request := mk_Request {
  rqMethod : string; rqPath : string; rqProjectID : string;
  rqAuthorization : string; rqCookie : option string; rqBody : string;
}.
Record Response := mk_Response { rsCode : Z; rsType : string; rsBody : string }.

Definition nl : string := String (ascii_of_nat 10) "".

(** [http.Error]. *)
Definition http_Error (msg : string) (code : Z) : Response :=
  mk_Response code "text/plain; charset=utf-8" (msg +:+ nl).

Class ToJSON (A : Type) := to_json : A → string.
(** Decoding with unknown fields disallowed. *)
Class FromJSON (A : Type) := from_json : string → res A.

Definition writeJSON {A} `{ToJSON A} (code : Z) (v : A) : Response :=
  mk_Response code "application/json" (to_json v +:+ nl).
Definition readJSON {A} `{FromJSON A} (r : Request) : res A := from_json (rqBody r).

(** [xs, _ := ...]: a dropped error leaves a nil slice. *)
Definition or_nil {A} (x : res (list A)) : list A := match x with Ok l => l | Err _ => [] end.

(** A resource kind: its embedded base, and its two store operations. *)
Class Resource (S A : Type) := {
  res_base : A → Base;
  res_set_base : Base → A → A;
  res_list : S → string → res (list A);
  res_create : S → A → S * option error;
}.

Definition not_allowed : Response := http_Error "method not allowed" 405.

(** ** Authentication *)

Definition bearer (r : Request) : string :=
  let a := rqAuthorization r in
  if HasPrefix a "Bearer " then TrimPrefix a "Bearer "
  else match rqCookie r with Some c => c | None => "" end.

Definition verbFor (method : string) : string :=
  if bool_decide (method = "GET") then "get"
  else if bool_decide (method = "POST") then "create"
  else if bool_decide (method = "PUT") then "update"
  else if bool_decide (method = "DELETE") then "delete"
  else "get".

Definition resourceFor (r : Request) : string :=
  let p := rqPath r in
  let parts := Split "/" (Trim (λ c, Ascii.eqb c "/") p) in
  if bool_decide (length parts < 3) then p else TrimPrefix p "/v1/".

Definition key_user (k : APIKey) : User := mk_User (mk_Base (akID k) "" "") "" "" false "".

Section Server.
Context `{Crypto} {S : Type} `{UserStore S, APIKeyStore S}.
Context (key : string) (now : Time).

Abbreviation handler := (S → Request → go (S * Response)).

Definition authRequired (h : handler) : handler := λ s r,
  let tok := bearer r in
  if bool_decide (tok = "") then Ret (s, http_Error "missing token" 401)
  else
    go_bind (match VerifyToken key now s tok with
             | Ok u => Ret (Ok u)
             | Err e =>
                 go_bind (AuthAPIKey now s tok) (λ k,
                   match k with Err _ => Ret (Err e) | Ok k => Ret (Ok (key_user k)) end)
             end) (λ auth,
      match auth with
      | Err e => Ret (s, http_Error e 401)
      | Ok u =>
          match Authorize (Some u) (verbFor (rqMethod r)) (resourceFor r) with
          | Some _ => Ret (s, http_Error "forbidden" 403)
          | None => h s r
          end
      end).

(** ** Identity handlers *)

Record loginReq := mk_loginReq { lgEmail : string; lgPassword : string }.
Record userReq := mk_userReq { urEmail : string; urDisplayName : string; urPassword : string; urAdmin : bool }.
Record apiKeyReq := mk_apiKeyReq { arUserID : string; arProjectID : string; arName : string }.
Record projectReq := mk_projectReq {
  prID : string; prDescription : string; prQuotaCPU : Z; prQuotaMem : Z; prQuotaObj : Z;
}.

Context `{FromJSON loginReq, FromJSON userReq, FromJSON apiKeyReq, FromJSON projectReq}.
Context `{ToJSON (list (string * string)), ToJSON User, ToJSON (list User), ToJSON (list APIKey)}.
Context `{ToJSON Project, ToJSON (list Project), ProjectStore S}.
Context (CreateProject : S → Project → S * option error).

Definition handleLogin : handler := λ s r,
  if negb (bool_decide (rqMethod r = "POST")) then Ret (s, not_allowed)
  else match readJSON r with
       | Err e => Ret (s, http_Error e 400)
       | Ok body =>
           match Login key now s (lgEmail body) (lgPassword body) with
           | Err e => Ret (s, http_Error e 401)
           | Ok (tok, _, _) => Ret (s, writeJSON 200 [("token", tok)])
           end
       end.

(** [rid], [salt] and [bytes] are the random draws of the identity manager. *)
Definition handleUsers (rid salt : string) : handler := λ s r,
  if bool_decide (rqMethod r = "GET") then
    match ListUsers s with
    | Err e => Ret (s, http_Error e 500)
    | Ok us => Ret (s, writeJSON 200 us)
    end
  else if bool_decide (rqMethod r = "POST") then
    match readJSON r with
    | Err e => Ret (s, http_Error e 400)
    | Ok body =>
        if bool_decide (urEmail body = "") || bool_decide (urPassword body = "")
        then Ret (s, http_Error "email/password required" 400)
        else
          match CreateUser rid salt s (urEmail body) (urPassword body) (urDisplayName body) (urAdmin body) with
          | (s, Err e) => Ret (s, http_Error e 400)
          | (s, Ok u) => Ret (s, writeJSON 201 u)
          end
    end
  else Ret (s, not_allowed).

Definition handleAPIKeys (bytes rid : string) : handler := λ s r,
  if bool_decide (rqMethod r = "GET") then Ret (s, writeJSON 200 (or_nil (ListAPIKeys s)))
  else if bool_decide (rqMethod r = "POST") then
    match readJSON r with
    | Err e => Ret (s, http_Error e 400)
    | Ok body =>
        go_bind (IssueAPIKey now bytes rid s (arProjectID body) (arName body) 0) (λ '(s, x),
          match x with
          | Err e => Ret (s, http_Error e 400)
          | Ok (k, secret) => Ret (s, writeJSON 201 [("id", akID k); ("secret", secret)])
          end)
    end
  else Ret (s, not_allowed).

Definition handleProjects : handler := λ s r,
  if bool_decide (rqMethod r = "GET") then Ret (s, writeJSON 200 (or_nil (ListProjects s)))
  else if bool_decide (rqMethod r = "POST") then
    match readJSON r with
    | Err e => Ret (s, http_Error e 400)
    | Ok body =>
        if bool_decide (prID body = "") then Ret (s, http_Error "id required" 400)
        else
          let p := mk_Project (mk_Base (prID body) "" (prID body)) (prDescription body)
                     (prQuotaCPU body) (prQuotaMem body) (prQuotaObj body) in
          match CreateProject s p with
          | (s, Some e) => Ret (s, http_Error e 409)
          | (s, None) => Ret (s, writeJSON 201 p)
          end
    end
  else Ret (s, not_allowed).

(** ** Resource handlers *)

Section Kinds.
Context {A : Type} `{Resource S A, FromJSON A, ToJSON A, ToJSON (list A)}.

(** The name of a created resource is its ID. *)
Definition labelled (projectID : string) (x : A) : A :=
  res_set_base (mk_Base (bID (res_base x)) projectID (bID (res_base x))) x.

(** The POST branch the handlers share. *)
Definition create_branch (projectID : A → string) : handler := λ s r,
  match readJSON r with
  | Err e => Ret (s, http_Error e 400)
  | Ok x =>
      if bool_decide (bID (res_base x) = "") then Ret (s, http_Error "id required" 400)
      else
        let x := labelled (projectID x) x in
        match res_create s x with
        | (s, Some e) => Ret (s, http_Error e 409)
        | (s, None) => Ret (s, writeJSON 201 x)
        end
  end.

(** The handlers of one project's resources: services, deployments, networks,
    volumes, secrets and config maps share this text. *)
Definition project_handler : handler := λ s r,
  if bool_decide (rqProjectID r = "") then Ret (s, http_Error "project_id required" 400)
  else if bool_decide (rqMethod r = "GET") then
    Ret (s, writeJSON 200 (or_nil (res_list s (rqProjectID r))))
  else if bool_decide (rqMethod r = "POST") then create_branch (λ _, rqProjectID r) s r
  else Ret (s, not_allowed).

(** Workloads report a listing error. *)
Definition strict_project_handler : handler := λ s r,
  if bool_decide (rqProjectID r = "") then Ret (s, http_Error "project_id required" 400)
  else if bool_decide (rqMethod r = "GET") then
    match res_list s (rqProjectID r) with
    | Err e => Ret (s, http_Error e 500)
    | Ok xs => Ret (s, writeJSON 200 xs)
    end
  else if bool_decide (rqMethod r = "POST") then create_branch (λ _, rqProjectID r) s r
  else Ret (s, not_allowed).

(** Buckets and alerts are not scoped to a project, and keep the project of the
    body. *)
Definition global_handler : handler := λ s r,
  if bool_decide (rqMethod r = "GET") then Ret (s, writeJSON 200 (or_nil (res_list s "")))
  else if bool_decide (rqMethod r = "POST") then create_branch (λ x, bProjectID (res_base x)) s r
  else Ret (s, not_allowed).
End Kinds.

Context {Deployment Network Volume Secret ConfigMap Bucket Alert Model Object : Type}.
Context `{Resource S Workload, FromJSON Workload, ToJSON Workload, ToJSON (list Workload)}.
Context `{Resource S Service, FromJSON Service, ToJSON Service, ToJSON (list Service)}.
Context `{Resource S Deployment, FromJSON Deployment, ToJSON Deployment, ToJSON (list Deployment)}.
Context `{Resource S Network, FromJSON Network, ToJSON Network, ToJSON (list Network)}.
Context `{Resource S Volume, FromJSON Volume, ToJSON Volume, ToJSON (list Volume)}.
Context `{Resource S Secret, FromJSON Secret, ToJSON Secret, ToJSON (list Secret)}.
Context `{Resource S ConfigMap, FromJSON ConfigMap, ToJSON ConfigMap, ToJSON (list ConfigMap)}.
Context `{Resource S Bucket, FromJSON Bucket, ToJSON Bucket, ToJSON (list Bucket)}.
Context `{Resource S Alert, FromJSON Alert, ToJSON Alert, ToJSON (list Alert)}.
Context `{NodeStore S, ToJSON (list Node), ToJSON (list Model), ToJSON Object}.
Context (ListModels : S → res (list Model)).
Context (GetObject : S → string → string → res Object) (DeleteObject : S → string → string → S * option error).

Definition handleWorkloads : handler := strict_project_handler (A := Workload).
Definition handleServices : handler := project_handler (A := Service).
Definition handleDeployments : handler := project_handler (A := Deployment).
Definition handleNetworks : handler := project_handler (A := Network).
Definition handleVolumes : handler := project_handler (A := Volume).
Definition handleSecrets : handler := project_handler (A := Secret).
Definition handleConfigMaps : handler := project_handler (A := ConfigMap).
Definition handleBuckets : handler := global_handler (A := Bucket).
Definition handleAlerts : handler := global_handler (A := Alert).

Definition handleNodes : handler := λ s r,
  if bool_decide (rqMethod r = "GET") then Ret (s, writeJSON 200 (or_nil (ListNodes s)))
  else Ret (s, not_allowed).

Definition handleObjects : handler := λ s r,
  match SplitN2 "/" (TrimPrefix (rqPath r) "/v1/buckets/") with
  | (_, None) => Ret (s, http_Error "bucket/key required" 400)
  | (bucket, Some okey) =>
      if bool_decide (rqMethod r = "GET") then
        match GetObject s bucket okey with
        | Err e => Ret (s, http_Error e 404)
        | Ok o => Ret (s, writeJSON 200 o)
        end
      else if bool_decide (rqMethod r = "DELETE") then
        match DeleteObject s bucket okey with
        | (s, Some e) => Ret (s, http_Error e 500)
        | (s, None) => Ret (s, mk_Response 204 "" "")
        end
      else Ret (s, not_allowed)
  end.

Definition handleMetrics : handler := λ s r,
  if negb (bool_decide (rqMethod r = "GET")) then Ret (s, not_allowed)
  else Ret (s, mk_Response 200 "text/plain; version=0.0.4"
                 ("# metrics are exposed by /v1/metrics/exposition" +:+ nl)).

Definition handleLogs : handler := λ s r,
  if negb (bool_decide (rqMethod r = "GET")) then Ret (s, not_allowed)
  else Ret (s, mk_Response 200 "" "[]").

Definition handleModels : handler := λ s r,
  if negb (bool_decide (rqMethod r = "GET")) then Ret (s, not_allowed)
  else Ret (s, writeJSON 200 (or_nil (ListModels s))).

(** ** Dispatch *)

(** The handlers registered for exact paths, with the random draws of one
    request. *)
Definition route_table (rid salt bytes : string) : list (string * handler) :=
  [ ("/v1/login", handleLogin);
    ("/v1/users", authRequired (handleUsers rid salt));
    ("/v1/apikeys", authRequired (handleAPIKeys bytes rid));
    ("/v1/projects", authRequired handleProjects);
    ("/v1/workloads", authRequired handleWorkloads);
    ("/v1/services", authRequired handleServices);
    ("/v1/deployments", authRequired handleDeployments);
    ("/v1/networks", authRequired handleNetworks);
    ("/v1/volumes", authRequired handleVolumes);
    ("/v1/secrets", authRequired handleSecrets);
    ("/v1/configmaps", authRequired handleConfigMaps);
    ("/v1/nodes", authRequired handleNodes);
    ("/v1/buckets", authRequired handleBuckets);
    ("/v1/metrics", handleMetrics);
    ("/v1/logs", authRequired handleLogs);
    ("/v1/alerts", authRequired handleAlerts);
    ("/v1/models", authRequired handleModels);
    ("/healthz", λ s _, Ret (s, mk_Response 200 "" "ok")) ].

Fixpoint find_route (table : list (string * handler)) (path : string) : option handler :=
  match table with
  | [] => None
  | (p, h) :: table => if bool_decide (p = path) then Some h else find_route table path
  end.

(** On clean paths: every program puts this multiplexer behind another one, which
    redirects a path that is not clean ([Platform.ServeMux]). *)
Definition Routes (rid salt bytes : string) : handler := λ s r,
  match find_route (route_table rid salt bytes) (rqPath r) with
  | Some h => h s r
  | None =>
      if HasPrefix (rqPath r) "/v1/buckets/" then authRequired handleObjects s r
      else Ret (s, http_Error "404 page not found" 404)
  end.

(** ** Only administrators change the store *)

(** The handler leaves the store alone unless the request is a POST or DELETE. *)
Definition read_only_methods (h : handler) : Prop := ∀ s r s' resp,
  rqMethod r ≠ "POST" → rqMethod r ≠ "DELETE" → h s r = Ret (s', resp) → s' = s.

Lemma verb_of_write m : m = "POST" ∨ m = "DELETE" → verbFor m ≠ "get" ∧ verbFor m ≠ "list".
Proof. by intros [->| ->]. Qed.

Lemma authRequired_admin h s r s' resp :
  read_only_methods h → authRequired h s r = Ret (s', resp) →
  s' = s ∨ ∃ u, VerifyToken key now s (bearer r) = Ok u ∧ usAdmin u = true.
Proof.
  intros Hh. unfold authRequired. cbv zeta. case_bool_decide; [intros [= <- _]; by left|].
  assert (Hgo : ∀ u, (usAdmin u = true → ∃ u, VerifyToken key now s (bearer r) = Ok u ∧ usAdmin u = true) →
    match Authorize (Some u) (verbFor (rqMethod r)) (resourceFor r) with
    | Some _ => Ret (s, http_Error "forbidden" 403)
    | None => h s r
    end = Ret (s', resp) →
    s' = s ∨ ∃ u, VerifyToken key now s (bearer r) = Ok u ∧ usAdmin u = true).
  { intros u Hu. destruct (Authorize (Some u) _ _) eqn:Ha; [intros [= <- _]; by left|].
    intros Hr. apply Authorize_some in Ha as [Ha|Ha]; [by right; apply Hu|]. left.
    destruct (decide (rqMethod r = "POST" ∨ rqMethod r = "DELETE")) as [Hw|Hw].
    - pose proof (verb_of_write _ Hw). tauto.
    - eapply Hh; [..|exact Hr]; tauto. }
  destruct (VerifyToken key now s (bearer r)) as [u|e] eqn:Hv; cbn [go_bind].
  - apply Hgo. eauto.
  - destruct (AuthAPIKey now s (bearer r)) as [[k|e']|]; cbn [go_bind]; [|intros [= <- _]; by left|done].
    apply Hgo. done.
Qed.

Lemma handleUsers_read_only rid salt : read_only_methods (handleUsers rid salt).
Proof.
  intros s r s' resp Hp Hd. unfold handleUsers. rewrite (bool_decide_false (rqMethod r = "POST")) by done.
  case_bool_decide; [destruct (ListUsers s)|]; by intros [= <- _].
Qed.

Lemma handleAPIKeys_read_only bytes rid : read_only_methods (handleAPIKeys bytes rid).
Proof.
  intros s r s' resp Hp Hd. unfold handleAPIKeys. rewrite (bool_decide_false (rqMethod r = "POST")) by done.
  case_bool_decide; by intros [= <- _].
Qed.

Lemma handleProjects_read_only : read_only_methods handleProjects.
Proof.
  intros s r s' resp Hp Hd. unfold handleProjects. rewrite (bool_decide_false (rqMethod r = "POST")) by done.
  case_bool_decide; by intros [= <- _].
Qed.

Section KindLemmas.
Context {A : Type} `{Resource S A, FromJSON A, ToJSON A, ToJSON (list A)}.

Lemma project_handler_read_only : read_only_methods (project_handler (A := A)).
Proof.
  intros s r s' resp Hp Hd. unfold project_handler. rewrite (bool_decide_false (rqMethod r = "POST")) by done.
  repeat case_bool_decide; by intros [= <- _].
Qed.

Lemma strict_project_handler_read_only : read_only_methods (strict_project_handler (A := A)).
Proof.
  intros s r s' resp Hp Hd. unfold strict_project_handler.
  rewrite (bool_decide_false (rqMethod r = "POST")) by done.
  repeat case_bool_decide; try (by intros [= <- _]). destruct (res_list s _); by intros [= <- _].
Qed.

Lemma global_handler_read_only : read_only_methods (global_handler (A := A)).
Proof.
  intros s r s' resp Hp Hd. unfold global_handler. rewrite (bool_decide_false (rqMethod r = "POST")) by done.
  case_bool_decide; by intros [= <- _].
Qed.

End KindLemmas.

Lemma handleNodes_read_only : read_only_methods handleNodes.
Proof. intros s r s' resp _ _. unfold handleNodes. case_bool_decide; by intros [= <- _]. Qed.

Lemma handleLogs_read_only : read_only_methods handleLogs.
Proof. intros s r s' resp _ _. unfold handleLogs. case_bool_decide; by intros [= <- _]. Qed.

Lemma handleModels_read_only : read_only_methods handleModels.
Proof. intros s r s' resp _ _. unfold handleModels. case_bool_decide; by intros [= <- _]. Qed.

Lemma handleObjects_read_only : read_only_methods handleObjects.
Proof.
  intros s r s' resp Hp Hd. unfold handleObjects. destruct (SplitN2 _ _) as [b [k|]]; [|by intros [= <- _]].
  rewrite (bool_decide_false (rqMethod r = "DELETE")) by done.
  case_bool_decide; [destruct (GetObject s b k)|]; by intros [= <- _].
Qed.

Lemma handleLogin_pure s r s' resp : handleLogin s r = Ret (s', resp) → s' = s.
Proof.
  unfold handleLogin. case_bool_decide; [|by intros [= <- _]]. cbn [negb].
  destruct (readJSON r) as [b|e]; [|by intros [= <- _]].
  destruct (Login _ _ _ _ _) as [[[? ?] ?]|e]; by intros [= <- _].
Qed.

Lemma handleMetrics_pure s r s' resp : handleMetrics s r = Ret (s', resp) → s' = s.
Proof. unfold handleMetrics. case_bool_decide; by intros [= <- _]. Qed.

(** C6: Through the API only administrators change the store: whatever the
    request, if it is served (the server does not panic) and the store is not
    the one before, the request carried a valid, unexpired token of a user who
    is an administrator.  API keys never authorise a change. *)
Theorem only_admin_changes_store (rid salt bytes : string) (s s' : S) (r : Request) (resp : Response) :
  Routes rid salt bytes s r = Ret (s', resp) →
  s' = s ∨ ∃ u, VerifyToken key now s (bearer r) = Ok u ∧ usAdmin u = true.
Proof.
  unfold Routes, route_table. cbn [find_route].
  repeat (case_bool_decide;
    [first [apply authRequired_admin
           | intros Hl; left; by eapply handleLogin_pure
           | intros Hl; left; by eapply handleMetrics_pure
           | intros [= <- _]; by left];
     first [apply handleUsers_read_only | apply handleAPIKeys_read_only | apply handleProjects_read_only
           | apply strict_project_handler_read_only | apply project_handler_read_only
           | apply global_handler_read_only | apply handleNodes_read_only | apply handleLogs_read_only
           | apply handleModels_read_only]|]).
  destruct (HasPrefix _ _); [|intros [= <- _]; by left].
  apply authRequired_admin, handleObjects_read_only.
Qed.

(** What a user who is not an administrator may do, by method. *)
Lemma Authorize_viewer u m res : usAdmin u = false →
  Authorize (Some u) (verbFor m) res =
    if bool_decide (m ∈ ["POST"; "PUT"; "DELETE"]) then Some ErrUnauthorized else None.
Proof.
  intros Hu. case_bool_decide as Hm.
  - assert (Authorize (Some u) (verbFor m) res = None → False) as Hn.
    { intros Ha%Authorize_some. rewrite Hu in Ha.
      repeat (apply elem_of_cons in Hm as [Hm|Hm]; [rewrite Hm in Ha; by destruct Ha as [|[]]|]). set_solver. }
    unfold Authorize in *. destruct (HasPermission _ _ _); [by destruct Hn|done].
  - apply Authorize_some. right. left. unfold verbFor.
    rewrite (bool_decide_false (m = "POST")), (bool_decide_false (m = "PUT")), (bool_decide_false (m = "DELETE"))
      by (intros ->; apply Hm; set_solver).
    by destruct (bool_decide (m = "GET")).
Qed.

(** C7: The guard in front of every protected handler, on a request whose token
    (the bearer of the Authorization header or, without one, the session cookie;
    no other header counts) is empty, a valid session, a valid API key, or
    neither.  No token: 401.  Neither session nor key: 401 with the session's
    error, except that a token that starts with ctlk_ and is shorter than 8 bytes
    makes the server panic as soon as the store lists one key.  A session of a
    user who is not an administrator, or a key: a POST, PUT or DELETE is answered
    403, and every other method goes to the handler.  An administrator's session:
    every request goes to the handler.  The answers 401 and 403 leave the store
    untouched and do not run the handler. *)
Theorem authRequired_guards (h : handler) (s : S) (r : Request) :
  (bearer r = "" → authRequired h s r = Ret (s, http_Error "missing token" 401)) ∧
  (∀ e, bearer r ≠ "" → VerifyToken key now s (bearer r) = Err e →
     (∀ k, AuthAPIKey now s (bearer r) ≠ Ret (Ok k)) →
     (short_key s (bearer r) → authRequired h s r = Panic) ∧
     (¬ short_key s (bearer r) → authRequired h s r = Ret (s, http_Error e 401))) ∧
  (∀ u, bearer r ≠ "" → usAdmin u = false →
     VerifyToken key now s (bearer r) = Ok u ∨
     (∃ e k, VerifyToken key now s (bearer r) = Err e ∧ AuthAPIKey now s (bearer r) = Ret (Ok k) ∧ u = key_user k) →
     authRequired h s r =
       if bool_decide (rqMethod r ∈ ["POST"; "PUT"; "DELETE"]) then Ret (s, http_Error "forbidden" 403) else h s r) ∧
  (∀ u, bearer r ≠ "" → VerifyToken key now s (bearer r) = Ok u → usAdmin u = true →
     authRequired h s r = h s r).
Proof.
  unfold authRequired. cbv zeta. split_and!.
  - intros ->. done.
  - intros e Hb Hv Hk. rewrite bool_decide_false, Hv by done. split; intros Hs.
    + apply (AuthAPIKey_panics_iff now) in Hs. by rewrite Hs.
    + destruct (AuthAPIKey now s (bearer r)) as [[k|e']|] eqn:Ha; [by destruct (Hk k)|done|].
      by apply AuthAPIKey_panics_iff in Ha.
  - intros u Hb Hu Hau. rewrite bool_decide_false by done.
    assert (∀ (a : go (res User)), a = Ret (Ok u) → go_bind a (λ auth, match auth with
      | Err e => Ret (s, http_Error e 401)
      | Ok u => match Authorize (Some u) (verbFor (rqMethod r)) (resourceFor r) with
                | Some _ => Ret (s, http_Error "forbidden" 403) | None => h s r end end) =
      if bool_decide (rqMethod r ∈ ["POST"; "PUT"; "DELETE"]) then Ret (s, http_Error "forbidden" 403) else h s r) as Hgo.
    { intros a ->. cbn [go_bind]. rewrite (Authorize_viewer u _ _ Hu). by case_bool_decide. }
    apply Hgo. destruct Hau as [->|(e & k & -> & -> & ->)]; done.
  - intros u Hb Hv Hu. rewrite bool_decide_false, Hv by done. cbn [go_bind].
    by rewrite (proj2 (Authorize_some u _ _)) by auto.
Qed.

(** C20: Creating a workload: an administrator's POST, with a valid session
    token, a project in the query and a body that decodes to a workload with an
    ID, stores that workload under the project of the query and with its ID as
    name, and answers 201 with it, or 409 with the store's error; without a
    project, a decodable body or an ID the answer is 400 and nothing is stored
    (so it is for the example of docs/api.md, which gives neither a project nor
    an ID). *)
Theorem create_workload (rid salt bytes : string) (s : S) (r : Request) (u : User) :
  rqPath r = "/v1/workloads" → rqMethod r = "POST" → bearer r ≠ "" →
  VerifyToken key now s (bearer r) = Ok u → usAdmin u = true →
  (rqProjectID r = "" → Routes rid salt bytes s r = Ret (s, http_Error "project_id required" 400)) ∧
  (∀ e, rqProjectID r ≠ "" → from_json (A := Workload) (rqBody r) = Err e →
     Routes rid salt bytes s r = Ret (s, http_Error e 400)) ∧
  (∀ x, rqProjectID r ≠ "" → from_json (A := Workload) (rqBody r) = Ok x → bID (res_base x) = "" →
     Routes rid salt bytes s r = Ret (s, http_Error "id required" 400)) ∧
  (∀ x s' e, rqProjectID r ≠ "" → from_json (A := Workload) (rqBody r) = Ok x → bID (res_base x) ≠ "" →
     res_create s (res_set_base (mk_Base (bID (res_base x)) (rqProjectID r) (bID (res_base x))) x) = (s', e) →
     Routes rid salt bytes s r =
       Ret (s', match e with
                | Some e => http_Error e 409
                | None => writeJSON 201 (res_set_base (mk_Base (bID (res_base x)) (rqProjectID r) (bID (res_base x))) x)
                end)).
Proof.
  intros Hp Hm Hb Hv Hu.
  assert (Routes rid salt bytes s r = handleWorkloads s r) as ->.
  { unfold Routes. rewrite Hp.
    change (find_route (route_table rid salt bytes) "/v1/workloads") with (Some (authRequired handleWorkloads)).
    unfold authRequired. cbv zeta.
    rewrite bool_decide_false, Hv by done. cbn [go_bind].
    by rewrite (proj2 (Authorize_some u _ _)) by auto. }
  unfold handleWorkloads, strict_project_handler, create_branch, readJSON. rewrite Hm.
  rewrite (bool_decide_false ("POST" = "GET")), (bool_decide_true ("POST" = "POST")) by done.
  split_and!.
  - intros Hq. by rewrite bool_decide_true.
  - intros e Hq Hj. by rewrite bool_decide_false, Hj.
  - intros x Hq Hj Hid. rewrite bool_decide_false, Hj by done. by rewrite bool_decide_true.
  - intros x s' e Hq Hj Hid Hc. rewrite bool_decide_false, Hj by done. rewrite bool_decide_false by done.
    unfold labelled. rewrite Hc. by destruct e.
Qed.

End Server.

(** ** Examples *)

(** A store with one user, its keys, and what was created in it. *)
Record ex_api := mk_ex_api { xa_user : User; xa_keys : list APIKey; xa_workloads : list Workload }.

#[local] Instance xa_crypto : Crypto := {|
  hmac_sha256 k m := k +:+ m; sha256 s := s;
  bcrypt_generate salt p := Ok ("h" +:+ p); bcrypt_compare h p := bool_decide (h = "h" +:+ p);
|}.
#[local] Instance xa_users : UserStore ex_api := {|
  FindUserByEmail s e := if bool_decide (usEmail (xa_user s) = e) then Ok (xa_user s) else Err "not found";
  GetUser s id := if bool_decide (usID (xa_user s) = id) then Ok (xa_user s) else Err "not found";
  ListUsers s := Ok [xa_user s];
  CreateUser_ s u := (s, Some "exists");
|}.
#[local] Instance xa_apikeys : APIKeyStore ex_api := {|
  ListAPIKeys s := Ok (xa_keys s);
  CreateAPIKey s k := (mk_ex_api (xa_user s) (xa_keys s ++ [k]) (xa_workloads s), None);
|}.
#[local] Instance xa_json {A} : ToJSON A := λ _, "{}".
#[local] Instance xa_nojson {A} : FromJSON A | 10 := λ _, Err "unexpected EOF".
Definition ex_body (id : string) : Workload :=
  mk_Workload (mk_Base id "" "") 1 100 1 0 ∅ [] [] ∅ [] [] (mk_WorkloadStatus false "" 0 0).
(** Every body stands for the workload named by it. *)
#[local] Instance xa_wljson : FromJSON Workload := λ b, Ok (ex_body b).
#[local] Instance xa_noresource {A} : Resource ex_api A | 10 := {|
  res_base _ := mk_Base "" "" ""; res_set_base _ x := x; res_list _ _ := Ok [];
  res_create s _ := (s, Some "unsupported");
|}.
Definition rebase (b : Base) (w : Workload) : Workload :=
  mk_Workload b (wlReplicas w) (wlCPUMillicores w) (wlMemoryBytes w) (wlGPUs w) (wlNodeSelector w)
    (wlTolerations w) (wlAntiAffinity w) (wlEnv w) (wlConfigMapRefs w) (wlSecretRefs w) (wlStatus w).
#[local] Instance xa_workload_resource : Resource ex_api Workload := {|
  res_base := wlBase; res_set_base := rebase; res_list s _ := Ok (xa_workloads s);
  res_create s w := (mk_ex_api (xa_user s) (xa_keys s) (xa_workloads s ++ [w]), None);
|}.
#[local] Instance xa_projects : ProjectStore ex_api := {| ListProjects _ := Ok [] |}.
#[local] Instance xa_nodes : NodeStore ex_api := {|
  ListNodes _ := Ok []; GetNode _ _ := Err "not found"; UpsertNode s _ := (s, None);
|}.

Definition ex_store_of (admin : bool) : ex_api :=
  mk_ex_api (mk_User (mk_Base "usr_1" "" "Ann") "ann@x" "Ann" admin "hpw") [] [].
Definition ex_tok : string := signToken "k" "usr_1" (10 ^ 20).
Definition ex_request (method path body : string) : Request :=
  mk_Request method path "proj" ("Bearer " +:+ ex_tok) None body.

(** The server on this store; the kinds it does not hold are [unit]. *)
Definition ex_routes : ex_api → Request → go (ex_api * Response) :=
  Routes (S := ex_api) (Deployment := unit) (Network := unit) (Volume := unit) (Secret := unit)
    (ConfigMap := unit) (Bucket := unit) (Alert := unit) (Model := unit) (Object := unit)
    "k" 0 (λ s _, (s, None)) (λ _, Ok []) (λ _ _ _, Err "not found") (λ s _ _, (s, None)) "r" "s" "b".

Lemma ex_tok_valid admin :
  VerifyToken "k" 0 (ex_store_of admin) (bearer (ex_request "POST" "/v1/workloads" "w1")) =
  Ok (xa_user (ex_store_of admin)).
Proof. by destruct admin; vm_compute. Qed.

Lemma ex_bearer : bearer (ex_request "POST" "/v1/workloads" "w1") ≠ "".
Proof. intros E. vm_compute in E. discriminate E. Qed.

Definition created : ex_api :=
  mk_ex_api (xa_user (ex_store_of true)) [] [rebase (mk_Base "w1" "proj" "w1") (ex_body "w1")].

Lemma only_admin_changes_store_witness :
  ∃ resp, ex_routes (ex_store_of true) (ex_request "POST" "/v1/workloads" "w1") = Ret (created, resp) ∧
  (created = ex_store_of true ∨
   ∃ u, VerifyToken "k" 0 (ex_store_of true) (bearer (ex_request "POST" "/v1/workloads" "w1")) = Ok u ∧
        usAdmin u = true).
Proof.
  assert (∃ resp, ex_routes (ex_store_of true) (ex_request "POST" "/v1/workloads" "w1") = Ret (created, resp))
    as [resp HR] by (eexists; vm_compute; reflexivity).
  exists resp. split; [exact HR|]. unfold ex_routes in HR.
  exact (only_admin_changes_store (S := ex_api) (Deployment := unit) (Network := unit) (Volume := unit)
    (Secret := unit) (ConfigMap := unit) (Bucket := unit) (Alert := unit) (Model := unit) (Object := unit)
    "k" 0 (λ s _, (s, None)) (λ _, Ok []) (λ _ _ _, Err "not found") (λ s _ _, (s, None))
    "r" "s" "b" (ex_store_of true) created (ex_request "POST" "/v1/workloads" "w1") resp HR).
Defined.

Lemma authRequired_guards_witness : ∃ resp,
  ex_routes (ex_store_of false) (ex_request "POST" "/v1/workloads" "w1") = Ret (ex_store_of false, resp) ∧
  authRequired "k" 0 (λ s _, Ret (s, mk_Response 200 "" "")) (ex_store_of false)
    (ex_request "POST" "/v1/workloads" "w1") = Ret (ex_store_of false, http_Error "forbidden" 403).
Proof.
  eexists. split; [vm_compute; reflexivity|].
  destruct (authRequired_guards "k" 0 (λ s _, Ret (s, mk_Response 200 "" "")) (ex_store_of false)
    (ex_request "POST" "/v1/workloads" "w1")) as (_ & _ & Hforbid & _).
  rewrite (Hforbid (xa_user (ex_store_of false)));
    [reflexivity|exact ex_bearer|reflexivity|left; apply ex_tok_valid].
Defined.

Lemma create_workload_witness :
  ex_routes (ex_store_of true) (ex_request "POST" "/v1/workloads" "w1") =
    Ret (created, mk_Response 201 "application/json" ("{}" +:+ nl)).
Proof.
  destruct (create_workload (S := ex_api) (Deployment := unit) (Network := unit) (Volume := unit) (Secret := unit)
    (ConfigMap := unit) (Bucket := unit) (Alert := unit) (Model := unit) (Object := unit)
    "k" 0 (λ s _, (s, None)) (λ _, Ok []) (λ _ _ _, Err "not found") (λ s _ _, (s, None))
    "r" "s" "b" (ex_store_of true) (ex_request "POST" "/v1/workloads" "w1") (xa_user (ex_store_of true)))
    as (_ & _ & _ & Hok); [reflexivity|reflexivity|exact ex_bearer|apply ex_tok_valid|reflexivity|].
  refine (Hok (ex_body "w1") created None _ _ _ _); [discriminate|reflexivity|discriminate|reflexivity].
Defined.

(** The operator role's rules name bare resources, but a request to /v1/nodes is
    authorised as "/v1/nodes", and a POST as "create": they never match. *)
Lemma operator_rules_never_match r :
  rqPath r = "/v1/nodes" →
  HasPermission (default [] (builtinRoles !! "operator")) (verbFor (rqMethod r)) (resourceFor r) = false.
Proof.
  intros Hp.
  assert (resourceFor r = "/v1/nodes") as -> by (unfold resourceFor; rewrite Hp; vm_compute; reflexivity).
  unfold verbFor. repeat case_bool_decide; vm_compute; reflexivity.
Qed.
