(* ===== verification/Lb.v ===== *)
(** * Package lb: the layer-4 load balancer

    Models internal/lb/lb.go.  The slice of backends is kept with its backing
    arrays, because [pick] hands out pointers into an array that [refresh]
    reuses.  Dialling is the parameter of the health check, and the outcome of
    a dial an argument.  The accept loop, connections in flight and the forwarding
    of bytes are in LbServe.v. *)

From S2P Require Import Prelude State.

Definition Strategy := string.
Definition StrategyRoundRobin : Strategy := "round_robin".
Definition StrategyLeastConnections : Strategy := "least_connections".

Record Config := mk_Config { cfService : string; cfStrategy : Strategy }.

Record Backend := mk_Backend {
  beAddr : string; beWeight : Z; beConns : Z; beHealthy : bool; beLastChange : Time;
}.
Definition zero_Backend : Backend := mk_Backend "" 0 0 false 0.

(** [arrays]: every backing array allocated, each as long as its capacity; the
    slice is the first [len] cells of array [cur]. *)
Record Balancer := mk_Balancer {
  cfg : Config; arrays : list (list Backend); cur : nat; len : nat; stop_closed : bool; closed : bool;
}.

Definition NewBalancer (c : Config) : Balancer :=
  let st := if bool_decide (cfStrategy c = "") then StrategyRoundRobin else cfStrategy c in
  mk_Balancer (mk_Config (cfService c) st) [[]] 0 0 false false.

Abbreviation pointer := (nat * nat)%type.

Definition backends (b : Balancer) : list Backend := take (len b) (default [] (arrays b !! cur b)).
Definition deref (b : Balancer) (p : pointer) : option Backend := a ← arrays b !! p.1; a !! p.2.
Definition update (b : Balancer) (p : pointer) (f : Backend → Backend) : Balancer :=
  mk_Balancer (cfg b) (alter (alter f p.2) p.1 (arrays b)) (cur b) (len b) (stop_closed b) (closed b).

(** ** Choosing a backend *)

Definition healthy (b : Balancer) : list nat :=
  List.filter (λ i, match backends b !! i with Some x => beHealthy x | None => false end)
    (seq 0 (length (backends b))).

Definition conns_at (b : Balancer) (i : nat) : Z :=
  match backends b !! i with Some x => beConns x | None => 0%Z end.

(** The loop that keeps the first of the smallest. *)
Fixpoint least (b : Balancer) (best : option nat) (hs : list nat) : option nat :=
  match hs with
  | [] => best
  | i :: hs =>
      match best with
      | None => least b (Some i) hs
      | Some j => if (conns_at b i <? conns_at b j)%Z then least b (Some i) hs else least b best hs
      end
  end.

Definition ErrNoBackends : error := "lb: no healthy backends".

(** [nano] is the clock in nanoseconds as an int; a negative index panics. *)
Definition pick (nano : Z) (b : Balancer) : go (res pointer) :=
  match healthy b with
  | [] => Ret (Err ErrNoBackends)
  | hs =>
      if bool_decide (cfStrategy (cfg b) = StrategyLeastConnections) then
        match least b None hs with Some i => Ret (Ok (cur b, i)) | None => Panic end
      else
        let idx := Z.rem nano (Z.of_nat (length hs)) in
        match (if (0 <=? idx)%Z then hs !! Z.to_nat idx else None) with
        | Some i => Ret (Ok (cur b, i))
        | None => Panic
        end
  end.

(** ** A connection: its start, a failed dial, its end *)

Definition add_conns (d : Z) (x : Backend) : Backend :=
  mk_Backend (beAddr x) (beWeight x) (i32 (beConns x + d)) (beHealthy x) (beLastChange x).
Definition set_healthy (h : bool) (x : Backend) : Backend :=
  mk_Backend (beAddr x) (beWeight x) (beConns x) h (beLastChange x).

Definition handle_begin (nano : Z) (b : Balancer) : go (Balancer * option pointer) :=
  go_bind (pick nano b) (λ r,
    match r with
    | Err _ => Ret (b, None)
    | Ok p => Ret (update b p (add_conns 1), Some p)
    end).
Definition handle_dial_failed (b : Balancer) (p : pointer) : Balancer := update b p (set_healthy false).
Definition handle_end (b : Balancer) (p : pointer) : Balancer := update b p (add_conns (-1)).

(** ** Refresh *)

(** [append(b.backends, x)]: in place while there is capacity, else into a new
    array whose capacity [grow] chooses. *)
Definition append_backend (grow : nat → nat) (b : Balancer) (x : Backend) : Balancer :=
  let a := default [] (arrays b !! cur b) in
  if bool_decide (len b < length a) then
    mk_Balancer (cfg b) (alter (alter (λ _, x) (len b)) (cur b) (arrays b)) (cur b) (S (len b))
      (stop_closed b) (closed b)
  else
    let a' := backends b ++ [x] ++ replicate (grow (len b)) zero_Backend in
    mk_Balancer (cfg b) (arrays b ++ [a']) (length (arrays b)) (S (len b)) (stop_closed b) (closed b).

Definition truncate (b : Balancer) : Balancer :=
  mk_Balancer (cfg b) (arrays b) (cur b) 0 (stop_closed b) (closed b).

Definition matches_service (id : string) (s : Service) : bool :=
  bool_decide (bID (svBase s) = id) || bool_decide (bName (svBase s) = id).

Section Refresh.
Context {S : Type} `{ProjectStore S, ServiceStore S, PlacementStore S}.

(** The inner loop stops at the first match of a project; the outer one goes on,
    so that the last project with a match decides. *)
Fixpoint find_service (s : S) (id : string) (ps : list Project) (svc : option Service) : option Service :=
  match ps with
  | [] => svc
  | p :: ps =>
      let svcs := match ListServices s (pjID p) with Ok l => l | Err _ => [] end in
      find_service s id ps (match List.find (matches_service id) svcs with Some x => Some x | None => svc end)
  end.

Definition ready_addrs (port : Z) (ps : list Placement) : list string :=
  (λ p, plNodeID p +:+ ":" +:+ pretty port) <$> List.filter (λ p, bool_decide (plStatus p = "Ready")) ps.

Definition refresh (grow : nat → nat) (now : Time) (s : S) (b : Balancer) : Balancer :=
  match ListProjects s with
  | Err _ => b
  | Ok ps =>
      match find_service s (cfService (cfg b)) ps None with
      | None => b
      | Some svc =>
          let pls := match GetPlacements s (svWorkloadID svc) with Ok l => l | Err _ => [] end in
          foldl (λ b a, append_backend grow b (mk_Backend a 0 0 true now)) (truncate b)
            (ready_addrs (svPort svc) pls)
      end
  end.
End Refresh.

(** ** Health checks *)

Definition checked (now : Time) (up : bool) (x : Backend) : Backend :=
  if bool_decide (beHealthy x = up) then x
  else mk_Backend (beAddr x) (beWeight x) (beConns x) up now.

Definition healthCheck (dial : string → bool) (now : Time) (b : Balancer) : Balancer :=
  foldl (λ b i, update b (cur b, i) (λ x, checked now (dial (beAddr x)) x)) b (seq 0 (len b)).

(** One round of [Run]: a refresh, then a health check. *)
Definition run_tick {S : Type} `{ProjectStore S, ServiceStore S, PlacementStore S} (grow : nat → nat)
    (dial : string → bool) (t1 t2 : Time) (s : S) (b : Balancer) : Balancer :=
  healthCheck dial t2 (refresh grow t1 s b).

(** Closing the stop channel twice panics. *)
Definition Close (b : Balancer) : go Balancer :=
  if stop_closed b then Panic
  else Ret (mk_Balancer (cfg b) (arrays b) (cur b) (len b) true true).

(** ** The choice is right *)

Lemma elem_of_healthy b i :
  i ∈ healthy b ↔ ∃ x, backends b !! i = Some x ∧ beHealthy x = true.
Proof.
  unfold healthy. rewrite list_elem_of_In, List.filter_In, <- list_elem_of_In, elem_of_seq. split.
  - intros [_ H]. destruct (backends b !! i) as [x|]; [eauto|done].
  - intros (x & Hx & Hh). split; [|by rewrite Hx]. apply lookup_lt_Some in Hx. lia.
Qed.

Lemma least_spec b best hs :
  match least b best hs with
  | None => best = None ∧ hs = []
  | Some i => (i ∈ hs ∨ best = Some i) ∧
      (∀ j, j ∈ hs ∨ best = Some j → (conns_at b i ≤ conns_at b j)%Z)
  end.
Proof.
  revert best. induction hs as [|h hs IH]; intros best; cbn [least].
  { destruct best as [i|]; [|done]. split; [by right|]. intros j [?|[= <-]]; [set_solver|lia]. }
  destruct best as [b0|].
  - destruct (Z.ltb_spec (conns_at b h) (conns_at b b0)) as [Hlt|Hge].
    + specialize (IH (Some h)). destruct (least b (Some h) hs) as [i|]; [|by destruct IH].
      destruct IH as [Hi Hm]. split; [destruct Hi as [?|[= ->]]; left; set_solver|].
      assert (conns_at b i ≤ conns_at b h)%Z by (apply Hm; by right).
      intros j [[->|Hj]%elem_of_cons|[= <-]]; [done|apply Hm; by left|lia].
    + specialize (IH (Some b0)). destruct (least b (Some b0) hs) as [i|]; [|by destruct IH].
      destruct IH as [Hi Hm]. split; [destruct Hi as [?|?]; [left; set_solver|by right]|].
      assert (conns_at b i ≤ conns_at b b0)%Z by (apply Hm; by right).
      intros j [[->|Hj]%elem_of_cons|Hj]; [lia|apply Hm; by left|apply Hm; by right].
  - specialize (IH (Some h)). destruct (least b (Some h) hs) as [i|]; [|by destruct IH].
    destruct IH as [Hi Hm]. split; [destruct Hi as [?|[= ->]]; left; set_solver|].
    intros j [[->|Hj]%elem_of_cons|?]; [apply Hm; by right|apply Hm; by left|done].
Qed.

(** The slice lies within its array. *)
Definition slice_ok (b : Balancer) : Prop :=
  ∃ a, arrays b !! cur b = Some a ∧ len b ≤ length a.

Lemma deref_backend b i x : backends b !! i = Some x → deref b (cur b, i) = Some x.
Proof.
  unfold backends, deref. cbn. destruct (arrays b !! cur b) as [a|]; cbn; [|by rewrite take_nil].
  intros [H _]%lookup_take_Some. done.
Qed.

(** The balancer picks well, and exactly when it can: it reports that there
    is no healthy backend only when there is none; otherwise it returns a
    pointer to a healthy backend of the current list, and under the
    least-connections strategy none of the healthy ones has fewer connections.
    It does not panic (for a clock after 1970). *)
Theorem pick_spec (nano : Z) (b : Balancer) :
  (0 ≤ nano)%Z →
  (pick nano b = Ret (Err ErrNoBackends) ∧ (∀ i x, backends b !! i = Some x → beHealthy x = false)) ∨
  (∃ i x, pick nano b = Ret (Ok (cur b, i)) ∧ backends b !! i = Some x ∧ deref b (cur b, i) = Some x ∧
     beHealthy x = true ∧
     (cfStrategy (cfg b) = StrategyLeastConnections →
      ∀ j y, backends b !! j = Some y → beHealthy y = true → (beConns x ≤ beConns y)%Z)).
Proof.
  intros Hn. unfold pick. destruct (healthy b) as [|h hs] eqn:Hh.
  - left. split; [done|]. intros i x Hx. destruct (beHealthy x) eqn:E; [|done].
    assert (i ∈ healthy b) as Hi by (apply elem_of_healthy; eauto). rewrite Hh in Hi. set_solver.
  - right. case_bool_decide as Hs.
    + pose proof (least_spec b None (h :: hs)) as Hl. rewrite <- Hh in Hl |- *.
      destruct (least b None (healthy b)) as [i|]; [|destruct Hl as [_ Hl]; congruence].
      destruct Hl as [[Hi|?] Hm]; [|done]. apply elem_of_healthy in Hi as (x & Hx & Hxh). exists i, x.
      split_and!; [done|done|by apply deref_backend|done|]. intros _ j y Hy Hyh.
      assert (j ∈ healthy b) as Hj by (apply elem_of_healthy; eauto).
      specialize (Hm j (or_introl Hj)). unfold conns_at in Hm. by rewrite Hx, Hy in Hm.
    + pose proof (Z.rem_bound_pos nano (Z.of_nat (length (h :: hs))) Hn ltac:(cbn; lia)) as Hr.
      cbv zeta. rewrite (proj2 (Z.leb_le _ _)) by lia.
      destruct (lookup_lt_is_Some_2 (h :: hs) (Z.to_nat (Z.rem nano (Z.of_nat (length (h :: hs)))))) as [i Hi]; [lia|].
      rewrite Hi. pose proof (list_elem_of_lookup_2 _ _ _ Hi) as Hin. rewrite <- Hh in Hin.
      apply elem_of_healthy in Hin as (x & Hx & Hxh). exists i, x.
      split_and!; [done|done|by apply deref_backend|done|done].
Qed.

Definition ex_lb (strategy : Strategy) : Balancer :=
  mk_Balancer (mk_Config "svc" strategy)
    [[mk_Backend "a:80" 0 3 true 0; mk_Backend "b:80" 0 0 false 0; mk_Backend "c:80" 0 1 true 0]] 0 3 false false.

Lemma pick_spec_witness : ∃ i x,
  pick 7 (ex_lb StrategyLeastConnections) = Ret (Ok (0, i)) ∧ beConns x = 1%Z ∧
  ∀ j y, backends (ex_lb StrategyLeastConnections) !! j = Some y → beHealthy y = true → (beConns x ≤ beConns y)%Z.
Proof.
  destruct (pick_spec 7 (ex_lb StrategyLeastConnections)) as [[H _]|(i & x & H1 & H2 & _ & _ & H3)].
  - discriminate.
  - vm_compute in H. discriminate H.
  - exists i, x. split; [exact H1|]. split; [|exact (H3 eq_refl)].
    vm_compute in H1. injection H1 as <-. vm_compute in H2. injection H2 as <-. reflexivity.
Defined.

(** ** Refresh *)

Lemma append_backend_spec grow b x :
  slice_ok b →
  slice_ok (append_backend grow b x) ∧ backends (append_backend grow b x) = backends b ++ [x] ∧
  cfg (append_backend grow b x) = cfg b.
Proof.
  intros (a & Ha & Hle). unfold append_backend. rewrite Ha. change (default [] (Some a)) with a. cbv zeta.
  assert (backends b = take (len b) a) as Hb by (unfold backends; by rewrite Ha).
  case_bool_decide as Hlt.
  - split_and!; [| |done].
    + exists (alter (λ _, x) (len b) a). cbn. rewrite list_lookup_alter_eq, Ha, length_alter. done.
    + rewrite Hb. unfold backends. cbn. rewrite list_lookup_alter_eq, Ha. cbn.
      rewrite (take_S_r _ _ x); [|rewrite list_lookup_alter_eq; by destruct (lookup_lt_is_Some_2 a (len b) Hlt) as [y ->]].
      rewrite take_alter. by rewrite decide_False by lia.
  - assert (len b = length a) as Hl by lia. split_and!; [| |done].
    + eexists. cbn. rewrite lookup_app_r, Nat.sub_diag by lia. split; [done|].
      rewrite Hb, !length_app, length_take. cbn. lia.
    + unfold backends at 1. cbn. rewrite lookup_app_r, Nat.sub_diag by lia. cbn.
      rewrite take_app, Hb, take_take, length_take. 
      replace (S (len b) `min` len b) with (len b) by lia.
      replace (S (len b) - len b `min` length a) with 1 by lia. done.
Qed.

Lemma append_all grow (f : string → Backend) addrs b :
  slice_ok b →
  let b' := foldl (λ b a, append_backend grow b (f a)) b addrs in
  slice_ok b' ∧ backends b' = backends b ++ (f <$> addrs) ∧ cfg b' = cfg b.
Proof.
  revert b. induction addrs as [|a addrs IH]; intros b Hb; cbn.
  { rewrite app_nil_r. done. }
  destruct (append_backend_spec grow b (f a) Hb) as (H1 & H2 & H3).
  destruct (IH _ H1) as (H4 & H5 & H6). split_and!; [done| |congruence].
  rewrite H5, H2, <- app_assoc. done.
Qed.

(** After a refresh the backends are the service's ready placements: in the
    order of the store, each under its node's name and the service's port,
    healthy and without connections; when the projects cannot be listed or no
    project has the service, the list stays as it was. *)
Theorem refresh_backends {S} `{ProjectStore S, ServiceStore S, PlacementStore S}
    (grow : nat → nat) (now : Time) (s : S) (b : Balancer) :
  slice_ok b →
  match ListProjects s with
  | Err _ => refresh grow now s b = b
  | Ok ps =>
      match find_service s (cfService (cfg b)) ps None with
      | None => refresh grow now s b = b
      | Some svc =>
          slice_ok (refresh grow now s b) ∧
          backends (refresh grow now s b) =
            (λ a, mk_Backend a 0 0 true now) <$>
              ready_addrs (svPort svc) (match GetPlacements s (svWorkloadID svc) with Ok l => l | Err _ => [] end)
      end
  end.
Proof.
  intros Hb. unfold refresh. destruct (ListProjects s) as [ps|]; [|done].
  destruct (find_service s (cfService (cfg b)) ps None) as [svc|]; [|done].
  assert (slice_ok (truncate b)) as Ht by (destruct Hb as (a & ? & ?); exists a; split; [done|cbn; lia]).
  destruct (append_all grow (λ a, mk_Backend a 0 0 true now)
    (ready_addrs (svPort svc) (match GetPlacements s (svWorkloadID svc) with Ok l => l | Err _ => [] end))
    (truncate b) Ht) as (Hs1 & Hs2 & _).
  split; [exact Hs1|exact Hs2].
Qed.

Definition ex_svc_store : mem :=
  mk_mem ∅ ∅ {["w" := [mk_Placement (mk_Base "p0" "" "") "w" "n1" 0 "Ready";
                       mk_Placement (mk_Base "p1" "" "") "w" "n2" 1 "Pending"]]}
    [mk_Project (mk_Base "proj" "" "") "" 0 0 0]
    {["proj" := [mk_Service (mk_Base "svc" "proj" "svc") "w" 80]]}.

Lemma refresh_backends_witness :
  backends (refresh (λ n, n) 9 ex_svc_store (ex_lb StrategyRoundRobin)) = [mk_Backend "n1:80" 0 0 true 9].
Proof.
  assert (slice_ok (ex_lb StrategyRoundRobin)) as Hok by (eexists; split; [reflexivity|cbn; lia]).
  exact (proj2 (refresh_backends (λ n, n) 9 ex_svc_store (ex_lb StrategyRoundRobin) Hok)).
Defined.

(** A connection that outlives a refresh decrements the count of the backend
    that took its cell: the count becomes -1. *)
Lemma stale_pointer_underflows :
  let b1 := match handle_begin 7 (ex_lb StrategyRoundRobin) with Ret x => x | Panic => (ex_lb StrategyRoundRobin, None) end in
  b1.2 = Some (0, 2) ∧
  beConns <$> deref (handle_end (refresh (λ n, n) 9
    (mk_mem ∅ ∅ {["w" := (λ i, mk_Placement (mk_Base "p" "" "") "w" i 0 "Ready") <$> ["x"; "y"; "z"]]}
       [mk_Project (mk_Base "proj" "" "") "" 0 0 0] {["proj" := [mk_Service (mk_Base "svc" "proj" "svc") "w" 80]]})
    b1.1) (0, 2)) (0, 2) = Some (-1)%Z.
Proof. split; vm_compute; reflexivity. Qed.
