(* ===== verification/LbServe.v ===== *)
(** * Package lb: connections in flight

    Models the rest of internal/lb/lb.go: [Serve] with one goroutine per
    connection ([handle], split where other goroutines can come in between), the
    loop of [Run], and the forwarding of bytes.  The mutex of the balancer
    protects [pick], the rewriting of the list and the health check; the counts
    and health of a backend are written by [handle] without it, through the
    pointer [pick] returned.  An execution is a sequence of steps in any order;
    what the network does is an argument of the steps. *)

From S2P Require Import Prelude State Lb.

(** ** One direction of a connection *)

(** [io.Copy]: not called yet, copying, returned at the end of the source, or
    returned with an error (which the code drops). *)
Inductive copy_state := NotStarted | Copying | Finished | Failed.
#[export] Instance copy_state_eq_dec : EqDecision copy_state.
Proof. solve_decision. Defined.

(** What the source sent and is not read yet, what the destination was given,
    whether the source has ended, and how far the copy is. *)
Record pipe := mk_pipe { unread : string; copied : string; eof : bool; copy : copy_state }.
Definition new_pipe : pipe := mk_pipe "" "" false NotStarted.

Definition sends (s : string) (x : pipe) : pipe := mk_pipe (unread x +:+ s) (copied x) (eof x) (copy x).
Definition ends (x : pipe) : pipe := mk_pipe (unread x) (copied x) true (copy x).
Definition becomes (c : copy_state) (x : pipe) : pipe := mk_pipe (unread x) (copied x) (eof x) c.
(** A read of [k] bytes of which [m] are written before an error, if any. *)
Definition moves (k m : nat) (x : pipe) : pipe :=
  mk_pipe (string_drop k (unread x)) (copied x +:+ string_take m (string_take k (unread x))) (eof x) (copy x).

(** A read returns at least one byte of what is there; of a failing copy the last
    write, if there was one, may be short; the end is seen when all is read. *)
Definition can_move (k : nat) (x : pipe) : bool :=
  bool_decide (copy x = Copying) && bool_decide (0 < k ≤ String.length (unread x)).
Definition can_fail (k m : nat) (x : pipe) : bool :=
  bool_decide (copy x = Copying) && bool_decide (m ≤ k ≤ String.length (unread x)).
Definition at_eof (x : pipe) : bool :=
  bool_decide (copy x = Copying) && eof x && bool_decide (unread x = "").

(** ** A connection's goroutine *)

(** Where [handle] is.  [HCloseDst]: its own copy has returned and the backend's
    connection is not closed yet. *)
Inductive phase :=
| HPick
| HCount (p : pointer)
| HDial (p : pointer)
| HMark (p : pointer)
| HCopy (p : pointer)
| HCloseDst (p : pointer)
| HUncount (p : pointer)
| HClose
| HGone.

(** The pointer it holds, and whether its connection is in the count. *)
Definition holds (h : phase) : option pointer :=
  match h with HCount p | HDial p | HMark p | HCopy p | HCloseDst p | HUncount p => Some p | _ => None end.
Definition counted (h : phase) : option pointer :=
  match h with HDial p | HMark p | HCopy p | HCloseDst p | HUncount p => Some p | _ => None end.

(** [up] is the copy from the client to the backend, in a goroutine of its own;
    [down] the one [handle] waits for. *)
Record session := mk_session { ph : phase; target : string; up : pipe; down : pipe }.
Definition accepted : session := mk_session HPick "" new_pipe new_pipe.

Inductive action :=
| Pick (nano : Z)
| Count
| Dial (ok : bool)
| Mark
| ClientSends (s : string) | ClientEnds
| BackendSends (s : string) | BackendEnds
| CopyUp (k : nat) | UpEOF | UpFails (k m : nat)
| CopyDown (k : nat) | DownEOF | DownFails (k m : nat)
| CloseBackend
| Uncount
| CloseClient.

(** ** The balancer at work *)

(** [checking]: the health check holds the mutex and is at this backend.
    [serving]: [None] while [Serve] accepts, then what it returned. *)
Record world := mk_world {
  bal : Balancer; sessions : list session; checking : option nat; serving : option (option error);
}.
Definition set_bal (b : Balancer) (w : world) : world := mk_world b (sessions w) (checking w) (serving w).
Definition set_session (i : nat) (s : session) (w : world) : world :=
  mk_world (bal w) (<[i := s]> (sessions w)) (checking w) (serving w).
Definition set_checking (c : option nat) (w : world) : world := mk_world (bal w) (sessions w) c (serving w).

Definition set_ph (h : phase) (s : session) : session := mk_session h (target s) (up s) (down s).
Definition set_up (x : pipe) (s : session) : session := mk_session (ph s) (target s) x (down s).
Definition set_down (x : pipe) (s : session) : session := mk_session (ph s) (target s) (up s) x.

(** One action of session [i].  [None]: it cannot happen; [Panic]: the process
    panics.  The upward copy is a goroutine of its own: it writes until the
    backend's connection is closed, and can see the end of the client, or fail,
    as long as the client's connection is open or after. *)
Definition handle_step (a : action) (i : nat) (s : session) (w : world) : option (go world) :=
  let put s := Some (Ret (set_session i s w)) in
  match a, ph s with
  | Pick nano, HPick =>
      if bool_decide (checking w = None) then
        match pick nano (bal w) with
        | Panic => Some Panic
        | Ret (Err _) => put (set_ph HClose s)
        | Ret (Ok p) => put (set_ph (HCount p) s)
        end
      else None
  | Count, HCount p => Some (Ret (set_bal (update (bal w) p (add_conns 1)) (set_session i (set_ph (HDial p) s) w)))
  | Dial ok, HDial p =>
      if ok then
        let a := match deref (bal w) p with Some x => beAddr x | None => "" end in
        put (mk_session (HCopy p) a (becomes Copying (up s)) (becomes Copying (down s)))
      else put (set_ph (HMark p) s)
  | Mark, HMark p =>
      Some (Ret (set_bal (update (bal w) p (set_healthy false)) (set_session i (set_ph (HUncount p) s) w)))
  | ClientSends x, _ => if eof (up s) then None else put (set_up (sends x (up s)) s)
  | ClientEnds, _ => put (set_up (ends (up s)) s)
  | BackendSends x, (HCopy _ | HCloseDst _) => if eof (down s) then None else put (set_down (sends x (down s)) s)
  | BackendEnds, (HCopy _ | HCloseDst _) => put (set_down (ends (down s)) s)
  | CopyUp k, (HCopy _ | HCloseDst _) => if can_move k (up s) then put (set_up (moves k k (up s)) s) else None
  | UpEOF, (HCopy _ | HCloseDst _ | HUncount _ | HClose) => if at_eof (up s) then put (set_up (becomes Finished (up s)) s) else None
  | UpFails k m, _ => if can_fail k m (up s) then put (set_up (becomes Failed (moves k m (up s))) s) else None
  | CopyDown k, HCopy _ => if can_move k (down s) then put (set_down (moves k k (down s)) s) else None
  | DownEOF, HCopy p =>
      if at_eof (down s) then put (set_ph (HCloseDst p) (set_down (becomes Finished (down s)) s)) else None
  | DownFails k m, HCopy p =>
      if can_fail k m (down s)
      then put (set_ph (HCloseDst p) (set_down (becomes Failed (moves k m (down s))) s)) else None
  | CloseBackend, HCloseDst p => put (set_ph (HUncount p) s)
  | Uncount, HUncount p => Some (Ret (set_bal (update (bal w) p (add_conns (-1))) (set_session i (set_ph HClose s) w)))
  | CloseClient, HClose => put (set_ph HGone s)
  | _, _ => None
  end.

Section Work.
Context {S : Type} `{ProjectStore S, ServiceStore S, PlacementStore S}.

Inductive event :=
| Accept
| AcceptFails (e : error)
| Handle (i : nat) (a : action)
| Refresh (grow : nat → nat) (now : Time) (s : S)
| CheckBegin
| CheckOne (reached : bool) (now : Time)
| CheckEnd
| CloseBalancer.

(** [Serve] before its loop. *)
Definition Serve (store : option S) (grow : nat → nat) (now : Time) (b : Balancer) : world :=
  mk_world (match store with Some s => refresh grow now s b | None => b end) [] None None.

(** [Run] before its loop, whose rounds are [Refresh] and the checks. *)
Definition ErrStore : error := "lb: store required".
Definition Run (store : option S) : option error :=
  match store with Some _ => None | None => Some ErrStore end.

Definition step (e : event) (w : world) : option (go world) :=
  match e with
  | Accept =>
      match serving w with
      | None => Some (Ret (mk_world (bal w) (sessions w ++ [accepted]) (checking w) None))
      | Some _ => None
      end
  | AcceptFails err =>
      match serving w with
      | None => Some (Ret (mk_world (bal w) (sessions w) (checking w)
                             (Some (if closed (bal w) then None else Some err))))
      | Some _ => None
      end
  | Handle i a => s ← sessions w !! i; handle_step a i s w
  | Refresh grow now s =>
      if bool_decide (checking w = None) then Some (Ret (set_bal (refresh grow now s (bal w)) w)) else None
  | CheckBegin => if bool_decide (checking w = None) then Some (Ret (set_checking (Some 0) w)) else None
  | CheckOne reached now =>
      match checking w with
      | Some i =>
          if bool_decide (i < len (bal w)) then
            Some (Ret (set_checking (Some (Datatypes.S i))
              (set_bal (update (bal w) (cur (bal w), i) (checked now reached)) w)))
          else None
      | None => None
      end
  | CheckEnd =>
      match checking w with
      | Some i => if bool_decide (i < len (bal w)) then None else Some (Ret (set_checking None w))
      | None => None
      end
  | CloseBalancer =>
      match Close (bal w) with Panic => Some Panic | Ret b => Some (Ret (set_bal b w)) end
  end.

Fixpoint steps (es : list event) (w : world) : option (go world) :=
  match es with
  | [] => Some (Ret w)
  | e :: es => r ← step e w; match r with Ret w' => steps es w' | Panic => Some Panic end
  end.
End Work.
Arguments event : clear implicits.

(** ** What the counts count *)

(** The sessions in the count of backend [j] of array [c]. *)
Definition open_on (ss : list session) (c j : nat) : nat :=
  length (filter (λ s, counted (ph s) = Some (c, j)) ss).
#[local] Arguments open_on : simpl never.
Definition one_on (h : phase) (c j : nat) : nat := if decide (counted h = Some (c, j)) then 1 else 0.

Lemma open_on_insert ss i s s' c j :
  ss !! i = Some s →
  open_on (<[i := s']> ss) c j + one_on (ph s) c j = open_on ss c j + one_on (ph s') c j.
Proof.
  unfold open_on, one_on. revert i. induction ss as [|x ss IH]; intros i Hi; [done|].
  destruct i as [|i]; cbn in Hi.
  - injection Hi as ->. change (<[0 := s']> (s :: ss)) with (s' :: ss).
    rewrite !filter_cons. repeat case_decide; cbn; lia.
  - specialize (IH i Hi). change (<[Datatypes.S i := s']> (x :: ss)) with (x :: <[i := s']> ss). rewrite !filter_cons. repeat case_decide; cbn in *; lia.
Qed.

Lemma open_on_snoc ss c j : open_on (ss ++ [accepted]) c j = open_on ss c j.
Proof. unfold open_on. rewrite filter_app, length_app. change (length (filter _ [accepted])) with 0. lia. Qed.

Lemma open_on_none ss c j : Forall (λ s, holds (ph s) = None) ss → open_on ss c j = 0.
Proof.
  unfold open_on. induction 1 as [|s ss Hs _ IH]; [done|]. rewrite filter_cons.
  destruct (ph s); try discriminate Hs; case_decide; done.
Qed.

Lemma i32_add_l a b : i32 (i32 a + b) = i32 (a + b).
Proof.
  unfold i32. replace ((a + 2 ^ 31) mod 2 ^ 32 - 2 ^ 31 + b + 2 ^ 31)%Z
    with ((a + 2 ^ 31) mod 2 ^ 32 + b)%Z by lia.
  rewrite Z.add_mod_idemp_l by lia. do 2 f_equal. lia.
Qed.

(** Writing through a pointer, without changing an address, keeps the list's
    shape. *)
Record same_shape (b b' : Balancer) : Prop := {
  same_cur : cur b' = cur b;
  same_len : len b' = len b;
  same_slice : slice_ok b → slice_ok b';
  same_addr q : beAddr <$> deref b' q = beAddr <$> deref b q;
}.

Lemma same_shape_refl b : same_shape b b.
Proof. by constructor. Qed.

Lemma deref_update b p f q : deref (update b p f) q = if decide (p = q) then f <$> deref b q else deref b q.
Proof.
  destruct p as [a i], q as [a' i']. unfold deref, update. cbn. destruct (decide (a = a')) as [<-|Ha].
  - rewrite list_lookup_alter_eq. destruct (arrays b !! a) as [l|]; cbn; [|by case_decide].
    destruct (decide (i = i')) as [<-|Hi].
    + by rewrite list_lookup_alter_eq, decide_True.
    + by rewrite list_lookup_alter_ne, decide_False by congruence.
  - by rewrite list_lookup_alter_ne, decide_False by congruence.
Qed.

Lemma update_shape b p f : (∀ x, beAddr (f x) = beAddr x) → same_shape b (update b p f).
Proof.
  intros Hf. constructor; try done.
  - intros (a & Ha & Hl). unfold slice_ok, update. cbn. destruct (decide (p.1 = cur b)) as [->|Hp].
    + rewrite list_lookup_alter_eq, Ha. cbn. eexists. split; [done|]. by rewrite length_alter.
    + rewrite list_lookup_alter_ne by done. eauto.
  - intros q. rewrite deref_update. case_decide; [|done]. destruct (deref b q); cbn; by rewrite ?Hf.
Qed.

Lemma backends_deref b i : backends b !! i = if decide (i < len b) then deref b (cur b, i) else None.
Proof.
  unfold backends, deref. cbn. destruct (arrays b !! cur b) as [a|]; cbn.
  - case_decide; [by apply lookup_take_lt|by apply lookup_take_ge; lia].
  - rewrite take_nil. by case_decide.
Qed.

Lemma backends_update b i f j :
  backends (update b (cur b, i) f) !! j = if decide (i = j) then f <$> backends b !! j else backends b !! j.
Proof.
  rewrite !backends_deref, deref_update. cbn. repeat case_decide; try done; congruence.
Qed.

Lemma backend_exists b i : slice_ok b → i < len b → ∃ x, deref b (cur b, i) = Some x.
Proof.
  intros (a & Ha & Hl) Hi. unfold deref. cbn. rewrite Ha. cbn. apply lookup_lt_is_Some_2. lia.
Qed.

(** ** The invariant *)

Record inv (w : world) : Prop := {
  inv_slice : slice_ok (bal w);
  inv_held i s p : sessions w !! i = Some s → holds (ph s) = Some p → p.1 = cur (bal w) ∧ p.2 < len (bal w);
  inv_conns j x : backends (bal w) !! j = Some x →
    beConns x = i32 (Z.of_nat (open_on (sessions w) (cur (bal w)) j));
  inv_target i s p : sessions w !! i = Some s → ph s = HCopy p →
    ∃ x, deref (bal w) p = Some x ∧ target s = beAddr x;
}.

Lemma target_kept b b' p (t : string) :
  same_shape b b' → (∃ x, deref b p = Some x ∧ t = beAddr x) → ∃ x, deref b' p = Some x ∧ t = beAddr x.
Proof.
  intros [_ _ _ Ha] (x & Hx & ->). specialize (Ha p). rewrite Hx in Ha. cbn in Ha.
  destruct (deref b' p) as [y|]; [|done]. injection Ha as Ha. eauto.
Qed.

(** One session moves on, and the balancer is written through a pointer. *)
Lemma inv_put w i s s' b' :
  inv w → sessions w !! i = Some s → same_shape (bal w) b' →
  (∀ p, holds (ph s') = Some p → p.1 = cur (bal w) ∧ p.2 < len (bal w)) →
  (∀ j x, backends b' !! j = Some x →
     beConns x = i32 (Z.of_nat (open_on (<[i := s']> (sessions w)) (cur (bal w)) j))) →
  (∀ p, ph s' = HCopy p → ∃ x, deref (bal w) p = Some x ∧ target s' = beAddr x) →
  inv (set_bal b' (set_session i s' w)).
Proof.
  intros [Hs Hh Hc Ht] Hi Hb Hh' Hc' Ht'. pose proof Hb as [Hcur Hlen Hsl _]. constructor; cbn.
  - by apply Hsl.
  - intros k x p Hk Hp. rewrite Hcur, Hlen.
    apply list_lookup_insert_Some in Hk as [(_ & <- & _)|[_ Hk]]; eauto.
  - intros j x Hx. rewrite Hcur. by apply Hc'.
  - intros k x p Hk Hp. apply (target_kept (bal w)); [done|].
    apply list_lookup_insert_Some in Hk as [(_ & <- & _)|[_ Hk]]; eauto.
Qed.

(** A session that stays with its backend or none. *)
Lemma inv_quiet w i s s' :
  inv w → sessions w !! i = Some s → counted (ph s') = counted (ph s) →
  (holds (ph s') = holds (ph s) ∨ holds (ph s') = None) →
  (∀ p, ph s' = HCopy p → ∃ x, deref (bal w) p = Some x ∧ target s' = beAddr x) →
  inv (set_session i s' w).
Proof.
  intros Hw Hi Hc Hh Ht. assert (set_session i s' w = set_bal (bal w) (set_session i s' w)) as -> by done.
  apply (inv_put w i s); [done|done|apply same_shape_refl| | |done].
  - intros p Hp. destruct Hh as [Hh|Hh]; [|congruence]. rewrite Hh in Hp. by eapply inv_held.
  - intros j x Hx. rewrite (inv_conns _ Hw j x Hx). do 2 f_equal.
    pose proof (open_on_insert (sessions w) i s s' (cur (bal w)) j Hi) as E. unfold one_on in E. rewrite Hc in E. lia.
Qed.

(** ** Every step keeps it *)

Lemma pick_in_list nano b p : pick nano b = Ret (Ok p) → p.1 = cur b ∧ p.2 < len b.
Proof.
  assert (∀ i, i ∈ healthy b → i < len b) as Hin.
  { intros i (x & Hx & _)%elem_of_healthy. rewrite backends_deref in Hx. by case_decide. }
  unfold pick. destruct (healthy b) as [|h hs] eqn:Hh; [done|]. case_bool_decide.
  - pose proof (least_spec b None (h :: hs)) as Hl. destruct (least _ _ _) as [i|]; [|done].
    intros [= <-]. destruct Hl as [[Hi|?] _]; [|done]. split; [done|]. by apply Hin.
  - cbv zeta. case_match; [|done]. intros [= <-]. split; [done|]. cbn. apply Hin.
    case_match; [|done]. by eapply list_elem_of_lookup_2.
Qed.

(** The count of the backend written to follows the number of its sessions. *)
Lemma conns_follow w i s s' p d :
  inv w → sessions w !! i = Some s → p.1 = cur (bal w) →
  (∀ j, Z.of_nat (one_on (ph s') (cur (bal w)) j) = Z.of_nat (one_on (ph s) (cur (bal w)) j) +
          if decide (p.2 = j) then d else 0)%Z →
  ∀ j x, backends (update (bal w) p (add_conns d)) !! j = Some x →
    beConns x = i32 (Z.of_nat (open_on (<[i := s']> (sessions w)) (cur (bal w)) j)).
Proof.
  destruct p as [c k]. cbn [fst snd]. intros Hw Hi Hc Hd j x. subst c. rewrite backends_update.
  pose proof (open_on_insert (sessions w) i s s' (cur (bal w)) j Hi) as E. specialize (Hd j).
  destruct (decide (k = j)) as [->|Hne].
  - destruct (backends (bal w) !! j) as [y|] eqn:Ey; [|done]. cbn. intros [= <-]. cbn.
    rewrite (inv_conns _ Hw j y Ey), i32_add_l. f_equal. lia.
  - intros Hx. rewrite (inv_conns _ Hw j x Hx). f_equal. lia.
Qed.

Lemma backends_field b p f j x :
  (∀ y, beConns (f y) = beConns y) → p.1 = cur b →
  backends (update b p f) !! j = Some x → ∃ y, backends b !! j = Some y ∧ beConns x = beConns y.
Proof.
  destruct p as [c k]. cbn [fst]. intros Hf ->. rewrite backends_update. case_decide; [|eauto].
  destruct (backends b !! j) as [y|]; [|done]. cbn. intros [= <-]. eauto.
Qed.

Lemma one_on_counted p c j : p.1 = c → one_on (HDial p) c j = if decide (p.2 = j) then 1 else 0.
Proof. destruct p as [a k]. cbn. intros ->. unfold one_on. cbn. repeat case_decide; try done; congruence. Qed.

Lemma one_on_none h c j : counted h = None → one_on h c j = 0.
Proof. intros Hh. unfold one_on. by rewrite decide_False by congruence. Qed.

Lemma handle_step_inv w i s a w' :
  inv w → sessions w !! i = Some s → handle_step a i s w = Some (Ret w') → inv w'.
Proof.
  intros Hw Hi. pose proof (inv_target _ Hw i s) as Ht. pose proof (inv_held _ Hw i s) as Hh.
  unfold handle_step. destruct a, (ph s) eqn:Hph; try done.
  all: repeat case_match; try done; intros [= <-].
  all: try (apply (inv_quiet w i s);
            [done|done|cbn; by rewrite Hph|cbn; rewrite Hph; by (left + right)|cbn; rewrite ?Hph; intros ? [= ->]; by eapply Ht]).
  - (* a backend is picked *)
    assert (set_session i (set_ph (HCount a0) s) w = set_bal (bal w) (set_session i (set_ph (HCount a0) s) w)) as ->
      by done.
    apply (inv_put w i s); [done|done|apply same_shape_refl| | |done].
    + intros p [= <-]. by eapply pick_in_list.
    + intros j x Hx. rewrite (inv_conns _ Hw j x Hx). do 2 f_equal.
      pose proof (open_on_insert (sessions w) i s (set_ph (HCount a0) s) (cur (bal w)) j Hi) as E.
      rewrite Hph, !one_on_none in E by done. lia.
  - (* counted *)
    destruct (Hh p Hi eq_refl) as [Hp1 Hp2].
    apply (inv_put w i s); [done|done|by apply update_shape| | |done].
    + intros q [= <-]. done.
    + apply (conns_follow w i s); [done|done|done|]. intros j. rewrite Hph. cbn [ph set_ph].
      rewrite one_on_counted, one_on_none by done. by case_decide.
  - (* dialled *)
    apply (inv_quiet w i s); [done|done|by rewrite Hph|left; by rewrite Hph|].
    intros q [= <-]. eauto.
  - destruct (Hh p Hi eq_refl) as [Hp1 Hp2]. destruct p as [c k]. cbn in Hp1. subst c.
    destruct (backend_exists _ _ (inv_slice _ Hw) Hp2) as [x Hx]. cbn in Hx. congruence.
  - (* marked *)
    destruct (Hh p Hi eq_refl) as [Hp1 Hp2].
    apply (inv_put w i s); [done|done|by apply update_shape| | |done].
    + intros q [= <-]. done.
    + intros j x (y & Hy & ->)%backends_field; [|done|done]. rewrite (inv_conns _ Hw j y Hy). do 2 f_equal.
      pose proof (open_on_insert (sessions w) i s (set_ph (HUncount p) s) (cur (bal w)) j Hi) as E.
      rewrite Hph in E. change (one_on (ph (set_ph (HUncount p) s))) with (one_on (HMark p)) in E. lia.
  - (* uncounted *)
    destruct (Hh p Hi eq_refl) as [Hp1 Hp2].
    apply (inv_put w i s); [done|done|by apply update_shape|done| |done].
    apply (conns_follow w i s); [done|done|done|]. intros j. rewrite Hph. cbn [ph set_ph].
    change (one_on (HUncount p)) with (one_on (HDial p)). rewrite one_on_counted, one_on_none by done. by case_decide.
Qed.

(** ** Refreshing when nothing is open *)

Lemma refresh_conns {S} `{ProjectStore S, ServiceStore S, PlacementStore S} grow now (s : S) b :
  slice_ok b → refresh grow now s b = b ∨
  slice_ok (refresh grow now s b) ∧ ∀ j x, backends (refresh grow now s b) !! j = Some x → beConns x = 0%Z.
Proof.
  intros Hb. pose proof (refresh_backends grow now s b Hb) as Hr.
  destruct (ListProjects s) as [ps|]; [|by left]. destruct (find_service _ _ _ _) as [svc|]; [|by left].
  right. destruct Hr as [Hs Hr]. split; [done|]. intros j x. rewrite Hr, list_lookup_fmap.
  intros (a & _ & ->)%fmap_Some. done.
Qed.

Definition idle (w : world) : bool := forallb (λ s, bool_decide (holds (ph s) = None)) (sessions w).

Lemma idle_spec w : idle w = true ↔ Forall (λ s, holds (ph s) = None) (sessions w).
Proof.
  unfold idle. rewrite List.forallb_forall, Forall_forall. split; intros Hx s Hs.
  - specialize (Hx s). rewrite <- list_elem_of_In, bool_decide_eq_true in Hx. by apply Hx.
  - apply list_elem_of_In in Hs. rewrite bool_decide_eq_true. by apply Hx.
Qed.

Section Executions.
Context {S : Type} `{ProjectStore S, ServiceStore S, PlacementStore S}.

(** An execution in which the list is refreshed only while no connection holds a
    pointer into it. *)
Fixpoint calm (es : list (event S)) (w : world) : bool :=
  match es with
  | [] => true
  | e :: es =>
      (match e with Refresh _ _ _ => idle w | _ => true end) &&
      match step e w with Some (Ret w') => calm es w' | _ => true end
  end.

Lemma inv_bal w b' :
  inv w → same_shape (bal w) b' →
  (∀ j x, backends b' !! j = Some x → ∃ y, backends (bal w) !! j = Some y ∧ beConns x = beConns y) →
  inv (set_bal b' w).
Proof.
  intros [Hs Hh Hc Ht] Hb Hk. pose proof Hb as [Hcur Hlen Hsl _]. constructor; cbn; [by apply Hsl| | |].
  - intros i s p. rewrite Hcur, Hlen. apply Hh.
  - intros j x (y & Hy & ->)%Hk. rewrite Hcur. by apply Hc.
  - intros i s p Hi Hp. apply (target_kept (bal w)); [done|]. by eapply Ht.
Qed.

Lemma inv_checking w c : inv w → inv (set_checking c w).
Proof. by intros [Hs Hh Hc Ht]; constructor. Qed.

Lemma inv_refresh grow now (s : S) w : inv w → idle w = true → inv (set_bal (refresh grow now s (bal w)) w).
Proof.
  intros Hw Hi%idle_spec. destruct (refresh_conns grow now s (bal w) (inv_slice _ Hw)) as [->|[Hs Hc]].
  { by destruct w. }
  assert (∀ i x p, sessions w !! i = Some x → holds (ph x) ≠ Some p) as Hno.
  { intros i x p Hx. rewrite (Forall_lookup_1 _ _ _ _ Hi Hx). done. }
  constructor; cbn; [done| | |].
  - intros i x p Hx Hp. by destruct (Hno i x p Hx).
  - intros j x Hx. by rewrite (Hc j x Hx), open_on_none.
  - intros i x p Hx Hp. destruct (Hno i x p Hx). by rewrite Hp.
Qed.

Lemma step_inv e w w' :
  inv w → (∀ grow now s, e = Refresh grow now s → idle w = true) → step e w = Some (Ret w') → inv w'.
Proof.
  intros Hw Hq. destruct e as [|err|i a|grow now s| |reached now| |]; cbn [step].
  - case_match; [done|]. intros [= <-]. destruct Hw as [Hs Hh Hc Ht]. constructor; cbn; [done| | |].
    + intros k x p [Hk|[_ Hk]]%lookup_app_Some; [by eapply Hh|].
      apply list_lookup_singleton_Some in Hk as [_ <-]. done.
    + intros j x Hx. rewrite open_on_snoc. by apply Hc.
    + intros k x p [Hk|[_ Hk]]%lookup_app_Some; [by eapply Ht|].
      apply list_lookup_singleton_Some in Hk as [_ <-]. done.
  - case_match; [done|]. intros [= <-]. by destruct Hw as [Hs Hh Hc Ht]; constructor.
  - destruct (sessions w !! i) as [s|] eqn:Hi; [|done]. by apply handle_step_inv.
  - case_bool_decide; [|done]. intros [= <-]. apply inv_refresh; [done|]. by eapply Hq.
  - case_bool_decide; [|done]. intros [= <-]. by apply inv_checking.
  - case_match; [|done]. case_bool_decide; [|done]. intros [= <-]. apply inv_checking, inv_bal; [done| |].
    + apply update_shape. intros x. unfold checked. by case_bool_decide.
    + intros j x. apply backends_field; [|done]. intros y. unfold checked. by case_bool_decide.
  - case_match; [|done]. case_bool_decide; [done|]. intros [= <-]. by apply inv_checking.
  - unfold Close. case_match; [|done]. destruct (stop_closed (bal w)); [done|].
    injection H2 as <-. intros [= <-]. apply inv_bal; [done|by constructor|eauto].
Qed.

Lemma steps_inv es w w' : inv w → calm es w = true → steps es w = Some (Ret w') → inv w'.
Proof.
  revert w. induction es as [|e es IH]; intros w Hw Hc; cbn in *; [by intros [= <-]|].
  apply andb_true_iff in Hc as [Hq Hc]. destruct (step e w) as [[w1|]|] eqn:E; [|done..]. cbn.
  apply IH; [|done]. eapply step_inv; [done| |done]. by intros ? ? ? ->.
Qed.

Lemma Serve_inv (store : option S) grow now c : inv (Serve store grow now (NewBalancer c)).
Proof.
  assert (inv (mk_world (NewBalancer c) [] None None)) as Hw.
  { constructor; cbn; [by exists []|done|done|done]. }
  destruct store as [s|]; [|done]. by apply (inv_refresh grow now s) in Hw.
Qed.
End Executions.

(** ** The bytes *)

(** [total] is what the source has sent since the beginning. *)
Record faithful (total : string) (x : pipe) : Prop := {
  faithful_prefix : ∃ rest, total = copied x +:+ rest;
  faithful_rest : copy x ≠ Failed → total = copied x +:+ unread x;
  faithful_end : copy x = Finished → unread x = "" ∧ eof x = true;
}.

Lemma string_take_take_le m k s : m ≤ k → string_take m (string_take k s) = string_take m s.
Proof.
  revert k s. induction m as [|m IH]; intros k s Hk; [by destruct (string_take k s), s|].
  destruct k as [|k]; [lia|]. destruct s as [|a s]; [done|]. cbn. by rewrite IH by lia.
Qed.

Lemma faithful_sends total x s : eof x = false → faithful total x → faithful (total +:+ s) (sends s x).
Proof.
  intros He [(rest & Hp) Hr Hf]. constructor; cbn.
  - exists (rest +:+ s). by rewrite Hp, string_app_assoc.
  - intros Hc. by rewrite (Hr Hc), string_app_assoc.
  - intros Hc. destruct (Hf Hc). congruence.
Qed.

Lemma faithful_ends total x : faithful total x → faithful total (ends x).
Proof. intros [Hp Hr Hf]. constructor; cbn; [done..|]. intros Hc. by destruct (Hf Hc). Qed.

Lemma faithful_moves total x k m c :
  copy x = Copying → m ≤ k → (c = Copying ∧ m = k ∨ c = Failed) →
  faithful total x → faithful total (becomes c (moves k m x)).
Proof.
  intros Hc Hm Hcs [Hp Hr Hf]. specialize (Hr ltac:(congruence)).
  constructor; cbn; rewrite ?string_take_take_le by done.
  - exists (string_drop m (unread x)). rewrite Hr, <- string_app_assoc. by rewrite string_take_drop.
  - destruct Hcs as [[_ ->]| ->]; [intros _|done]. rewrite Hr, <- string_app_assoc. by rewrite string_take_drop.
  - by destruct Hcs as [[-> _]| ->].
Qed.

Lemma faithful_start total x : copy x = NotStarted → faithful total x → faithful total (becomes Copying x).
Proof. intros Hc [Hp Hr Hf]. constructor; cbn; [done| |done]. intros _. apply Hr. congruence. Qed.

Lemma faithful_eof total x : at_eof x = true → faithful total x → faithful total (becomes Finished x).
Proof.
  unfold at_eof. rewrite !andb_true_iff, !bool_decide_eq_true. intros [[Hc He] Hu] [Hp Hr Hf].
  constructor; cbn; [done| |done]. intros _. apply Hr. congruence.
Qed.

(** Both directions of a session; before the dial no copy has started. *)
Definition early (h : phase) : bool := match h with HPick | HCount _ | HDial _ => true | _ => false end.
Record session_ok (tu td : string) (s : session) : Prop := {
  ok_up : faithful tu (up s);
  ok_down : faithful td (down s);
  ok_early : early (ph s) = true → copy (up s) = NotStarted ∧ copy (down s) = NotStarted;
}.

Definition client_says (a : action) : string := match a with ClientSends x => x | _ => "" end.
Definition backend_says (a : action) : string := match a with BackendSends x => x | _ => "" end.

Lemma faithful_move total x k : can_move k x = true → faithful total x → faithful total (moves k k x).
Proof.
  unfold can_move. rewrite andb_true_iff, !bool_decide_eq_true. intros [Hc _] Hx.
  apply (faithful_moves total x k k Copying) in Hx; [|done|done|by left]. unfold moves, becomes in *. cbn in *.
  by rewrite Hc.
Qed.

Lemma can_fail_spec k m x : can_fail k m x = true → copy x = Copying ∧ m ≤ k.
Proof. unfold can_fail. rewrite andb_true_iff, !bool_decide_eq_true. intros [? ?]. split; [done|lia]. Qed.

Lemma faithful_fail total x k m :
  can_fail k m x = true → faithful total x → faithful total (becomes Failed (moves k m x)).
Proof. intros [Hc Hm]%can_fail_spec. apply faithful_moves; [done|done|by right]. Qed.

Create HintDb pipe.
#[local] Hint Resolve faithful_sends faithful_ends faithful_move faithful_fail faithful_start faithful_eof : pipe.

Lemma handle_step_session w i s a w' tu td :
  handle_step a i s w = Some (Ret w') → session_ok tu td s →
  ∃ s', sessions w' = <[i := s']> (sessions w) ∧ session_ok (tu +:+ client_says a) (td +:+ backend_says a) s'.
Proof.
  intros Hstep [Hu Hd He]. unfold handle_step in Hstep.
  destruct a, (ph s) eqn:Hph; try done; repeat case_match; try done; injection Hstep as <-.
  all: eexists; (split; [reflexivity|]); cbn [client_says backend_says]; rewrite ?string_app_nil_r.
  all: try (destruct (He eq_refl)).
  all: constructor; cbn; rewrite ?Hph; try done; auto with pipe.
  all: match goal with E : can_fail _ _ _ = true |- _ => apply can_fail_spec in E as [E _]; congruence end.
Qed.

Section Forwarding.
Context {S : Type} `{ProjectStore S, ServiceStore S, PlacementStore S}.

(** What the client of connection [i], and its backend, sent in an execution. *)
Fixpoint said (says : action → string) (i : nat) (es : list (event S)) : string :=
  match es with
  | [] => ""
  | Handle j a :: es => if decide (i = j) then says a +:+ said says i es else said says i es
  | _ :: es => said says i es
  end.

Lemma said_snoc says i es e :
  said says i (es ++ [e]) =
    said says i es +:+ match e with Handle j a => if decide (i = j) then says a else "" | _ => "" end.
Proof.
  induction es as [|x es IH]; cbn.
  - destruct e; try done. case_decide; [apply string_app_nil_r|done].
  - destruct x; rewrite IH; try done. case_decide; [by rewrite string_app_assoc|done].
Qed.

Definition flows (es : list (event S)) (w : world) : Prop :=
  (∀ i s, sessions w !! i = Some s → session_ok (said client_says i es) (said backend_says i es) s) ∧
  (∀ i, length (sessions w) ≤ i → said client_says i es = "" ∧ said backend_says i es = "").

Lemma flows_other es e w w' :
  flows es w → (∀ i a, e ≠ Handle i a) → sessions w' = sessions w → flows (es ++ [e]) w'.
Proof.
  intros [Hf Hn] He Hs. unfold flows. rewrite Hs.
  assert (∀ says i, said says i (es ++ [e]) = said says i es) as E.
  { intros says i. rewrite said_snoc. destruct e; try apply string_app_nil_r. by destruct (He i0 a). }
  by split; intros i; rewrite !E; [apply Hf|apply Hn].
Qed.

Lemma flows_accept es w :
  flows es w → flows (es ++ [Accept]) (mk_world (bal w) (sessions w ++ [accepted]) (checking w) (serving w)).
Proof.
  intros [Hf Hn]. split; intros i; rewrite !said_snoc, !string_app_nil_r; cbn.
  - intros s [Hi|[Hi Hs]]%lookup_app_Some; [by apply Hf|].
    apply list_lookup_singleton_Some in Hs as [_ <-]. destruct (Hn i Hi) as [-> ->].
    by split; [split; [by exists ""|..]|split; [by exists ""|..]|].
  - rewrite length_app. cbn. intros Hi. apply Hn. lia.
Qed.

Lemma flows_step es e w w' : flows es w → step e w = Some (Ret w') → flows (es ++ [e]) w'.
Proof.
  intros Hf. destruct e as [|err|i a|grow now s| |reached now| |]; cbn [step].
  - case_match eqn:E; [done|]. intros [= <-]. apply flows_accept in Hf. by rewrite E in Hf.
  - case_match; [done|]. intros [= <-]. by apply (flows_other _ _ w).
  - destruct (sessions w !! i) as [s|] eqn:Hi; [|done]. intros Hs. destruct Hf as [Hf Hn].
    destruct (handle_step_session _ _ _ _ _ _ _ Hs (Hf i s Hi)) as (s' & E & Hok).
    split; intros j; rewrite !said_snoc, E.
    + intros x [(<- & <- & _)|[Hne Hx]]%list_lookup_insert_Some; [by rewrite !decide_True|].
      rewrite !decide_False, !string_app_nil_r by done. by apply Hf.
    + rewrite length_insert. intros Hj. apply lookup_lt_Some in Hi.
      rewrite !decide_False, !string_app_nil_r by lia. by apply Hn.
  - case_bool_decide; [|done]. intros [= <-]. by apply (flows_other _ _ w).
  - case_bool_decide; [|done]. intros [= <-]. by apply (flows_other _ _ w).
  - case_match; [|done]. case_bool_decide; [|done]. intros [= <-]. by apply (flows_other _ _ w).
  - case_match; [|done]. case_bool_decide; [done|]. intros [= <-]. by apply (flows_other _ _ w).
  - case_match; [|done]. intros [= <-]. by apply (flows_other _ _ w).
Qed.

Lemma steps_snoc es e w w' :
  steps (es ++ [e]) w = Some (Ret w') → ∃ w1, steps es w = Some (Ret w1) ∧ step e w1 = Some (Ret w').
Proof.
  revert w. induction es as [|x es IH]; intros w; cbn.
  - destruct (step e w) as [[w1|]|] eqn:E; [|done..]. cbn. intros [= <-]. eauto.
  - destruct (step x w) as [[w1|]|]; [|done..]. cbn. apply IH.
Qed.

(** C30: Connections are forwarded byte for byte, whatever else goes on (other
    connections, refreshes, health checks): in any execution the backend of a
    connection was given a prefix of what its own client sent, and the client a
    prefix of what that backend sent; while a copy runs the missing part is what
    is not read yet, and a copy that ended at the end of its source has
    delivered everything. *)
Theorem forwarding_faithful (store : option S) (grow : nat → nat) (now : Time) (b : Balancer)
    (es : list (event S)) (w : world) (i : nat) (s : session) :
  steps es (Serve store grow now b) = Some (Ret w) → sessions w !! i = Some s →
  (∃ rest, said client_says i es = copied (up s) +:+ rest) ∧
  (∃ rest, said backend_says i es = copied (down s) +:+ rest) ∧
  (copy (up s) = Copying → said client_says i es = copied (up s) +:+ unread (up s)) ∧
  (copy (down s) = Copying → said backend_says i es = copied (down s) +:+ unread (down s)) ∧
  (copy (up s) = Finished → copied (up s) = said client_says i es) ∧
  (copy (down s) = Finished → copied (down s) = said backend_says i es).
Proof.
  intros Hs Hi. assert (flows es w) as [Hf _].
  { clear Hi. revert w Hs. induction es as [|e es IH] using rev_ind; intros w Hs.
    - injection Hs as <-. split; [done|]. by intros.
    - destruct (steps_snoc _ _ _ _ Hs) as (w1 & Hw1 & He). eapply flows_step; [|done]. by apply IH. }
  destruct (Hf i s Hi) as [[Pu Ru Eu] [Pd Rd Ed] _]. split_and!; [done|done| | | |].
  - intros E. apply Ru. congruence.
  - intros E. apply Rd. congruence.
  - intros E. rewrite Ru by congruence. destruct (Eu E) as [-> _]. by rewrite string_app_nil_r.
  - intros E. rewrite Rd by congruence. destruct (Ed E) as [-> _]. by rewrite string_app_nil_r.
Qed.

(** C29: The connection counts are right: in an execution in which the list of
    backends is refreshed only while no connection holds a pointer into it, the
    count of every backend is the number of connections that have been counted
    and not yet uncounted, in 32 bits; so it is 0 when none is left.  A pointer
    that is held refers to a backend of the current list, and a connection that
    forwards does so to that backend's address.  The process does not panic
    unless the balancer is closed twice or the clock is before 1970. *)
Theorem connection_accounting (store : option S) (grow : nat → nat) (now : Time) (c : Config)
    (es : list (event S)) (w : world) :
  steps es (Serve store grow now (NewBalancer c)) = Some (Ret w) →
  calm es (Serve store grow now (NewBalancer c)) = true →
  (∀ j x, backends (bal w) !! j = Some x →
     beConns x = i32 (Z.of_nat (open_on (sessions w) (cur (bal w)) j)) ∧
     (Forall (λ s, holds (ph s) = None) (sessions w) → beConns x = 0%Z)) ∧
  (∀ i s p, sessions w !! i = Some s → holds (ph s) = Some p →
     ∃ x, deref (bal w) p = Some x ∧ backends (bal w) !! p.2 = Some x ∧
       (ph s = HCopy p → target s = beAddr x)) ∧
  (∀ e, step e w = Some Panic →
     e = CloseBalancer ∧ stop_closed (bal w) = true ∨ ∃ i nano, e = Handle i (Pick nano) ∧ (nano < 0)%Z).
Proof.
  intros Hs Hc. pose proof (steps_inv _ _ _ (Serve_inv store grow now c) Hc Hs) as Hw. split_and!.
  - intros j x Hx. rewrite (inv_conns _ Hw j x Hx). split; [done|]. intros Hi. by rewrite open_on_none.
  - intros i s [a k] Hi Hp. destruct (inv_held _ Hw i s _ Hi Hp) as [Ha Hk]. cbn in Ha, Hk. subst a.
    destruct (backend_exists _ _ (inv_slice _ Hw) Hk) as [x Hx]. exists x. split_and!; [done| |].
    + cbn. rewrite backends_deref. by rewrite decide_True.
    + intros E. destruct (inv_target _ Hw i s _ Hi E) as (y & Hy & ->). congruence.
  - intros e He. destruct e as [|err|i a|g n s0| |r n| |]; cbn [step] in He;
      try (repeat case_match; discriminate He).
    + right. destruct (sessions w !! i) as [s|]; [|done]. cbn in He. unfold handle_step in He.
      destruct a, (ph s); try discriminate He; repeat case_match; try discriminate He.
      exists i, nano. split; [done|]. destruct (Z_lt_le_dec nano 0) as [?|Hn]; [done|exfalso].
      destruct (pick_spec nano (bal w) Hn) as [[? _]|(? & ? & ? & _)]; congruence.
    + left. split; [done|]. unfold Close in He. by destruct (stop_closed (bal w)).
Qed.
End Forwarding.

(** ** Examples *)

Definition ex_world : world := Serve (Some ex_svc_store) (λ n, n) 9 (NewBalancer (mk_Config "svc" "")).
(** One connection up to the middle of its copy; the rest of it, and a second one. *)
Definition ex_open : list (event mem) :=
  [Accept; Handle 0 (Pick 7); Handle 0 Count; Handle 0 (ClientSends "GET /"); Handle 0 (Dial true);
   Handle 0 (CopyUp 3); Handle 0 (BackendSends "200 OK"); CheckBegin; Handle 0 (CopyDown 6)].
Definition ex_done : list (event mem) :=
  ex_open ++ [CheckOne true 10; CheckEnd; Handle 0 BackendEnds; Handle 0 DownEOF; Handle 0 (CopyUp 2);
    Handle 0 CloseBackend; Handle 0 Uncount;
    Handle 0 CloseClient; Refresh (λ n, n) 11 ex_svc_store; Accept; Handle 1 (Pick 8); Handle 1 Count;
    Handle 1 (Dial false); Handle 1 Mark].

Lemma forwarding_faithful_witness : ∃ w s,
  steps ex_open ex_world = Some (Ret w) ∧ sessions w !! 0 = Some s ∧
  copied (up s) = "GET" ∧ unread (up s) = " /" ∧
  said client_says 0 ex_open = copied (up s) +:+ unread (up s) ∧
  ∃ rest, said backend_says 0 ex_open = copied (down s) +:+ rest.
Proof.
  destruct (steps ex_open ex_world) as [[w|]|] eqn:E; [|vm_compute in E; discriminate E..].
  destruct (sessions w !! 0) as [s|] eqn:Es; [|vm_compute in E; injection E as <-; vm_compute in Es; discriminate Es].
  destruct (forwarding_faithful (Some ex_svc_store) (λ n, n) 9 (NewBalancer (mk_Config "svc" "")) ex_open w 0 s E Es)
    as (_ & H2 & H3 & _).
  exists w, s. split; [reflexivity|]. split; [exact Es|].
  vm_compute in E. injection E as <-. vm_compute in Es. injection Es as <-.
  split; [reflexivity|]. split; [reflexivity|]. split; [apply H3; reflexivity|exact H2].
Defined.

Lemma connection_accounting_witness : ∃ w x,
  steps ex_done ex_world = Some (Ret w) ∧ backends (bal w) !! 0 = Some x ∧
  beConns x = 1%Z ∧ beHealthy x = false ∧
  beConns x = i32 (Z.of_nat (open_on (sessions w) (cur (bal w)) 0)).
Proof.
  destruct (steps ex_done ex_world) as [[w|]|] eqn:E; [|vm_compute in E; discriminate E..].
  destruct (backends (bal w) !! 0) as [x|] eqn:Ex;
    [|vm_compute in E; injection E as <-; vm_compute in Ex; discriminate Ex].
  assert (calm ex_done ex_world = true) as Hc by (vm_compute; reflexivity).
  destruct (connection_accounting (Some ex_svc_store) (λ n, n) 9 (mk_Config "svc" "") ex_done w E Hc) as [H _].
  exists w, x. split; [reflexivity|]. split; [exact Ex|].
  split; [|split; [|exact (proj1 (H 0 x Ex))]].
  all: vm_compute in E; injection E as <-; vm_compute in Ex; injection Ex as <-; reflexivity.
Defined.

(** [Close] is documented to stop the balancer, but nothing waits for its channel
    and the listener stays open: connections are accepted and the list is
    refreshed as before. *)
Lemma close_stops_nothing {S} `{ProjectStore S, ServiceStore S, PlacementStore S} (w w' : world) :
  step (S := S) CloseBalancer w = Some (Ret w') → serving w = None → checking w = None →
  (∃ w1, step (S := S) Accept w' = Some (Ret w1)) ∧
  (∀ grow now (s : S), ∃ w1, step (Refresh grow now s) w' = Some (Ret w1)).
Proof.
  cbn. unfold Close. destruct (stop_closed (bal w)); [done|]. intros [= <-] Hs Hc. cbn. rewrite Hs, Hc.
  split; intros; by eexists.
Qed.

(** Choosing and counting are two steps: two connections accepted together go to
    the same backend although the other one has none. *)
Definition ex_idle_pair : world :=
  mk_world (mk_Balancer (mk_Config "svc" StrategyLeastConnections)
    [[mk_Backend "a:80" 0 0 true 0; mk_Backend "b:80" 0 0 true 0]] 0 2 false false) [] None None.
Lemma least_connections_race : ∃ w,
  steps (S := mem) [Accept; Accept; Handle 0 (Pick 7); Handle 1 (Pick 8); Handle 0 Count; Handle 1 Count] ex_idle_pair =
    Some (Ret w) ∧
  beConns <$> backends (bal w) = [2; 0]%Z.
Proof. eexists. split; vm_compute; reflexivity. Qed.
