(* ===== verification/Object.v ===== *)
(** * Package object: the object store

    Models internal/storage/object/object.go.  Metadata is in the store (the
    interface [ObjectStore]); payloads are in a file system, a map from cleaned
    paths to contents.  An operation that touches the file system takes the
    failure of the operating system, if any: the error it reports and, where
    files may have been changed before it, the file system it leaves.  The hash functions are those of
    [Crypto]; the query encoding of package url is a parameter. *)

From S2P Require Import Prelude State Identity.

Record Bucket := mk_Bucket { bkBase : Base }.
Record Object := mk_Object {
  obBase : Base; obBucket : string; obKey : string; obSize : Z; obSHA256 : string;
}.

Class ObjectStore (S : Type) := {
  st_CreateBucket : S → Bucket → S * option error;
  st_DeleteBucket : S → string → S * option error;
  st_PutObject : S → Object → S * option error;
  st_GetObject : S → string → string → res Object;
  st_DeleteObject : S → string → string → S * option error;
  st_ListObjects : S → string → res (list Object);
}.
Class ObjectLaws (S : Type) `{ObjectStore S} : Prop := {
  put_get_object : ∀ s s' o, st_PutObject s o = (s', None) →
    st_GetObject s' (obBucket o) (obKey o) = Ok o;
}.

(** ** Paths *)

(** A cleaned absolute path, as its elements. *)
Abbreviation path := (list string).

(** One element met by [filepath.Clean] of a rooted path. *)
Definition clean_step (acc : path) (e : string) : path :=
  if bool_decide (e = "") || bool_decide (e = ".") then acc
  else if bool_decide (e = "..") then removelast acc
  else acc ++ [e].
Definition clean (es : list string) : path := foldl clean_step [] es.
(** [filepath.Join(root, a, b)]. *)
Definition join_path (root : path) (names : list string) : path :=
  clean (root ++ (names ≫= Split "/")).

Abbreviation filesys := (gmap (list string) string).

Record Store (S : Type) := mk_Store { o_store : S; rootDir : path; hmacKey : string; fs : filesys }.
Arguments mk_Store {S}. Arguments o_store {S}. Arguments rootDir {S}. Arguments hmacKey {S}. Arguments fs {S}.

Definition under (p q : path) : bool := bool_decide (take (length p) q = p).

Section Object.
Context `{Crypto} {S : Type} `{ObjectStore S}.

(** [os_err]: the error of the directory's creation. *)
Definition New (os_err : option error) (s : S) (temp root : path) (files : filesys) (key : string) : res (Store S) :=
  let root := if bool_decide (root = []) then temp ++ ["minicloud-objects"] else root in
  match os_err with
  | Some e => Err e
  | None => Ok (mk_Store s root (if bool_decide (key = "") then "devkey" else key) files)
  end.

Definition set_store (x : Store S) (s : S) : Store S := mk_Store s (rootDir x) (hmacKey x) (fs x).
Definition set_fs (x : Store S) (f : filesys) : Store S := mk_Store (o_store x) (rootDir x) (hmacKey x) f.

Definition CreateBucket (os_err : option error) (x : Store S) (name : string) : Store S * option error :=
  if bool_decide (name = "") then (x, Some "object: bucket name required")
  else
    match st_CreateBucket (o_store x) (mk_Bucket (mk_Base name "" name)) with
    | (s, Some e) => (set_store x s, Some e)
    | (s, None) => (set_store x s, os_err)
    end.

(** [os.RemoveAll] removes every file under the directory. *)
Definition DeleteBucket (os_err : option (error * filesys)) (x : Store S) (name : string) : Store S * option error :=
  match st_DeleteBucket (o_store x) name with
  | (s, Some e) => (set_store x s, Some e)
  | (s, None) =>
      let dir := join_path (rootDir x) [name] in
      let x := set_store x s in
      match os_err with
      | Some (e, f) => (set_fs x f, Some e)
      | None => (set_fs x (filter (λ pf, under dir pf.1 = false) (fs x)), None)
      end
  end.

Definition object_path (x : Store S) (bucket key : string) : path := join_path (rootDir x) [bucket; key].

(** [data] is what the reader delivers, or its error. *)
Definition PutObject (mkdir_err : option error) (write_err : option (error * filesys)) (x : Store S) (bucket key : string) (data : res string) :
    Store S * res string :=
  if bool_decide (bucket = "") || bool_decide (key = "") then (x, Err "object: bucket and key required")
  else
    match data with
    | Err e => (x, Err e)
    | Ok d =>
        let digest := hex (sha256 d) in
        match mkdir_err, write_err with
        | Some e, _ => (x, Err e)
        | None, Some (e, f) => (set_fs x f, Err e)
        | None, None =>
            let x := set_fs x (<[object_path x bucket key := d]> (fs x)) in
            let o := mk_Object (mk_Base key bucket key) bucket key (Z.of_nat (String.length d)) digest in
            match st_PutObject (o_store x) o with
            | (s, Some e) => (set_store x s, Err e)
            | (s, None) => (set_store x s, Ok digest)
            end
        end
    end.

Definition ErrNoFile : error := "no such file or directory".

Definition GetObject (x : Store S) (bucket key : string) : res (string * Object) :=
  match st_GetObject (o_store x) bucket key with
  | Err e => Err e
  | Ok o =>
      match fs x !! object_path x bucket key with
      | None => Err ErrNoFile
      | Some d => Ok (d, o)
      end
  end.

Definition DeleteObject (x : Store S) (bucket key : string) : Store S * option error :=
  match st_DeleteObject (o_store x) bucket key with
  | (s, Some e) => (set_store x s, Some e)
  | (s, None) =>
      let x := set_store x s in
      match fs x !! object_path x bucket key with
      | None => (x, Some ErrNoFile)
      | Some _ => (set_fs x (delete (object_path x bucket key) (fs x)), None)
      end
  end.

Definition key_less (a b : Object) : bool := string_ltb (obKey a) (obKey b).

Definition ListObjects (x : Store S) (bucket prefix : string) : res (list Object) :=
  match st_ListObjects (o_store x) bucket with
  | Err e => Err e
  | Ok objs =>
      if bool_decide (prefix = "") then Ok (sort_slice key_less objs)
      else Ok (sort_slice key_less (filter (λ o, HasPrefix (obKey o) prefix = true) objs))
  end.

(** ** Presigned URLs *)

Definition mac_text (bucket key exp : string) : string := bucket +:+ "|" +:+ key +:+ "|" +:+ exp.

Definition presign_values (now : Time) (x : Store S) (bucket key : string) (ttl : Duration) : gmap string string :=
  let exp := pretty (Unix (time_Add now ttl)) in
  <["sig" := hex (hmac_sha256 (hmacKey x) (mac_text bucket key exp))]>
    (<["exp" := exp]> (<["key" := key]> {["bucket" := bucket]})).

Definition Presign (url_encode : gmap string string → string) (now : Time) (x : Store S)
    (bucket key : string) (ttl : Duration) : string :=
  "/objects/presigned?" +:+ url_encode (presign_values now x bucket key ttl).

Definition VerifyPresign (x : Store S) (v : gmap string string) : res (string * string) :=
  let get k := default "" (v !! k) in
  let bucket := get "bucket" in
  let key := get "key" in
  let exp := get "exp" in
  let sig := get "sig" in
  if bool_decide (bucket = "") || bool_decide (key = "") || bool_decide (exp = "") || bool_decide (sig = "")
  then Err "object: missing presign fields"
  else if bool_decide (hex (hmac_sha256 (hmacKey x) (mac_text bucket key exp)) = sig) then Ok (bucket, key)
  else Err "object: bad signature".

End Object.

(** ** Properties *)

(** A name that is one element of a path. *)
Definition simple_name (a : string) : Prop :=
  a ≠ "" ∧ a ≠ "." ∧ a ≠ ".." ∧ string_In "/" a = false.

Lemma clean_step_simple acc a : simple_name a → clean_step acc a = acc ++ [a].
Proof. intros (? & ? & ? & _). unfold clean_step. by rewrite !bool_decide_false. Qed.

Lemma object_path_simple {S} (x : Store S) bucket key :
  simple_name bucket → simple_name key → object_path x bucket key = clean (rootDir x) ++ [bucket; key].
Proof.
  intros Hb Hk. unfold object_path, join_path. cbn [mbind list_bind]. rewrite app_nil_r.
  rewrite !Split_no_sep by (apply Hb || apply Hk). unfold clean. rewrite foldl_app. cbn [foldl app].
  rewrite !clean_step_simple by done. by rewrite <- app_assoc.
Qed.

Lemma object_path_inj {S} (x : Store S) b k b' k' :
  simple_name b → simple_name k → simple_name b' → simple_name k' →
  object_path x b k = object_path x b' k' → b = b' ∧ k = k'.
Proof. intros. rewrite !object_path_simple in * by done. by simplify_list_eq. Qed.

(** What was put is what is got: a put that succeeds stores the payload and
    its metadata (size and digest of that payload), and the next get of the same
    bucket and key returns both; among buckets and keys that are plain names the
    payload of every other object is as before. *)
Theorem put_get_roundtrip `{Crypto} {S} `{ObjectLaws S} (x x' : Store S) (bucket key d digest : string) :
  PutObject None None x bucket key (Ok d) = (x', Ok digest) →
  digest = hex (sha256 d) ∧
  GetObject x' bucket key =
    Ok (d, mk_Object (mk_Base key bucket key) bucket key (Z.of_nat (String.length d)) digest) ∧
  ∀ b k, simple_name bucket → simple_name key → simple_name b → simple_name k → (b, k) ≠ (bucket, key) →
    fs x' !! object_path x' b k = fs x !! object_path x b k.
Proof.
  unfold PutObject. destruct (_ || _); [done|]. cbv zeta.
  destruct (st_PutObject _ _) as [s [e|]] eqn:Hp; [done|]. intros [= <- <-]. split; [done|]. split.
  - unfold GetObject. cbn [set_store set_fs o_store fs].
    pose proof (put_get_object _ _ _ Hp) as Hg. cbn [obBucket obKey] in Hg. rewrite Hg.
    unfold object_path. cbn [rootDir set_store set_fs]. by rewrite lookup_insert_eq.
  - intros b k Hb Hk Hb' Hk' Hne. change (object_path (set_store _ _) b k) with (object_path x b k).
    cbn [set_store set_fs fs]. apply lookup_insert_ne. intros E.
    apply object_path_inj in E as [-> ->]; done.
Qed.

(** A listing is complete and ordered: it holds exactly the objects of the
    bucket whose key starts with the prefix, by increasing key. *)
Theorem ListObjects_sorted {S} `{ObjectStore S} (x : Store S) (bucket prefix : string) (objs : list Object) :
  st_ListObjects (o_store x) bucket = Ok objs →
  ∃ l, ListObjects x bucket prefix = Ok l ∧
    (∀ o, o ∈ l ↔ o ∈ objs ∧ HasPrefix (obKey o) prefix = true) ∧
    StronglySorted (λ a b, string_ltb (obKey b) (obKey a) = false) l.
Proof.
  intros Hl. unfold ListObjects. rewrite Hl.
  assert (∀ l, StronglySorted (λ a b, string_ltb (obKey b) (obKey a) = false) (sort_slice key_less l)) as Hs.
  { intros l. apply (sort_slice_sorted _ (λ _, True)). by apply Forall_true. }
  case_bool_decide as Hp; eexists; (split; [done|]); (split; [|apply Hs]); intros o; rewrite sort_slice_perm.
  - subst prefix. split; [|by intros []]. intros Ho. split; [done|]. unfold HasPrefix. by destruct (obKey o).
  - rewrite list_elem_of_filter. tauto.
Qed.

Lemma pretty_Z_nonempty (z : Z) : pretty z ≠ "".
Proof.
  assert (∀ x s, s ≠ "" → pretty_N_go x s ≠ "") as Hgo.
  { intros x. induction (N.lt_wf_0 x) as [x _ IH]. intros s Hs.
    destruct (decide (0 < x)%N) as [Hx|Hx].
    - rewrite pretty_N_go_step by done. apply IH; [by apply N.div_lt|done].
    - replace x with 0%N by lia. by rewrite pretty_N_go_0. }
  assert (∀ p, pretty (N.pos p) ≠ "") as Hp.
  { intros p. unfold pretty, pretty_N. rewrite decide_False by done.
    rewrite pretty_N_go_step by lia. by apply Hgo. }
  destruct z; [done|apply Hp|done].
Qed.

Lemma hex_nonempty s : s ≠ "" → hex s ≠ "".
Proof. by destruct s. Qed.

(** A presigned link opens what it was made for, and only a correctly signed
    one opens anything: the values of a fresh link verify to its bucket and key,
    and whatever verifies carries the signature of its own bucket, key and
    expiry under the store's key. *)
Theorem presign_verifies `{Crypto} {S} (now : Time) (x : Store S) (bucket key : string) (ttl : Duration)
    (v : gmap string string) (b k : string) :
  bucket ≠ "" → key ≠ "" →
  (∀ m, String.length (hmac_sha256 (hmacKey x) m) = 32) →
  VerifyPresign x (presign_values now x bucket key ttl) = Ok (bucket, key) ∧
  (VerifyPresign x v = Ok (b, k) →
   ∃ exp, v !! "bucket" = Some b ∧ v !! "key" = Some k ∧ v !! "exp" = Some exp ∧
     v !! "sig" = Some (hex (hmac_sha256 (hmacKey x) (mac_text b k exp)))).
Proof.
  intros Hb Hk Hm. split.
  - unfold VerifyPresign, presign_values. cbv zeta. simplify_map_eq. cbn [default].
    set (sig := hmac_sha256 _ _).
    assert (sig ≠ "") by (intros E; specialize (Hm (mac_text bucket key (pretty (Unix (time_Add now ttl)))));
      fold sig in Hm; by rewrite E in Hm).
    rewrite (bool_decide_false (bucket = "")), (bool_decide_false (key = "")), (bool_decide_false (pretty _ = "")),
      (bool_decide_false (hex sig = "")), bool_decide_true; auto using pretty_Z_nonempty, hex_nonempty.
  - unfold VerifyPresign. cbv zeta. destruct (_ || _) eqn:E; [done|]. split_bools.
    destruct (v !! "bucket"), (v !! "key"), (v !! "exp"), (v !! "sig"); cbn [default] in *; try done.
    case_bool_decide as Hs; [|done]. intros [= <- <-]. eexists. split_and!; try done. f_equal. by symmetry.
Qed.

(** ** Concrete runs *)

(** The witnesses store metadata in a list and use constant-length digests. *)
Definition ex_digest : string := "0123456789abcdef0123456789abcdef".
#[local] Instance ex_crypto : Crypto := {|
  hmac_sha256 k m := ex_digest; sha256 s := s;
  bcrypt_generate salt p := Ok p; bcrypt_compare h p := bool_decide (h = p);
|}.
Definition ex_same (bucket key : string) (o : Object) : bool :=
  bool_decide (obBucket o = bucket) && bool_decide (obKey o = key).
#[local] Instance ex_objects : ObjectStore (list Object) := {|
  st_CreateBucket s b := (s, None);
  st_DeleteBucket s n := (base.filter (λ o, obBucket o ≠ n) s, None);
  st_PutObject s o := (o :: s, None);
  st_GetObject s b k := match List.find (ex_same b k) s with Some o => Ok o | None => Err "not found" end;
  st_DeleteObject s b k := (base.filter (λ o, ex_same b k o = false) s, None);
  st_ListObjects s b := Ok (base.filter (λ o, obBucket o = b) s);
|}.
#[local] Instance ex_objects_laws : ObjectLaws (list Object).
Proof.
  split. intros s s' o [= <-]. cbn. unfold ex_same. by rewrite !bool_decide_true by done.
Qed.
Definition ex_store : Store (list Object) := mk_Store [] ["data"] "key" ∅.
Definition ex_put (x : Store (list Object)) (b k d : string) : Store (list Object) :=
  (PutObject None None x b k (Ok d)).1.

Lemma put_get_roundtrip_witness : "hello" = "hello" ∧
  GetObject (ex_put ex_store "logs" "a/b.txt" "hello") "logs" "a/b.txt" =
    Ok ("hello", mk_Object (mk_Base "a/b.txt" "logs" "a/b.txt") "logs" "a/b.txt" 5 (hex "hello")).
Proof.
  split; [reflexivity|].
  exact (proj1 (proj2 (put_get_roundtrip ex_store (ex_put ex_store "logs" "a/b.txt" "hello") "logs" "a/b.txt" "hello"
    (hex "hello") eq_refl))).
Defined.

Definition ex_two : Store (list Object) := ex_put (ex_put ex_store "logs" "x2" "b") "logs" "x1" "a".

Lemma ListObjects_sorted_witness : ∃ l, ListObjects ex_two "logs" "x" = Ok l ∧
  StronglySorted (λ a b, string_ltb (obKey b) (obKey a) = false) l.
Proof.
  destruct (ListObjects_sorted (H := ex_objects) ex_two "logs" "x" (o_store ex_two) ltac:(vm_compute; reflexivity)) as (l & Hl & _ & Hs).
  exists l. split; [exact Hl|exact Hs].
Defined.

Lemma presign_verifies_witness :
  VerifyPresign ex_store (presign_values 0 ex_store "logs" "x1" 60) = Ok ("logs", "x1").
Proof.
  exact (proj1 (presign_verifies 0 ex_store "logs" "x1" 60 ∅ "" "" ltac:(discriminate) ltac:(discriminate)
    (λ m, eq_refl))).
Defined.

(** ** Where the code departs from its documentation *)

(** Access by a presigned link is not temporary: the verification does not look
    at the clock, so even a link that was expired when it was made verifies. *)
Lemma expired_link_verifies :
  VerifyPresign ex_store (presign_values 0 ex_store "logs" "x1" (-3600 * second)) = Ok ("logs", "x1").
Proof. vm_compute. reflexivity. Qed.

(** The text that is signed does not determine the object: two bucket and key
    pairs share it. *)
Lemma mac_text_ambiguous : mac_text "a" "b|c" "9" = mac_text "a|b" "c" "9".
Proof. reflexivity. Qed.

(** A key is not confined to its bucket, nor to the root directory. *)
Lemma key_escapes_bucket {S} (x : Store S) : rootDir x = ["data"; "objects"] →
  object_path x "logs" "../secrets/k" = object_path x "secrets" "k" ∧
  object_path x "logs" "../../../etc/passwd" = ["etc"; "passwd"].
Proof. intros E. unfold object_path. rewrite E. split; reflexivity. Qed.
