(* ===== verification/Secret.v ===== *)
(** * Packages secret and config: secrets and workload environments

    Models internal/secret/secrets.go and internal/config/config.go.  AES-GCM is
    a parameter: [aes_gcm] gives the AEAD of a key, a record of its operations;
    [AEADLaws] states what the package relies on.  The random source is an
    argument, and so is JSON's decoding of a string map. *)

From S2P Require Import Prelude State.

(** ** AES-GCM *)

Record AEAD := mk_AEAD {
  NonceSize : nat;
  Seal : string → string → string;              (* nonce, plaintext *)
  Open : string → string → option string;       (* nonce, ciphertext *)
}.

(** Opening undoes sealing, and opens nothing else. *)
Record AEADLaws (g : AEAD) : Prop := {
  open_seal : ∀ n p, String.length n = NonceSize g → Open g n (Seal g n p) = Some p;
  open_authentic : ∀ n c p, Open g n c = Some p → c = Seal g n p;
}.

Definition ErrCipherTextTooShort : error := "secret: ciphertext too short".
Definition ErrDecryptFailed : error := "secret: decrypt failed".

Record Cipher := mk_Cipher { gcm : AEAD }.

Definition NewCipher (aes_gcm : string → res AEAD) (masterKey : string) : res Cipher :=
  if negb (bool_decide (String.length masterKey = 32)) then
    Err ("secret: master key must be 32 bytes, got " +:+ pretty (String.length masterKey))
  else
    match aes_gcm masterKey with
    | Err e => Err e
    | Ok g => Ok (mk_Cipher g)
    end.

(** [rand n]: n random bytes, or the error of the random source. *)
Definition Encrypt (rand : nat → res string) (c : Cipher) (plaintext : string) : res (string * string) :=
  match rand (NonceSize (gcm c)) with
  | Err e => Err e
  | Ok n => Ok (Seal (gcm c) n plaintext, n)
  end.

Definition Decrypt (c : Cipher) (ct nonce : string) : res string :=
  if negb (bool_decide (String.length nonce = NonceSize (gcm c))) then Err ErrCipherTextTooShort
  else
    match Open (gcm c) nonce ct with
    | None => Err ErrDecryptFailed
    | Some pt => Ok pt
    end.

Definition GenerateKey (rand : nat → res string) : res string :=
  match rand 32 with Err e => Err e | Ok b => Ok b end.

(** ** Environments *)

Record ConfigMap := mk_ConfigMap { cmBase : Base; cmData : gmap string string }.
Record SecretRes := mk_SecretRes { seBase : Base; seCiphertext : string; seNonce : string }.

Class ConfigStore (S : Type) := {
  GetConfigMap : S → string → string → res ConfigMap;
  GetSecret : S → string → string → res SecretRes;
}.

Section Config.
Context {S : Type} `{ConfigStore S}.
(** JSON's decoding of an object into a fresh map of strings. *)
Context (json_map : string → res (gmap string string)).

(** A resolver without a cipher panics when it needs one. *)
Record Resolver := mk_Resolver { rStore : S; rCipher : option Cipher }.

Definition New (s : S) (c : option Cipher) : Resolver := mk_Resolver s c.

Definition config_data (r : Resolver) (project name : string) : res (gmap string string) :=
  match GetConfigMap (rStore r) project name with
  | Err e => Err ("config: configmap " +:+ name +:+ ": " +:+ e)
  | Ok cm => Ok (cmData cm)
  end.

Definition secret_data (r : Resolver) (project name : string) : go (res (gmap string string)) :=
  match GetSecret (rStore r) project name with
  | Err e => Ret (Err ("config: secret " +:+ name +:+ ": " +:+ e))
  | Ok sec =>
      match rCipher r with
      | None => Panic
      | Some c =>
          match Decrypt c (seCiphertext sec) (seNonce sec) with
          | Err e => Ret (Err ("config: decrypt " +:+ name +:+ ": " +:+ e))
          | Ok pt =>
              match json_map pt with
              | Err e => Ret (Err ("config: decode " +:+ name +:+ ": " +:+ e))
              | Ok m => Ret (Ok m)
              end
          end
      end
  end.

(** [for k, v := range m { out[k] = v }] *)
Definition overlay (m out : gmap string string) : gmap string string := m ∪ out.

Fixpoint merge_configs (r : Resolver) (project : string) (refs : list string) (out : gmap string string) :
    res (gmap string string) :=
  match refs with
  | [] => Ok out
  | ref :: refs =>
      match config_data r project ref with
      | Err e => Err e
      | Ok m => merge_configs r project refs (overlay m out)
      end
  end.

Fixpoint merge_secrets (r : Resolver) (project : string) (refs : list string) (out : gmap string string) :
    go (res (gmap string string)) :=
  match refs with
  | [] => Ret (Ok out)
  | ref :: refs =>
      go_bind (secret_data r project ref) (λ m,
        match m with
        | Err e => Ret (Err e)
        | Ok m => merge_secrets r project refs (overlay m out)
        end)
  end.

Definition ResolveEnv (r : Resolver) (w : Workload) : go (res (gmap string string)) :=
  match merge_configs r (wlProjectID w) (wlConfigMapRefs w) (overlay (wlEnv w) ∅) with
  | Err e => Ret (Err e)
  | Ok out => merge_secrets r (wlProjectID w) (wlSecretRefs w) out
  end.
End Config.
Arguments mk_Resolver {S}. Arguments rStore {S}. Arguments rCipher {S}.

(** ** Properties *)

(** Secrets round-trip and are authenticated: what a cipher encrypts it
    decrypts to the same text; a nonce of another length is refused before
    anything is opened; and whatever it decrypts was produced by sealing that
    very text with that nonce under its key. *)
Theorem secret_roundtrip (aes_gcm : string → res AEAD) (key : string) (c : Cipher) (rand : nat → res string)
    (pt ct nonce ct' nonce' pt' : string) :
  (∀ k g, aes_gcm k = Ok g → AEADLaws g) →
  (∀ n b, rand n = Ok b → String.length b = n) →
  NewCipher aes_gcm key = Ok c →
  Encrypt rand c pt = Ok (ct, nonce) →
  Decrypt c ct nonce = Ok pt ∧
  (String.length nonce' ≠ String.length nonce → Decrypt c ct' nonce' = Err ErrCipherTextTooShort) ∧
  (Decrypt c ct' nonce' = Ok pt' → ct' = Seal (gcm c) nonce' pt').
Proof.
  intros Hg Hr Hc He. unfold NewCipher in Hc. destruct (negb _); [done|].
  destruct (aes_gcm key) as [g|] eqn:Ha; [|done]. injection Hc as <-. destruct (Hg _ _ Ha) as [Hos Hau].
  unfold Encrypt in He. cbn [gcm] in *. destruct (rand (NonceSize g)) as [n|] eqn:Hn; [|done].
  injection He as <- <-. apply Hr in Hn. unfold Decrypt. cbn [gcm]. split_and!.
  - rewrite bool_decide_true by done. cbn [negb]. by rewrite Hos.
  - intros Hne. by rewrite bool_decide_false by congruence.
  - destruct (negb _); [done|]. destruct (Open g nonce' ct') as [p|] eqn:Ho; [|done]. intros [= <-]. by apply Hau.
Qed.

(** The value of a variable: of the last map that defines it. *)
Definition last_def (k : string) (ms : list (gmap string string)) (d : option string) : option string :=
  foldl (λ acc m, match (m : gmap string string) !! k with Some v => Some v | None => acc end) d ms.

Lemma overlay_lookup m out k : overlay m out !! k = match m !! k with Some v => Some v | None => out !! k end.
Proof. unfold overlay. rewrite lookup_union. by destruct (m !! k), (out !! k). Qed.

Lemma merge_configs_spec {S} `{ConfigStore S} (r : Resolver) project refs out e :
  merge_configs r project refs out = Ok e ↔
  ∃ ms, Forall2 (λ ref m, config_data r project ref = Ok m) refs ms ∧ e = foldl (λ o m, overlay m o) out ms.
Proof.
  revert out. induction refs as [|ref refs IH]; intros out; cbn [merge_configs].
  - split; [intros [= <-]; exists []; done|]. intros (ms & Hf & ->). by inversion Hf.
  - destruct (config_data r project ref) as [m|er] eqn:Hm.
    + rewrite IH. split; intros (ms & Hf & ->).
      * exists (m :: ms). split; [by constructor|done].
      * inversion Hf as [|? m' ? ms' Hm' Hf']; subst. rewrite Hm in Hm'. injection Hm' as <-. by exists ms'.
    + split; [done|]. intros (ms & Hf & _). inversion Hf; congruence.
Qed.

Lemma merge_secrets_spec {S} `{ConfigStore S} jm (r : Resolver) project refs out e :
  merge_secrets jm r project refs out = Ret (Ok e) ↔
  ∃ ms, Forall2 (λ ref m, secret_data jm r project ref = Ret (Ok m)) refs ms ∧
    e = foldl (λ o m, overlay m o) out ms.
Proof.
  revert out. induction refs as [|ref refs IH]; intros out; cbn [merge_secrets].
  - split; [intros [= <-]; exists []; done|]. intros (ms & Hf & ->). by inversion Hf.
  - destruct (secret_data jm r project ref) as [[m|er]|] eqn:Hm; cbn [go_bind].
    + rewrite IH. split; intros (ms & Hf & ->).
      * exists (m :: ms). split; [by constructor|done].
      * inversion Hf as [|? m' ? ms' Hm' Hf']; subst. rewrite Hm in Hm'. injection Hm' as <-. by exists ms'.
    + split; [done|]. intros (ms & Hf & _). inversion Hf; congruence.
    + split; [done|]. intros (ms & Hf & _). inversion Hf; congruence.
Qed.

Lemma overlays_lookup ms out k : foldl (λ o m, overlay m o) out ms !! k = last_def k ms (out !! k).
Proof.
  revert out. induction ms as [|m ms IH]; intros out; [done|].
  cbn [foldl]. rewrite IH, overlay_lookup. done.
Qed.

(** C38: A workload's environment resolves exactly when all its references do,
    and then a variable has the value of the last secret that defines it, else
    of the last config map that does, else the one the workload declares; a
    variable none of them defines is absent. *)
Theorem ResolveEnv_precedence {S} `{ConfigStore S} (json_map : string → res (gmap string string))
    (r : Resolver) (w : Workload) (env : gmap string string) :
  ResolveEnv json_map r w = Ret (Ok env) ↔
  ∃ cms secs,
    Forall2 (λ ref m, config_data r (wlProjectID w) ref = Ok m) (wlConfigMapRefs w) cms ∧
    Forall2 (λ ref m, secret_data json_map r (wlProjectID w) ref = Ret (Ok m)) (wlSecretRefs w) secs ∧
    ∀ k, env !! k = last_def k secs (last_def k cms (wlEnv w !! k)).
Proof.
  unfold ResolveEnv. split.
  - destruct (merge_configs _ _ _ _) as [out|] eqn:Hc; [|done]. intros Hs.
    apply merge_configs_spec in Hc as (cms & Hc & ->). apply merge_secrets_spec in Hs as (secs & Hs & ->).
    exists cms, secs. split_and!; [done..|]. intros k. rewrite !overlays_lookup, overlay_lookup, lookup_empty.
    by destruct (wlEnv w !! k).
  - intros (cms & secs & Hc & Hs & He).
    assert (merge_configs r (wlProjectID w) (wlConfigMapRefs w) (overlay (wlEnv w) ∅) =
      Ok (foldl (λ o m, overlay m o) (overlay (wlEnv w) ∅) cms)) as -> by (apply merge_configs_spec; eauto).
    apply merge_secrets_spec. exists secs. split; [done|]. apply map_eq. intros k.
    rewrite He, !overlays_lookup, overlay_lookup, lookup_empty. by destruct (wlEnv w !! k).
Qed.

(** ** Concrete runs *)

(** A toy AEAD: the ciphertext is the nonce, a mark and the text. *)
Definition ex_aead : AEAD := mk_AEAD 2 (λ n p, n +:+ "!" +:+ p)
  (λ n c, if HasPrefix c (n +:+ "!") then Some (TrimPrefix c (n +:+ "!")) else None).

Lemma ex_aead_laws : AEADLaws ex_aead.
Proof.
  split; cbn [ex_aead Seal Open NonceSize].
  - intros n p _. assert (n +:+ "!" +:+ p = (n +:+ "!") +:+ p) as -> by apply string_app_assoc.
    by rewrite HasPrefix_app, TrimPrefix_app.
  - intros n c p. destruct (HasPrefix c (n +:+ "!")) eqn:Hp; [|done]. intros [= <-].
    apply HasPrefix_spec in Hp as [t ->]. rewrite TrimPrefix_app. by rewrite <- string_app_assoc.
Qed.

Definition ex_key : string := "0123456789abcdef0123456789abcdef".

Lemma secret_roundtrip_witness :
  Decrypt (mk_Cipher ex_aead) "ab!hello" "ab" = Ok "hello".
Proof.
  refine (proj1 (secret_roundtrip (λ _, Ok ex_aead) ex_key (mk_Cipher ex_aead)
    (λ n, if decide (n = 2) then Ok "ab" else Err "no") "hello" "ab!hello" "ab" "" "" "" _ _ _ _)).
  - intros k g [= <-]. exact ex_aead_laws.
  - intros n b Hn. destruct (decide (n = 2)) as [->|]; [|discriminate Hn]. injection Hn as <-. reflexivity.
  - reflexivity.
  - reflexivity.
Defined.
