(* ===== verification/Retry.v ===== *)
(** * Package retry: retries with exponential backoff

    Models internal/util/retry/retry.go.  The context, the function that is
    retried, the random source and the outcome of each wait are functions of the
    attempt's number; a run returns its result with the number of calls and the
    waits it made. *)

From S2P Require Import Prelude GoFloat.

(** ** Errors that wrap others *)

Inductive err :=
| plain (msg : string)
| wrapped (msg : string) (inner : err)     (* [fmt.Errorf] with the verb w *)
| permanentErr (inner : err).

Fixpoint Error (e : err) : string :=
  match e with plain s => s | wrapped s _ => s | permanentErr e => Error e end.
Definition Unwrap (e : err) : option err :=
  match e with plain _ => None | wrapped _ e => Some e | permanentErr e => Some e end.
Definition Permanent (e : err) : err := permanentErr e.
(** [errors.As] follows the chain of wrapped errors. *)
Fixpoint Is (e : err) : bool :=
  match e with plain _ => false | wrapped _ e => Is e | permanentErr _ => true end.

(** ** Delays *)

(** [math.Pow(2, n)] for a natural n. *)
Definition f64_pow2 (n : Z) : float64 := binary_normalize 53 1024 1 n false.
Definition f64_mul (x y : float64) : float64 := SFmul 53 1024 x y.

(** The integer part of a finite number. *)
Definition f64_trunc (x : float64) : option Z :=
  match x with
  | S754_zero _ => Some 0
  | S754_finite s m e =>
      let a := if (0 <=? e)%Z then Z.shiftl (Z.pos m) e else Z.shiftr (Z.pos m) (- e) in
      Some (if s then - a else a)
  | _ => None
  end%Z.

(** Conversion to int64; what it gives out of range depends on the machine. *)
Definition f64_to_i64 (overflow : float64 → Z) (x : float64) : Z :=
  match f64_trunc x with
  | Some z => if bool_decide (- 2 ^ 63 ≤ z < 2 ^ 63)%Z then z else overflow x
  | None => overflow x
  end.

Definition backoff (overflow : float64 → Z) (base cap : Duration) (attempt : Z) : Duration :=
  let mult := f64_pow2 (attempt - 1) in
  let d := f64_to_i64 overflow (f64_mul (f64_of_Z base) mult) in
  if (cap <? d)%Z then cap else d.

(** ** Do *)

Record world := mk_world {
  ctx_err : Z → option err;          (* [ctx.Err()] when attempt n begins *)
  fn : Z → option err;               (* the outcome of call n *)
  waited : Z → option err;           (* the context's error, if it ends the n-th wait *)
  int64N : Z → Z → Z;                (* the random number drawn in attempt n *)
  overflow : float64 → Z;
}.

Definition is_permanent (p : option (err → bool)) (e : err) : bool :=
  match p with Some f => f e | None => false end.

(** The loop from [attempt] on: the calls and waits still made, and the result.
    [rand.Int64N] panics when its bound is not positive. *)
Fixpoint attempts (w : world) (base cap : Duration) (p : option (err → bool)) (max : Z)
    (remaining : nat) (attempt : Z) (last : option err) : nat * list Duration * go (option err) :=
  match remaining with
  | O => (0, [], Ret last)
  | S remaining =>
      match ctx_err w attempt with
      | Some e => (0, [], Ret (Some e))
      | None =>
          match fn w attempt with
          | None => (1, [], Ret None)
          | Some e =>
              if is_permanent p e then (1, [], Ret (Some e))
              else if (attempt =? max)%Z then (1, [], Ret (Some e))
              else
                let d := backoff (overflow w) base cap attempt in
                if (Z.quot d 4 <=? 0)%Z then (1, [], Panic)
                else
                  let d := i64 (d + int64N w attempt (Z.quot d 4)) in
                  match waited w attempt with
                  | Some e' => (1, [d], Ret (Some e'))
                  | None =>
                      let '(calls, waits, r) := attempts w base cap p max remaining (attempt + 1) (Some e) in
                      (S calls, d :: waits, r)
                  end
          end
      end
  end.

Definition default_base (base : Duration) : Duration := if (base <=? 0)%Z then (100 * millisecond)%Z else base.
Definition default_cap (cap : Duration) : Duration := if (cap <=? 0)%Z then (30 * second)%Z else cap.
Definition default_attempts (n : Z) : Z := if (n <=? 0)%Z then 6%Z else n.

Definition Do (w : world) (maxAttempts : Z) (base cap : Duration) (p : option (err → bool)) :
    nat * list Duration * go (option err) :=
  let base := default_base base in
  let cap := default_cap cap in
  let max := default_attempts maxAttempts in
  attempts w base cap p max (Z.to_nat max) 1 None.

(** ** Properties *)

(** Every wait of a run: at least the backoff of its attempt, at most a quarter
    more. *)
Definition waits_ok (w : world) (base cap : Duration) (first : Z) (waits : list Duration) : Prop :=
  ∀ i d, waits !! i = Some d →
    let b := backoff (overflow w) base cap (first + Z.of_nat i) in (b ≤ d < b + Z.quot b 4)%Z.

(** Why a run of [c] calls from attempt [first] ended with [out]. *)
Definition ended (w : world) (p : option (err → bool)) (max first : Z) (c : nat) (out : option err) : Prop :=
  let final := (first + Z.of_nat c - 1)%Z in
  (1 ≤ c ∧ fn w final = None ∧ out = None) ∨
  (1 ≤ c ∧ ∃ e, fn w final = Some e ∧ out = Some e ∧ (is_permanent p e = true ∨ final = max)) ∨
  (∃ e, out = Some e ∧ (ctx_err w (final + 1) = Some e ∨ 1 ≤ c ∧ waited w final = Some e)).

Lemma attempts_spec w base cap p max remaining attempt last :
  Z.of_nat remaining = (max - attempt + 1)%Z → 0 < remaining →
  (cap ≤ 2 ^ 62)%Z →
  (∀ n, (attempt ≤ n < max)%Z → (4 ≤ backoff (overflow w) base cap n)%Z) →
  (∀ n b, (0 < b)%Z → (0 ≤ int64N w n b < b)%Z) →
  ∃ c waits out, attempts w base cap p max remaining attempt last = (c, waits, Ret out) ∧
    c ≤ remaining ∧
    (∀ i, (attempt ≤ i < attempt + Z.of_nat c - 1)%Z → ∃ e, fn w i = Some e ∧ is_permanent p e = false) ∧
    ended w p max attempt c out ∧ waits_ok w base cap attempt waits.
Proof.
  intros Hr Hpos Hcap Hb Hrand. revert attempt last Hr Hpos Hb.
  induction remaining as [|remaining IH]; intros attempt last Hr Hpos Hb; [lia|]. cbn [attempts].
  assert (Hnow : (attempt + Z.of_nat 1 - 1 = attempt)%Z) by lia.
  assert (Hnil : waits_ok w base cap attempt []) by (intros i d Hd; by rewrite lookup_nil in Hd).
  destruct (ctx_err w attempt) as [e|] eqn:Hc.
  { exists 0, [], (Some e). split_and!; [done|lia|lia| |done]. right; right. exists e. split; [done|left].
    by replace (attempt + Z.of_nat 0 - 1 + 1)%Z with attempt by lia. }
  destruct (fn w attempt) as [e|] eqn:Hf.
  2:{ exists 1, [], None. split_and!; [done|lia|lia| |done]. left. by rewrite Hnow. }
  destruct (is_permanent p e) eqn:Hp.
  { exists 1, [], (Some e). split_and!; [done|lia|lia| |done]. right; left. rewrite Hnow. eauto 10. }
  destruct (Z.eqb_spec attempt max) as [->|Hne].
  { exists 1, [], (Some e). split_and!; [done|lia|lia| |done]. right; left. rewrite Hnow. eauto 10. }
  set (d := backoff (overflow w) base cap attempt).
  assert (4 ≤ d)%Z as Hd by (apply Hb; lia).
  assert (0 < Z.quot d 4)%Z as Hq by (apply Z.quot_str_pos; lia).
  assert (d ≤ cap)%Z as Hdc by (unfold d, backoff; cbv zeta; destruct (Z.ltb_spec cap
    (f64_to_i64 (overflow w) (f64_mul (f64_of_Z base) (f64_pow2 (attempt - 1))))); lia).
  assert (Z.quot d 4 ≤ d)%Z as Hq4 by (rewrite Z.quot_div_nonneg by lia; Z.to_euclidean_division_equations; lia).
  rewrite (proj2 (Z.leb_gt _ _)) by done. cbv zeta.
  specialize (Hrand attempt (Z.quot d 4) Hq) as Hj.
  assert (i64 (d + int64N w attempt (Z.quot d 4)) = (d + int64N w attempt (Z.quot d 4))%Z) as ->
    by (apply i64_id; unfold in_i64; lia).
  assert (Hw : ∀ waits, waits_ok w base cap (attempt + 1) waits →
    waits_ok w base cap attempt ((d + int64N w attempt (Z.quot d 4))%Z :: waits)).
  { intros waits Hws [|i] d' Hd'; cbn in Hd'.
    - injection Hd' as <-. cbv zeta. rewrite Z.add_0_r. fold d. clearbody d. lia.
    - specialize (Hws i d' Hd'). cbv zeta in *.
      by replace (attempt + Z.of_nat (S i))%Z with (attempt + 1 + Z.of_nat i)%Z by lia. }
  destruct (waited w attempt) as [e'|] eqn:Hwt.
  { exists 1, [(d + int64N w attempt (Z.quot d 4))%Z], (Some e').
    split_and!; [done|lia|lia| |apply Hw; intros i d' Hd'; by rewrite lookup_nil in Hd'].
    right; right. exists e'. split; [done|right]. rewrite Hnow. done. }
  destruct (IH (attempt + 1)%Z (Some e)) as (c & waits & out & -> & Hle & Hall & Hend & Hws);
    [lia|lia|intros; apply Hb; lia|].
  exists (S c), ((d + int64N w attempt (Z.quot d 4))%Z :: waits), out.
  split_and!; [done|lia| | |by apply Hw].
  - intros i Hi. destruct (decide (i = attempt)) as [->|]; [eauto|apply Hall; lia].
  - unfold ended in *. cbv zeta in *.
    replace (attempt + Z.of_nat (S c) - 1)%Z with (attempt + 1 + Z.of_nat c - 1)%Z by lia.
    destruct Hend as [(? & ? & ?)|[(? & ?)|(e' & ? & [?|(? & ?)])]];
      [left; split_and!; [lia|done..]|right; left; split; [lia|done]
      |right; right; exists e'; split; [done|by left]|right; right; exists e'; split; [done|right; split; [lia|done]]].
Qed.

(** C25: A retried call ends, and for a reason: as long as no backoff is below 4
    ns, a run does not panic and makes at most the configured number of calls;
    every call before the last failed with an error that is not permanent; the
    result is nil when the last call succeeded, its error when that one is
    permanent or the attempts are used up, and else the context's error; and
    every wait lies between the backoff of its attempt and a quarter more. *)
Theorem Do_outcome (w : world) (maxAttempts : Z) (base cap : Duration) (p : option (err → bool)) :
  (cap ≤ 2 ^ 62)%Z →
  (∀ n, (1 ≤ n < default_attempts maxAttempts)%Z →
     (4 ≤ backoff (overflow w) (default_base base) (default_cap cap) n)%Z) →
  (∀ n b, (0 < b)%Z → (0 ≤ int64N w n b < b)%Z) →
  ∃ c waits out, Do w maxAttempts base cap p = (c, waits, Ret out) ∧
    (Z.of_nat c ≤ default_attempts maxAttempts)%Z ∧
    (∀ i, (1 ≤ i < Z.of_nat c)%Z → ∃ e, fn w i = Some e ∧ is_permanent p e = false) ∧
    ended w p (default_attempts maxAttempts) 1 c out ∧
    waits_ok w (default_base base) (default_cap cap) 1 waits.
Proof.
  intros Hcap Hb Hr. unfold Do. cbv zeta.
  assert (0 < default_attempts maxAttempts)%Z as Hm
    by (unfold default_attempts; destruct (Z.leb_spec maxAttempts 0); lia).
  assert (default_cap cap ≤ 2 ^ 62)%Z
    by (unfold default_cap, second, millisecond; destruct (Z.leb_spec cap 0); lia).
  destruct (attempts_spec w (default_base base) (default_cap cap) p (default_attempts maxAttempts)
    (Z.to_nat (default_attempts maxAttempts)) 1 None) as (c & waits & out & He & Hle & Hall & Hend & Hws);
    [lia|lia|done|done|done|].
  exists c, waits, out. split_and!; [done|lia|intros; apply Hall; lia|done|done].
Qed.

(** Six attempts with the defaults wait for 100 ms, 200 ms, ... 1.6 s. *)
Lemma default_backoffs ov :
  (λ n, backoff ov (default_base 0) (default_cap 0) n) <$> [1; 2; 3; 4; 5]%Z =
  (λ n, n * millisecond)%Z <$> [100; 200; 400; 800; 1600]%Z.
Proof. reflexivity. Qed.

Definition ex_world : world :=
  mk_world (λ _, None) (λ n, if (n <? 3)%Z then Some (plain "busy") else None) (λ _, None)
    (λ _ _, 0%Z) (λ _, (- 2 ^ 63)%Z).

Lemma Do_outcome_witness : ∃ waits, Do ex_world 0 0 0 (Some Is) = (3, waits, Ret None) ∧
  waits_ok ex_world (default_base 0) (default_cap 0) 1 waits.
Proof.
  destruct (Do_outcome ex_world 0 0 0 (Some Is)) as (c & waits & out & He & _ & _ & _ & Hw).
  - lia.
  - intros n Hn. change (default_attempts 0) with 6%Z in Hn.
    assert (n = 1 ∨ n = 2 ∨ n = 3 ∨ n = 4 ∨ n = 5)%Z as [->|[->|[->|[->| ->]]]] by lia; vm_compute; discriminate.
  - cbn. lia.
  - exists waits. split; [|exact Hw]. rewrite He. vm_compute in He. injection He as <- _ <-. reflexivity.
Defined.

(** ** Where the code departs from what its callers may expect *)

(** A base below 4 ns makes the jitter's bound zero, and the draw panics. *)
Lemma tiny_base_panics (w : world) p e :
  ctx_err w 1 = None → fn w 1 = Some e → is_permanent p e = false → (Do w 2 3 1000 p).2 = Panic.
Proof.
  intros Hc Hf Hp. change (Do w 2 3 1000 p) with (attempts w 3 1000 p 2 2 1 None).
  cbn [attempts]. rewrite Hc, Hf, Hp. reflexivity.
Qed.

(** Where an out-of-range conversion gives the least int64, the 38th backoff of
    the defaults is negative and the draw panics. *)
Lemma overflow_backoff : backoff (λ _, (- 2 ^ 63)%Z) (default_base 0) (default_cap 0) 38 = (- 2 ^ 63)%Z.
Proof. reflexivity. Qed.

(** An error marked permanent is retried when no predicate is passed. *)
Lemma permanent_needs_predicate e : Is (Permanent e) = true ∧ is_permanent None (Permanent e) = false.
Proof. done. Qed.
