(* ===== verification/Volume.v ===== *)
(** * Package volume: persistent volumes

    Models internal/storage/volume/volume.go over the store (the interface
    [VolumeStore]) and the file system of [Object].  Where system calls change
    files, [os] is the first of them that fails: its error and the file system
    it leaves. *)

From S2P Require Import Prelude State Object.

Record Volume := mk_Volume { voBase : Base; voSizeBytes : Z; voNodeID : string; voStatus : string }.
Definition voID (v : Volume) : string := bID (voBase v).
Definition voProjectID (v : Volume) : string := bProjectID (voBase v).

Class VolumeStore (S : Type) := {
  st_CreateVolume : S → Volume → S * option error;
  st_GetVolume : S → string → string → res Volume;
  st_UpdateVolume : S → Volume → S * option error;
  st_DeleteVolume : S → string → string → S * option error;
}.
Class VolumeLaws (S : Type) `{VolumeStore S} : Prop := {
  create_get_volume : ∀ s s' v, st_CreateVolume s v = (s', None) →
    st_GetVolume s' (voProjectID v) (voID v) = Ok v;
  update_get_volume : ∀ s s' v, st_UpdateVolume s v = (s', None) →
    st_GetVolume s' (voProjectID v) (voID v) = Ok v;
}.

Record Manager (S : Type) := mk_Manager { v_store : S; root : path; v_fs : filesys }.
Arguments mk_Manager {S}. Arguments v_store {S}. Arguments root {S}. Arguments v_fs {S}.

(** [f.Truncate(n)]: shorter files are filled with zero bytes. *)
Fixpoint zeros (n : nat) : string := match n with O => "" | S n => String Ascii.zero (zeros n) end.
Definition truncated (n : nat) (s : string) : string :=
  string_take n s +:+ zeros (n - String.length s).
(** What is left in a file opened without truncation after [d] was written. *)
Definition written_over (d old : string) : string := d +:+ string_drop (String.length d) old.

Section Volume.
Context {S : Type} `{VolumeStore S}.

Definition New (os_err : option error) (s : S) (temp rootDir : path) (files : filesys) : res (Manager S) :=
  let r := if bool_decide (rootDir = []) then temp ++ ["minicloud-volumes"] else rootDir in
  match os_err with
  | Some e => Err e
  | None => Ok (mk_Manager s r files)
  end.

Definition set_vstore (m : Manager S) (s : S) : Manager S := mk_Manager s (root m) (v_fs m).
Definition set_vfs (m : Manager S) (f : filesys) : Manager S := mk_Manager (v_store m) (root m) f.

Definition vol_path (m : Manager S) (projectID id : string) : path :=
  join_path (root m) [projectID; id +:+ ".vol"].

Definition Create (os : option (error * filesys)) (m : Manager S) (projectID id : string) (sizeBytes : Z)
    (nodeID : string) : Manager S * option error :=
  if (sizeBytes <=? 0)%Z then (m, Some "volume: size must be positive")
  else
    let v := mk_Volume (mk_Base id projectID id) sizeBytes nodeID "Available" in
    match st_CreateVolume (v_store m) v with
    | (s, Some e) => (set_vstore m s, Some e)
    | (s, None) =>
        let m := set_vstore m s in
        match os with
        | Some (e, f) => (set_vfs m f, Some e)
        | None =>
            let p := vol_path m projectID id in
            let old := default "" (v_fs m !! p) in
            (set_vfs m (<[p := truncated (Z.to_nat sizeBytes) old]> (v_fs m)), None)
        end
    end.

Definition Attach (m : Manager S) (projectID id nodeID : string) : Manager S * option error :=
  match st_GetVolume (v_store m) projectID id with
  | Err e => (m, Some e)
  | Ok v =>
      let '(s, e) := st_UpdateVolume (v_store m) (mk_Volume (voBase v) (voSizeBytes v) nodeID "InUse") in
      (set_vstore m s, e)
  end.

Definition Detach (m : Manager S) (projectID id : string) : Manager S * option error :=
  match st_GetVolume (v_store m) projectID id with
  | Err e => (m, Some e)
  | Ok v =>
      let '(s, e) := st_UpdateVolume (v_store m) (mk_Volume (voBase v) (voSizeBytes v) (voNodeID v) "Available") in
      (set_vstore m s, e)
  end.

Definition Delete (os_err : option error) (m : Manager S) (projectID id : string) : Manager S * option error :=
  match st_DeleteVolume (v_store m) projectID id with
  | (s, Some e) => (set_vstore m s, Some e)
  | (s, None) =>
      let m := set_vstore m s in
      let p := vol_path m projectID id in
      match os_err, v_fs m !! p with
      | Some e, _ => (m, Some e)
      | None, None => (m, Some ErrNoFile)
      | None, Some _ => (set_vfs m (delete p (v_fs m)), None)
      end
  end.

Definition Read (m : Manager S) (projectID id : string) : res string :=
  match st_GetVolume (v_store m) projectID id with
  | Err e => Err e
  | Ok _ => match v_fs m !! vol_path m projectID id with Some d => Ok d | None => Err ErrNoFile end
  end.

Definition Snapshot (os : option (error * filesys)) (m : Manager S) (projectID volID snapID : string) :
    Manager S * option error :=
  let src := vol_path m projectID volID in
  let dst := vol_path m projectID snapID in
  match v_fs m !! src with
  | None => (m, Some ("volume: source missing: " +:+ ErrNoFile))
  | Some d =>
      match os with
      | Some (e, f) => (set_vfs m f, Some e)
      | None =>
          let old := default "" (v_fs m !! dst) in
          (set_vfs m (<[dst := written_over d old]> (v_fs m)), None)
      end
  end.
End Volume.

(** ** Paths *)

Lemma vol_file_simple id : string_In "/" id = false → simple_name (id +:+ ".vol").
Proof.
  intros Hid. assert (4 ≤ String.length (id +:+ ".vol")) as Hl by (rewrite string_length_app; cbn; lia).
  split_and!; [intros E; rewrite E in Hl; cbn in Hl; lia..|]. by rewrite string_In_app, Hid.
Qed.

Lemma vol_path_simple {S} (m : Manager S) projectID id :
  simple_name projectID → string_In "/" id = false →
  vol_path m projectID id = clean (root m) ++ [projectID; id +:+ ".vol"].
Proof.
  intros Hp Hid. pose proof (vol_file_simple id Hid) as Hv.
  unfold vol_path, join_path. cbn [mbind list_bind]. rewrite app_nil_r.
  rewrite !Split_no_sep by (apply Hp || apply Hv). unfold clean. rewrite foldl_app. cbn [foldl app].
  rewrite !clean_step_simple by done. by rewrite <- app_assoc.
Qed.

Lemma vol_path_inj {S} (m : Manager S) projectID id id' :
  simple_name projectID → string_In "/" id = false → string_In "/" id' = false →
  vol_path m projectID id = vol_path m projectID id' → id = id'.
Proof.
  intros Hp Hid Hid'. rewrite !vol_path_simple by done. intros [= E]%app_inv_head.
  clear Hid Hid'. revert id' E. induction id as [|a id IH]; intros id' E.
  - destruct id' as [|a' id']; [done|]. apply (f_equal String.length) in E. rewrite !string_length_app in E. cbn in E. lia.
  - destruct id' as [|a' id'].
    + apply (f_equal String.length) in E. rewrite !string_length_app in E. cbn in E. lia.
    + injection E as -> E. f_equal. by apply IH.
Qed.

(** ** Properties *)

(** The life of a volume: a created one is available on its node, and its
    file, where none existed, reads as that many zero bytes; attaching it puts it
    in use on the given node, detaching makes it available again, and neither
    changes its size or its data.  A size that is not positive is refused
    without any change. *)
Theorem volume_lifecycle {S} `{VolumeLaws S} (m m1 m2 m3 : Manager S) (p id node node' : string) (size : Z) :
  Create None m p id size node = (m1, None) →
  v_fs m !! vol_path m p id = None →
  Attach m1 p id node' = (m2, None) →
  Detach m2 p id = (m3, None) →
  (0 < size)%Z ∧
  st_GetVolume (v_store m1) p id = Ok (mk_Volume (mk_Base id p id) size node "Available") ∧
  Read m1 p id = Ok (zeros (Z.to_nat size)) ∧
  st_GetVolume (v_store m2) p id = Ok (mk_Volume (mk_Base id p id) size node' "InUse") ∧
  st_GetVolume (v_store m3) p id = Ok (mk_Volume (mk_Base id p id) size node' "Available") ∧
  Read m2 p id = Read m1 p id ∧ Read m3 p id = Read m1 p id.
Proof.
  unfold Create. intros Hc Hfile Ha Hd.
  destruct (Z.leb_spec size 0) as [Hle|Hlt]; [done|]. cbv zeta in Hc.
  destruct (st_CreateVolume _ _) as [s1 [e|]] eqn:Hs1; [done|]. injection Hc as <-.
  apply create_get_volume in Hs1 as Hg1. cbn in Hg1.
  unfold Attach in Ha. cbn [set_vfs set_vstore v_store] in Ha. rewrite Hg1 in Ha. cbn [voBase voSizeBytes voNodeID] in Ha.
  destruct (st_UpdateVolume s1 _) as [s2 e2] eqn:Hs2. injection Ha as <- ->.
  apply update_get_volume in Hs2 as Hg2. cbn in Hg2.
  unfold Detach in Hd. cbn [set_vfs set_vstore v_store] in Hd. rewrite Hg2 in Hd. cbn [voBase voSizeBytes voNodeID] in Hd.
  destruct (st_UpdateVolume s2 _) as [s3 e3] eqn:Hs3. injection Hd as <- ->.
  apply update_get_volume in Hs3 as Hg3. cbn in Hg3.
  unfold Read. cbn [set_vfs set_vstore v_store v_fs]. rewrite Hg1, Hg2, Hg3.
  unfold vol_path in *. cbn [set_vfs set_vstore root]. rewrite lookup_insert_eq, Hfile.
  split_and!; try done. unfold truncated. cbn. rewrite Nat.sub_0_r. by destruct (Z.to_nat size).
Qed.

(** A snapshot under a fresh name is the volume's data at that moment, and
    stays so whatever is written to the volume later; the volume itself is not
    changed, and without a source nothing is. *)
Theorem snapshot_independent {S} (m : Manager S) (p volID snapID : string) :
  simple_name p → string_In "/" volID = false → string_In "/" snapID = false → volID ≠ snapID →
  v_fs m !! vol_path m p snapID = None →
  match v_fs m !! vol_path m p volID with
  | None => ∃ e, Snapshot None m p volID snapID = (m, Some e)
  | Some d =>
      ∃ m', Snapshot None m p volID snapID = (m', None) ∧
        v_fs m' !! vol_path m' p volID = Some d ∧ v_fs m' !! vol_path m' p snapID = Some d ∧
        ∀ d', <[vol_path m' p volID := d']> (v_fs m') !! vol_path m' p snapID = Some d
  end.
Proof.
  intros Hp Hv Hs Hne Hfree. unfold Snapshot. cbv zeta.
  destruct (v_fs m !! vol_path m p volID) as [d|] eqn:Hd; [|by eexists].
  assert (vol_path m p volID ≠ vol_path m p snapID) as Hpath by (intros E; by apply vol_path_inj in E).
  eexists. split; [reflexivity|].
  change (vol_path (set_vfs _ _) p ?i) with (vol_path m p i). cbn [set_vfs v_fs].
  rewrite Hfree. assert (written_over d "" = d) as Hw.
  { unfold written_over. destruct (String.length d); apply string_app_nil_r. }
  cbn [default]. unfold id. rewrite Hw. split_and!; [by rewrite lookup_insert_ne|by rewrite lookup_insert_eq|].
  intros d'. by rewrite lookup_insert_ne, lookup_insert_eq.
Qed.

(** ** Concrete runs *)

#[local] Instance ex_volumes : VolumeStore (gmap (string * string) Volume) := {|
  st_CreateVolume s v := (<[(voProjectID v, voID v) := v]> s, None);
  st_GetVolume s p i := match s !! (p, i) with Some v => Ok v | None => Err "not found" end;
  st_UpdateVolume s v := (<[(voProjectID v, voID v) := v]> s, None);
  st_DeleteVolume s p i := (delete (p, i) s, None);
|}.
#[local] Instance ex_volumes_laws : VolumeLaws (gmap (string * string) Volume).
Proof. split; intros s s' v [= <-]; cbn; by rewrite lookup_insert_eq. Qed.

Definition ex_manager (f : filesys) : Manager (gmap (string * string) Volume) := mk_Manager ∅ ["data"] f.
Definition ex_m1 : Manager (gmap (string * string) Volume) := (Create None (ex_manager ∅) "acme" "v1" 3 "n1").1.
Definition ex_m2 : Manager (gmap (string * string) Volume) := (Attach ex_m1 "acme" "v1" "n2").1.

Lemma pair_none {A B} (x : A * option B) : x.2 = None → x = (x.1, None).
Proof. destruct x. cbn. by intros ->. Qed.

Lemma volume_lifecycle_witness :
  Read ex_m1 "acme" "v1" = Ok (zeros 3) ∧
  st_GetVolume (v_store ex_m2) "acme" "v1" = Ok (mk_Volume (mk_Base "v1" "acme" "v1") 3 "n2" "InUse").
Proof.
  destruct (volume_lifecycle (ex_manager ∅) ex_m1 ex_m2 (Detach ex_m2 "acme" "v1").1 "acme" "v1" "n1" "n2" 3)
    as (_ & _ & H1 & H2 & _); [apply pair_none|..|apply pair_none|apply pair_none|]; [vm_compute; reflexivity..|].
  split; [exact H1|exact H2].
Defined.

Definition ex_files : filesys := {[["data"; "acme"; "v1.vol"] := "abc"]}.

Lemma snapshot_independent_witness : ∃ m', Snapshot None (ex_manager ex_files) "acme" "v1" "s1" = (m', None) ∧
  v_fs m' !! vol_path m' "acme" "s1" = Some "abc".
Proof.
  assert (simple_name "acme") as Hn by (repeat split; discriminate).
  destruct (snapshot_independent (ex_manager ex_files) "acme" "v1" "s1" Hn eq_refl eq_refl ltac:(discriminate) eq_refl)
    as (m' & H1 & _ & H2 & _).
  exists m'. split; [exact H1|exact H2].
Defined.

(** ** Where a snapshot is not a copy *)

(** The target is not truncated: taken over a longer one, a snapshot keeps the
    end of the old data. *)
Lemma snapshot_keeps_old_tail :
  let f : filesys := <[["data"; "acme"; "s1.vol"] := "wxyz"]> ex_files in
  let m' := (Snapshot None (ex_manager f) "acme" "v1" "s1").1 in
  v_fs m' !! ["data"; "acme"; "s1.vol"] = Some "abcz".
Proof. reflexivity. Qed.

(** A snapshot has no record in the store, so it cannot be read back. *)
Lemma snapshot_not_readable :
  Read (Snapshot None (ex_manager ex_files) "acme" "v1" "s1").1 "acme" "s1" = Err "not found".
Proof. reflexivity. Qed.
