(* ===== verification/Cni.v ===== *)
(** * Package cni: virtual networks

    Models internal/network/cni/cni.go.  The commands that are run are returned;
    their failures are ignored by the code.  Whether the host has the ip tool
    ([canExec]) is an argument. *)

From S2P Require Import Prelude State.

(** The fields of [state.Network] that are used. *)
Record NetworkSpec := mk_NetworkSpec { nwBase : Base; nwCIDR : string }.

Record Network := mk_Network { Name : string; CIDR : string; Gateway : string; Bridge : string }.
Record Manager := mk_Manager { networks : gmap string Network }.

Definition NewManager : Manager := mk_Manager ∅.

(** [strings.ReplaceAll(s, "-", )] with nothing. *)
Fixpoint remove_dashes (s : string) : string :=
  match s with
  | EmptyString => ""
  | String a s => if Ascii.eqb a "-" then remove_dashes s else String a (remove_dashes s)
  end.

(** Slicing beyond the end panics. *)
Definition shortID (s : string) : go string :=
  if bool_decide (String.length s < 6) then Ret s
  else
    let r := remove_dashes s in
    if bool_decide (6 ≤ String.length r) then Ret (string_take 6 r) else Panic.

(** Splitting never gives an empty slice, so the error branch is dead. *)
Definition firstIP (cidr : string) : string := (SplitN2 "/" cidr).1.

Abbreviation command := (list string).

Definition bridge_commands (bridge gw : string) : list command :=
  [["ip"; "link"; "add"; bridge; "type"; "bridge"];
   ["ip"; "addr"; "add"; gw +:+ "/24"; "dev"; bridge];
   ["ip"; "link"; "set"; bridge; "up"]].

Definition Ensure (canExec : bool) (m : Manager) (n : NetworkSpec) : go (Manager * list command) :=
  go_bind (shortID (bID (nwBase n))) (λ id,
    let bridge := "cbr-" +:+ id in
    let gw := firstIP (nwCIDR n) in
    let net := mk_Network (bName (nwBase n)) (nwCIDR n) gw bridge in
    let m := mk_Manager (<[bProjectID (nwBase n) := net]> (networks m)) in
    Ret (m, if canExec then bridge_commands bridge gw else [])).

Definition veth_commands (vethHost bridge : string) : list command :=
  [["ip"; "link"; "add"; vethHost; "type"; "veth"; "peer"; "name"; "eth0"];
   ["ip"; "link"; "set"; vethHost; "master"; bridge];
   ["ip"; "link"; "set"; vethHost; "up"]].

Definition Attach (canExec : bool) (m : Manager) (projectID containerID : string) : go (res (list command)) :=
  match networks m !! projectID with
  | None => Ret (Err ("cni: project " +:+ projectID +:+ " has no network"))
  | Some net =>
      if canExec then
        go_bind (shortID containerID) (λ id, Ret (Ok (veth_commands ("veth" +:+ id) (Bridge net))))
      else Ret (Ok [])
  end.

Definition Detach (canExec : bool) (containerID : string) : go (list command) :=
  if canExec then go_bind (shortID containerID) (λ id, Ret [["ip"; "link"; "del"; "veth" +:+ id]])
  else Ret [].

Definition Network_ (m : Manager) (projectID : string) : option Network := networks m !! projectID.

(** ** Properties *)

Lemma shortID_cases s :
  (∃ r, shortID s = Ret r ∧ String.length r ≤ 6) ∨
  (shortID s = Panic ∧ 6 ≤ String.length s ∧ String.length (remove_dashes s) < 6).
Proof.
  unfold shortID. case_bool_decide as H1; [left; eexists; split; [done|lia]|]. cbv zeta.
  case_bool_decide as H2; [left|right; split_and!; [done|lia|lia]].
  eexists. split; [done|]. rewrite string_take_length. lia.
Qed.

(** Networks are created and used under the same bridge: ensuring a network
    panics exactly when its ID has at least six characters but fewer than six
    without dashes; otherwise it records the network under its project, leaves
    the other projects' alone, names the bridge within the 15 characters Linux
    allows, and a container attached to the project is plugged into that very
    bridge. *)
Theorem ensure_then_attach (m : Manager) (n : NetworkSpec) (cid id : string) (other : string) :
  shortID cid = Ret id →
  (Ensure true m n = Panic ∧ 6 ≤ String.length (bID (nwBase n)) ∧
     String.length (remove_dashes (bID (nwBase n))) < 6) ∨
  (∃ m' net, Ensure true m n = Ret (m', bridge_commands (Bridge net) (Gateway net)) ∧
     Ensure false m n = Ret (m', []) ∧
     Network_ m' (bProjectID (nwBase n)) = Some net ∧
     (other ≠ bProjectID (nwBase n) → Network_ m' other = Network_ m other) ∧
     Name net = bName (nwBase n) ∧ CIDR net = nwCIDR n ∧ String.length (Bridge net) ≤ 15 ∧
     Attach true m' (bProjectID (nwBase n)) cid = Ret (Ok (veth_commands ("veth" +:+ id) (Bridge net)))).
Proof.
  intros Hc. unfold Ensure.
  destruct (shortID_cases (bID (nwBase n))) as [(r & Hr & Hl)|(Hp & Hl)]; [right|left; by rewrite Hp].
  rewrite Hr. cbn [go_bind]. cbv zeta. eexists _, (mk_Network _ _ _ _).
  split_and!; [reflexivity|reflexivity| | | | | |].
  - unfold Network_. cbn [networks]. apply lookup_insert_eq.
  - intros Ho. unfold Network_. cbn [networks]. by apply lookup_insert_ne.
  - done.
  - done.
  - cbn. lia.
  - unfold Attach. cbn [networks]. by rewrite lookup_insert_eq, Hc.
Qed.

Definition ex_net : NetworkSpec := mk_NetworkSpec (mk_Base "net-prod-1" "acme" "prod") "10.1.0.0/16".

Lemma ensure_then_attach_witness : ∃ m' net,
  Network_ m' "acme" = Some net ∧ Bridge net = "cbr-netpro" ∧
  Attach true m' "acme" "web-0" = Ret (Ok (veth_commands "vethweb-0" (Bridge net))).
Proof.
  destruct (ensure_then_attach NewManager ex_net "web-0" "web-0" "") as [(H & _)|(m' & net & H1 & _ & H2 & _ & _ & _ & _ & H3)].
  - reflexivity.
  - discriminate H.
  - exists m', net. split; [exact H2|]. split; [|exact H3].
    vm_compute in H1. unfold bridge_commands in H1. injection H1. intros. by symmetry.
Defined.

(** ** Where names clash *)

(** Only six characters of a container's ID enter its interface's name: two
    replicas of one workload share it. *)
Lemma veth_names_collide : shortID "web-app-n1" = shortID "web-app-n2".
Proof. reflexivity. Qed.

(** The gateway is the network's own address, not the first address in it. *)
Lemma gateway_is_network_address : firstIP "10.1.0.0/16" = "10.1.0.0".
Proof. reflexivity. Qed.

(** An ID made of dashes panics. *)
Lemma dashed_id_panics : shortID "a-b-c-d" = Panic.
Proof. reflexivity. Qed.
