(* ===== verification/Llm.v ===== *)
(** * Package llm: the built-in language model and the registry

    Models internal/primitives/llm/llm.go and registry.go.  The hash (FNV-1a) and
    the generator (PCG-DXSM of math/rand/v2) of the standard library are defined,
    so that completions can be computed.  Cancellation of the context is a
    function of the iteration; white space is that of ASCII. *)

From S2P Require Import Prelude GoFloat.

Record Message := mk_Message { Role : string; Content : string }.
Record ChatRequest := mk_ChatRequest {
  rqModel : string; Messages : list Message; Temperature : float64; MaxTokens : Z; rqStream : bool;
}.
Record Choice := mk_Choice { Index : Z; chMessage : Message; FinishReason : string }.
Record Usage := mk_Usage { PromptTokens : Z; CompletionTokens : Z; TotalTokens : Z }.
Record Response := mk_Response {
  rsID : string; rsModel : string; Created : Time; Choices : list Choice; rsUsage : Usage;
}.

(** ** The random source *)

(** FNV-1a, 64 bits. *)
Fixpoint fnv_loop (h : Z) (s : string) : Z :=
  match s with
  | EmptyString => h
  | String a s => fnv_loop (u64 (Z.lxor h (Z.of_nat (nat_of_ascii a)) * 1099511628211)) s
  end.
Definition fnv64a (s : string) : Z := fnv_loop 14695981039346656037 s.

Record PCG := mk_PCG { hi : Z; lo : Z }.

(** The 128-bit state is multiplied and incremented, then scrambled. *)
Definition pcg_next (p : PCG) : PCG :=
  let state := (hi p * 2 ^ 64 + lo p)%Z in
  let mul := (2549297995355413924 * 2 ^ 64 + 4865540595714422341)%Z in
  let inc := (6364136223846793005 * 2 ^ 64 + 1442695040888963407)%Z in
  let state := ((state * mul + inc) mod 2 ^ 128)%Z in
  mk_PCG (state / 2 ^ 64) (state mod 2 ^ 64).
Definition Uint64 (p : PCG) : Z * PCG :=
  let p := pcg_next p in
  let h := hi p in
  let h := Z.lxor h (Z.shiftr h 32) in
  let h := u64 (h * 15750249268501108917) in
  let h := Z.lxor h (Z.shiftr h 48) in
  let h := u64 (h * Z.lor (lo p) 1) in
  (h, p).

Definition newRand (seed : string) : PCG := mk_PCG (fnv64a seed) (fnv64a seed).

(** ** The engine *)

Record TinyEngine := mk_TinyEngine { seed : Z; vocab : list string }.

Definition words : list string := [
  "the"; "a"; "an"; "of"; "to"; "and"; "in"; "on"; "for"; "with";
  "cloud"; "model"; "workload"; "node"; "service"; "deployment";
  "hello"; "world"; "this"; "that"; "is"; "are"; "be"; "or"; "not";
  "yes"; "no"; "ok"; "ack"; "running"; "scheduled"; "ready"; "complete";
  "data"; "compute"; "storage"; "network"; "policy"; "role"; "key";
  "happy"; "thanks"; "welcome"].
(** [nano]: the clock. *)
Definition NewTinyEngine (nano : Z) : TinyEngine := mk_TinyEngine (u64 nano) words.

Definition shouldStop (s : string) : bool :=
  Contains s "ack" || Contains s "complete" || Contains s "ready" || Contains s "thanks".

(** The token drawn: [int(r.Uint64() % uint64(len(e.vocab)))] panics on an empty
    vocabulary, and indexing panics out of range. *)
Definition sample (e : TinyEngine) (r : PCG) : go (string * PCG) :=
  let '(x, r) := Uint64 r in
  let n := u64 (Z.of_nat (length (vocab e))) in
  if (n =? 0)%Z then Panic
  else
    let idx := i64 (x mod n) in
    if (idx <? 0)%Z then Panic
    else match vocab e !! Z.to_nat idx with
         | Some tok => Ret (tok, r)
         | None => Panic
         end.

Definition line_break : string := String (ascii_of_nat 10) "".
Definition transcript (ms : list Message) : string :=
  foldr (λ m out, Role m +:+ ":" +:+ Content m +:+ line_break +:+ out) "" ms.

(** The loop of [Chat]: iteration [i], [n] of them left. *)
Fixpoint generate (e : TinyEngine) (ctx : nat → option error) (i n : nat) (r : PCG) (out : string) : go (res string) :=
  match n with
  | O => Ret (Ok out)
  | S n =>
      match ctx i with
      | Some er => Ret (Err er)
      | None =>
          go_bind (sample e r) (λ '(tok, r),
            let out := out +:+ tok +:+ " " in
            if shouldStop out then Ret (Ok out) else generate e ctx (S i) n r out)
      end
  end.

Definition default_max (n : Z) : Z := if (n <=? 0)%Z then 64%Z else n.
Definition ErrModel : error := "llm: model required".

(** [rid]: what [randID] draws.  A request without messages panics. *)
Definition Chat (e : TinyEngine) (ctx : nat → option error) (now : Time) (rid : string) (req : ChatRequest) :
    go (res Response) :=
  if bool_decide (rqModel req = "") then Ret (Err ErrModel)
  else
    match last (Messages req) with
    | None => Panic
    | Some m =>
        let prompt := if bool_decide (1 < length (Messages req)) then transcript (Messages req) else Content m in
        let promptTokens := Z.of_nat (length (Fields prompt)) in
        let maxTokens := default_max (MaxTokens req) in
        let r := newRand (rqModel req +:+ ":" +:+ prompt) in
        go_bind (generate e ctx 0 (Z.to_nat maxTokens) r "") (λ g, match g with
        | Err er => Ret (Err er)
        | Ok out =>
            let finish := if (Z.of_nat (String.length out) <? i64 (maxTokens * 5))%Z then "length" else "stop" in
            let content := TrimSpace out in
            let completionTokens := Z.of_nat (length (Fields content)) in
            Ret (Ok (mk_Response ("chatcmpl-" +:+ rid) (rqModel req) now
              [mk_Choice 0 (mk_Message "assistant" content) finish]
              (mk_Usage promptTokens completionTokens (promptTokens + completionTokens))))
        end)
    end.

(** The goroutine of [Stream]: the tokens it sends before it closes the channel;
    [ctx i] and [blocked i] say that the context is done before, or while, token
    [i] is sent. *)
Fixpoint stream_loop (e : TinyEngine) (ctx blocked : nat → bool) (i n : nat) (r : PCG) (out : string) :
    go (list string) :=
  match n with
  | O => Ret []
  | S n =>
      if ctx i then Ret []
      else
        go_bind (sample e r) (λ '(tok, r),
          let out := out +:+ tok +:+ " " in
          if blocked i then Ret []
          else if shouldStop out then Ret [tok]
          else go_bind (stream_loop e ctx blocked (S i) n r out) (λ toks, Ret (tok :: toks)))
  end.

(** A panic in the goroutine ends the process, as one in [Stream] itself would. *)
Definition Stream (e : TinyEngine) (ctx blocked : nat → bool) (req : ChatRequest) : go (res (list string)) :=
  if bool_decide (rqModel req = "") then Ret (Err ErrModel)
  else
    match last (Messages req) with
    | None => Panic
    | Some m =>
        let maxTokens := default_max (MaxTokens req) in
        let r := newRand (rqModel req +:+ ":" +:+ Content m) in
        go_bind (stream_loop e ctx blocked 0 (Z.to_nat maxTokens) r "") (λ toks, Ret (Ok toks))
    end.

(** ** The registry *)

Record Model := mk_Model { mName : string; Revision : string; Backend : string; CreatedAt : Time }.

Section Registry.
(** The interface Engine, and the engine a fresh TinyEngine is. *)
Context {E : Type} (tiny : TinyEngine → E).

Record Registry := mk_Registry { models : gmap string Model; engines : gmap string E }.

Definition NewRegistry : Registry := mk_Registry ∅ ∅.

Definition Register (now : Time) (r : Registry) (m : Model) (eng : option E) : Registry * option error :=
  if bool_decide (mName m = "") then (r, Some "llm: model name required")
  else
    let m := mk_Model (mName m) (Revision m) (Backend m) now in
    (mk_Registry (<[mName m := m]> (models r))
       (match eng with Some e => <[mName m := e]> (engines r) | None => engines r end), None).

Definition Resolve (nano : Z) (r : Registry) (name : string) : E :=
  match engines r !! name with Some e => e | None => tiny (NewTinyEngine nano) end.

(** In the order the map is iterated in. *)
Definition List_ (r : Registry) : list Model := (map_to_list (models r)).*2.
Definition Names (r : Registry) : list string := sort_slice string_ltb ((map_to_list (models r)).*1).
Definition Get (r : Registry) (name : string) : option Model := models r !! name.
End Registry.
Arguments mk_Registry {E}. Arguments models {E}. Arguments engines {E}.

(** The generator agrees with the first number of the published sequence for
    the seeds 1 and 2. *)
Example pcg_vector : (Uint64 (mk_PCG 1 2)).1 = 14192431797130687760%Z.
Proof. vm_compute. reflexivity. Qed.

(** ** Tokens *)

Definition spaced (ts : list string) : string := foldr (λ t out, t +:+ " " +:+ out) "" ts.

Lemma Uint64_nonneg r : (0 ≤ (Uint64 r).1)%Z.
Proof. unfold Uint64, u64. cbn [fst]. apply Z.mod_pos_bound. lia. Qed.

(** An engine that can sample: its vocabulary is not empty, and can be indexed. *)
Definition engine_ok (e : TinyEngine) : Prop := (0 < Z.of_nat (length (vocab e)) < 2 ^ 63)%Z.

Lemma NewTinyEngine_ok nano : engine_ok (NewTinyEngine nano).
Proof. unfold engine_ok. cbn. lia. Qed.

(** An empty vocabulary makes every draw panic. *)
Lemma sample_empty_panics e r : vocab e = [] → sample e r = Panic.
Proof. intros He. unfold sample. rewrite He. by destruct (Uint64 r). Qed.

Lemma sample_ok e r : engine_ok e → ∃ tok r', sample e r = Ret (tok, r') ∧ tok ∈ vocab e.
Proof.
  unfold engine_ok. intros He. unfold sample. destruct (Uint64 r) as [x r'].
  rewrite (u64_id (Z.of_nat _)) by (unfold in_u64; lia).
  assert (0 ≤ x mod Z.of_nat (length (vocab e)) < Z.of_nat (length (vocab e)))%Z as Hm by (apply Z.mod_pos_bound; lia).
  rewrite (proj2 (Z.eqb_neq _ _)) by lia. rewrite i64_id by (unfold in_i64; lia).
  rewrite (proj2 (Z.ltb_ge _ _)) by lia.
  destruct (lookup_lt_is_Some_2 (vocab e) (Z.to_nat (x mod Z.of_nat (length (vocab e))))) as [tok Ht]; [lia|].
  rewrite Ht. exists tok, r'. split; [done|]. by eapply list_elem_of_lookup_2.
Qed.

Lemma generate_ok e ctx i n r out : engine_ok e → ∃ g, generate e ctx i n r out = Ret g.
Proof.
  intros He. revert i r out. induction n as [|n IH]; intros i r out; cbn [generate]; [by eexists|].
  destruct (ctx i); [by eexists|]. destruct (sample_ok e r He) as (tok & r' & -> & _). cbn [go_bind].
  destruct (shouldStop _); [by eexists|apply IH].
Qed.

Lemma stream_ok e ctx blocked i n r out :
  engine_ok e → ∃ ts, stream_loop e ctx blocked i n r out = Ret ts ∧ Forall (λ t, t ∈ vocab e) ts.
Proof.
  intros He. revert i r out. induction n as [|n IH]; intros i r out; cbn [stream_loop]; [by exists []|].
  destruct (ctx i); [by exists []|]. destruct (sample_ok e r He) as (tok & r' & -> & Ht). cbn [go_bind].
  destruct (blocked i); [by exists []|]. destruct (shouldStop _).
  { exists [tok]. by repeat constructor. }
  destruct (IH (S i) r' (out +:+ tok +:+ " ")) as (ts & -> & Hts). exists (tok :: ts). by repeat constructor.
Qed.

Lemma generate_stream e i n r out ts :
  stream_loop e (λ _, false) (λ _, false) i n r out = Ret ts →
  generate e (λ _, None) i n r out = Ret (Ok (out +:+ spaced ts)).
Proof.
  revert i r out ts. induction n as [|n IH]; intros i r out ts; cbn [generate stream_loop].
  { intros [= <-]. cbn. by rewrite string_app_nil_r. }
  destruct (sample e r) as [[tok r']|]; [|done]. cbn [go_bind]. destruct (shouldStop _).
  - intros [= <-]. cbn [spaced foldr]. by rewrite string_app_nil_r.
  - destruct (stream_loop e _ _ (S i) n r' _) as [ts'|] eqn:E; [|done]. intros [= <-].
    rewrite (IH _ _ _ _ E). cbn [spaced foldr]. do 2 f_equal. by rewrite <- !string_app_assoc.
Qed.

Lemma stream_length e i n r out ts :
  stream_loop e (λ _, false) (λ _, false) i n r out = Ret ts → length ts ≤ n ∧ (0 < n → 0 < length ts).
Proof.
  revert i r out ts. induction n as [|n IH]; intros i r out ts; cbn [stream_loop]; [intros [= <-]; cbn; lia|].
  destruct (sample e r) as [[tok r']|]; [|done]. cbn [go_bind]. destruct (shouldStop _); [intros [= <-]; cbn; lia|].
  destruct (stream_loop e _ _ (S i) n r' _) as [ts'|] eqn:E; [|done]. intros [= <-].
  destruct (IH _ _ _ _ E). cbn. lia.
Qed.

(** Why it ended: at the limit, or with the first stop word. *)
Lemma stream_stops e i n r out ts :
  stream_loop e (λ _, false) (λ _, false) i n r out = Ret ts →
  (∀ k, 0 < k < length ts → shouldStop (out +:+ spaced (take k ts)) = false) ∧
  (length ts < n → shouldStop (out +:+ spaced ts) = true).
Proof.
  revert i r out ts. induction n as [|n IH]; intros i r out ts; cbn [stream_loop];
    [intros [= <-]; cbn; split; intros; lia|].
  destruct (sample e r) as [[tok r']|]; [|done]. cbn [go_bind].
  destruct (shouldStop (out +:+ tok +:+ " ")) eqn:Hs.
  - intros [= <-]. cbn [length]. split; [intros; lia|]. intros _. exact Hs.
  - destruct (stream_loop e _ _ (S i) n r' _) as [ts'|] eqn:E; [|done]. intros [= <-].
    destruct (IH _ _ _ _ E) as [IH1 IH2]. cbn [length spaced foldr].
    assert (Hcat : ∀ l, (out +:+ tok +:+ " ") +:+ spaced l = out +:+ tok +:+ " " +:+ spaced l)
      by (intros l; by rewrite <- !string_app_assoc).
    split.
    + intros [|[|k]] Hk; [lia| |]; cbn [take spaced foldr].
      { exact Hs. }
      specialize (IH1 (S k) ltac:(lia)). by rewrite Hcat in IH1.
    + intros Hl. rewrite <- Hcat. apply IH2. lia.
Qed.

Lemma Join_nonempty w ws : w ≠ "" → Join (w :: ws) " " ≠ "".
Proof. destruct w; [done|]. by destruct ws. Qed.

Lemma trim_right_spaced ts : Forall word ts → trim_right is_space (spaced ts) = Join ts " ".
Proof.
  induction 1 as [|t ts [Ht Hs] Hts IH]; [done|]. cbn [spaced foldr]. rewrite trim_right_no_space by done.
  change (foldr _ "" ts) with (spaced ts). destruct ts as [|t' ts].
  - cbn. apply string_app_nil_r.
  - change (Join (t :: t' :: ts) " ") with (t +:+ " " +:+ Join (t' :: ts) " "). f_equal.
    cbn [String.append trim_right]. rewrite IH. inversion Hts as [|? ? [Ht' _]]; subst.
    pose proof (Join_nonempty t' ts Ht'). by destruct (Join (t' :: ts) " ").
Qed.

Lemma TrimSpace_spaced ts : Forall word ts → TrimSpace (spaced ts) = Join ts " ".
Proof.
  intros Hts. unfold TrimSpace, Trim.
  assert (trim_left is_space (spaced ts) = spaced ts) as ->; [|by apply trim_right_spaced].
  destruct Hts as [|t ts [Ht Hs] _]; [done|]. cbn [spaced foldr].
  destruct t as [|a t]; [done|]. cbn in *. apply andb_true_iff in Hs as [Ha%negb_true_iff _]. by rewrite Ha.
Qed.

Lemma words_are_words : Forall word words.
Proof. repeat constructor; done. Qed.

(** ** Properties *)

(** The response to a single message, without cancellation. *)
Lemma Chat_single (e : TinyEngine) (now : Time) (rid : string) (req : ChatRequest) (m : Message) (ts : list string) :
  Forall word (vocab e) → Forall (λ t, t ∈ vocab e) ts → rqModel req ≠ "" → Messages req = [m] →
  stream_loop e (λ _, false) (λ _, false) 0 (Z.to_nat (default_max (MaxTokens req)))
    (newRand (rqModel req +:+ ":" +:+ Content m)) "" = Ret ts →
  ∃ finish, Chat e (λ _, None) now rid req =
    Ret (Ok (mk_Response ("chatcmpl-" +:+ rid) (rqModel req) now
      [mk_Choice 0 (mk_Message "assistant" (Join ts " ")) finish]
      (mk_Usage (Z.of_nat (length (Fields (Content m)))) (Z.of_nat (length ts))
         (Z.of_nat (length (Fields (Content m))) + Z.of_nat (length ts))))).
Proof.
  intros Hw Hv Hm Hms Hts. unfold Chat. rewrite bool_decide_false, Hms by done. cbn [last length].
  rewrite bool_decide_false by lia. cbv zeta. rewrite (generate_stream _ _ _ _ _ _ Hts). cbn [String.append go_bind].
  assert (Forall word ts) as Hwts.
  { eapply Forall_impl; [exact Hv|]. intros t Ht. by eapply Forall_forall in Hw. }
  rewrite TrimSpace_spaced, Fields_Join by done. by eexists.
Qed.

(** C34: The two ways of asking give the same completion: for a request that names
    a model and has a single message, and without cancellation, neither the
    stream nor the chat panics, the streamed tokens joined by spaces are the
    content of the chat response, which counts exactly them; there is at least
    one, at most the limit (64 when none is given), all are words of the
    vocabulary, and the generation ends at the limit or at the first token after
    which the text contains a stop word. *)
Theorem chat_matches_stream (now nano : Time) (rid : string) (req : ChatRequest) (m : Message) :
  rqModel req ≠ "" → Messages req = [m] →
  let e := NewTinyEngine nano in
  let limit := Z.to_nat (default_max (MaxTokens req)) in
  ∃ ts finish prompt, Stream e (λ _, false) (λ _, false) req = Ret (Ok ts) ∧
    Chat e (λ _, None) now rid req =
      Ret (Ok (mk_Response ("chatcmpl-" +:+ rid) (rqModel req) now
        [mk_Choice 0 (mk_Message "assistant" (Join ts " ")) finish]
        (mk_Usage prompt (Z.of_nat (length ts)) (prompt + Z.of_nat (length ts))))) ∧
    0 < length ts ≤ limit ∧ Forall (λ t, t ∈ words) ts ∧
    (∀ k, 0 < k < length ts → shouldStop (spaced (take k ts)) = false) ∧
    (length ts < limit → shouldStop (spaced ts) = true).
Proof.
  intros Hm Hms e limit.
  destruct (stream_ok e (λ _, false) (λ _, false) 0 limit (newRand (rqModel req +:+ ":" +:+ Content m)) "")
    as (ts & Hts & Hin); [apply NewTinyEngine_ok|].
  destruct (Chat_single e now rid req m ts) as [finish Hc]; [apply words_are_words|done..|].
  eexists ts, finish, _. split; [unfold Stream; rewrite bool_decide_false, Hms by done; cbn [last]; fold limit;
    by rewrite Hts|].
  split; [exact Hc|].
  assert (0 < limit) as Hl by (unfold limit, default_max; destruct (Z.leb_spec (MaxTokens req) 0); lia).
  destruct (stream_length _ _ _ _ _ _ Hts) as [H1 H2]. destruct (stream_stops _ _ _ _ _ _ Hts) as [H3 H4].
  split_and!; [by apply H2|done|exact Hin|exact H3|exact H4].
Qed.

Definition ex_req (prompt : string) (n : Z) : ChatRequest :=
  mk_ChatRequest "m" [mk_Message "user" prompt] f64_zero n false.

Lemma chat_matches_stream_witness : ∃ ts,
  Stream (NewTinyEngine 7) (λ _, false) (λ _, false) (ex_req "hi" 2) = Ret (Ok ts) ∧ 0 < length ts ≤ 2.
Proof.
  destruct (chat_matches_stream 0 7 "x" (ex_req "hi" 2) (mk_Message "user" "hi")) as (ts & _ & _ & H1 & _ & H2 & _).
  - discriminate.
  - reflexivity.
  - exists ts. split; [exact H1|exact H2].
Defined.

(** The registry keeps what is registered: a model without a name is refused
    and changes nothing; otherwise it is found under its name with the time of
    registration, its engine (when one is given) is the one resolved, other
    names are as before, and the listed names are the registered ones, each
    once, in increasing order. *)
Theorem registry_register {E} (tiny : TinyEngine → E) (now : Time) (nano : Z) (r r' : Registry) (m : Model)
    (eng : option E) (err : option error) :
  Register now r m eng = (r', err) →
  if bool_decide (mName m = "") then r' = r ∧ err ≠ None
  else err = None ∧
    Get r' (mName m) = Some (mk_Model (mName m) (Revision m) (Backend m) now) ∧
    (∀ e, eng = Some e → Resolve tiny nano r' (mName m) = e) ∧
    (eng = None → Resolve tiny nano r' (mName m) = Resolve tiny nano r (mName m)) ∧
    (∀ n, n ≠ mName m → Get r' n = Get r n ∧ Resolve tiny nano r' n = Resolve tiny nano r n) ∧
    (∀ n, n ∈ Names r' ↔ is_Some (Get r' n)) ∧ NoDup (Names r') ∧
    StronglySorted (λ a b, string_ltb b a = false) (Names r').
Proof.
  unfold Register. case_bool_decide as Hn; intros [= <- <-]; [done|].
  unfold Get, Resolve. cbn [models engines mName].
  split_and!; [done|by rewrite lookup_insert_eq|intros e ->; by rewrite lookup_insert_eq|by intros ->| | | |].
  - intros n Hne. rewrite lookup_insert_ne by done. split; [done|]. destruct eng; [|done].
    by rewrite lookup_insert_ne.
  - intros n. unfold Names. rewrite sort_slice_perm. cbn [models].
    rewrite list_elem_of_fmap. split.
    + intros ([k v] & -> & Hk%elem_of_map_to_list). by exists v.
    + intros [v Hv]. exists (n, v). split; [done|]. by apply elem_of_map_to_list.
  - unfold Names. rewrite sort_slice_perm. apply NoDup_fst_map_to_list.
  - apply (sort_slice_sorted _ (λ _, True)). by apply Forall_true.
Qed.

Lemma registry_register_witness :
  (Register 5 (NewRegistry (E := TinyEngine)) (mk_Model "tiny" "r1" "tiny" 0) None).2 = None.
Proof.
  pose proof (registry_register id 5 0 NewRegistry
    (Register 5 NewRegistry (mk_Model "tiny" "r1" "tiny" 0) None).1 (mk_Model "tiny" "r1" "tiny" 0) None None eq_refl) as H.
  exact (proj1 H).
Defined.

(** ** Where the engine departs from what its interface suggests *)

(** A request without messages panics. *)
Lemma Chat_no_messages_panics e ctx now rid req :
  rqModel req ≠ "" → Messages req = [] → Chat e ctx now rid req = Panic.
Proof. intros Hm Hms. unfold Chat. by rewrite bool_decide_false, Hms. Qed.

Definition finish_of (r : go (res Response)) : option string :=
  match r with Ret (Ok x) => FinishReason <$> head (Choices x) | _ => None end.

(** The finish reason is reversed: a completion that ended at a stop word says
    "length", one that was cut at the limit says "stop". *)
Lemma finish_reason_reversed :
  finish_of (Chat (NewTinyEngine 0) (λ _, None) 0 "x" (ex_req "hi" 0)) = Some "length" ∧
  finish_of (Chat (NewTinyEngine 0) (λ _, None) 0 "x" (ex_req "hi" 2)) = Some "stop".
Proof. split; vm_compute; reflexivity. Qed.

(** A stream sees the last message only, where a chat sees them all. *)
Lemma stream_ignores_history e ctx blocked model ms m t n b :
  Stream e ctx blocked (mk_ChatRequest model (ms ++ [m]) t n b) =
  Stream e ctx blocked (mk_ChatRequest model [m] t n b).
Proof. unfold Stream. cbn [Messages rqModel MaxTokens]. by rewrite last_snoc. Qed.
