(* ===== verification/Inference.v ===== *)
(** * Package inference: the OpenAI-compatible front-end

    Models internal/inference/inference.go over the registry of [Llm].  JSON's
    encoders and decoder and the quoting of a string are parameters; so are the
    clock and the context.  [Resolve] never gives a nil engine, so the branch
    that reports one is dead. *)

From S2P Require Import Prelude GoFloat Llm Api.

Record ChatMessage := mk_ChatMessage { cmRole : string; cmContent : string }.
Record ChatRequestBody := mk_ChatRequestBody {
  bModel : string; bMessages : list ChatMessage; bTemperature : float64; bMaxTokens : Z; bStream : bool;
}.
Record OChoice := mk_OChoice { oIndex : Z; oMessage : ChatMessage; oFinishReason : string }.
Record OUsage := mk_OUsage { oPromptTokens : Z; oCompletionTokens : Z; oTotalTokens : Z }.
Record ChatResponseBody := mk_ChatResponseBody {
  oID : string; oObject : string; oCreated : Z; oModel : string; oChoices : list OChoice; oUsage : OUsage;
}.
Record OModel := mk_OModel { omID : string; omObject : string; omCreated : Z; omOwnedBy : string }.
Record ModelsResponse := mk_ModelsResponse { mrObject : string; mrData : list OModel }.

(** What the router reads of a request. *)
Record HTTPRequest := mk_HTTPRequest {
  hMethod : string; hPath : string; hRequestID : string; hBody : string;
}.

Section Router.
(** The engines behind the registry. *)
Context {E : Type} (tiny : TinyEngine → E).
Context (eng_Chat : E → ChatRequest → go (res Llm.Response)).
Context (eng_Stream : E → ChatRequest → go (res (list string))).
(** The encodings. *)
Context (decode_body : string → res ChatRequestBody) (encode_response : ChatResponseBody → string).
Context (encode_models : ModelsResponse → string) (quote : string → string).
Context (encode_chunk : Z → Z → string → string → string).   (* nanoseconds, seconds, model, token *)
(** The clock, in nanoseconds and seconds, at the n-th reading. *)
Context (nano unix : nat → Z).

Definition NewRouter (r : Registry (E := E)) : Registry (E := E) := r.

Definition event (n : nat) (model tok : string) : string :=
  "data: " +:+ encode_chunk (nano n) (unix n) model tok +:+ line_break +:+ line_break.

(** [gone n]: the context is done when the n-th token arrives. *)
Fixpoint events (gone : nat → bool) (n : nat) (model : string) (toks : list string) : string :=
  match toks with
  | [] => "data: [DONE]" +:+ line_break +:+ line_break
  | t :: toks => if gone n then "" else event n model t +:+ events gone (S n) model toks
  end.

Definition streamChat (flusher : bool) (gone : nat → bool) (eng : E) (req : ChatRequest) : go Response :=
  if negb flusher then Ret (http_Error "streaming unsupported" 500)
  else
    go_bind (eng_Stream eng req) (λ toks,
      match toks with
      | Err e =>
          Ret (mk_Response 200 "text/event-stream"
            ("event: error" +:+ line_break +:+ "data: " +:+ quote e +:+ line_break +:+ line_break))
      | Ok toks => Ret (mk_Response 200 "text/event-stream" (events gone 0 (rqModel req) toks))
      end).

Definition llm_request (b : ChatRequestBody) : ChatRequest :=
  mk_ChatRequest (bModel b) ((λ m, mk_Message (cmRole m) (cmContent m)) <$> bMessages b)
    (bTemperature b) (bMaxTokens b) false.

Definition response_id (requestID : string) : string :=
  if bool_decide (requestID = "") then "chatcmpl-" +:+ pretty (nano 0) else "chatcmpl-" +:+ requestID.

(** A response without choices panics. *)
Definition chat_response (b : ChatRequestBody) (requestID : string) (r : Llm.Response) : go ChatResponseBody :=
  match Choices r with
  | [] => Panic
  | c :: _ =>
      Ret (mk_ChatResponseBody (response_id requestID) "chat.completion" (unix 0) (bModel b)
        [mk_OChoice 0 (mk_ChatMessage (Role (chMessage c)) (Content (chMessage c))) (FinishReason c)]
        (mk_OUsage (PromptTokens (rsUsage r)) (CompletionTokens (rsUsage r)) (TotalTokens (rsUsage r))))
  end.

Definition handleChat (flusher : bool) (gone : nat → bool) (fresh : Z) (reg : Registry (E := E)) (req : HTTPRequest) :
    go Response :=
  match decode_body (hBody req) with
  | Err e => Ret (http_Error e 400)
  | Ok b =>
      if bool_decide (bModel b = "") || bool_decide (length (bMessages b) = 0) then
        Ret (http_Error "model and messages required" 400)
      else
        let eng := Resolve tiny fresh reg (bModel b) in
        if bStream b then streamChat flusher gone eng (llm_request b)
        else
          go_bind (eng_Chat eng (llm_request b)) (λ r,
            match r with
            | Err e => Ret (http_Error e 500)
            | Ok r =>
                go_bind (chat_response b (hRequestID req) r) (λ out,
                  Ret (mk_Response 200 "application/json" (encode_response out +:+ line_break)))
            end)
  end.

Definition handleModels (reg : Registry (E := E)) : Response :=
  let data := imap (λ i n, mk_OModel n "model" (unix i) "minicloud") (Names reg) in
  mk_Response 200 "application/json" (encode_models (mk_ModelsResponse "list" data) +:+ line_break).

Definition ServeHTTP (flusher : bool) (gone : nat → bool) (fresh : Z) (reg : Registry (E := E)) (req : HTTPRequest) :
    go Response :=
  if bool_decide (hPath req = "/v1/models") && bool_decide (hMethod req = "GET") then Ret (handleModels reg)
  else if HasSuffix (hPath req) "/chat/completions" && bool_decide (hMethod req = "POST")
  then handleChat flusher gone fresh reg req
  else Ret (http_Error "404 page not found" 404).
End Router.

(** ** Properties: the router over the built-in engine *)

Section Tiny.
Context (decode_body : string → res ChatRequestBody) (encode_response : ChatResponseBody → string).
Context (encode_models : ModelsResponse → string) (quote : string → string).
Context (encode_chunk : Z → Z → string → string → string) (nano unix : nat → Z).
(** The context of a chat, and of a stream's goroutine. *)
Context (ctx : nat → option error) (sctx blocked : nat → bool) (now : Time) (rid : string).

Definition tiny_chat (e : TinyEngine) (req : ChatRequest) : go (res Llm.Response) := Chat e ctx now rid req.
Definition tiny_stream (e : TinyEngine) (req : ChatRequest) : go (res (list string)) := Stream e sctx blocked req.
Definition tiny_serve := ServeHTTP (E := TinyEngine) id tiny_chat tiny_stream decode_body encode_response
  encode_models quote encode_chunk nano unix.

Lemma last_cons_some {A} (x : A) l : ∃ y, last (x :: l) = Some y.
Proof. revert x. induction l as [|y l IH]; intros x; [by exists x|]. destruct (IH y) as [z Hz]. by exists z. Qed.

(** C26: The front-end answers every request.  With built-in engines that can
    sample, as every one that NewTinyEngine makes can (a vocabulary that is not
    empty and has fewer than 2^63 words), it does not panic, whatever the request,
    the registry of such engines and the moment of cancellation: neither for the
    message it indexes, which the guard on the messages keeps in range, nor for
    the word it draws.  The status is 200, 400, 404 or 500; a POST to
    /v1/chat/completions whose body does not decode, or names no model or no
    messages, gets status 400. *)
Theorem inference_total (flusher : bool) (gone : nat → bool) (fresh : Z) (reg : Registry (E := TinyEngine))
    (req : HTTPRequest) :
  map_Forall (λ _ e, engine_ok e) (engines reg) →
  ∃ resp, tiny_serve flusher gone fresh reg req = Ret resp ∧
    (rsCode resp = 200 ∨ rsCode resp = 400 ∨ rsCode resp = 404 ∨ rsCode resp = 500)%Z ∧
    (hPath req = "/v1/chat/completions" → hMethod req = "POST" →
     (match decode_body (hBody req) with Err _ => True | Ok b => bModel b = "" ∨ bMessages b = [] end) →
     rsCode resp = 400%Z).
Proof.
  intros Hreg. assert (∀ name, engine_ok (Resolve id fresh reg name)) as Heng.
  { intros name. unfold Resolve. destruct (engines reg !! name) as [e|] eqn:E; [by apply (Hreg _ _ E)|].
    apply NewTinyEngine_ok. }
  unfold tiny_serve, ServeHTTP.
  destruct (bool_decide (hPath req = "/v1/models") && bool_decide (hMethod req = "GET")) eqn:Hm.
  { eexists. split; [reflexivity|]. split; [by left|]. intros Hp. split_bools. congruence. }
  destruct (HasSuffix (hPath req) "/chat/completions" && bool_decide (hMethod req = "POST")) eqn:Hc.
  2:{ eexists. split; [reflexivity|]. split; [auto|]. intros Hp Hmt. rewrite Hp, Hmt in Hc. discriminate. }
  unfold handleChat. destruct (decode_body (hBody req)) as [b|e]; [|eexists; split; [reflexivity|auto]].
  destruct (bool_decide (bModel b = "") || bool_decide (length (bMessages b) = 0)) eqn:Hg.
  { eexists. split; [reflexivity|auto]. }
  split_bools. destruct (bMessages b) as [|c cs] eqn:Hms; [done|].
  assert (∃ m, last (Messages (llm_request b)) = Some m) as [m Hlast].
  { unfold llm_request. cbn [Messages]. rewrite Hms. apply last_cons_some. }
  assert (Hno : ∀ r, (bModel b = "" ∨ c :: cs = []) → rsCode r = 400%Z) by (intros r [?|?]; done).
  assert (rqModel (llm_request b) ≠ "") as Hmod by done.
  destruct (bStream b).
  - unfold streamChat. destruct flusher; cbn [negb]; [|eexists; split; [reflexivity|auto]].
    unfold tiny_stream, Stream. rewrite bool_decide_false, Hlast by done. cbv zeta.
    edestruct stream_ok as (ts & -> & _); [apply Heng|]. cbn [go_bind]. eexists. split; [reflexivity|auto].
  - unfold tiny_chat, Chat. rewrite bool_decide_false, Hlast by done. cbv zeta.
    edestruct generate_ok as ([out|er] & ->); [apply Heng|..]; cbn [go_bind]; [|eexists; split; [reflexivity|auto]].
    unfold chat_response. cbn [Choices go_bind]. eexists. split; [reflexivity|auto].
Qed.
End Tiny.

(** ** Examples *)

Definition ex_decode (s : string) : res ChatRequestBody :=
  if bool_decide (s = "ask") then Ok (mk_ChatRequestBody "m" [mk_ChatMessage "user" "hi"] f64_zero 3 false)
  else Err "unexpected end of JSON input".
Definition ex_serve (req : HTTPRequest) : go Response :=
  tiny_serve ex_decode (λ _, "{}") (λ _, "{}") (λ s, s) (λ _ _ _ _, "{}") (λ _, 1%Z) (λ _, 1%Z)
    (λ _, None) (λ _, false) (λ _, false) 0 "x" true (λ _, false) 5
    (mk_Registry ∅ {["m" := NewTinyEngine 3]}) req.

Lemma inference_total_witness :
  (∃ resp, ex_serve (mk_HTTPRequest "POST" "/v1/chat/completions" "" "ask") = Ret resp ∧ rsCode resp = 200%Z) ∧
  ∃ resp, ex_serve (mk_HTTPRequest "POST" "/v1/chat/completions" "" "{") = Ret resp ∧ rsCode resp = 400%Z.
Proof.
  assert (map_Forall (λ _ e, engine_ok e) (engines (mk_Registry ∅ {["m" := NewTinyEngine 3]}))) as Hreg
    by (apply map_Forall_singleton, NewTinyEngine_ok).
  split.
  - eexists. split; [vm_compute; reflexivity|reflexivity].
  - destruct (inference_total ex_decode (λ _, "{}") (λ _, "{}") (λ s, s) (λ _ _ _ _, "{}") (λ _, 1%Z) (λ _, 1%Z)
      (λ _, None) (λ _, false) (λ _, false) 0 "x" true (λ _, false) 5 (mk_Registry ∅ {["m" := NewTinyEngine 3]})
      (mk_HTTPRequest "POST" "/v1/chat/completions" "" "{") Hreg) as (resp & H1 & _ & H2).
    exists resp. split; [exact H1|]. apply H2; [reflexivity|reflexivity|exact I].
Defined.
