(* ===== verification/Http.v ===== *)
(** * HTTP between the clients and the API server

    What the clients of the platform (the SDK and the command line) use of
    net/http and net/url: building a request, sending it over a transport,
    reading the answer; and how the API server reads the same request: its path,
    its query parameters, its token and its JSON body.  The API's request
    structs get their decoders here, from the json tags of
    internal/apis/v1/api.go. *)

From S2P Require Import Prelude State Identity Api Json.

(** ** Requests of a client *)

(** [body]: the bytes of the reader, if there is one; [ctype]: the Content-Type
    header. *)
Record HTTPReq := mk_HTTPReq {
  hqMethod : string; hqURL : string; hqAuth : string; hqCType : string; hqBody : option string;
}.

(** Sending a request over a transport: the world after it, and the response or
    the error of [http.Client.Do]. *)
Abbreviation transport W := (W → HTTPReq → W * res Response).

(** A URL with a control character never parses. *)
Definition is_ctl (a : ascii) : bool := (code a <? 32)%N || (code a =? 127)%N.
Fixpoint has_ctl (s : string) : bool :=
  match s with "" => false | String a s => is_ctl a || has_ctl s end.

(** [net/url.Parse] accepts the string. *)
Class URLs := url_parses : string → bool.
Class URLLaws `{URLs} : Prop := url_no_ctl : ∀ u, url_parses u = true → has_ctl u = false.

(** [req, _ := http.NewRequest(...)]: on an unparsable URL [req] is nil, and its
    first use panics. *)
Definition NewRequest `{URLs} (method url : string) (body : option string) : go HTTPReq :=
  if url_parses url then Ret (mk_HTTPReq method url "" "" body) else Panic.

Definition set_auth (a : string) (r : HTTPReq) : HTTPReq :=
  mk_HTTPReq (hqMethod r) (hqURL r) a (hqCType r) (hqBody r).
Definition set_ctype (c : string) (r : HTTPReq) : HTTPReq :=
  mk_HTTPReq (hqMethod r) (hqURL r) (hqAuth r) c (hqBody r).

(** ** Query parameters, as the server parses them *)

Definition cut (c : ascii) (s : string) : string * string :=
  match SplitN2 c s with (a, Some b) => (a, b) | (a, None) => (a, "") end.

(** [url.QueryUnescape]. *)
Fixpoint QueryUnescape (s : string) : option string :=
  match s with
  | "" => Some ""
  | String a s1 =>
      if Ascii.eqb a "+" then String " " <$> QueryUnescape s1
      else if Ascii.eqb a "%" then
        match s1 with
        | String h (String l s3) =>
            match hex_val h, hex_val l with
            | Some h, Some l => String (ascii_of_N (16 * h + l)) <$> QueryUnescape s3
            | _, _ => None
            end
        | _ => None
        end
      else String a <$> QueryUnescape s1
  end.

(** [r.URL.Query().Get(key)]: a part with a semicolon or a bad escape is
    dropped. *)
Definition query_pair (part : string) : option (string * string) :=
  if string_In ";" part || bool_decide (part = "") then None
  else let '(k, v) := cut "=" part in
       match QueryUnescape k, QueryUnescape v with Some k, Some v => Some (k, v) | _, _ => None end.
Definition query_get (key raw : string) : string :=
  match List.find (λ kv, bool_decide (kv.1 = key)) (omap query_pair (Split "&" raw)) with
  | Some (_, v) => v
  | None => ""
  end.

(** The request the server's handlers get for a target, that is what follows the
    server's address in the URL.  The fragment is not sent.  (The paths of the
    clients have no escapes, so the path is taken as it is.) *)
Definition deliver (target : string) (r : HTTPReq) : Request :=
  let '(p, q) := cut "?" (cut "#" target).1 in
  mk_Request (hqMethod r) p (query_get "project_id" q) (hqAuth r) None (default "" (hqBody r)).

(** The transport to a server listening at [base].  A handler that panics drops
    the connection. *)
Definition serve_at {S} (base : string) (h : S → Request → go (S * Response)) : transport S := λ s r,
  if HasPrefix (hqURL r) base then
    match h s (deliver (string_drop (String.length base) (hqURL r)) r) with
    | Ret (s, resp) => (s, Ok resp)
    | Panic => (s, Err "EOF")
    end
  else (s, Err "connection refused").

(** ** The JSON of the API *)

Section Decoders.
(** The text of a decoder's error on a body. *)
Context (msg : string → error).

#[export] Instance login_json : FromJSON loginReq := decode_into true
  [("email", set_string (λ s r, mk_loginReq s (lgPassword r)));
   ("password", set_string (λ s r, mk_loginReq (lgEmail r) s))] msg (mk_loginReq "" "").

#[export] Instance user_json : FromJSON userReq := decode_into true
  [("email", set_string (λ s r, mk_userReq s (urDisplayName r) (urPassword r) (urAdmin r)));
   ("display_name", set_string (λ s r, mk_userReq (urEmail r) s (urPassword r) (urAdmin r)));
   ("password", set_string (λ s r, mk_userReq (urEmail r) (urDisplayName r) s (urAdmin r)));
   ("admin", set_bool (λ b r, mk_userReq (urEmail r) (urDisplayName r) (urPassword r) b))]
  msg (mk_userReq "" "" "" false).

#[export] Instance apikey_json : FromJSON apiKeyReq := decode_into true
  [("user_id", set_string (λ s r, mk_apiKeyReq s (arProjectID r) (arName r)));
   ("project_id", set_string (λ s r, mk_apiKeyReq (arUserID r) s (arName r)));
   ("name", set_string (λ s r, mk_apiKeyReq (arUserID r) (arProjectID r) s))] msg (mk_apiKeyReq "" "" "").

#[export] Instance project_json : FromJSON projectReq := decode_into true
  [("id", set_string (λ s r, mk_projectReq s (prDescription r) (prQuotaCPU r) (prQuotaMem r) (prQuotaObj r)));
   ("description", set_string (λ s r, mk_projectReq (prID r) s (prQuotaCPU r) (prQuotaMem r) (prQuotaObj r)));
   ("quota_cpu_millicores", set_int (λ z r, mk_projectReq (prID r) (prDescription r) z (prQuotaMem r) (prQuotaObj r)));
   ("quota_mem_bytes", set_int (λ z r, mk_projectReq (prID r) (prDescription r) (prQuotaCPU r) z (prQuotaObj r)));
   ("quota_object_bytes", set_int (λ z r, mk_projectReq (prID r) (prDescription r) (prQuotaCPU r) (prQuotaMem r) z))]
  msg (mk_projectReq "" "" 0 0 0).
End Decoders.

(** A [map[string]string]. *)
#[export] Instance string_map_to_json : ToJSON (list (string * string)) := λ kvs, Marshal (string_map_json kvs).

(** ** Lemmas *)

(** What decodes after encoding: the parse is the value. *)
Lemma decode_into_Marshal {A} strict fields msg (zero x : A) v rest :
  wf v → stops rest = true → decode_struct strict fields zero v = (x, true) →
  decode_into strict fields msg zero (Marshal v +:+ rest) = Ok x.
Proof. intros Hv Hr Hd. unfold decode_into. by rewrite Decode_Marshal, Hd. Qed.

Definition plain (a : ascii) : bool :=
  negb (Ascii.eqb a "+" || Ascii.eqb a "%" || Ascii.eqb a "&" || Ascii.eqb a ";" || Ascii.eqb a "#").
(** Text that needs no escape in a query. *)
Fixpoint plain_text (s : string) : bool :=
  match s with "" => true | String a s => plain a && plain_text s end.

Lemma plain_In c s : plain_text s = true → plain c = false → string_In c s = false.
Proof.
  intros Hs Hc. induction s as [|a s IH]; [done|]. cbn in Hs |- *. split_bools.
  destruct (Ascii.eqb_spec a c) as [->|]; [congruence|]. by apply IH.
Qed.

Lemma QueryUnescape_plain s : plain_text s = true → QueryUnescape s = Some s.
Proof.
  induction s as [|a s IH]; [done|]. cbn [plain_text QueryUnescape]. intros [Ha Hs]%andb_true_iff.
  unfold plain in Ha. destruct (Ascii.eqb a "+"), (Ascii.eqb a "%"); try done. by rewrite IH.
Qed.

Lemma cut_absent c s : string_In c s = false → cut c s = (s, "").
Proof. intros Hc. unfold cut. by rewrite SplitN2_none. Qed.

Lemma cut_present c a b : string_In c a = false → cut c (a +:+ String c b) = (a, b).
Proof. intros Hc. unfold cut. rewrite (proj2 (SplitN2_some c _ a b)); [done|]. done. Qed.

(** A plain project ID reaches the handler as it is. *)
Lemma query_get_plain pid : plain_text pid = true → query_get "project_id" ("project_id=" +:+ pid) = pid.
Proof.
  intros Hp. unfold query_get. rewrite Split_no_sep by by rewrite string_In_app, (plain_In "&" pid).
  cbn [omap list_omap]. unfold query_pair.
  rewrite string_In_app, (plain_In ";" pid) by done. cbn [orb]. rewrite bool_decide_false by done. cbv iota.
  change ("project_id=" +:+ pid) with ("project_id" +:+ String "=" pid).
  rewrite cut_present by done. cbn [orb]. change (QueryUnescape "project_id") with (Some "project_id").
  rewrite QueryUnescape_plain by done. done.
Qed.
