(* ===== verification/Sdk.v ===== *)
(** * Package sdk: the Go client of the REST API

    Models pkg/sdk/go/client.go over the transport of [Http], and composes it
    with the API server of [Api]: what the client sends is what the server's
    handlers get, and what they answer is what the client returns.  The value
    decoded into the caller's [out] is a result; [dec] is its decoder. *)

From S2P Require Import Prelude State Identity Api Json Base64 Http.

Record Client := mk_Client { BaseURL : string; Token : string }.

Definition New (baseURL : string) : Client := mk_Client baseURL "".

Definition set_Token (t : string) (c : Client) : Client := mk_Client (BaseURL c) t.

Section Client.
Context `{URLs} {W : Type} (Do : transport W) (msg : string → error).

Definition decode_token (body : string) : res string :=
  match Decode body with
  | None => Err (msg body)
  | Some v => let '(m, ok) := decode_string_map v in if ok : bool then Ok (default "" (m !! "token")) else Err (msg body)
  end.

Definition Login (w : W) (c : Client) (email password : string) : go (W * Client * res string) :=
  let body := Marshal (string_map_json [("email", email); ("password", password)]) in
  go_bind (NewRequest "POST" (BaseURL c +:+ "/v1/login") (Some body)) (λ req,
    match Do w (set_ctype "application/json" req) with
    | (w, Err e) => Ret (w, c, Err e)
    | (w, Ok resp) =>
        if negb (rsCode resp =? 200)%Z then Ret (w, c, Err ("login: " +:+ rsBody resp))
        else match decode_token (rsBody resp) with
             | Err e => Ret (w, c, Err e)
             | Ok tok => Ret (w, set_Token tok c, Ok tok)
             end
    end).

(** [do]: [None] for a nil [out]. *)
Definition do_ {A} (w : W) (c : Client) (method path : string) (body : option json) (out : option (string → res A)) :
    go (W * res (option A)) :=
  go_bind (NewRequest method (BaseURL c +:+ path) (Marshal <$> body)) (λ req,
    let req := if negb (bool_decide (Token c = "")) then set_auth ("Bearer " +:+ Token c) req else req in
    let req := match body with Some _ => set_ctype "application/json" req | None => req end in
    match Do w req with
    | (w, Err e) => Ret (w, Err e)
    | (w, Ok resp) =>
        if (400 <=? rsCode resp)%Z
        then Ret (w, Err (method +:+ " " +:+ path +:+ ": " +:+ pretty (rsCode resp) +:+ " " +:+ rsBody resp))
        else match out with
             | None => Ret (w, Ok None)
             | Some dec => match dec (rsBody resp) with Ok x => Ret (w, Ok (Some x)) | Err e => Ret (w, Err e) end
             end
    end).

(** A call with a nil [out] returns only its error. *)
Definition error_of {A} (x : go (W * res A)) : go (W * option error) :=
  go_bind x (λ '(w, r), Ret (w, match r with Ok _ => None | Err e => Some e end)).

Definition CreateProject (w : W) (c : Client) (id desc : string) : go (W * option error) :=
  error_of (A := option unit)
    (do_ w c "POST" "/v1/projects" (Some (JMap [("id", JStr id); ("description", JStr desc)])) None).

(** [w[id] == nil]: the key is absent or holds nil. *)
Definition id_missing (m : gmap string json) : bool :=
  match m !! "id" with None | Some JNull => true | _ => false end.

Definition CreateWorkload (w : W) (c : Client) (projectID : string) (m : gmap string json) : go (W * option error) :=
  if id_missing m then Ret (w, Some "sdk: workload id required")
  else error_of (A := option unit)
    (do_ w c "POST" ("/v1/workloads?project_id=" +:+ projectID) (Some (JMap (map_to_list m))) None).

Definition ListWorkloads {A} (w : W) (c : Client) (projectID : string) (out : option (string → res A)) :
    go (W * res (option A)) :=
  do_ w c "GET" ("/v1/workloads?project_id=" +:+ projectID) None out.

Definition CreateBucket (w : W) (c : Client) (id : string) : go (W * option error) :=
  error_of (A := option unit) (do_ w c "POST" "/v1/buckets" (Some (JMap [("id", JStr id)])) None).

(** No token is sent, and the status is not looked at. *)
Definition Chat {A} (w : W) (c : Client) (model prompt : string) (out : option (string → res A)) :
    go (W * res (option A)) :=
  let body := Marshal (JMap [("model", JStr model);
    ("messages", JArr [string_map_json [("role", "user"); ("content", prompt)]])]) in
  go_bind (NewRequest "POST" (BaseURL c +:+ "/v1/chat/completions") (Some body)) (λ req,
    match Do w (set_ctype "application/json" req) with
    | (w, Err e) => Ret (w, Err e)
    | (w, Ok resp) =>
        match out with
        | None => Ret (w, Ok None)
        | Some dec => match dec (rsBody resp) with Ok x => Ret (w, Ok (Some x)) | Err e => Ret (w, Err e) end
        end
    end).
End Client.

(** ** The client against the server *)

Section EndToEnd.
Context `{Crypto} {S : Type} `{UserStore S, APIKeyStore S}.
Context (key : string) (msg : string → error).
Context `{ToJSON User, ToJSON (list User), ToJSON (list APIKey)}.
Context `{ToJSON Project, ToJSON (list Project), ProjectStore S}.
Context (CreateProject_ : S → Project → S * option error).
Context {Deployment Network Volume Secret ConfigMap Bucket Alert Model Object : Type}.
Context `{Resource S Workload, FromJSON Workload, ToJSON Workload, ToJSON (list Workload)}.
Context `{Resource S Service, FromJSON Service, ToJSON Service, ToJSON (list Service)}.
Context `{Resource S Deployment, FromJSON Deployment, ToJSON Deployment, ToJSON (list Deployment)}.
Context `{Resource S Network, FromJSON Network, ToJSON Network, ToJSON (list Network)}.
Context `{Resource S Volume, FromJSON Volume, ToJSON Volume, ToJSON (list Volume)}.
Context `{Resource S Secret, FromJSON Secret, ToJSON Secret, ToJSON (list Secret)}.
Context `{Resource S ConfigMap, FromJSON ConfigMap, ToJSON ConfigMap, ToJSON (list ConfigMap)}.
Context `{Resource S Bucket, FromJSON Bucket, ToJSON Bucket, ToJSON (list Bucket)}.
Context `{Resource S Alert, FromJSON Alert, ToJSON Alert, ToJSON (list Alert)}.
Context `{NodeStore S, ToJSON (list Node), ToJSON (list Model), ToJSON Object}.
Context (ListModels : S → res (list Model)).
Context (GetObject : S → string → string → res Object) (DeleteObject : S → string → string → S * option error).

#[local] Instance login_req : FromJSON loginReq := login_json msg.
#[local] Instance user_req : FromJSON userReq := user_json msg.
#[local] Instance apikey_req : FromJSON apiKeyReq := apikey_json msg.
#[local] Instance project_req : FromJSON projectReq := project_json msg.

(** The server: the random draws of the requests are fixed. *)
Definition api (now : Time) (rid salt bytes : string) : S → Request → go (S * Response) :=
  Routes (Deployment := Deployment) (Network := Network) (Volume := Volume) (Secret := Secret)
    (ConfigMap := ConfigMap) (Bucket := Bucket) (Alert := Alert) (Model := Model) (Object := Object)
    key now CreateProject_ ListModels GetObject DeleteObject rid salt bytes.

Context `{URLs} (base : string) (rid salt bytes : string).
Definition server (now : Time) : transport S := serve_at base (api now rid salt bytes).

(** A request to the server's address. *)
Lemma server_at now target r s :
  hqURL r = base +:+ target →
  server now s r = match api now rid salt bytes s (deliver target r) with
               | Ret (s, resp) => (s, Ok resp)
               | Panic => (s, Err "EOF")
               end.
Proof. intros Hu. unfold server, serve_at. by rewrite Hu, HasPrefix_app, string_drop_app. Qed.

Lemma decode_login_body email password rest :
  utf8 email → utf8 password → stops rest = true →
  login_req (Marshal (string_map_json [("email", email); ("password", password)]) +:+ rest) = Ok (mk_loginReq email password).
Proof.
  intros He Hp Hr. apply decode_into_Marshal; [|done|reflexivity].
  apply wf_JMap. repeat constructor; cbn [fst snd]; try done; by apply all_single_utf8.
Qed.

Lemma decode_project_body id desc rest :
  utf8 id → utf8 desc → stops rest = true →
  project_req (Marshal (JMap [("id", JStr id); ("description", JStr desc)]) +:+ rest) = Ok (mk_projectReq id desc 0 0 0).
Proof.
  intros He Hp Hr. apply decode_into_Marshal; [|done|reflexivity].
  apply wf_JMap. repeat constructor; cbn [fst snd]; try done; by apply all_single_utf8.
Qed.

Lemma decode_token_body tok rest :
  utf8 tok → stops rest = true → decode_token msg (Marshal (string_map_json [("token", tok)]) +:+ rest) = Ok tok.
Proof.
  intros Ht Hr. unfold decode_token. rewrite Decode_Marshal; [reflexivity| |done].
  apply wf_JMap. repeat constructor; cbn [fst snd]; try done; by apply all_single_utf8.
Qed.

Lemma sdk_login now s c email password :
  BaseURL c = base → url_parses (base +:+ "/v1/login") = true → utf8 email → utf8 password →
  Login (server now) msg s c email password =
    match Identity.Login key now s email password with
    | Err e => Ret (s, c, Err ("login: " +:+ e +:+ nl))
    | Ok (tok, _, _) =>
        match decode_token msg (Marshal (string_map_json [("token", tok)]) +:+ nl) with
        | Err e => Ret (s, c, Err e)
        | Ok tok => Ret (s, set_Token tok c, Ok tok)
        end
    end.
Proof.
  intros Hb Hu He Hp. unfold Login, NewRequest. rewrite Hb, Hu. cbn [go_bind].
  rewrite (server_at now "/v1/login") by done.
  change (deliver "/v1/login" _) with (mk_Request "POST" "/v1/login" "" "" None
    (Marshal (string_map_json [("email", email); ("password", password)]))).
  unfold api, Routes. cbn [rqPath find_route route_table]. rewrite bool_decide_true by done.
  unfold handleLogin. cbn [rqMethod]. rewrite bool_decide_true by done. cbn [negb].
  unfold readJSON. cbn [rqBody]. 
  pose proof (decode_login_body email password "" He Hp eq_refl) as Hd. rewrite string_app_nil_r in Hd.
  change (from_json ?b) with (login_req b). rewrite Hd. cbn [lgEmail lgPassword].
  destruct (Identity.Login key now s email password) as [[[tok exp] u]|e]; reflexivity.
Qed.

Lemma admin_passes now (h : S → Request → go (S * Response)) s r u :
  bearer r ≠ "" → VerifyToken key now s (bearer r) = Ok u → usAdmin u = true →
  authRequired key now h s r = h s r.
Proof.
  intros Hb Hv Hu. unfold authRequired. cbv zeta. rewrite bool_decide_false, Hv by done. cbn [go_bind].
  by rewrite (proj2 (Authorize_some u _ _)) by auto.
Qed.

Lemma bearer_token m p q tok b : bearer (mk_Request m p q ("Bearer " +:+ tok) None b) = tok.
Proof. unfold bearer. cbn [rqAuthorization]. by rewrite HasPrefix_app, TrimPrefix_app. Qed.

(** What the client makes of the store's answer to a new project. *)
Definition project_answer (err : option error) : option error :=
  match err with Some e => Some ("POST /v1/projects: 409 " +:+ e +:+ nl) | None => None end.

Lemma sdk_create_project now s s' c u id desc err :
  BaseURL c = base → url_parses (base +:+ "/v1/projects") = true → utf8 id → utf8 desc → id ≠ "" →
  Token c ≠ "" → VerifyToken key now s (Token c) = Ok u → usAdmin u = true →
  CreateProject_ s (mk_Project (mk_Base id "" id) desc 0 0 0) = (s', err) →
  CreateProject (server now) s c id desc = Ret (s', project_answer err).
Proof.
  intros Hb Hu Hid Hdesc Hne Ht Hv Ha Hc. unfold CreateProject, error_of, do_, NewRequest.
  rewrite Hb, Hu. cbn [go_bind fmap option_fmap option_map]. rewrite bool_decide_false by done. cbn [negb].
  rewrite (server_at now "/v1/projects") by done.
  change (deliver "/v1/projects" _) with (mk_Request "POST" "/v1/projects" "" ("Bearer " +:+ Token c) None
    (Marshal (JMap [("id", JStr id); ("description", JStr desc)]))).
  unfold api, Routes. cbn [rqPath].
  change (find_route _ "/v1/projects") with (Some (authRequired key now (handleProjects CreateProject_))).
  cbv iota beta. rewrite (admin_passes now _ s _ u) by (by rewrite bearer_token || done).
  unfold handleProjects. cbn [rqMethod]. rewrite bool_decide_false, bool_decide_true by done.
  unfold readJSON. cbn [rqBody]. pose proof (decode_project_body id desc "" Hid Hdesc eq_refl) as Hd.
  rewrite string_app_nil_r in Hd. change (from_json ?b) with (project_req b). rewrite Hd.
  cbn [prID prDescription prQuotaCPU prQuotaMem prQuotaObj]. rewrite bool_decide_false, Hc by done. by destruct err.
Qed.

Lemma signToken_nonempty uid exp : signToken key uid exp ≠ "".
Proof. unfold signToken. cbv zeta. by destruct (EncodeToString true (Marshal _)). Qed.

Lemma signToken_utf8 uid exp : utf8 (signToken key uid exp).
Proof.
  assert (∀ x, utf8 (EncodeToString true x)) by (intros; apply all_single_utf8, encode_single).
  unfold signToken. cbv zeta. apply utf8_app; [done|]. by apply utf8_app; [apply all_single_utf8|].
Qed.

(** A token until it expires. *)
Lemma VerifyToken_later now now' (s : S) uid :
  utf8 uid → in_i64 (Unix (time_Add now (24 * hour))) →
  (now ≤ now' ≤ time_Add now (24 * hour))%Z →
  VerifyToken key now' s (signToken key uid (time_Add now (24 * hour))) =
    match GetUser s uid with Err _ => Err ErrUnauthorized | Ok u => Ok u end.
Proof.
  intros Huid Hin Hnow. rewrite VerifyToken_sign by done.
  destruct (Z.ltb_spec (Unix (time_Add now (24 * hour))) (Unix now')) as [Hlt|_]; [|done]. exfalso.
  unfold Unix in Hlt. pose proof (Z.div_le_mono now' (time_Add now (24 * hour)) 1000000000). lia.
Qed.

(** C37: The client against the server, from the password to the stored project,
    for texts in UTF-8 and a server address under which the two URLs parse.
    When the server does not know the email, or the password is wrong, [Login]
    returns the server's message, store and client as they were (a token the
    client had stays).  When the password is that of the user with the email
    (whose ID is UTF-8, at a time whose seconds 24 hours later fit in 64 bits),
    [Login] returns a token and keeps it in the client, leaving the store alone.
    With that token, at any time until it expires 24 hours later, and whatever
    the store is by then, as long as the user is still in it and is an
    administrator, [CreateProject] with an ID asks the store to create exactly
    the project asked for: when the store accepts it there is no error, and when
    it refuses, the error is the status 409 with the store's message. *)
Theorem login_then_create_project (now : Time) (s : S) (c : Client) (email password id desc : string) :
  BaseURL c = base → url_parses (base +:+ "/v1/login") = true → url_parses (base +:+ "/v1/projects") = true →
  utf8 email → utf8 password → utf8 id → utf8 desc → id ≠ "" →
  (match FindUserByEmail s email with Err _ => True | Ok u => VerifyPassword u password ≠ None end →
   Login (server now) msg s c email password = Ret (s, c, Err ("login: " +:+ ErrInvalidCredentials +:+ nl))) ∧
  (∀ u, FindUserByEmail s email = Ok u → VerifyPassword u password = None → utf8 (usID u) →
   in_i64 (Unix (time_Add now (24 * hour))) →
   ∃ tok, Login (server now) msg s c email password = Ret (s, set_Token tok c, Ok tok) ∧
     ∀ now' s1 s2 u1 err, (now ≤ now' ≤ time_Add now (24 * hour))%Z →
       GetUser s1 (usID u) = Ok u1 → usAdmin u1 = true →
       CreateProject_ s1 (mk_Project (mk_Base id "" id) desc 0 0 0) = (s2, err) →
       CreateProject (server now') s1 (set_Token tok c) id desc = Ret (s2, project_answer err)).
Proof.
  intros Hb Hul Hup He Hp Hid Hdesc Hne. split.
  - intros Hbad. rewrite sdk_login by done. unfold Identity.Login.
    destruct (FindUserByEmail s email) as [u|]; [|done]. by destruct (VerifyPassword u password).
  - intros u Hf Hpw Huid Hin. exists (signToken key (usID u) (time_Add now (24 * hour))). split.
    + rewrite sdk_login by done. unfold Identity.Login. rewrite Hf, Hpw. cbv zeta.
      rewrite decode_token_body; [done| |done]. apply signToken_utf8.
    + intros now' s1 s2 u1 err Hnow Hg Ha Hc. eapply sdk_create_project; try done.
      cbn [set_Token Token]. by rewrite VerifyToken_later, Hg.
Qed.

(** A user who may not write passes the guard with a GET. *)
Lemma reader_passes now (h : S → Request → go (S * Response)) s r u :
  bearer r ≠ "" → VerifyToken key now s (bearer r) = Ok u → rqMethod r = "GET" →
  authRequired key now h s r = h s r.
Proof.
  intros Hb Hv Hm. unfold authRequired. cbv zeta. rewrite bool_decide_false, Hv, Hm by done. cbn [go_bind].
  change (verbFor "GET") with "get". by rewrite (proj2 (Authorize_some u _ _)) by auto.
Qed.

Lemma deliver_project r path pid :
  plain_text pid = true → string_In "#" path = false → string_In "?" path = false →
  deliver (path +:+ "?project_id=" +:+ pid) r =
    mk_Request (hqMethod r) path pid (hqAuth r) None (default "" (hqBody r)).
Proof.
  intros Hp Hf Hq. unfold deliver. rewrite (cut_absent "#").
  - cbn [fst]. change (path +:+ "?project_id=" +:+ pid) with (path +:+ String "?" ("project_id=" +:+ pid)).
    rewrite (cut_present "?") by done. by rewrite query_get_plain.
  - rewrite !string_In_app, Hf. cbn. by apply plain_In.
Qed.

(** Listing the workloads of a project whose ID needs no escaping: for
    every user with a valid token the client gets what the store lists for that
    project, decoded into the caller's variable, and an error with the status
    and the server's message when the listing or the decoding fails; the store
    is not changed. *)
Theorem list_workloads_of_project {A} (now : Time) (s : S) (c : Client) (u : User) (pid : string) (dec : string → res A) :
  BaseURL c = base → url_parses (base +:+ "/v1/workloads?project_id=" +:+ pid) = true →
  plain_text pid = true → pid ≠ "" → Token c ≠ "" → VerifyToken key now s (Token c) = Ok u →
  ListWorkloads (server now) s c pid (Some dec) =
    Ret (s, match res_list (A := Workload) s pid with
            | Err e => Err ("GET /v1/workloads?project_id=" +:+ pid +:+ ": 500 " +:+ e +:+ nl)
            | Ok xs => match dec (to_json xs +:+ nl) with Ok x => Ok (Some x) | Err e => Err e end
            end).
Proof.
  intros Hb Hu Hp Hne Ht Hv. unfold ListWorkloads, do_, NewRequest. rewrite Hb.
  change ("/v1/workloads?project_id=" +:+ pid) with ("/v1/workloads" +:+ "?project_id=" +:+ pid) in *.
  rewrite Hu. cbn [go_bind fmap option_fmap option_map]. rewrite bool_decide_false by done. cbn [negb].
  rewrite (server_at now ("/v1/workloads" +:+ "?project_id=" +:+ pid)) by done.
  rewrite deliver_project by done. cbn [hqMethod hqAuth hqBody set_auth default].
  unfold api, Routes. cbn [rqPath].
  change (find_route _ "/v1/workloads") with (Some (authRequired key now (handleWorkloads (S := S)))).
  cbv iota beta. rewrite (reader_passes now _ s _ u) by (by rewrite bearer_token || done).
  unfold handleWorkloads, strict_project_handler. cbn [rqMethod rqProjectID].
  rewrite bool_decide_false, bool_decide_true by done.
  destruct (res_list s pid) as [xs|e]; cbn; [by destruct (dec _)|reflexivity].
Qed.
End EndToEnd.

(** ** What the client does not do *)

(** The project ID is not escaped: the server sees another project, and lists
    that one. *)
Lemma unescaped_project r :
  rqProjectID (deliver "/v1/workloads?project_id=team&ops" r) = "team" ∧
  rqProjectID (deliver "/v1/workloads?project_id=a+b" r) = "a b" ∧
  rqProjectID (deliver "/v1/workloads?project_id=50%" r) = "".
Proof. by split_and!. Qed.

(** The error of [NewRequest] is dropped: an ID with a control character makes
    the client panic. *)
Lemma control_character_panics `{URLs, !URLLaws} {W A} (Do : transport W) (w : W) c id (out : option (string → res A)) :
  has_ctl id = true → ListWorkloads Do w c id out = Panic.
Proof.
  intros Hc. unfold ListWorkloads, do_, NewRequest. destruct (url_parses _) eqn:Hu; [|done].
  apply url_no_ctl in Hu. exfalso. assert (∀ a b, has_ctl b = true → has_ctl (a +:+ b) = true) as Happ.
  { intros a b Hb. induction a as [|x a IH]; [done|]. cbn. by rewrite IH, orb_true_r. }
  rewrite Happ in Hu; [done|]. by apply (Happ "/v1/workloads?project_id=").
Qed.

(** A chat that the server refuses is no error when the caller wants no value. *)
Lemma chat_ignores_status `{URLs} {W A} (Do : transport W) (w w' : W) c model prompt code ct body :
  url_parses (BaseURL c +:+ "/v1/chat/completions") = true →
  (∀ r, Do w r = (w', Ok (mk_Response code ct body))) →
  Chat (A := A) Do w c model prompt None = Ret (w', Ok None).
Proof. intros Hu Hd. unfold Chat, NewRequest. rewrite Hu. cbn [go_bind]. by rewrite Hd. Qed.

(** ** Examples *)

(** A store of users and projects. *)
Record ex_cloud := mk_ex_cloud { xc_users : list User; xc_projects : list Project }.

#[local] Existing Instance xa_crypto.
Definition found {A} (x : option A) : res A := match x with Some x => Ok x | None => Err not_found end.
#[local] Instance xc_store : UserStore ex_cloud := {|
  FindUserByEmail s e := found (List.find (λ u, bool_decide (usEmail u = e)) (xc_users s));
  GetUser s id := found (List.find (λ u, bool_decide (usID u = id)) (xc_users s));
  ListUsers s := Ok (xc_users s);
  CreateUser_ s u := (mk_ex_cloud (u :: xc_users s) (xc_projects s), None);
|}.
#[local] Instance xc_keys : APIKeyStore ex_cloud := {| ListAPIKeys _ := Ok []; CreateAPIKey s _ := (s, None) |}.
#[local] Instance xc_project_store : ProjectStore ex_cloud := {| ListProjects s := Ok (xc_projects s) |}.
#[local] Instance xc_nodes : NodeStore ex_cloud := {|
  ListNodes _ := Ok []; GetNode _ _ := Err not_found; UpsertNode s _ := (s, None);
|}.
#[local] Instance xc_json {A} : ToJSON A | 10 := λ _, "{}".
#[local] Instance xc_nojson {A} : FromJSON A | 10 := λ _, Err "unexpected EOF".
#[local] Instance xc_resource {A} : Resource ex_cloud A | 10 := {|
  res_base _ := mk_Base "" "" ""; res_set_base _ x := x; res_list _ p := Ok []; res_create s _ := (s, Some "unsupported");
|}.
Definition xc_create (s : ex_cloud) (p : Project) : ex_cloud * option error :=
  (mk_ex_cloud (xc_users s) (p :: xc_projects s), None).
#[local] Instance xc_urls : URLs := λ u, negb (has_ctl u).

Definition xc_admin : User := mk_User (mk_Base "usr_1" "" "Ann") "ann@x" "Ann" true "hpw".
Definition xc_start : ex_cloud := mk_ex_cloud [xc_admin] [].
Definition xc_server (now : Time) : transport ex_cloud :=
  server (S := ex_cloud) (Deployment := unit) (Network := unit) (Volume := unit) (Secret := unit)
    (ConfigMap := unit) (Bucket := unit) (Alert := unit) (Model := unit) (Object := unit)
    "k" id xc_create (λ _, Ok []) (λ _ _ _, Err "not found") (λ s _ _, (s, None)) "http://h" "r" "s" "b" now.

#[local] Instance xc_crypto_laws : CryptoLaws.
Proof.
  split.
  - intros salt p h [= <-]. cbn. by rewrite bool_decide_true.
  - by intros salt p h [= <-].
Qed.

Definition xc_client : Client := New "http://h".
Definition xc_done : ex_cloud := mk_ex_cloud [xc_admin] [mk_Project (mk_Base "web" "" "web") "the site" 0 0 0].

Lemma login_then_create_project_witness :
  (∃ tok, Login (xc_server 0) id xc_start xc_client "ann@x" "pw" = Ret (xc_start, set_Token tok xc_client, Ok tok) ∧
     CreateProject (xc_server second) xc_start (set_Token tok xc_client) "web" "the site" = Ret (xc_done, None)) ∧
  Login (xc_server 0) id xc_start xc_client "ann@x" "wrong" =
    Ret (xc_start, xc_client, Err ("login: " +:+ ErrInvalidCredentials +:+ nl)).
Proof.
  assert (Hx : ∀ s, all_single s = true → utf8 s) by exact all_single_utf8.
  split.
  - destruct (login_then_create_project (S := ex_cloud) (Deployment := unit) (Network := unit) (Volume := unit)
      (Secret := unit) (ConfigMap := unit) (Bucket := unit) (Alert := unit) (Model := unit) (Object := unit)
      "k" id xc_create (λ _, Ok []) (λ _ _ _, Err "not found") (λ s _ _, (s, None)) "http://h" "r" "s" "b"
      0 xc_start xc_client "ann@x" "pw" "web" "the site") as [_ Hok];
      [done|done|done|by apply Hx|by apply Hx|by apply Hx|by apply Hx|done|].
    destruct (Hok xc_admin) as (tok & Hl & Hc);
      [done|done|by apply Hx|unfold in_i64; vm_compute; split; congruence|].
    exists tok. split; [exact Hl|].
    refine (Hc second xc_start xc_done xc_admin None _ eq_refl eq_refl eq_refl). vm_compute. split; congruence.
  - destruct (login_then_create_project (S := ex_cloud) (Deployment := unit) (Network := unit) (Volume := unit)
      (Secret := unit) (ConfigMap := unit) (Bucket := unit) (Alert := unit) (Model := unit) (Object := unit)
      "k" id xc_create (λ _, Ok []) (λ _ _ _, Err "not found") (λ s _ _, (s, None)) "http://h" "r" "s" "b"
      0 xc_start xc_client "ann@x" "wrong" "web" "the site") as [Hbad _];
      [done|done|done|by apply Hx|by apply Hx|by apply Hx|by apply Hx|done|].
    apply Hbad. done.
Defined.

Lemma list_workloads_of_project_witness :
  ListWorkloads (xc_server 0) xc_start (set_Token (signToken "k" "usr_1" (10 ^ 20)) xc_client) "web" (Some (λ b, Ok b)) =
    Ret (xc_start, Ok (Some ("{}" +:+ nl))).
Proof.
  exact (list_workloads_of_project (S := ex_cloud) (Deployment := unit) (Network := unit) (Volume := unit)
    (Secret := unit) (ConfigMap := unit) (Bucket := unit) (Alert := unit) (Model := unit) (Object := unit)
    "k" id xc_create (λ _, Ok []) (λ _ _ _, Err "not found") (λ s _ _, (s, None)) "http://h" "r" "s" "b"
    0 xc_start (set_Token (signToken "k" "usr_1" (10 ^ 20)) xc_client) xc_admin "web" (λ b, Ok b)
    eq_refl eq_refl eq_refl (λ H, match H with end) (signToken_nonempty "k" "usr_1" (10 ^ 20)) eq_refl).
Defined.
