(* ===== verification/Flag.v ===== *)
(** * Package flag, as far as the commands use it

    Go's [flag.FlagSet] with string, bool and integer flags: [parse_args] is
    [FlagSet.Parse], one round of its loop per argument (two when a flag takes
    its value from the next argument), with the values read by package strconv.

    [parse_rendered]: flags written before the positional arguments are read
    back; [flags_after_word]: after the first positional argument nothing is. *)

From S2P Require Import Prelude Json.

(** ** strconv *)

Inductive num_error := Syntax | Range.
Definition num_result := (Z + num_error)%type.

Definition lower_code (a : ascii) : N := if between 65 90 a then (code a + 32)%N else code a.
Definition digit_of (a : ascii) : option Z :=
  if is_digit a then Some (Z.of_N (code a) - 48)%Z
  else if (97 <=? lower_code a)%N && (lower_code a <=? 122)%N then Some (Z.of_N (lower_code a) - 87)%Z
  else None.

(** The digits of an unsigned number; underscores are skipped. *)
Fixpoint parse_digits (base : Z) (s : string) (acc : Z) : num_result :=
  match s with
  | "" => inl acc
  | String a s =>
      if Ascii.eqb a "_" then parse_digits base s acc
      else match digit_of a with
           | None => inr Syntax
           | Some d =>
               if (base <=? d)%Z then inr Syntax
               else if (2 ^ 64 <=? base * acc + d)%Z then inr Range
               else parse_digits base s (base * acc + d)
           end
  end.

Definition prefix_base (a : ascii) : option Z :=
  if (lower_code a =? 98)%N then Some 2%Z
  else if (lower_code a =? 111)%N then Some 8%Z
  else if (lower_code a =? 120)%N then Some 16%Z
  else None.

(** The base of a literal, and its digits. *)
Definition split_base (s : string) : Z * string :=
  match s with
  | String z (String a (String _ _ as d)) =>
      if Ascii.eqb z "0" then
        match prefix_base a with Some b => (b, d) | None => (8%Z, String a d) end
      else (10%Z, s)
  | String z d => if Ascii.eqb z "0" then (8%Z, d) else (10%Z, s)
  | "" => (10%Z, s)
  end.

(** Underscores stand between digits, or between the base prefix and a digit:
    [last] is the last character's kind: nothing or another character ([None]), a
    digit ([Some true]), an underscore ([Some false]). *)
Fixpoint underscores (hex : bool) (last : option bool) (s : string) : bool :=
  match s with
  | "" => negb (bool_decide (last = Some false))
  | String a s =>
      if is_digit a || (hex && (97 <=? lower_code a)%N && (lower_code a <=? 102)%N) then underscores hex (Some true) s
      else if Ascii.eqb a "_" then bool_decide (last = Some true) && underscores hex (Some false) s
      else negb (bool_decide (last = Some false)) && underscores hex None s
  end.
Definition underscoreOK (s : string) : bool :=
  match s with
  | String z (String a d) =>
      if Ascii.eqb z "0" then
        match prefix_base a with
        | Some b => underscores (b =? 16)%Z (Some true) d
        | None => underscores false None s
        end
      else underscores false None s
  | _ => underscores false None s
  end.

Definition ParseUint0 (s : string) : num_result :=
  if bool_decide (s = "") then inr Syntax
  else let '(base, d) := split_base s in
       match parse_digits base d 0 with
       | inl v => if string_In "_" s && negb (underscoreOK s) then inr Syntax else inl v
       | inr e => inr e
       end.

(** [strconv.ParseInt(s, 0, 64)]. *)
Definition ParseInt0 (s : string) : num_result :=
  let signed neg s :=
    match ParseUint0 s with
    | inr e => inr e
    | inl u =>
        if neg : bool then if (2 ^ 63 <? u)%Z then inr Range else inl (- u)%Z
        else if (2 ^ 63 <=? u)%Z then inr Range else inl u
    end in
  match s with
  | String a s' =>
      if Ascii.eqb a "+" then signed false s' else if Ascii.eqb a "-" then signed true s' else signed false s
  | "" => inr Syntax
  end.

Definition ParseBool (s : string) : option bool :=
  if bool_decide (s ∈ ["1"; "t"; "T"; "TRUE"; "true"; "True"]) then Some true
  else if bool_decide (s ∈ ["0"; "f"; "F"; "FALSE"; "false"; "False"]) then Some false
  else None.

(** ** Flag sets *)

(** The value of a flag, which carries its type. *)
Inductive fval := VString (s : string) | VBool (b : bool) | VInt (z : Z).

Definition num_message (e : num_error) : string :=
  match e with Syntax => "parse error" | Range => "value out of range" end.

(** [flag.Value.Set] on a flag that has the value [old]. *)
Definition set_value (old : fval) (s : string) : res fval :=
  match old with
  | VString _ => Ok (VString s)
  | VBool _ => match ParseBool s with Some b => Ok (VBool b) | None => Err "parse error" end
  | VInt _ => match ParseInt0 s with inl z => Ok (VInt z) | inr e => Err (num_message e) end
  end.

Definition flags := list (string * fval).

Fixpoint flag_get (fl : flags) (name : string) : option fval :=
  match fl with
  | [] => None
  | (n, v) :: fl => if bool_decide (n = name) then Some v else flag_get fl name
  end.
Fixpoint flag_set (fl : flags) (name : string) (v : fval) : flags :=
  match fl with
  | [] => []
  | (n, w) :: fl => if bool_decide (n = name) then (n, v) :: fl else (n, w) :: flag_set fl name v
  end.

(** What an argument is. *)
Inductive arg := Word | Terminator | Malformed | Flag (name : string) (value : option string).

Definition classify (s : string) : arg :=
  match s with
  | String d (String c r) =>
      if negb (Ascii.eqb d "-") then Word
      else
        let name := if Ascii.eqb c "-" then r else String c r in
        if Ascii.eqb c "-" && bool_decide (r = "") then Terminator
        else match name with
             | "" => Malformed
             | String a n =>
                 if Ascii.eqb a "-" || Ascii.eqb a "=" then Malformed
                 else let '(b, v) := SplitN2 "=" n in Flag (String a b) v
             end
  | _ => Word
  end.

(** The outcome of a parse: the flags and what is left, the help that was asked
    for, or a failure with its message. *)
Inductive parsed := Parsed (fl : flags) (rest : list string) | Helped | Failed (msg : string).

Section Parse.
(** [strconv.Quote]. *)
Context (quote : string → string).

Definition not_defined (name : string) : parsed :=
  if bool_decide (name = "help") || bool_decide (name = "h") then Helped
  else Failed ("flag provided but not defined: -" +:+ name).

Definition bad_value (v : fval) (value name : string) (e : error) : parsed :=
  match v with
  | VBool _ => Failed ("invalid boolean value " +:+ quote value +:+ " for -" +:+ name +:+ ": " +:+ e)
  | _ => Failed ("invalid value " +:+ quote value +:+ " for flag -" +:+ name +:+ ": " +:+ e)
  end.

Fixpoint parse_args (fl : flags) (args : list string) : parsed :=
  match args with
  | [] => Parsed fl []
  | s :: args' =>
      match classify s with
      | Word => Parsed fl args
      | Terminator => Parsed fl args'
      | Malformed => Failed ("bad flag syntax: " +:+ s)
      | Flag name value =>
          match flag_get fl name with
          | None => not_defined name
          | Some old =>
              match value, old with
              | Some v, _ =>
                  match set_value old v with
                  | Ok x => parse_args (flag_set fl name x) args'
                  | Err e => bad_value old v name e
                  end
              | None, VBool _ => parse_args (flag_set fl name (VBool true)) args'
              | None, _ =>
                  match args' with
                  | v :: args'' =>
                      match set_value old v with
                      | Ok x => parse_args (flag_set fl name x) args''
                      | Err e => bad_value old v name e
                      end
                  | [] => Failed ("flag needs an argument: -" +:+ name)
                  end
              end
          end
      end
  end.
End Parse.

(** ** Lemmas: numbers *)

Lemma parse_digits_pretty x s : (x < 2 ^ 64)%N → parse_digits 10 (pretty_N_go x s) 0 = parse_digits 10 s (Z.of_N x).
Proof.
  revert s. induction (N.lt_wf_0 x) as [x _ IH]; intros s Hx.
  assert (x = 0 ∨ 0 < x)%N as [->|Hp] by lia; [by rewrite pretty_N_go_0|].
  rewrite pretty_N_go_step by done. pose proof (N.div_lt x 10 Hp eq_refl).
  rewrite IH by lia. cbn [parse_digits].
  destruct (pretty_N_char_digit (x `mod` 10)) as [Hd Hv]; [by apply N.mod_lt|]. unfold digit_char in Hd.
  destruct (Ascii.eqb_spec (pretty_N_char (x `mod` 10)) "_") as [E|_]; [by rewrite E in Hd|].
  unfold digit_of. rewrite Hd, Hv. pose proof (N.div_mod x 10). pose proof (N.mod_lt x 10).
  destruct (Z.leb_spec 10 (48 + Z.of_N (x `mod` 10) - 48)); [lia|].
  destruct (Z.leb_spec (2 ^ 64) (10 * Z.of_N (x / 10) + (48 + Z.of_N (x `mod` 10) - 48))); [lia|].
  f_equal. lia.
Qed.

Lemma no_underscore x : string_In "_" (pretty_N_go x "") = false.
Proof.
  apply (pretty_step x "" (λ t, string_In "_" t = false)); [done|]. intros y s Hy Hs. cbn.
  destruct (pretty_N_char_digit y Hy) as [Hd _]. unfold digit_char in Hd.
  destruct (Ascii.eqb_spec (pretty_N_char y) "_") as [E|_]; [by rewrite E in Hd|done].
Qed.

Lemma split_base_decimal a t : a ≠ "0"%char → split_base (String a t) = (10%Z, String a t).
Proof. intros Ha. destruct t as [|b [|c t]]; cbn; by destruct (Ascii.eqb_spec a "0"). Qed.

Lemma ParseUint0_pretty p : (N.pos p < 2 ^ 64)%N → ParseUint0 (pretty (N.pos p)) = inl (Z.pos p).
Proof.
  intros Hp. change (pretty (N.pos p)) with (pretty_N_go (N.pos p) "").
  pose proof (parse_digits_pretty (N.pos p) "" Hp) as Hd. pose proof (no_underscore (N.pos p)) as Hu.
  destruct (pretty_N_go_head (N.pos p) "") as (a & t & Ht & Ha & H0); [lia|]. rewrite Ht in *.
  unfold ParseUint0. rewrite bool_decide_false, split_base_decimal, Hd, Hu by done. done.
Qed.

Lemma ParseInt0_pretty (z : Z) : in_i64 z → ParseInt0 (pretty z) = inl z.
Proof.
  intros Hz. unfold in_i64 in Hz. destruct z as [|p|p]; [done|..].
  - change (pretty (Z.pos p)) with (pretty (N.pos p)). pose proof (ParseUint0_pretty p ltac:(lia)) as Hu.
    change (pretty (N.pos p)) with (pretty_N_go (N.pos p) "") in *.
    destruct (pretty_N_go_head (N.pos p) "") as (a & t & Ht & Ha & _); [lia|]. rewrite Ht in *.
    unfold ParseInt0. cbv zeta. rewrite Hu. destruct (Ascii.eqb_spec a "+") as [->|]; [done|].
    destruct (Ascii.eqb_spec a "-") as [->|]; [done|]. destruct (Z.leb_spec (2 ^ 63) (Z.pos p)); [lia|done].
  - change (pretty (Z.neg p)) with (String "-" (pretty (N.pos p))). unfold ParseInt0.
    change (Ascii.eqb "-" "+") with false. change (Ascii.eqb "-" "-") with true. cbv iota zeta.
    rewrite ParseUint0_pretty by lia. destruct (Z.ltb_spec (2 ^ 63) (Z.pos p)); [lia|done].
Qed.

(** ** Parsing what was written *)

(** A flag on the command line, in the form -name=value. *)
Definition value_text (v : fval) : string :=
  match v with VString s => s | VBool b => if b then "true" else "false" | VInt z => pretty z end.
Definition render (a : string * fval) : string := "-" +:+ a.1 +:+ "=" +:+ value_text a.2.

Definition flag_name (n : string) : bool :=
  match n with
  | "" => false
  | String a _ => negb (Ascii.eqb a "-" || string_In "=" n)
  end.
(** Values of the same type, an integer within int64. *)
Definition same_type (v w : fval) : bool :=
  match v, w with
  | VString _, VString _ | VBool _, VBool _ => true
  | VInt _, VInt z => bool_decide (in_i64 z)
  | _, _ => false
  end.
#[export] Instance in_i64_dec z : Decision (in_i64 z).
Proof. unfold in_i64. apply _. Defined.

Definition assign (fl : flags) (a : string * fval) : flags := flag_set fl a.1 a.2.
(** Every assignment is to a flag that is defined, with a value of its type. *)
Definition fits (fl : flags) (a : string * fval) : Prop :=
  flag_name a.1 = true ∧ ∃ old, flag_get fl a.1 = Some old ∧ same_type old a.2 = true.

Lemma set_value_text old v : same_type old v = true → set_value old (value_text v) = Ok v.
Proof.
  destruct v as [s|b|z], old; try done; cbn.
  - by destruct b.
  - intros Hz%bool_decide_eq_true. by rewrite ParseInt0_pretty.
Qed.

Lemma same_type_trans a b c : same_type a b = true → same_type a c = true → same_type b c = true.
Proof. by destruct a, b, c. Qed.

Lemma classify_render n v : flag_name n = true → classify (render (n, v)) = Flag n (Some (value_text v)).
Proof.
  intros Hn. unfold flag_name in Hn. destruct n as [|a n]; [done|]. cbn [string_In] in Hn.
  apply negb_true_iff, orb_false_iff in Hn as [Ea [Eb En]%orb_false_iff].
  unfold render. cbn [fst snd String.append classify]. change (Ascii.eqb "-" "-") with true. cbn [negb].
  rewrite Ea, Eb. cbn [andb orb].
  rewrite (proj2 (SplitN2_some "=" _ n (value_text v))) by done. by rewrite Ea.
Qed.

Lemma flag_get_set fl n m v :
  flag_get (flag_set fl n v) m = if bool_decide (n = m) then (λ _, v) <$> flag_get fl n else flag_get fl m.
Proof.
  induction fl as [|[k w] fl IH]; cbn; [by case_bool_decide|].
  destruct (decide (k = n)) as [->|Hk].
  - rewrite bool_decide_true by done. cbn. by destruct (bool_decide (n = m)).
  - rewrite (bool_decide_false (k = n)) by done. cbn. destruct (decide (k = m)) as [->|Hm].
    + rewrite !bool_decide_true by done. rewrite bool_decide_false by done. done.
    + rewrite (bool_decide_false (k = m)) by done. exact IH.
Qed.

Lemma fits_assign fl a b : fits fl a → fits fl b → fits (assign fl a) b.
Proof.
  intros (Ha & old & Hg & Ht) (Hb & old' & Hg' & Ht'). split; [done|]. unfold assign. rewrite flag_get_set.
  case_bool_decide as E; [|by exists old']. rewrite <- E in Hg'. rewrite Hg in *. injection Hg' as <-.
  exists a.2. split; [done|]. by eapply same_type_trans.
Qed.

Section Rendered.
Context (quote : string → string).

(** Flags written before the positional arguments are all read, in order. *)
Lemma parse_rendered fl asg rest :
  Forall (fits fl) asg → parse_args quote fl (map render asg ++ rest) = parse_args quote (foldl assign fl asg) rest.
Proof.
  revert fl. induction asg as [|[n v] asg IH]; intros fl Hf; [done|].
  apply Forall_cons in Hf as [Ha Hf]. destruct Ha as (Hn & old & Hg & Ht) eqn:E. clear E. cbn [fst snd] in *.
  cbn [map app parse_args]. rewrite classify_render, Hg by done. rewrite set_value_text by done. cbn [foldl].
  rewrite IH; [done|]. eapply Forall_impl; [exact Hf|]. intros b Hb. by apply (fits_assign fl (n, v)).
Qed.

(** The first positional argument ends the flags: what follows it is left
    alone, and the flags keep their values. *)
Lemma flags_after_word fl w args : classify w = Word → parse_args quote fl (w :: args) = Parsed fl (w :: args).
Proof. intros Hw. cbn. by rewrite Hw. Qed.

(** No flag is added or removed, and none changes its type. *)
Lemma parse_args_names fl args fl' rest : parse_args quote fl args = Parsed fl' rest → fl'.*1 = fl.*1.
Proof.
  assert (Hset : ∀ fl n v, (flag_set fl n v).*1 = fl.*1).
  { intros f n v. induction f as [|[k w] f IH]; [done|]. cbn. case_bool_decide; cbn; by rewrite ?IH. }
  remember (length args) as n eqn:Hlen. revert fl args Hlen. induction (lt_wf n) as [n _ IH].
  intros fl args ->. destruct args as [|s args]; cbn; [by intros [= <- _]|].
  destruct (classify s) as [| | |name value]; try (by intros [= <- _]).
  destruct (flag_get fl name) as [old|]; [|unfold not_defined; by destruct (_ || _)].
  assert (Hrec : ∀ x args', length args' < S (length args) →
    parse_args quote (flag_set fl name x) args' = Parsed fl' rest → fl'.*1 = fl.*1).
  { intros x args' Hl Hp. rewrite <- (Hset fl name x). by eapply IH; [| |exact Hp]. }
  assert (Hbad : ∀ o v e, bad_value quote o v name e ≠ Parsed fl' rest) by by intros [].
  destruct value as [v|].
  - destruct (set_value old v); [apply Hrec; lia|intros E; by apply Hbad in E].
  - destruct old; [|apply Hrec; lia|]; (destruct args as [|v args]; [done|]; destruct (set_value _ v);
      [apply Hrec; cbn; lia|intros E; by apply Hbad in E]).
Qed.
End Rendered.

(** ** What the values are made of *)

(** A property of strings that passes to what follows any character. *)
Section Values.
Context (quote : string → string) (Q : string → Prop).
Context (Q_tail : ∀ a s, Q (String a s) → Q s).

Lemma Q_drop n s : Q s → Q (string_drop n s).
Proof. revert s. induction n as [|n IH]; intros [|a s] Hq; try done. cbn. by apply IH, (Q_tail a). Qed.

Lemma Q_suffix p s : Q (p +:+ s) → Q s.
Proof. intros Hq. rewrite <- (string_drop_app p s). by apply Q_drop. Qed.

Lemma classify_Q s name v : Q s → classify s = Flag name (Some v) → Q v.
Proof.
  intros Hs. unfold classify. destruct s as [|d [|c r]]; try done.
  destruct (negb _); [done|]. cbv zeta. destruct (_ && _); [done|].
  assert (Hn : Q (if Ascii.eqb c "-" then r else String c r)).
  { apply Q_tail in Hs. destruct (Ascii.eqb c "-"); [by apply (Q_tail c)|done]. }
  destruct (if Ascii.eqb c "-" then r else String c r) as [|a n]; [done|]. destruct (_ || _); [done|].
  destruct (SplitN2 "=" n) as [b [v'|]] eqn:E; [|done]. intros [= _ <-].
  apply SplitN2_some in E as [-> _]. by apply (Q_tail "="), (Q_suffix b), (Q_tail a).
Qed.

(** Every string flag has the property. *)
Definition all_values (fl : flags) : Prop := ∀ n s, flag_get fl n = Some (VString s) → Q s.

Lemma all_values_set fl n old v s x :
  all_values fl → Q v → flag_get fl n = Some old → set_value old v = Ok x → all_values (flag_set fl n x) ∧ (x = VString s → Q s).
Proof.
  intros Hall Hv Hg Hx. assert (Hs : ∀ s, x = VString s → Q s).
  { intros s' ->. destruct old; cbn in Hx; [by injection Hx as <-|by destruct (ParseBool v)|by destruct (ParseInt0 v)]. }
  split; [|apply Hs]. intros m s'. rewrite flag_get_set. case_bool_decide as E; [|apply Hall].
  rewrite Hg. cbn. intros [= E']. by apply Hs.
Qed.

Lemma parse_args_Q fl args fl' rest :
  all_values fl → Forall Q args → parse_args quote fl args = Parsed fl' rest → all_values fl' ∧ Forall Q rest.
Proof.
  remember (length args) as n eqn:Hlen. revert fl args Hlen. induction (lt_wf n) as [n _ IH].
  intros fl args -> Hall Hargs. destruct Hargs as [|s args Hs Hargs]; cbn; [by intros [= <- <-]|].
  destruct (classify s) as [| | |name value] eqn:Hc; try (by intros [= <- <-]).
  { intros [= <- <-]. split; [done|by constructor]. }
  destruct (flag_get fl name) as [old|] eqn:Hg; [|unfold not_defined; by destruct (_ || _)].
  assert (Hbad : ∀ o v e, bad_value quote o v name e ≠ Parsed fl' rest) by by intros [].
  assert (Hrec : ∀ v x args', length args' < S (length args) → Forall Q args' → Q v → set_value old v = Ok x →
    parse_args quote (flag_set fl name x) args' = Parsed fl' rest → all_values fl' ∧ Forall Q rest).
  { intros v x args' Hl Ha Hv Hx Hp. destruct (all_values_set fl name old v "" x Hall Hv Hg Hx) as [Hset _].
    by eapply IH; [..|exact Hp]. }
  destruct value as [v|].
  - destruct (set_value old v) as [x|e] eqn:Hx; [|intros E; by apply Hbad in E].
    apply (Hrec v); [lia|done| |done]. by eapply classify_Q.
  - destruct old as [t|b|z]; (destruct Hargs as [|v args Hv Hargs]; [try done|]).
    + destruct (set_value _ v) as [x|e] eqn:Hx; [|intros E; by apply Hbad in E]. apply (Hrec v); cbn; [lia|done..].
    + eapply IH; [|done| |by constructor]; [cbn; lia|]. intros m s'. rewrite flag_get_set.
      case_bool_decide; [by rewrite Hg|apply Hall].
    + eapply IH; [|done| |by constructor]; [cbn; lia|]. intros m s'. rewrite flag_get_set.
      case_bool_decide; [by rewrite Hg|apply Hall].
    + destruct (set_value _ v) as [x|e] eqn:Hx; [|intros E; by apply Hbad in E]. apply (Hrec v); cbn; [lia|done..].
Qed.
End Values.
