(* ===== verification/Cloudctl.v ===== *)
(** * Command cloudctl

    Models cmd/cloudctl/main.go: every command, with the requests it sends, what
    it prints on the two streams, and how it ends (return, [os.Exit], panic).
    The transport is the one of [Http], flags are parsed by [Flag], JSON is
    [Json].  The text a flag set prints about its flags, [strconv.Quote], and the
    printing of a float64 are parameters. *)

From S2P Require Import Prelude State Identity Api Json Http Sdk Flag.

(** ** A running command *)

Inductive outcome (A : Type) := Done (a : A) | Exit (status : Z) | Crash.
Arguments Done {A} a.
Arguments Exit {A} status.
Arguments Crash {A}.

(** The world of the transport, and what was printed. *)
Record term (W : Type) := mk_term { tW : W; tOut : list string; tErr : list string }.
Arguments mk_term {W} tW tOut tErr.
Arguments tW {W} t.
Arguments tOut {W} t.
Arguments tErr {W} t.

Definition cli (W A : Type) : Type := term W → outcome A * term W.

#[export] Instance cli_ret W : MRet (cli W) := λ A a t, (Done a, t).
#[export] Instance cli_bind W : MBind (cli W) := λ A B f m t,
  match m t with
  | (Done a, t) => f a t
  | (Exit n, t) => (Exit n, t)
  | (Crash, t) => (Crash, t)
  end.

Section Commands.
Context `{URLs} {W : Type} (Do : transport W).
(** The two flags of the program. *)
Context (apiURL token : string).
Context (quote flag_usage sprint_float : string → string) (renum : string → option string).

Definition Println (s : string) : cli W unit := λ t, (Done tt, mk_term (tW t) (tOut t ++ [s]) (tErr t)).
Definition Eprintln (s : string) : cli W unit := λ t, (Done tt, mk_term (tW t) (tOut t) (tErr t ++ [s])).
Definition os_Exit {A} (n : Z) : cli W A := λ t, (Exit n, t).
(** [xs[i]]. *)
Definition index {A} (xs : list A) (i : nat) : cli W A := λ t,
  match xs !! i with Some x => (Done x, t) | None => (Crash, t) end.
Definition of_go {A} (x : go A) : cli W A := λ t, match x with Ret a => (Done a, t) | Panic => (Crash, t) end.
Definition send (r : HTTPReq) : cli W (res Response) := λ t,
  let '(w, x) := Do (tW t) r in (Done x, mk_term w (tOut t) (tErr t)).

Definition each {A} (f : A → cli W unit) (l : list A) : cli W unit := foldr (λ x k, f x;; k) (mret tt) l.

(** [fs.Parse] of a flag set with [flag.ExitOnError]. *)
Definition Parse (name : string) (fl : flags) (args : list string) : cli W (flags * list string) :=
  match parse_args quote fl args with
  | Parsed fl rest => mret (fl, rest)
  | Helped => Eprintln (flag_usage name);; os_Exit 0
  | Failed msg => Eprintln msg;; Eprintln (flag_usage name);; os_Exit 2
  end.
Definition flag_string (fl : flags) (name : string) : string :=
  match flag_get fl name with Some (VString s) => s | _ => "" end.
Definition flag_int (fl : flags) (name : string) : Z :=
  match flag_get fl name with Some (VInt z) => z | _ => 0%Z end.
Definition flag_bool (fl : flags) (name : string) : bool :=
  match flag_get fl name with Some (VBool b) => b | _ => false end.

Definition usage_text : string :=
"cloudctl — Mini Cloud Platform CLI

Usage:
  cloudctl [-api URL] [-token TOKEN] <command> [args]

Commands:
  login <email> <password>
  user create <email> <password> [--display NAME] [--admin]
  project list | create <id>
  workload list --project_id=P | create --project_id=P --id=I --image=IMG
  service list | create (json) --project_id=P
  deployment list | create (json) --project_id=P
  network list | create (json) --project_id=P
  volume list | create (json) --project_id=P
  secret list | create (json) --project_id=P
  configmap list | create (json) --project_id=P
  bucket list | create <id>
  object put <bucket> <key> <file>
  object get <bucket> <key>
  node list
  model list
  chat --model=M 'hello world'".

Definition usage : cli W unit := Eprintln usage_text.
Definition usage_exit {A} (n : Z) : cli W A := usage;; os_Exit n.

(** ** Requests *)

Definition authorised (r : HTTPReq) : HTTPReq :=
  if negb (bool_decide (token = "")) then set_auth ("Bearer " +:+ token) r else r.

Definition call (method path : string) (body : option json) : cli W (Z * string) :=
  req ← of_go (NewRequest method (apiURL +:+ path) (Marshal <$> body));
  let req := authorised req in
  let req := match body with Some _ => set_ctype "application/json" req | None => req end in
  resp ← send req;
  match resp with
  | Err e => Eprintln ("ERR " +:+ e);; mret (0%Z, "")
  | Ok r => mret (rsCode r, rsBody r)
  end.

Definition status_line (status : Z) (b : string) : string := pretty status +:+ " " +:+ b.

Definition check (status : Z) (body : string) : cli W unit :=
  if negb (status =? 200)%Z && negb (status =? 201)%Z then Eprintln (status_line status body);; os_Exit 1
  else mret tt.

(** The text [pretty] prints. *)
Definition pretty_text (b : string) : string :=
  match Unmarshal b with
  | None => b
  | Some v => if any_ok renum v then MarshalIndent (any_value renum v) else b
  end.
Definition pretty_ (b : string) : cli W unit := Println (pretty_text b).

(** ** Commands *)

Definition loginCmd (args : list string) : cli W unit :=
  match args with
  | email :: password :: _ =>
      let body := Marshal (string_map_json [("email", email); ("password", password)]) in
      req ← of_go (NewRequest "POST" (apiURL +:+ "/v1/login") (Some body));
      resp ← send (set_ctype "application/json" req);
      match resp with
      | Err e => Eprintln ("ERR " +:+ e);; os_Exit 1
      | Ok r =>
          if negb (rsCode r =? 200)%Z then Eprintln ("login failed: " +:+ rsBody r);; os_Exit 1
          else
            let out := match Decode (rsBody r) with Some v => (decode_string_map v).1 | None => ∅ end in
            Println (default "" (out !! "token"))
      end
  | _ => Eprintln "usage: cloudctl login <email> <password>";; os_Exit 2
  end.

Definition user_flags : flags := [("display", VString ""); ("admin", VBool false)].

Definition userCmd (args : list string) : cli W unit :=
  match args with
  | [] => usage_exit 2
  | cmd :: args =>
      if bool_decide (cmd = "create") then
        '(fl, rest) ← Parse "user create" user_flags args;
        match rest with
        | email :: password :: _ =>
            '(status, b) ← call "POST" "/v1/users" (Some (JMap [
              ("email", JStr email); ("password", JStr password);
              ("display_name", JStr (flag_string fl "display")); ("admin", JBool (flag_bool fl "admin"))]));
            Println (status_line status b)
        | _ => Eprintln "usage: cloudctl user create <email> <password>";; os_Exit 2
        end
      else usage
  end.

(** The list branch the commands share. *)
Definition list_at (path : string) : cli W unit :=
  '(status, b) ← call "GET" path None;
  check status b;; pretty_ b.

(** The create branch: the answer is printed, whatever its status. *)
Definition create_at (path : string) (body : json) : cli W unit :=
  '(status, b) ← call "POST" path (Some body);
  Println (status_line status b).

Definition projectCmd (args : list string) : cli W unit :=
  cmd ← index args 0;
  if bool_decide (cmd = "list") then list_at "/v1/projects"
  else if bool_decide (cmd = "create") then
    match args with
    | _ :: id :: _ => create_at "/v1/projects" (JMap [("id", JStr id); ("description", JStr id)])
    | _ => usage_exit 2
    end
  else mret tt.

Definition workload_flags : flags :=
  [("project_id", VString ""); ("id", VString ""); ("image", VString "nginx:latest"); ("replicas", VInt 1);
   ("cpu", VInt 100); ("mem", VInt (128 * 1024 * 1024)); ("port", VInt 80); ("model", VString "")].

Definition workloadCmd (args : list string) : cli W unit :=
  '(fl, rest) ← Parse "workload" workload_flags args;
  match rest with
  | [] => usage_exit 2
  | cmd :: _ =>
      let path := "/v1/workloads?project_id=" +:+ flag_string fl "project_id" in
      if bool_decide (cmd = "list") then list_at path
      else if bool_decide (cmd = "create") then
        create_at path (JMap [
          ("id", JStr (flag_string fl "id")); ("kind", JStr "ai"); ("image", JStr (flag_string fl "image"));
          ("replicas", JInt (flag_int fl "replicas")); ("cpu_millicores", JInt (flag_int fl "cpu"));
          ("memory_bytes", JInt (flag_int fl "mem")); ("port", JInt (flag_int fl "port"));
          ("ai_model", JStr (flag_string fl "model"))])
      else usage
  end.

(** Services, deployments, networks, volumes, secrets and config maps share this
    text: [set] names the flag set, [collection] the path, and [body] makes the
    body of the second positional argument. *)
Definition project_flags : flags := [("project_id", VString "")].
Definition resourceCmd (set collection : string) (body : string → json) (args : list string) : cli W unit :=
  '(fl, rest) ← Parse set project_flags args;
  match rest with
  | [] => usage_exit 2
  | cmd :: _ =>
      let path := "/v1/" +:+ collection +:+ "?project_id=" +:+ flag_string fl "project_id" in
      if bool_decide (cmd = "list") then list_at path
      else if bool_decide (cmd = "create") then name ← index rest 1; create_at path (body name)
      else mret tt
  end.

Definition serviceCmd : list string → cli W unit :=
  resourceCmd "svc" "services" (λ id, JMap [("id", JStr id); ("port", JInt 80); ("workload_id", JStr "")]).
Definition deploymentCmd : list string → cli W unit := resourceCmd "dep" "deployments" (λ id, JMap [("id", JStr id)]).
Definition networkCmd : list string → cli W unit :=
  resourceCmd "net" "networks" (λ id, JMap [("id", JStr id); ("cidr", JStr "10.0.0.0/24")]).
Definition volumeCmd : list string → cli W unit :=
  resourceCmd "vol" "volumes" (λ id, JMap [("id", JStr id); ("size_bytes", JInt (Z.shiftl 1 30))]).
Definition secretCmd : list string → cli W unit := resourceCmd "sec" "secrets" (λ id, JMap [("id", JStr id)]).
Definition configmapCmd : list string → cli W unit :=
  resourceCmd "cm" "configmaps" (λ id, JMap [("id", JStr id); ("data", JObj [])]).

Definition bucketCmd (args : list string) : cli W unit :=
  cmd ← index args 0;
  if bool_decide (cmd = "list") then list_at "/v1/buckets"
  else if bool_decide (cmd = "create") then id ← index args 1; create_at "/v1/buckets" (JMap [("id", JStr id)])
  else mret tt.

Definition nodeCmd (args : list string) : cli W unit :=
  cmd ← index args 0;
  if bool_decide (cmd = "list") then list_at "/v1/nodes" else mret tt.

(** An element of the models' list: the map, or nil.  (A repeated member of the
    answer counts once, with its last value.) *)
Definition model_map (v : json) : gmap string json * bool :=
  match v with
  | JObj ms => (as_map ((λ m, (m.1, any_value renum m.2)) <$> ms), any_ok renum v)
  | JNull => (∅, true)
  | _ => (∅, false)
  end.
Definition models_of (b : string) : list (gmap string json) :=
  match Unmarshal b with
  | None => []
  | Some v => (decode_struct false [("data", set_list (λ l _, l) model_map)] [] v).1
  end.

Definition modelCmd (args : list string) : cli W unit :=
  cmd ← index args 0;
  if bool_decide (cmd = "list") then
    req ← of_go (NewRequest "GET" (apiURL +:+ "/v1/models") None);
    resp ← send (authorised req);
    match resp with
    | Err e => Eprintln e
    | Ok r => each (λ m : gmap string json, Println ("- " +:+ Sprint sprint_float (default JNull (m !! "id")))) (models_of (rsBody r))
    end
  else mret tt.

(** The contents of the choices; [None] when the answer does not decode. *)
Definition message_content (v : json) (x : string) : string * bool :=
  decode_struct false [("content", set_string (λ s _, s))] x v.
Definition choice_content (v : json) : string * bool :=
  decode_struct false [("message", message_content)] "" v.
Definition choices_of (b : string) : option (list string) :=
  match Unmarshal b with
  | None => None
  | Some v =>
      let '(l, ok) := decode_struct false [("choices", set_list (λ l _, l) choice_content)] [] v in
      if ok : bool then Some l else None
  end.

Definition chatCmd (args : list string) : cli W unit :=
  '(fl, rest) ← Parse "chat" [("model", VString "echo")] args;
  let prompt := Join rest " " in
  if bool_decide (prompt = "") then usage_exit 2
  else
    let body := Marshal (JMap [("model", JStr (flag_string fl "model"));
      ("messages", JArr [string_map_json [("role", "user"); ("content", prompt)]])]) in
    req ← of_go (NewRequest "POST" (apiURL +:+ "/v1/chat/completions") (Some body));
    resp ← send (set_ctype "application/json" (authorised req));
    match resp with
    | Err e => Eprintln e
    | Ok r => match choices_of (rsBody r) with None => Println (rsBody r) | Some cs => each Println cs end
    end.

(** The switch of [main] on the command. *)
Definition dispatch (cmd : string) (rest : list string) : cli W unit :=
  if bool_decide (cmd = "user") then userCmd rest
  else if bool_decide (cmd = "project") then projectCmd rest
  else if bool_decide (cmd = "workload") || bool_decide (cmd = "run") then workloadCmd rest
  else if bool_decide (cmd = "service") then serviceCmd rest
  else if bool_decide (cmd = "deployment") then deploymentCmd rest
  else if bool_decide (cmd = "network") then networkCmd rest
  else if bool_decide (cmd = "volume") then volumeCmd rest
  else if bool_decide (cmd = "secret") then secretCmd rest
  else if bool_decide (cmd = "configmap") || bool_decide (cmd = "cm") then configmapCmd rest
  else if bool_decide (cmd = "bucket") then bucketCmd rest
  else if bool_decide (cmd = "node") then nodeCmd rest
  else if bool_decide (cmd = "model") then modelCmd rest
  else if bool_decide (cmd = "chat") then chatCmd rest
  else if bool_decide (cmd = "login") then loginCmd rest
  else usage_exit 1.
End Commands.

(** ** The program *)

(** The command line's flag set: the values of its two flags, and the arguments
    after them, which are nil until [flag.Parse] is called. *)
Record CommandLine := mk_CommandLine { cmAPI : string; cmToken : string; cmArgs : list string }.

(** The package's variables before [main]: the defaults. *)
Definition initial : CommandLine := mk_CommandLine "http://127.0.0.1:8080" "" [].

Section Main.
Context `{URLs} {W : Type} (Do : transport W).
Context (quote flag_usage sprint_float : string → string) (renum : string → option string).

(** [env]: the variable CLOUDCTL_TOKEN. *)
Definition main (env : string) (cl : CommandLine) : cli W unit :=
  let token := if negb (bool_decide (env = "")) && bool_decide (cmToken cl = "") then env else cmToken cl in
  match cmArgs cl with
  | [] => usage_exit 1
  | cmd :: rest => dispatch Do (cmAPI cl) token quote flag_usage sprint_float renum cmd rest
  end.

(** [main] never calls [flag.Parse], so whatever the arguments of the process it
    sees none. *)
Definition run (env : string) (os_args : list string) : cli W unit := main env initial.

(** So it prints the usage and exits, and no request is ever sent. *)
Lemma run_always_usage env os_args w :
  run env os_args (mk_term w [] []) = (Exit 1, mk_term w [] [usage_text]).
Proof. reflexivity. Qed.

End Main.

(** ** When a command panics *)

(** The argument lists on which a command indexes past the end. *)
Definition crash_args (quote : string → string) (cmd : string) (rest : list string) : bool :=
  if bool_decide (cmd ∈ ["project"; "node"; "model"]) then bool_decide (rest = [])
  else if bool_decide (cmd = "bucket") then bool_decide (rest = []) || bool_decide (rest = ["create"])
  else if bool_decide (cmd ∈ ["service"; "deployment"; "network"; "volume"; "secret"; "configmap"; "cm"]) then
    match parse_args quote project_flags rest with
    | Parsed _ [w] => bool_decide (w = "create")
    | _ => false
    end
  else false.

Section Crashes.
Context `{URLs} {W : Type} (Do : transport W) (apiURL token : string).
Context (quote flag_usage sprint_float : string → string) (renum : string → option string).
(** Texts a URL's query takes as they are: no control character, and no "#",
    which would start a fragment, whose escapes are checked. *)
Definition clean (s : string) : Prop := has_ctl s = false ∧ string_In "#" s = false.

(** The paths the commands ask for. *)
Definition collections : list string :=
  ["workloads"; "services"; "deployments"; "networks"; "volumes"; "secrets"; "configmaps"].
Definition api_path (p : string) : Prop :=
  p ∈ ["/v1/login"; "/v1/users"; "/v1/projects"; "/v1/buckets"; "/v1/nodes"; "/v1/models"; "/v1/chat/completions"] ∨
  ∃ c q, c ∈ collections ∧ clean q ∧ p = "/v1/" +:+ c +:+ "?project_id=" +:+ q.

(** The server's address makes a URL of those paths (as "http://host:port" does). *)
Context (Hurl : ∀ path, api_path path → url_parses (apiURL +:+ path) = true).

Lemma clean_tail a s : clean (String a s) → clean s.
Proof. unfold clean. cbn. by intros [[_ ?]%orb_false_iff [_ ?]%orb_false_iff]. Qed.

Lemma flag_string_clean fl n : all_values clean fl → clean (flag_string fl n).
Proof. intros Hf. unfold flag_string. destruct (flag_get fl n) as [[s| |]|] eqn:E; try done. by eapply Hf. Qed.

Lemma project_path c fl : c ∈ collections → all_values clean fl →
  api_path ("/v1/" +:+ c +:+ "?project_id=" +:+ flag_string fl "project_id").
Proof. intros Hc Hf. right. eexists _, _. split_and!; [done|by apply flag_string_clean|done]. Qed.

Definition safe {A} (m : cli W A) : Prop := ∀ t, (m t).1 ≠ Crash.

Lemma safe_ret {A} (a : A) : safe (mret a).
Proof. done. Qed.
Lemma safe_bind {A B} (m : cli W A) (f : A → cli W B) : safe m → (∀ a, safe (f a)) → safe (m ≫= f).
Proof.
  intros Hm Hf t. specialize (Hm t). unfold mbind, cli_bind. destruct (m t) as [[a|n|] t']; [apply Hf|done..].
Qed.
Lemma safe_Println s : safe (Println (W := W) s).
Proof. done. Qed.
Lemma safe_Eprintln s : safe (Eprintln (W := W) s).
Proof. done. Qed.
Lemma safe_Exit {A} n : safe (os_Exit (W := W) (A := A) n).
Proof. done. Qed.
Lemma safe_send r : safe (send Do r).
Proof. intros t. unfold send. by destruct (Do _ _). Qed.
Lemma safe_NewRequest m p b : api_path p → safe (of_go (W := W) (NewRequest m (apiURL +:+ p) b)).
Proof. intros Hp t. unfold NewRequest, of_go. by rewrite Hurl. Qed.
Lemma safe_each {A} (f : A → cli W unit) l : (∀ x, safe (f x)) → safe (each f l).
Proof. intros Hf. induction l as [|x l IH]; [apply safe_ret|]. by apply safe_bind. Qed.
Lemma safe_usage : safe (usage (W := W)).
Proof. done. Qed.

Create HintDb cli.
#[local] Hint Resolve safe_ret safe_bind safe_Println safe_Eprintln safe_Exit safe_send safe_NewRequest safe_each : cli.
#[local] Hint Resolve safe_usage flag_string_clean : cli.
#[local] Hint Extern 1 (api_path _) => left; set_solver : cli.
#[local] Hint Extern 2 (api_path _) => apply (project_path "workloads"); [set_solver|assumption] : cli.
Ltac safe := repeat first
  [ match goal with |- ∀ _, _ => intros ? end | solve [auto 6 with cli] | apply safe_bind | apply safe_each
  | match goal with |- safe (match ?x with _ => _ end) => destruct x end | progress cbv zeta ].

Lemma safe_call m p b : api_path p → safe (call Do apiURL token m p b).
Proof. intros Hp. unfold call. safe. Qed.
#[local] Hint Resolve safe_call : cli.
Lemma safe_usage_exit {A} n : safe (usage_exit (W := W) (A := A) n).
Proof. unfold usage_exit. safe. Qed.
Lemma safe_list_at p : api_path p → safe (list_at Do apiURL token renum p).
Proof. intros Hp. unfold list_at, check, pretty_. safe. Qed.
Lemma safe_create_at p b : api_path p → safe (create_at Do apiURL token p b).
Proof. intros Hp. unfold create_at. safe. Qed.
#[local] Hint Resolve safe_usage_exit safe_list_at safe_create_at : cli.

(** Parsing clean arguments gives clean values. *)
Lemma safe_Parse {A} name fl args (f : flags * list string → cli W A) :
  all_values clean fl → Forall clean args → (∀ fl rest, all_values clean fl → safe (f (fl, rest))) →
  safe (Parse quote flag_usage name fl args ≫= f).
Proof.
  intros Hfl Hargs Hf. unfold Parse. destruct (parse_args quote fl args) as [fl' rest| |msg] eqn:E.
  - apply parse_args_Q with (Q := clean) in E as [Hfl' _]; [|exact clean_tail|done..].
    intros t. by apply (Hf fl' rest Hfl').
  - by intros t.
  - by intros t.
Qed.

Ltac clean_defaults :=
  let n := fresh in let s := fresh in
  intros n s; cbn [flag_get user_flags workload_flags project_flags]; repeat (case_bool_decide; [by intros [= <-]|]); done.

(** A command that indexes its arguments. *)
Lemma index_crash {A B} (xs : list A) i (f : A → cli W B) t :
  xs !! i = None → ((x ← index xs i; f x) t).1 = Crash.
Proof. intros Hx. unfold mbind, cli_bind, index. by rewrite Hx. Qed.
Lemma index_done {A B} (xs : list A) i x (f : A → cli W B) t :
  xs !! i = Some x → (x ← index xs i; f x) t = f x t.
Proof. intros Hx. unfold mbind, cli_bind, index. by rewrite Hx. Qed.

Lemma first_arg_crash args (f : string → cli W unit) t :
  (∀ x, safe (f x)) → ((x ← index args 0; f x) t).1 = Crash ↔ args = [].
Proof.
  intros Hf. destruct args as [|x args].
  - split; [done|]. intros _. by apply index_crash.
  - rewrite (index_done _ _ x) by done. split; [|done]. intros E. by apply Hf in E.
Qed.

Lemma resource_crash set collection body args t :
  collection ∈ collections → Forall clean args →
  (resourceCmd Do apiURL token quote flag_usage renum set collection body args t).1 = Crash ↔
  ∃ fl, parse_args quote project_flags args = Parsed fl ["create"].
Proof.
  intros Hcol Hargs. unfold resourceCmd, Parse. destruct (parse_args quote project_flags args) as [fl rest| |msg] eqn:Hp.
  2:{ split; [done|by intros [? ?]]. }
  2:{ split; [done|by intros [? ?]]. }
  apply parse_args_Q with (Q := clean) in Hp as [Hfl _]; [|exact clean_tail|clean_defaults|done].
  unfold mbind at 1, cli_bind, mret, cli_ret. cbv beta iota zeta.
  set (path := "/v1/" +:+ collection +:+ "?project_id=" +:+ flag_string fl "project_id").
  assert (api_path path) by by apply project_path.
  destruct rest as [|cmd rest]; [split; [done|by intros [? ?]]|].
  case_bool_decide as Hl.
  { split; [intros E; by apply safe_list_at in E|]. intros [? [= -> ->]]. done. }
  case_bool_decide as Hc.
  - subst cmd. destruct rest as [|name rest].
    + split; [eauto|]. intros _. by apply index_crash.
    + rewrite (index_done _ _ name) by done. split; [intros E; by apply safe_create_at in E|by intros [? ?]].
  - split; [done|]. intros [? [= _ -> _]]. done.
Qed.

Lemma resource_crash_args set collection body args t :
  collection ∈ collections → Forall clean args →
  (resourceCmd Do apiURL token quote flag_usage renum set collection body args t).1 = Crash ↔
  match parse_args quote project_flags args with Parsed _ [w] => bool_decide (w = "create") | _ => false end = true.
Proof.
  intros Hc Ha. rewrite resource_crash by done.
  destruct (parse_args quote project_flags args) as [fl [|w [|? ?]]| |]; try (split; [by intros [? ?]|done]).
  rewrite bool_decide_eq_true. split; [by intros [? [= _ ->]]|]. intros ->. eauto.
Qed.

Lemma never_crashes {A} (m : cli W A) t : safe m → (m t).1 = Crash ↔ false = true.
Proof. intros Hm. split; [intros E; by apply Hm in E|done]. Qed.

Lemma user_safe args : Forall clean args → safe (userCmd Do apiURL token quote flag_usage args).
Proof.
  intros Hargs. unfold userCmd. destruct Hargs as [|cmd args _ Hargs]; [safe|]. case_bool_decide; [|safe].
  apply safe_Parse; [clean_defaults|done|]. safe.
Qed.
Lemma workload_safe args : Forall clean args → safe (workloadCmd Do apiURL token quote flag_usage renum args).
Proof. intros Hargs. unfold workloadCmd. apply safe_Parse; [clean_defaults|done|]. safe. Qed.
Lemma chat_safe args : Forall clean args → safe (chatCmd Do apiURL token quote flag_usage args).
Proof. intros Hargs. unfold chatCmd. apply safe_Parse; [clean_defaults|done|]. safe. Qed.
Lemma login_safe args : safe (loginCmd Do apiURL args).
Proof. unfold loginCmd. safe. Qed.

Lemma project_crash args t : (projectCmd Do apiURL token renum args t).1 = Crash ↔ bool_decide (args = []) = true.
Proof. unfold projectCmd. rewrite bool_decide_eq_true. apply first_arg_crash. safe. Qed.
Lemma node_crash args t : (nodeCmd Do apiURL token renum args t).1 = Crash ↔ bool_decide (args = []) = true.
Proof. unfold nodeCmd. rewrite bool_decide_eq_true. apply first_arg_crash. safe. Qed.
Lemma model_crash args t : (modelCmd Do apiURL token sprint_float renum args t).1 = Crash ↔ bool_decide (args = []) = true.
Proof. unfold modelCmd. rewrite bool_decide_eq_true. apply first_arg_crash. safe. Qed.
Lemma bucket_crash args t :
  (bucketCmd Do apiURL token renum args t).1 = Crash ↔ bool_decide (args = []) || bool_decide (args = ["create"]) = true.
Proof.
  rewrite orb_true_iff, !bool_decide_eq_true. unfold bucketCmd. destruct args as [|cmd args].
  { split; [auto|]. intros _. by apply index_crash. }
  rewrite (index_done _ _ cmd) by done. case_bool_decide as Hl.
  { split; [intros E; apply safe_list_at in E; [done|left; set_solver]|]. by intros [|[= -> ->]]. }
  case_bool_decide as Hc; [subst cmd|split; [done|by intros [|[= -> ->]]]].
  destruct args as [|id args].
  - split; [auto|]. intros _. by apply index_crash.
  - rewrite (index_done _ _ id) by done. split; [intros E; apply safe_create_at in E; [done|left; set_solver]|]. by intros [|[=]].
Qed.

(** When a command panics ([main] reaches none of them, see [run_always_usage]):
    for arguments without control characters and without "#", a server address
    under which the commands' paths are URLs, and whatever the server answers,
    a command ends in a panic if and only if it indexes a missing argument:
    project, node, model or bucket without a subcommand, bucket create without
    an ID, or the create of a service, deployment, network, volume, secret or
    config map without a name. *)
Theorem dispatch_panics_iff (cmd : string) (rest : list string) (t : term W) :
  Forall clean rest →
  (dispatch Do apiURL token quote flag_usage sprint_float renum cmd rest t).1 = Crash ↔ crash_args quote cmd rest = true.
Proof.
  intros Hr. unfold dispatch. repeat (case_bool_decide; [subst cmd|]); cbn [orb];
    try first [apply never_crashes; first [apply user_safe|apply workload_safe|apply chat_safe|apply login_safe]; done
              | apply project_crash | apply node_crash | apply model_crash | apply bucket_crash
              | apply resource_crash_args; [set_solver|done]].
  unfold crash_args. rewrite !bool_decide_false by set_solver. apply never_crashes, safe_usage_exit.
Qed.
End Crashes.

(** ** The commands against the server *)

Section Server.
Context `{Crypto} {S : Type} `{UserStore S, APIKeyStore S}.
Context (key : string) (msg : string → error).
Context `{ToJSON User, ToJSON (list User), ToJSON (list APIKey)}.
Context `{ToJSON Project, ToJSON (list Project), ProjectStore S}.
Context (CreateProject_ : S → Project → S * option error).
Context {Deployment Network Volume Secret ConfigMap Bucket Alert Model Object : Type}.
Context `{Resource S Workload, FromJSON Workload, ToJSON Workload, ToJSON (list Workload)}.
Context `{Resource S Service, FromJSON Service, ToJSON Service, ToJSON (list Service)}.
Context `{Resource S Deployment, FromJSON Deployment, ToJSON Deployment, ToJSON (list Deployment)}.
Context `{Resource S Network, FromJSON Network, ToJSON Network, ToJSON (list Network)}.
Context `{Resource S Volume, FromJSON Volume, ToJSON Volume, ToJSON (list Volume)}.
Context `{Resource S Secret, FromJSON Secret, ToJSON Secret, ToJSON (list Secret)}.
Context `{Resource S ConfigMap, FromJSON ConfigMap, ToJSON ConfigMap, ToJSON (list ConfigMap)}.
Context `{Resource S Bucket, FromJSON Bucket, ToJSON Bucket, ToJSON (list Bucket)}.
Context `{Resource S Alert, FromJSON Alert, ToJSON Alert, ToJSON (list Alert)}.
Context `{NodeStore S, ToJSON (list Node), ToJSON (list Model), ToJSON Object}.
Context (ListModels : S → res (list Model)).
Context (GetObject : S → string → string → res Object) (DeleteObject : S → string → string → S * option error).
Context `{URLs} (base tok : string) (now : Time) (rid salt bytes : string).
Context (quote flag_usage sprint_float : string → string) (renum : string → option string).

(** The API server of [Sdk], at [base]. *)
Definition the_server : transport S :=
  server (Deployment := Deployment) (Network := Network) (Volume := Volume) (Secret := Secret)
    (ConfigMap := ConfigMap) (Bucket := Bucket) (Alert := Alert) (Model := Model) (Object := Object)
    key msg CreateProject_ ListModels GetObject DeleteObject base rid salt bytes now.

Definition ctl (cmd : string) (rest : list string) : cli S unit :=
  dispatch the_server base tok quote flag_usage sprint_float renum cmd rest.

Lemma decode_user_body email password display admin :
  utf8 email → utf8 password → utf8 display →
  user_json msg (Marshal (JMap [("email", JStr email); ("password", JStr password);
    ("display_name", JStr display); ("admin", JBool admin)])) = Ok (mk_userReq email display password admin).
Proof.
  intros He Hp Hd. rewrite <- (string_app_nil_r (Marshal _)). apply decode_into_Marshal; [|done|reflexivity].
  apply wf_JMap. repeat constructor; cbn [fst snd]; try done; by apply all_single_utf8.
Qed.

(** One call of the command line at the server. *)
Lemma call_server m target b s out err :
  url_parses (base +:+ target) = true → tok ≠ "" →
  call the_server base tok m target b (mk_term s out err) =
    match api (Deployment := Deployment) (Network := Network) (Volume := Volume) (Secret := Secret)
      (ConfigMap := ConfigMap) (Bucket := Bucket) (Alert := Alert) (Model := Model) (Object := Object)
      key msg CreateProject_ ListModels GetObject DeleteObject now rid salt bytes s
      (deliver target (mk_HTTPReq m (base +:+ target) ("Bearer " +:+ tok)
         (match b with Some _ => "application/json" | None => "" end) (Marshal <$> b))) with
    | Ret (s', resp) => (Done (rsCode resp, rsBody resp), mk_term s' out err)
    | Panic => (Done (0%Z, ""), mk_term s out (err ++ ["ERR EOF"]))
    end.
Proof.
  intros Hu Ht. unfold call, NewRequest, authorised. rewrite Hu, bool_decide_false by done.
  unfold mbind, cli_bind, of_go, send. cbn [negb tW].
  unfold the_server. destruct b as [v|]; rewrite (server_at _ _ _ _ _ _ _ _ _ _ _ target) by done;
    cbn [set_auth set_ctype hqMethod hqURL hqAuth hqCType hqBody fmap option_fmap option_map];
    destruct (api _ _ _ _ _ _ _ _ _ _ _ _) as [[s' resp]|]; reflexivity.
Qed.

(** [user create] once its flags are parsed. *)
Lemma user_create_parsed args fl email password more s out err u :
  url_parses (base +:+ "/v1/users") = true → tok ≠ "" →
  VerifyToken key now s tok = Ok u → usAdmin u = true →
  parse_args quote user_flags args = Parsed fl (email :: password :: more) →
  utf8 email → utf8 password → utf8 (flag_string fl "display") → email ≠ "" → password ≠ "" →
  ctl "user" ("create" :: args) (mk_term s out err) =
    match Identity.CreateUser rid salt s email password (flag_string fl "display") (flag_bool fl "admin") with
    | (s', Ok u') => (Done tt, mk_term s' (out ++ ["201 " +:+ to_json u' +:+ nl]) err)
    | (s', Err e) => (Done tt, mk_term s' (out ++ ["400 " +:+ e +:+ nl]) err)
    end.
Proof.
  intros Hu Ht Hv Ha Hp He Hpw Hd Hne Hnp.
  change (ctl "user" ("create" :: args)) with (userCmd the_server base tok quote flag_usage ("create" :: args)).
  unfold userCmd. rewrite bool_decide_true by done. unfold Parse. rewrite Hp.
  unfold mbind at 1, cli_bind at 1, mret, cli_ret. cbv beta iota.
  unfold mbind, cli_bind. rewrite call_server by done.
  change (deliver "/v1/users" ?r) with (mk_Request "POST" "/v1/users" "" (hqAuth r) None (default "" (hqBody r))).
  cbn [hqAuth hqBody fmap option_fmap option_map from_option].
  unfold api, Routes. cbn [rqPath].
  change (find_route _ "/v1/users") with (Some (authRequired key now (@handleUsers _ S _ (user_json msg) _ _ rid salt))).
  cbv iota beta. rewrite (admin_passes key now _ s _ u) by (by rewrite bearer_token || done).
  unfold handleUsers. cbn [rqMethod]. rewrite bool_decide_false, bool_decide_true by done.
  unfold readJSON. cbn [rqBody]. unfold from_json, user_req, id. rewrite decode_user_body by done.
  cbn [urEmail urPassword urDisplayName urAdmin]. rewrite !bool_decide_false by done. cbn [orb].
  destruct (CreateUser _ _ _ _ _ _ _) as [s' [u'|e]]; reflexivity.
Qed.

(** What [user create] does at the server with the values of its flags. *)
Definition created_user (s : S) (email password : string) (fl : flags) : outcome unit * term S :=
  match Identity.CreateUser rid salt s email password (flag_string fl "display") (flag_bool fl "admin") with
  | (s', Ok u') => (Done tt, mk_term s' ["201 " +:+ to_json u' +:+ nl] [])
  | (s', Err e) => (Done tt, mk_term s' ["400 " +:+ e +:+ nl] [])
  end.

(** [userCmd] at the server, were it reached ([main] reaches no command, see
    [run_always_usage]), for an administrator's token, texts in UTF-8, and an
    email and password that are not empty.  With its flags, written -name=value,
    before the email and the password, in any number and order, the account is
    created with exactly the email, the password, the display name and the
    administrator bit of the command line, and the answer is printed.  With the
    flags after them, as the program's usage text has it, they have no effect:
    the account gets no display name and is not an administrator. *)
Theorem user_create_command (asg : list (string * fval)) (email password : string) (s : S) (u : User) :
  url_parses (base +:+ "/v1/users") = true → tok ≠ "" → VerifyToken key now s tok = Ok u → usAdmin u = true →
  Forall (fits user_flags) asg → utf8 (flag_string (foldl assign user_flags asg) "display") →
  classify email = Word → utf8 email → utf8 password → email ≠ "" → password ≠ "" →
  ctl "user" ("create" :: map render asg ++ [email; password]) (mk_term s [] []) =
    created_user s email password (foldl assign user_flags asg) ∧
  ctl "user" ("create" :: email :: password :: map render asg) (mk_term s [] []) =
    created_user s email password user_flags.
Proof.
  intros Hu Ht Hv Ha Hf Hd Hw He Hp Hne Hnp. split; eapply user_create_parsed; try done.
  - rewrite parse_rendered by done. by apply flags_after_word.
  - by apply flags_after_word.
  - by apply all_single_utf8.
Qed.

(** Listing the workloads the way the usage text says. *)
Lemma documented_workload_list pid s u :
  url_parses (base +:+ "/v1/workloads?project_id=") = true → tok ≠ "" → VerifyToken key now s tok = Ok u →
  ctl "workload" ["list"; "--project_id=" +:+ pid] (mk_term s [] []) =
    (Exit 1, mk_term s [] ["400 project_id required" +:+ nl]).
Proof.
  intros Hu Ht Hv.
  change (ctl "workload" ["list"; "--project_id=" +:+ pid]) with
    (workloadCmd the_server base tok quote flag_usage renum ["list"; "--project_id=" +:+ pid]).
  unfold workloadCmd, Parse. rewrite flags_after_word by done. unfold mbind at 1, cli_bind at 1, mret, cli_ret. cbv beta iota zeta.
  rewrite bool_decide_true by done. unfold list_at, mbind, cli_bind.
  change ("/v1/workloads?project_id=" +:+ flag_string workload_flags "project_id") with "/v1/workloads?project_id=".
  rewrite call_server by done.
  change (deliver "/v1/workloads?project_id=" ?r) with (mk_Request "GET" "/v1/workloads" "" (hqAuth r) None "").
  cbn [hqAuth]. unfold api, Routes. cbn [rqPath].
  change (find_route _ "/v1/workloads") with (Some (authRequired key now (handleWorkloads (S := S)))).
  cbv iota beta. rewrite (reader_passes key now _ s _ u) by (by rewrite bearer_token || done). reflexivity.
Qed.
End Server.

(** ** Pretty-printing *)

(** What [pretty] prints is the value it was given: a text that decodes is
    printed, indented and with its keys in order, as a text that decodes to the
    same value (as Go's [any] holds it: the last of repeated members, numbers as
    floats); a text that does not decode is printed as it is. *)
Theorem pretty_same_value (renum : string → option string) (b : string) :
  (∀ lit l, renum lit = Some l → is_number l) →
  (∀ v, Unmarshal b = Some v → any_ok renum v = true → Unmarshal (pretty_text renum b) = Some (any_value renum v)) ∧
  (Unmarshal b = None → pretty_text renum b = b).
Proof.
  intros Hr. unfold pretty_text. split.
  - intros v Hv Hok. rewrite Hv, Hok. apply Unmarshal_print, any_value_wf; [done|]. by eapply Unmarshal_wf.
  - by intros ->.
Qed.

(** ** Examples *)

#[local] Existing Instance xa_crypto.
#[local] Existing Instance xc_store.
#[local] Existing Instance xc_keys.
#[local] Existing Instance xc_project_store.
#[local] Existing Instance xc_nodes.
#[local] Existing Instance xc_json | 10.
#[local] Existing Instance xc_nojson | 10.
#[local] Existing Instance xc_resource | 10.
#[local] Existing Instance xc_urls.

Definition ex_tok : string := signToken "k" "usr_1" (10 ^ 20).
(** Numbers are kept as they are. *)
Definition ex_renum (lit : string) : option string := if bool_decide (is_number lit) then Some lit else None.
Definition ex_ctl (cmd : string) (rest : list string) : cli ex_cloud unit :=
  dispatch (xc_server 0) "http://h" ex_tok id id id ex_renum cmd rest.

Lemma ex_url path : api_path path → url_parses ("http://h" +:+ path) = true.
Proof.
  assert (Happ : ∀ a b, has_ctl (a +:+ b) = has_ctl a || has_ctl b).
  { intros a b. induction a as [|x a IH]; [done|]. cbn. by rewrite IH, orb_assoc. }
  intros Hp. unfold url_parses, xc_urls. rewrite Happ. apply negb_true_iff, orb_false_iff. split; [done|].
  destruct Hp as [Hp|(c & q & Hc & [Hq _] & ->)].
  - rewrite !elem_of_cons, elem_of_nil in Hp. by destruct_or! Hp; subst path.
  - rewrite !Happ, Hq, orb_false_r. unfold collections in Hc. rewrite !elem_of_cons, elem_of_nil in Hc.
    by destruct_or! Hc; subst c.
Qed.

Lemma dispatch_panics_iff_witness :
  (ex_ctl "service" ["-project_id=web"; "create"] (mk_term xc_start [] [])).1 = Crash.
Proof.
  apply (dispatch_panics_iff (xc_server 0) "http://h" ex_tok id id id ex_renum ex_url "service"
    ["-project_id=web"; "create"] (mk_term xc_start [] [])); [repeat constructor|reflexivity].
Defined.

Definition ex_args : list (string * fval) := [("admin", VBool true); ("display", VString "Bob")].
Definition ex_bob (display : string) (admin : bool) : User :=
  mk_User (mk_Base "usr_r" "" display) "bob@x" display admin "hpw2".

Lemma user_create_command_witness :
  ex_ctl "user" ["create"; "-admin=true"; "-display=Bob"; "bob@x"; "pw2"] (mk_term xc_start [] []) =
    (Done tt, mk_term (mk_ex_cloud [ex_bob "Bob" true; xc_admin] []) ["201 {}" +:+ nl] []) ∧
  ex_ctl "user" ["create"; "bob@x"; "pw2"; "-admin=true"; "-display=Bob"] (mk_term xc_start [] []) =
    (Done tt, mk_term (mk_ex_cloud [ex_bob "" false; xc_admin] []) ["201 {}" +:+ nl] []).
Proof.
  destruct (user_create_command (S := ex_cloud) (Deployment := unit) (Network := unit) (Volume := unit) (Secret := unit)
    (ConfigMap := unit) (Bucket := unit) (Alert := unit) (Model := unit) (Object := unit)
    "k" id xc_create (λ _, Ok []) (λ _ _ _, Err "not found") (λ s _ _, (s, None)) "http://h" ex_tok 0 "r" "s" "b"
    id id id ex_renum ex_args "bob@x" "pw2" xc_start xc_admin) as [Hbefore Hafter];
    [reflexivity|apply signToken_nonempty|vm_compute; reflexivity|reflexivity
    |repeat constructor; eexists; split; reflexivity|by apply all_single_utf8|reflexivity|by apply all_single_utf8
    |by apply all_single_utf8|discriminate|discriminate|].
  change (map render ex_args) with ["-admin=true"; "-display=Bob"] in Hbefore, Hafter.
  unfold ctl, the_server in Hbefore, Hafter. cbn [app] in Hbefore, Hafter.
  unfold ex_ctl, xc_server. rewrite Hbefore, Hafter. split; vm_compute; reflexivity.
Defined.

Definition ex_text : string := Marshal (JObj [("b", JNum "1"); ("a", JArr [JStr "x"; JNull]); ("b", JNum "2")]).

Lemma pretty_same_value_witness :
  Unmarshal (pretty_text ex_renum ex_text) = Some (JObj [("a", JArr [JStr "x"; JNull]); ("b", JNum "2")]).
Proof.
  assert (Hr : ∀ lit l, ex_renum lit = Some l → is_number l).
  { intros lit l. unfold ex_renum. case_bool_decide; [by intros [= <-]|done]. }
  exact (proj1 (pretty_same_value ex_renum ex_text Hr)
    (JObj [("b", JNum "1"); ("a", JArr [JStr "x"; JNull]); ("b", JNum "2")]) eq_refl eq_refl).
Defined.
