(* ===== verification/Platform.v ===== *)
(** * The commands: how the packages are put together

    Models the entry points under cmd/ (cloudctl apart): the flags of each
    program, the store it opens, what it builds on it, and what it then does.  A
    program that serves HTTP is the handler it serves; the multiplexer is
    net/http's [ServeMux], for paths that need no percent escapes: a path that is
    not clean is redirected, unless the method is CONNECT, the longest pattern
    wins, a pattern that ends in a slash stands for its subtree, and the path of
    a subtree without its slash is redirected.  internal/state is a parameter as
    everywhere ([NewStore]), and so is the server of the dashboard's files. *)

From S2P Require Import Prelude State Json Flag Raft RaftSpec Leader Controller Runtime NodeAgent Dns Lb Llm Inference Identity Api Http Sdk.

(** ** The multiplexer *)

(** [path.Clean] on a path that starts with a slash: empty elements and dots go,
    and a double dot takes the element before it along. *)
Definition clean_element (acc : list string) (x : string) : list string :=
  if bool_decide (x = "") || bool_decide (x = ".") then acc
  else if bool_decide (x = "..") then take (length acc - 1) acc
  else acc ++ [x].
Definition path_Clean (p : string) : string := "/" +:+ Join (foldl clean_element [] (Split "/" p)) "/".

(** [cleanPath] of net/http keeps a final slash. *)
Definition cleanPath (p : string) : string :=
  if bool_decide (p = "") then "/"
  else
    let p := if HasPrefix p "/" then p else "/" +:+ p in
    let np := path_Clean p in
    if HasSuffix p "/" && negb (bool_decide (np = "/")) then np +:+ "/" else np.

Example cleanPath_ex :
  cleanPath <$> ["/v1//models"; "/a/../b/"; "/./x/.."; "/../.."; "a"; "/v1/models"; "/dashboard/"; "/..."] =
  ["/v1/models"; "/b/"; "/"; "/"; "/a"; "/v1/models"; "/dashboard/"; "/..."].
Proof. vm_compute. reflexivity. Qed.

(** Why the multiplexer redirects; the two have different status codes. *)
Inductive redirect := TrailingSlash | Unclean.

Section Mux.
Context {S : Type}.
Abbreviation handler := (S → Request → go (S * Response)).

Definition subtree (pat : string) : bool := HasSuffix pat "/".
Definition pattern_matches (path pat : string) : bool :=
  if subtree pat then HasPrefix path pat else bool_decide (path = pat).

(** The longest of the patterns that match. *)
Fixpoint best (path : string) (m : list (string * handler)) : option (string * handler) :=
  match m with
  | [] => None
  | (pat, h) :: m =>
      let r := best path m in
      if pattern_matches path pat then
        match r with
        | Some (pat', _) => if (String.length pat <? String.length pat')%nat then r else Some (pat, h)
        | None => Some (pat, h)
        end
      else r
  end.

Definition serve_best (m : list (string * handler)) : handler := λ s r,
  match best (rqPath r) m with
  | Some (_, h) => h s r
  | None => Ret (s, http_Error "404 page not found" 404)
  end.

(** The redirection to a path. *)
Context (moved : redirect → string → Response).

Definition ServeMux (m : list (string * handler)) : handler := λ s r,
  let connect := bool_decide (rqMethod r = "CONNECT") in
  let path := if connect then rqPath r else cleanPath (rqPath r) in
  if negb (subtree path) && bool_decide (path ∉ m.*1) && bool_decide (path +:+ "/" ∈ m.*1)
  then Ret (s, moved TrailingSlash (cleanPath (rqPath r) +:+ "/"))
  else if negb connect && bool_decide (path ≠ rqPath r) then Ret (s, moved Unclean path)
  else serve_best m s r.

(** [http.StripPrefix]. *)
Definition StripPrefix (prefix : string) (h : handler) : handler := λ s r,
  let p := TrimPrefix (rqPath r) prefix in
  if (String.length p <? String.length (rqPath r))%nat
  then h s (mk_Request (rqMethod r) p (rqProjectID r) (rqAuthorization r) (rqCookie r) (rqBody r))
  else Ret (s, http_Error "404 page not found" 404).
End Mux.

(** ** Processes *)

(** A program ends with the status of its flag set, ends with a logged error, or
    goes on as what it built. *)
Inductive process (P : Type) :=
| Ended (status : Z)
| Fatal (e : error)
| Running (p : P).
Arguments Ended {P} status.
Arguments Fatal {P} e.
Arguments Running {P} p.

(** The election every controller takes part in. *)
Definition cloudcontroller_election (nodeID : string) : Election :=
  NewElection (Leader.mk_Config nodeID "controller" (5 * second) (1500 * millisecond)).

Section Programs.
(** [strconv.Quote], for the messages of the flag package. *)
Context (quote : string → string).
(** [state.NewStore] over the key-value store. *)
Context {S : Type} (NewStore : raft → S).
(** The clock when the store is opened, and the files of a data directory. *)
Context (now : Time) (files : string → disk).
(** The redirections of the multiplexer. *)
Context (moved : redirect → string → Response).

Definition with_flags {P} (fl : flags) (args : list string) (k : flags → process P) : process P :=
  match parse_args quote fl args with
  | Parsed fl _ => k fl
  | Helped => Ended 0
  | Failed _ => Ended 2
  end.

Definition fstr (fl : flags) (n : string) : string := match flag_get fl n with Some (VString s) => s | _ => "" end.

(** [db.Open] as every program calls it: a single node, bootstrapped. *)
Definition db_config (nodeID dir : string) : Raft.Config :=
  {| cNodeID := nodeID; cDataDir := dir; Raft.cListen := "127.0.0.1:0"; cBootstrap := true; cPeers := [] |}.
Definition with_store {P} (nodeID dir : string) (k : raft → S → process P) : process P :=
  match openRaft now (db_config nodeID dir) (files dir) with
  | Err e => Fatal e
  | Ok kv => k kv (NewStore kv)
  end.

(** The models every front-end registers. *)
Definition registry (t1 n1 t2 n2 : Z) : Registry (E := TinyEngine) :=
  let r := (Register t1 NewRegistry (mk_Model "echo" "" "" 0) (Some (NewTinyEngine n1))).1 in
  (Register t2 r (mk_Model "minicloud" "" "" 0) (Some (NewTinyEngine n2))).1.

Section Servers.
Context `{Crypto, UserStore S}.
(** The API's routes under a signing key, the inference router, and the
    dashboard's file server. *)
Abbreviation handler := (S → Request → go (S * Response)).
Context (routes : string → handler) (router dashboard : handler).
(** The random draws of the bootstrap. *)
Context (rid salt : string).

(** What is logged of a failed bootstrap. *)
Definition bootstrapped (log : string) (s : S) (email password : string) : S * list string :=
  match BootstrapAdmin rid salt s email password "Bootstrap Admin" with
  | (s, Ok _) => (s, [])
  | (s, Err e) => (s, [log +:+ e])
  end.

(** A listening server: its address, its store, its handler and its log. *)
Record listening := mk_listening { lsAddr : string; lsStore : S; lsHandler : handler; lsLog : list string }.

Definition cloudinit_flags : flags :=
  [("addr", VString ":8080"); ("db", VString "./data/state"); ("objects", VString "./data/objects");
   ("admin-email", VString "admin@minicloud.local"); ("admin-password", VString "admin")].

Definition cloudinit_mux : list (string * handler) :=
  [("/v1/models", router); ("/v1/chat/completions", router);
   ("/dashboard/", StripPrefix "/dashboard/" dashboard); ("/", routes "devkey")].

(** The election and the controller's loop run beside the server: see
    [control_loop]. *)
Definition cloudinit (args : list string) : process listening :=
  with_flags cloudinit_flags args (λ fl,
    with_store "init-1" (fstr fl "db") (λ _ s,
      let '(s, log) := bootstrapped "admin bootstrap: " s (fstr fl "admin-email") (fstr fl "admin-password") in
      Running (mk_listening (fstr fl "addr") s (ServeMux moved cloudinit_mux)
        (log ++ ["cloudinit listening on " +:+ fstr fl "addr"])))).

Definition cloudapi_flags : flags :=
  [("addr", VString ":8080"); ("db", VString "./data/state"); ("node-id", VString "api-1");
   ("admin-email", VString "admin@minicloud.local"); ("admin-password", VString "admin");
   ("hmac", VString "dev-hmac-key")].

Definition cloudapi_mux (key : string) : list (string * handler) :=
  [("/v1/", routes key); ("/v1/models", router); ("/v1/chat/completions", router); ("/", routes key)].

(** [mkdir] and [objects]: the errors of creating the two directories. *)
Definition cloudapi (mkdir objects : option error) (args : list string) : process listening :=
  with_flags cloudapi_flags args (λ fl,
    match mkdir with
    | Some e => Fatal e
    | None =>
        with_store (fstr fl "node-id") (fstr fl "db") (λ _ s,
          let '(s, log) := bootstrapped "bootstrap admin: " s (fstr fl "admin-email") (fstr fl "admin-password") in
          match objects with
          | Some e => Fatal e
          | None =>
              Running (mk_listening (fstr fl "addr") s (ServeMux moved (cloudapi_mux (fstr fl "hmac")))
                (log ++ ["cloudapi listening on " +:+ fstr fl "addr"]))
          end)
    end).
End Servers.

Definition cloudllm_flags : flags := [("addr", VString ":9000")].
(** The address and the registry behind the router. *)
Definition cloudllm (t1 n1 t2 n2 : Z) (args : list string) : process (string * Registry (E := TinyEngine)) :=
  with_flags cloudllm_flags args (λ fl, Running (fstr fl "addr", NewRouter (registry t1 n1 t2 n2))).

Definition clouddns_flags : flags :=
  [("db", VString "./data/state"); ("node-id", VString "dns-1"); ("addr", VString ":5353"); ("domain", VString "cloud.local")].
Definition clouddns (args : list string) : process (S * Dns.Server) :=
  with_flags clouddns_flags args (λ fl,
    with_store (fstr fl "node-id") (fstr fl "db") (λ _ s,
      Running (s, Dns.NewServer (Dns.mk_Config (fstr fl "addr") (fstr fl "domain") "")))).

(** [duration]: [time.ParseDuration] accepts the text of the interval.  (Of an
    interval given twice only the last is checked.) *)
Definition cloudcontroller_flags : flags :=
  [("db", VString "./data/state"); ("node-id", VString "ctrl-1"); ("tick", VString "5s")].
Definition cloudcontroller (duration : string → bool) (args : list string) : process (S * Election) :=
  with_flags cloudcontroller_flags args (λ fl,
    if negb (duration (fstr fl "tick")) then Ended 2 else
    with_store (fstr fl "node-id") (fstr fl "db") (λ _ s, Running (s, cloudcontroller_election (fstr fl "node-id")))).

(** The balancer is refreshed, but nothing listens: the program only sleeps. *)
Definition cloudlb_flags : flags :=
  [("db", VString "./data/state"); ("node-id", VString "lb-1"); ("listen", VString ":8080"); ("service", VString "")].
Definition cloudlb (args : list string) : process (S * Balancer) :=
  with_flags cloudlb_flags args (λ fl,
    with_store (fstr fl "node-id") (fstr fl "db") (λ _ s,
      Running (s, NewBalancer (Lb.mk_Config (fstr fl "service") StrategyRoundRobin)))).

(** The agent runs on the in-memory fake, with a collector that reports nothing. *)
Definition cloudnode_flags : flags :=
  [("db", VString "./data/state"); ("node-id", VString "node-1"); ("addr", VString "127.0.0.1")].
Definition cloudnode (args : list string) : process (S * Agent * Fake * StaticCollector) :=
  with_flags cloudnode_flags args (λ fl,
    with_store (fstr fl "node-id") (fstr fl "db") (λ _ s,
      Running (s, mk_Agent (fstr fl "node-id") (fstr fl "addr") false, Runtime.New, mk_StaticCollector "" "" 0 0 0 0))).

(** The scheduler is made and never called. *)
Definition cloudscheduler_flags : flags := [("db", VString "./data/state"); ("node-id", VString "sched-1")].
Definition cloudscheduler (args : list string) : process S :=
  with_flags cloudscheduler_flags args (λ fl, with_store (fstr fl "node-id") (fstr fl "db") (λ _ s, Running s)).

(** The object store is opened, but every request gets the same answer. *)
Definition cloudstorage_flags : flags :=
  [("addr", VString ":9100"); ("root", VString "./data/objects"); ("db", VString "./data/state"); ("node-id", VString "store-1")].
Definition storage_handler : S → Request → go (S * Response) := λ s _,
  Ret (s, mk_Response 200 "text/plain; charset=utf-8" ("cloudstorage ok" +:+ nl)).
Definition cloudstorage (objects : option error) (args : list string) : process (string * S * (S → Request → go (S * Response))) :=
  with_flags cloudstorage_flags args (λ fl,
    with_store (fstr fl "node-id") (fstr fl "db") (λ _ s,
      match objects with
      | Some e => Fatal e
      | None => Running (fstr fl "addr", s, ServeMux moved [("/", storage_handler)])
      end)).
End Programs.

(** ** The control plane's loop *)

(** What a controller process (cloudcontroller, or cloudinit beside its server)
    does: an election in one goroutine, and a ticker whose first event calls
    [Controller.Run], which has a ticker of its own and does not return before
    the context is done.  The store is the key-value store of the election too. *)
Inductive control_event :=
| CtlElect (now t : Time)   (* a tick of the election *)
| CtlOuter                  (* a tick of the program's ticker *)
| CtlInner                  (* a tick of the ticker of [Controller.Run] *)
| CtlDone.                  (* the context is done *)

#[export] Instance control_event_eq_dec : EqDecision control_event.
Proof. solve_decision. Defined.

Section Control.
Context {S N : Type} `{NodeStore S, PlacementStore S, WorkloadStore S, ProjectStore S, Notifier N, KV S, Codec LeaderRecord}.

Fixpoint control_loop (inside : bool) (evs : list control_event) (e : Election) (x : world S N) :
    go (Election * world S N) :=
  match evs with
  | [] | CtlDone :: _ => Ret (e, x)
  | CtlElect now t :: evs =>
      go_bind (tick now t e (w_store x)) (λ '(e, s), control_loop inside evs e (mk_world s (w_notifier x)))
  | CtlOuter :: evs => control_loop true evs e x
  | CtlInner :: evs =>
      if inside then go_bind (Controller.run_tick (Some e) x) (λ x, control_loop inside evs e x)
      else control_loop inside evs e x
  end.

(** The goroutines cloudinit starts before its server. *)
Definition cloudinit_control (evs : list control_event) (x : world S N) : go (Election * world S N) :=
  control_loop false evs (cloudcontroller_election "init-1") x.

(** The program's own ticker only starts the loop: its later ticks, and with
    them its interval, change nothing. *)
Lemma outer_ticks_ignored evs e x :
  control_loop true evs e x = control_loop true (filter (λ ev, ev ≠ CtlOuter) evs) e x.
Proof.
  revert e x. induction evs as [|ev evs IH]; intros e x; [done|].
  destruct ev as [now t| | |].
  - rewrite filter_cons_True by done. cbn. destruct (tick now t e (w_store x)) as [[e' s]|]; [apply IH|done].
  - rewrite filter_cons_False by auto. apply IH.
  - rewrite filter_cons_True by done. cbn. destruct (Controller.run_tick (Some e) x) as [x'|]; [apply IH|done].
  - by rewrite filter_cons_True.
Qed.
End Control.

(** ** Which handler serves a path *)

Section Routing.
Context {S : Type} (moved : redirect → string → Response).
Context (routes : string → S → Request → go (S * Response)) (router dashboard : S → Request → go (S * Response)).

(** The request with the path below a prefix. *)
Definition below (p : string) (r : Request) : Request :=
  mk_Request (rqMethod r) p (rqProjectID r) (rqAuthorization r) (rqCookie r) (rqBody r).

Lemma HasSuffix_app s t : HasSuffix (s +:+ t) t = true.
Proof. induction s as [|a s IH]; cbn; [destruct t; cbn; by rewrite bool_decide_true|]. by rewrite IH, orb_true_r. Qed.

Lemma string_app_inj_r (a b t : string) : a +:+ t = b +:+ t → a = b.
Proof.
  revert b. induction a as [|x a IH]; intros [|y b] He; [done|..].
  - cbn in He. apply (f_equal String.length) in He. cbn in He. rewrite string_length_app in He. lia.
  - cbn in He. apply (f_equal String.length) in He. cbn in He. rewrite string_length_app in He. lia.
  - cbn in He. injection He as -> He. f_equal. by apply IH.
Qed.

Lemma StripPrefix_below (h : S → Request → go (S * Response)) s r prefix p :
  prefix ≠ "" → rqPath r = prefix +:+ p → StripPrefix prefix h s r = h s (below p r).
Proof.
  intros Hne Hp. unfold StripPrefix. rewrite Hp, TrimPrefix_app, string_length_app. cbv zeta.
  destruct (Nat.ltb_spec (String.length p) (String.length prefix + String.length p)); [done|].
  destruct prefix; [done|cbn in *; lia].
Qed.

(** Below "/" every path matches. *)
Lemma matches_root path : HasPrefix path "/" = true → pattern_matches path "/" = true.
Proof. done. Qed.

Lemma clean_path m (s : S) r : cleanPath (rqPath r) = rqPath r →
  ServeMux moved m s r =
    if negb (subtree (rqPath r)) && bool_decide (rqPath r ∉ m.*1) && bool_decide (rqPath r +:+ "/" ∈ m.*1)
    then Ret (s, moved TrailingSlash (rqPath r +:+ "/")) else serve_best m s r.
Proof.
  intros Hc. unfold ServeMux. cbv zeta. rewrite Hc. rewrite (bool_decide_false (_ ≠ _));
    [by destruct (bool_decide (rqMethod r = "CONNECT"))|].
  by destruct (bool_decide (rqMethod r = "CONNECT")); intros [].
Qed.

Lemma not_redirected m (s : S) r : cleanPath (rqPath r) = rqPath r →
  rqPath r +:+ "/" ∉ m.*1 → ServeMux moved m s r = serve_best m s r.
Proof. intros Hc Hn. rewrite clean_path by done. by rewrite (bool_decide_false (_ ∈ _)), andb_false_r. Qed.

Lemma served_exactly m (s : S) r : cleanPath (rqPath r) = rqPath r →
  rqPath r ∈ m.*1 → ServeMux moved m s r = serve_best m s r.
Proof. intros Hc Hn. rewrite clean_path by done. by rewrite (bool_decide_false (_ ∉ _)), andb_false_r by auto. Qed.

Lemma cleanPath_rooted p : HasPrefix (cleanPath p) "/" = true.
Proof.
  unfold cleanPath. case_bool_decide; [done|]. cbv zeta. unfold path_Clean.
  destruct (_ && _); [rewrite <- string_app_assoc|]; apply HasPrefix_app.
Qed.

(** What ends in a slash is one of the subtree patterns. *)
Lemma no_slash x t : HasSuffix t "/" = false → x +:+ "/" ≠ t.
Proof. intros Ht He. by rewrite <- He, HasSuffix_app in Ht. Qed.

Lemma redirected_init x : x +:+ "/" ∈ (cloudinit_mux routes router dashboard).*1 → x = "/dashboard" ∨ x = "".
Proof.
  cbn. intros [He|[He|[He|[He|[]%not_elem_of_nil]%elem_of_cons]%elem_of_cons]%elem_of_cons]%elem_of_cons.
  - by apply no_slash in He.
  - by apply no_slash in He.
  - left. by apply (string_app_inj_r x "/dashboard" "/").
  - right. by apply (string_app_inj_r x "" "/").
Qed.

Lemma redirected_api key x : x +:+ "/" ∈ (cloudapi_mux routes router key).*1 → x = "/v1" ∨ x = "".
Proof.
  cbn. intros [He|[He|[He|[He|[]%not_elem_of_nil]%elem_of_cons]%elem_of_cons]%elem_of_cons]%elem_of_cons.
  - left. by apply (string_app_inj_r x "/v1" "/").
  - by apply no_slash in He.
  - by apply no_slash in He.
  - right. by apply (string_app_inj_r x "" "/").
Qed.

Lemma best_init_api path :
  HasPrefix path "/" = true → path ≠ "/v1/models" → path ≠ "/v1/chat/completions" → HasPrefix path "/dashboard/" = false →
  best path (cloudinit_mux routes router dashboard) = Some ("/", routes "devkey").
Proof.
  intros Hr Hm Hc Hd. unfold cloudinit_mux. cbn [best]. unfold pattern_matches.
  change (subtree "/") with true. change (subtree "/v1/models") with false.
  change (subtree "/v1/chat/completions") with false. change (subtree "/dashboard/") with true. cbv iota zeta.
  by rewrite Hr, Hd, !bool_decide_false.
Qed.

Lemma best_api key path :
  HasPrefix path "/" = true → path ≠ "/v1/models" → path ≠ "/v1/chat/completions" →
  ∃ pat, best path (cloudapi_mux routes router key) = Some (pat, routes key).
Proof.
  intros Hr Hm Hc. unfold cloudapi_mux. cbn [best]. unfold pattern_matches.
  change (subtree "/") with true. change (subtree "/v1/models") with false.
  change (subtree "/v1/chat/completions") with false. change (subtree "/v1/") with true. cbv iota zeta.
  rewrite Hr, !bool_decide_false by done. destruct (HasPrefix path "/v1/"); by eexists.
Qed.

(** C36: Which handler serves which path, in cloudinit and in cloudapi, for every
    request whose path needs no percent escapes.  A path that is not clean (a
    doubled slash, a dot element, no slash in front) reaches no handler unless
    the method is CONNECT: it is redirected to its clean form, or, when the clean
    form is /dashboard in cloudinit or /v1 in cloudapi, to that with a slash.  Of
    the clean paths, /v1/models and /v1/chat/completions go to the inference
    router, never to the API and its authentication; in cloudinit the paths below
    /dashboard/ go to the file server with that prefix removed, and /dashboard is
    redirected; every other path is the API's, under the signing key of the
    program, except that cloudapi redirects /v1.  So /v1/completions, which
    docs/api.md lists as an inference path, goes to the API. *)
Theorem front_end_routing (s : S) (r : Request) (key : string) :
  let init := ServeMux moved (cloudinit_mux routes router dashboard) in
  let api := ServeMux moved (cloudapi_mux routes router key) in
  (rqMethod r ≠ "CONNECT" → cleanPath (rqPath r) ≠ rqPath r →
     init s r = Ret (s, if bool_decide (cleanPath (rqPath r) = "/dashboard") then moved TrailingSlash "/dashboard/"
                        else moved Unclean (cleanPath (rqPath r))) ∧
     api s r = Ret (s, if bool_decide (cleanPath (rqPath r) = "/v1") then moved TrailingSlash "/v1/"
                       else moved Unclean (cleanPath (rqPath r)))) ∧
  (cleanPath (rqPath r) = rqPath r →
    (rqPath r = "/v1/models" ∨ rqPath r = "/v1/chat/completions" → init s r = router s r ∧ api s r = router s r) ∧
    (∀ p, rqPath r = "/dashboard/" +:+ p → init s r = dashboard s (below p r)) ∧
    (rqPath r = "/dashboard" → init s r = Ret (s, moved TrailingSlash "/dashboard/")) ∧
    (rqPath r = "/v1" → api s r = Ret (s, moved TrailingSlash "/v1/")) ∧
    (rqPath r ∉ ["/v1/models"; "/v1/chat/completions"] →
     (HasPrefix (rqPath r) "/dashboard/" = false → rqPath r ≠ "/dashboard" → init s r = routes "devkey" s r) ∧
     (rqPath r ≠ "/v1" → api s r = routes key s r))).
Proof.
  intros init api. subst init api. split.
  { intros Hm Hu. pose proof (cleanPath_rooted (rqPath r)) as Hroot. unfold ServeMux. cbv zeta.
    rewrite (bool_decide_false (_ = "CONNECT")), (bool_decide_true (cleanPath _ ≠ _)) by done. cbn [negb andb].
    set (p := cleanPath (rqPath r)) in *. assert (p ≠ "") by (intros E; by rewrite E in Hroot). split.
    - destruct (bool_decide_reflect (p = "/dashboard")) as [-> |Hd]; [done|].
      rewrite (bool_decide_false (_ ∈ _)), andb_false_r by (intros [|]%redirected_init; done). done.
    - destruct (bool_decide_reflect (p = "/v1")) as [-> |Hd]; [done|].
      rewrite (bool_decide_false (_ ∈ _)), andb_false_r by (intros [|]%redirected_api; done). done. }
  intros Hclean. pose proof (cleanPath_rooted (rqPath r)) as Hroot. rewrite Hclean in Hroot. split_and!.
  - intros Hp. split; rewrite served_exactly by (done || (destruct Hp as [-> | ->]; cbn; set_solver));
      unfold serve_best; by destruct Hp as [-> | ->].
  - intros p Hp. rewrite <- (StripPrefix_below dashboard s r "/dashboard/" p) by done.
    rewrite not_redirected; [|done|intros [E|E]%redirected_init; rewrite Hp in E; by destruct p].
    unfold serve_best. rewrite Hp. cbn [cloudinit_mux best]. unfold pattern_matches.
    change (subtree "/") with true. change (subtree "/v1/models") with false.
    change (subtree "/v1/chat/completions") with false. change (subtree "/dashboard/") with true. cbv iota zeta.
    rewrite HasPrefix_app, !bool_decide_false by done. by destruct (HasPrefix _ "/").
  - intros Hp. rewrite clean_path, Hp by done. reflexivity.
  - intros Hp. rewrite clean_path, Hp by done. reflexivity.
  - intros Hno. assert (rqPath r ≠ "") by (intros E; by rewrite E in Hroot).
    assert (rqPath r ≠ "/v1/models" ∧ rqPath r ≠ "/v1/chat/completions") as [Hm Hc] by set_solver. split.
    + intros Hd Hne. rewrite not_redirected by (done || (intros [|]%redirected_init; done)).
      unfold serve_best. by rewrite best_init_api.
    + intros Hne. rewrite not_redirected by (done || (intros [|]%redirected_api; done)).
      unfold serve_best. by destruct (best_api key (rqPath r)) as [pat ->].
Qed.

End Routing.

(** ** From an empty data directory to the first project *)

Section Bootstrap.
Context `{Crypto, !CryptoLaws} {S : Type} `{UserStore S, APIKeyStore S, !UserLaws S}.
Context (msg : string → error).
Context `{ToJSON User, ToJSON (list User), ToJSON (list APIKey)}.
Context `{ToJSON Project, ToJSON (list Project), ProjectStore S}.
Context (CreateProject_ : S → Project → S * option error).
Context {Deployment Network Volume Secret ConfigMap Bucket Alert Model Object : Type}.
Context `{Resource S Workload, FromJSON Workload, ToJSON Workload, ToJSON (list Workload)}.
Context `{Resource S Service, FromJSON Service, ToJSON Service, ToJSON (list Service)}.
Context `{Resource S Deployment, FromJSON Deployment, ToJSON Deployment, ToJSON (list Deployment)}.
Context `{Resource S Network, FromJSON Network, ToJSON Network, ToJSON (list Network)}.
Context `{Resource S Volume, FromJSON Volume, ToJSON Volume, ToJSON (list Volume)}.
Context `{Resource S Secret, FromJSON Secret, ToJSON Secret, ToJSON (list Secret)}.
Context `{Resource S ConfigMap, FromJSON ConfigMap, ToJSON ConfigMap, ToJSON (list ConfigMap)}.
Context `{Resource S Bucket, FromJSON Bucket, ToJSON Bucket, ToJSON (list Bucket)}.
Context `{Resource S Alert, FromJSON Alert, ToJSON Alert, ToJSON (list Alert)}.
Context `{NodeStore S, ToJSON (list Node), ToJSON (list Model), ToJSON Object}.
Context (ListModels : S → res (list Model)).
Context (GetObject : S → string → string → res Object) (DeleteObject : S → string → string → S * option error).
Context `{URLs} (base : string).
(** The program: its clock, its disk, its random draws. *)
Context (quote : string → string) (NewStore : raft → S) (files : string → disk) (moved : redirect → string → Response).
Context (router dashboard : S → Request → go (S * Response)) (rid salt : string) (boot : Time).

(** The API's handler at a time, under a key. *)
Definition api_at (now : Time) (key : string) : S → Request → go (S * Response) :=
  api (Deployment := Deployment) (Network := Network) (Volume := Volume) (Secret := Secret)
    (ConfigMap := ConfigMap) (Bucket := Bucket) (Alert := Alert) (Model := Model) (Object := Object)
    key msg CreateProject_ ListModels GetObject DeleteObject now rid salt rid.

(** A whole cloudinit serving at a time. *)
Definition cloudinit_at (now : Time) (args : list string) : process listening :=
  cloudinit quote NewStore boot files moved (api_at now) router dashboard rid salt args.

Definition api_server (now : Time) : transport S :=
  server (Deployment := Deployment) (Network := Network) (Volume := Volume) (Secret := Secret)
    (ConfigMap := ConfigMap) (Bucket := Bucket) (Alert := Alert) (Model := Model) (Object := Object)
    "devkey" msg CreateProject_ ListModels GetObject DeleteObject base rid salt rid now.

(** On the API's paths the program is the API server. *)
Lemma same_as_server now target s r :
  hqURL r = base +:+ target → rqPath (deliver target r) = "/v1/login" ∨ rqPath (deliver target r) = "/v1/projects" →
  serve_at base (ServeMux moved (cloudinit_mux (api_at now) router dashboard)) s r = api_server now s r.
Proof.
  intros Hu Hp. unfold api_server. rewrite (server_at _ _ _ _ _ _ _ _ _ _ _ target) by done.
  unfold serve_at. rewrite Hu, HasPrefix_app, string_drop_app.
  rewrite not_redirected;
    [|by destruct Hp as [-> | ->]|intros [E|E]%redirected_init; rewrite E in Hp; by destruct Hp].
  unfold serve_best. rewrite best_init_api; [done|..]; by destruct Hp as [-> | ->].
Qed.

Lemma Login_ext {W} (Do1 Do2 : transport W) m w c email password :
  (∀ r, hqURL r = BaseURL c +:+ "/v1/login" → Do1 w r = Do2 w r) →
  Login Do1 m w c email password = Login Do2 m w c email password.
Proof.
  intros Hd. unfold Login, NewRequest. destruct (url_parses _); [|done]. cbn [go_bind]. by rewrite Hd.
Qed.

Lemma CreateProject_ext {W} (Do1 Do2 : transport W) w c id desc :
  (∀ r, hqURL r = BaseURL c +:+ "/v1/projects" → Do1 w r = Do2 w r) →
  CreateProject Do1 w c id desc = CreateProject Do2 w c id desc.
Proof.
  intros Hd. unfold CreateProject, do_, NewRequest. destruct (url_parses _); [|done]. cbn [go_bind].
  by destruct (negb _); rewrite Hd.
Qed.

(** The program once it has started: what it serves at a time, from a store,
    after what the bootstrap logged. *)
Definition started (now : Time) (fl : flags) (s : S) (log : list string) : process listening :=
  Running (mk_listening (fstr fl "addr") s (ServeMux moved (cloudinit_mux (api_at now) router dashboard))
    (log ++ ["cloudinit listening on " +:+ fstr fl "addr"])).

(** A client of the program as it serves at a time. *)
Definition client_of (now : Time) : transport S :=
  serve_at base (ServeMux moved (cloudinit_mux (api_at now) router dashboard)).

Lemma cloudinit_starts now args fl rest kv :
  parse_args quote cloudinit_flags args = Parsed fl rest →
  openRaft boot (db_config "init-1" (fstr fl "db")) (files (fstr fl "db")) = Ok kv →
  cloudinit_at now args =
    let '(s, log) := bootstrapped rid salt "admin bootstrap: " (NewStore kv) (fstr fl "admin-email") (fstr fl "admin-password") in
    started now fl s log.
Proof.
  intros Hargs Hopen. unfold cloudinit_at, cloudinit, with_flags, with_store. by rewrite Hargs, Hopen.
Qed.

Lemma client_login now s email password :
  url_parses (base +:+ "/v1/login") = true → utf8 email → utf8 password →
  Login (client_of now) msg s (New base) email password = Login (api_server now) msg s (New base) email password.
Proof.
  intros Hul He Hp. apply Login_ext. intros r Hr. apply (same_as_server now "/v1/login"); [done|by left].
Qed.

Lemma client_create_project now s c id desc :
  BaseURL c = base → CreateProject (client_of now) s c id desc = CreateProject (api_server now) s c id desc.
Proof.
  intros Hb. apply CreateProject_ext. intros r Hr. rewrite Hb in Hr.
  apply (same_as_server now "/v1/projects"); [done|by right].
Qed.

(** C35: From the first start of cloudinit to the first project, on arguments
    that parse and a data directory that opens.  When the store knows the
    configured email, whoever that user is, cloudinit serves that store as it
    is.  Otherwise it creates the administrator; when the password cannot be
    hashed (bcrypt refuses one of more than 72 bytes) or the store refuses the
    user, cloudinit only logs it and serves all the same: after a refused hash
    the store is as before and logging in with the configured email and password
    is refused.  When the user is created, nothing is logged, and logging in
    with that email and password gives a token; with it, until it expires 24
    hours later, a project with an ID is asked of the store as given: no error
    when the store accepts it, status 409 with its message when it refuses.  All
    this for a store whose [CreateUser] makes a new user found by email and by
    ID, texts in UTF-8, a server address under which the two URLs parse,
    times whose seconds fit in 64 bits, and nothing else written to the store
    between the two requests (the election and the controller run beside). *)
Theorem bootstrap_to_project (args : list string) (fl : flags) (rest : list string) (kv : raft) (now : Time) :
  let email := fstr fl "admin-email" in
  let password := fstr fl "admin-password" in
  parse_args quote cloudinit_flags args = Parsed fl rest →
  openRaft boot (db_config "init-1" (fstr fl "db")) (files (fstr fl "db")) = Ok kv →
  url_parses (base +:+ "/v1/login") = true → url_parses (base +:+ "/v1/projects") = true →
  utf8 rid → utf8 email → utf8 password → in_i64 (Unix (time_Add now (24 * hour))) →
  (∀ u, FindUserByEmail (NewStore kv) email = Ok u → cloudinit_at now args = started now fl (NewStore kv) []) ∧
  (∀ e, FindUserByEmail (NewStore kv) email = Err e →
    (∀ e', bcrypt_generate salt password = Err e' →
      cloudinit_at now args = started now fl (NewStore kv) ["admin bootstrap: " +:+ e'] ∧
      Login (client_of now) msg (NewStore kv) (New base) email password =
        Ret (NewStore kv, New base, Err ("login: " +:+ ErrInvalidCredentials +:+ nl))) ∧
    (∀ hash s1 err, bcrypt_generate salt password = Ok hash →
      CreateUser_ (NewStore kv) (new_user ("usr_" +:+ rid) email "Bootstrap Admin" hash true) = (s1, err) →
      cloudinit_at now args =
        started now fl s1 (match err with Some e' => ["admin bootstrap: " +:+ e'] | None => [] end) ∧
      (err = None → ∃ tok,
        Login (client_of now) msg s1 (New base) email password = Ret (s1, mk_Client base tok, Ok tok) ∧
        ∀ now' id desc s2 perr, (now ≤ now' ≤ time_Add now (24 * hour))%Z → utf8 id → utf8 desc → id ≠ "" →
          CreateProject_ s1 (mk_Project (mk_Base id "" id) desc 0 0 0) = (s2, perr) →
          CreateProject (client_of now') s1 (mk_Client base tok) id desc = Ret (s2, project_answer perr)))).
Proof.
  intros email password Hargs Hopen Hul Hup Hrid He Hpw Hin.
  pose proof (cloudinit_starts now args fl rest kv Hargs Hopen) as ->.
  unfold bootstrapped, BootstrapAdmin. fold email password. split.
  - by intros u ->.
  - intros e Hfresh. rewrite Hfresh. split.
    + intros e' ->. split; [done|]. rewrite client_login by done. unfold api_server.
      rewrite sdk_login by done. unfold Identity.Login. by rewrite Hfresh.
    + intros hash s1 err Hhash Hcreate. rewrite Hhash. cbv zeta. rewrite Hcreate. split; [by destruct err|].
      intros ->. destruct (create_find_user _ _ (new_user ("usr_" +:+ rid) email "Bootstrap Admin" hash true) e Hfresh Hcreate) as [Hfind Hget].
      exists (signToken "devkey" ("usr_" +:+ rid) (time_Add now (24 * hour))). split.
      * rewrite client_login by done. unfold api_server. rewrite sdk_login by done. unfold Identity.Login.
        cbn [new_user usEmail] in Hfind. rewrite Hfind. unfold VerifyPassword.
        cbn [new_user usPasswordBcrypt].
        rewrite bool_decide_false, (bcrypt_compare_ok _ _ _ Hhash) by by eapply bcrypt_hash_nonempty.
        rewrite decode_token_body; [done| |done]. apply signToken_utf8.
      * intros now' id desc s2 perr Hnow Hid Hdesc Hne Hproj. rewrite client_create_project by done.
        unfold api_server.
        eapply sdk_create_project with (u := new_user ("usr_" +:+ rid) email "Bootstrap Admin" hash true); try done.
        cbn [Token].
        change (usID (new_user ?i _ _ _ _)) with i in Hget.
        rewrite VerifyToken_later; [by rewrite Hget| |done|done].
        apply utf8_app; [by apply all_single_utf8|done].
Qed.
End Bootstrap.

(** ** Examples *)

#[local] Existing Instance xa_crypto.
#[local] Existing Instance xc_crypto_laws.
#[local] Existing Instance xc_store.
#[local] Existing Instance xc_keys.
#[local] Existing Instance xc_project_store.
#[local] Existing Instance xc_nodes.
#[local] Existing Instance xc_json | 10.
#[local] Existing Instance xc_nojson | 10.
#[local] Existing Instance xc_resource | 10.
#[local] Existing Instance xc_urls.

#[local] Instance xc_user_laws : UserLaws ex_cloud.
Proof. split. intros s s' u e _ [= <-]. cbn. by rewrite !bool_decide_true. Qed.

Definition no_files : disk := mk_disk [] false SnapAbsent.
Definition ex_args : list string := ["-admin-password"; "secret"].
Definition ex_flags : flags := flag_set cloudinit_flags "admin-password" (VString "secret").
Definition ex_root : User := new_user "usr_r" "admin@minicloud.local" "Bootstrap Admin" "hsecret" true.
Definition ex_served : ex_cloud := mk_ex_cloud [ex_root] [].
Definition ex_silent : ex_cloud → Request → go (ex_cloud * Response) := λ s _, Ret (s, mk_Response 200 "" "").

Definition ex_cloudinit (now : Time) : process listening :=
  cloudinit_at (S := ex_cloud) (Deployment := unit) (Network := unit) (Volume := unit) (Secret := unit)
    (ConfigMap := unit) (Bucket := unit) (Alert := unit) (Model := unit) (Object := unit)
    id xc_create (λ _, Ok []) (λ _ _ _, Err "not found") (λ s _ _, (s, None)) id (λ _, mk_ex_cloud [] [])
    (λ _, no_files) (λ _ p, mk_Response 301 "" p) ex_silent ex_silent "r" "s" 0 now ex_args.
Definition ex_client_of (now : Time) : transport ex_cloud :=
  client_of (S := ex_cloud) (Deployment := unit) (Network := unit) (Volume := unit) (Secret := unit)
    (ConfigMap := unit) (Bucket := unit) (Alert := unit) (Model := unit) (Object := unit)
    id xc_create (λ _, Ok []) (λ _ _ _, Err "not found") (λ s _ _, (s, None)) "http://h"
    (λ _ p, mk_Response 301 "" p) ex_silent ex_silent "r" "s" now.

Lemma bootstrap_to_project_witness :
  (∃ ls, ex_cloudinit 0 = Running ls ∧ lsStore ls = ex_served ∧ lsLog ls = ["cloudinit listening on :8080"]) ∧
  ∃ tok,
    Login (ex_client_of 0) id ex_served (New "http://h") "admin@minicloud.local" "secret" =
      Ret (ex_served, mk_Client "http://h" tok, Ok tok) ∧
    CreateProject (ex_client_of second) ex_served (mk_Client "http://h" tok) "web" "the site" =
      Ret (mk_ex_cloud [ex_root] [mk_Project (mk_Base "web" "" "web") "the site" 0 0 0], None).
Proof.
  destruct (openRaft 0 (db_config "init-1" "./data/state") no_files) as [kv|e] eqn:Hopen; [|by vm_compute in Hopen].
  destruct (bootstrap_to_project (S := ex_cloud) (Deployment := unit) (Network := unit) (Volume := unit) (Secret := unit)
    (ConfigMap := unit) (Bucket := unit) (Alert := unit) (Model := unit) (Object := unit)
    id xc_create (λ _, Ok []) (λ _ _ _, Err "not found") (λ s _ _, (s, None)) "http://h" id (λ _, mk_ex_cloud [] [])
    (λ _, no_files) (λ _ p, mk_Response 301 "" p) ex_silent ex_silent "r" "s" 0
    ex_args ex_flags [] kv 0 eq_refl Hopen eq_refl eq_refl) as [_ Hnew].
  - by apply all_single_utf8.
  - by apply all_single_utf8.
  - by apply all_single_utf8.
  - unfold in_i64. vm_compute. split; congruence.
  - destruct (Hnew not_found eq_refl) as [_ Hok]. destruct (Hok "hsecret" ex_served None eq_refl eq_refl) as [Hrun Hcl].
    split; [eexists; split_and!; [exact Hrun|reflexivity|reflexivity]|].
    destruct (Hcl eq_refl) as (tok & Hl & Hc). exists tok. split; [exact Hl|].
    refine (Hc second "web" "the site" _ None _ _ _ _ eq_refl);
      [vm_compute; split; congruence|by apply all_single_utf8|by apply all_single_utf8|discriminate].
Defined.

(** The programs do not share a store: each opens one of its own from the files
    of its data directory, and a write of one is not seen by another that runs,
    even in the same directory. *)
Lemma separate_stores :
  match openRaft 0 (db_config "api-1" "./data/state") no_files, openRaft 0 (db_config "ctrl-1" "./data/state") no_files with
  | Ok api, Ok ctrl =>
      match Put (good_env 0) api "/projects/web" "p" with
      | Ret (api, Ok _) => is_ok (Raft.Get api "/projects/web") = true ∧ Raft.Get ctrl "/projects/web" = Err Raft.ErrNotFound
      | _ => False
      end
  | _, _ => False
  end.
Proof. vm_compute. split; reflexivity. Qed.

(** The models are listed to a request without a token, although the API guards
    the same path. *)
Lemma models_without_token {S} (moved : redirect → string → Response) (routes : string → S → Request → go (S * Response)) router dashboard s r :
  rqPath r = "/v1/models" → ServeMux moved (cloudinit_mux routes router dashboard) s r = router s r.
Proof. intros Hp. rewrite served_exactly by (rewrite Hp; done || (cbn; set_solver)). unfold serve_best. by rewrite Hp. Qed.

(** The registry of every front-end. *)
Lemma registry_names t1 n1 t2 n2 : Names (registry t1 n1 t2 n2) = ["echo"; "minicloud"].
Proof. vm_compute. reflexivity. Qed.

(** cloudstorage answers every request alike: no object is ever served. *)
Lemma storage_constant {S} (moved : redirect → string → Response) (s : S) r :
  cleanPath (rqPath r) = rqPath r →
  ServeMux moved [("/", storage_handler)] s r = Ret (s, mk_Response 200 "text/plain; charset=utf-8" ("cloudstorage ok" +:+ nl)).
Proof.
  intros Hc. pose proof (cleanPath_rooted (rqPath r)) as Hp. rewrite Hc in Hp. rewrite not_redirected; [|done|].
  - unfold serve_best. cbn [best]. unfold pattern_matches. change (subtree "/") with true. cbv iota. by rewrite Hp.
  - cbn. intros [He|[]%not_elem_of_nil]%elem_of_cons. apply (string_app_inj_r _ "" "/") in He. by rewrite He in Hp.
Qed.
